(* ===== verification/_CoqProject ===== *)
-Q . S2P
Prelude.v
Checksum.v
BtldrProto.v
Bootloader.v
BootloaderInv.v
BootloaderProps.v
BootloaderStart.v
BootloaderBus.v
BootloaderRegs.v
Ioutil.v
IoutilSpec.v
BtldrHost.v
Endian.v
Ring.v
Fifo2.v
FifoLib.v
AudioFifo.v
Mqueue.v
Streambuf.v
StreambufSpec.v
StreambufRefines.v
AudioSync.v
DecodeOutput.v
DecodeOutputFade.v
DecodeOutputProps.v
DecodeOutputStart.v
DecodeOutputGain.v
Playback.v
PlaybackProps.v
PlaybackThrough.v
DecodePcm.v
DecodePcmProps.v
PcmToDevice.v
AudioControl.v
AudioOps.v
AudioCommands.v
AudioInline.v
AudioSystem.v
AudioThread.v
AudioModules.v
AudioPlayer.v
PlayTrack.v
Knob.v
KnobProps.v
Controller.v
ControllerProps.v
ControllerReport.v
Led.v
LedSort.v
LedRows.v
LedPlay.v
LedProps.v
Standalone.v
Net.v
NetProps.v
NetPort.v
StreamCh.v
StreamChProps.v
StreamChThrough.v
PlayerLocal.v
Playnet.v
PlaynetProps.v
PlaynetTrack.v
PlaynetVolume.v
