(* ===== verification/Prelude.v ===== *)
(** * A verification of the Beep device software

    Beep is a network music player: a Linux board (MIPS) that streams and
    decodes audio, and an STM8L microcontroller (the I/O processor, "iomcu")
    with a knob and a ring of 24 LEDs, joined by I2C.  This development models
    the C code under src/device/src that carries the logic of the device and
    proves what makes it correct.  Paths below are relative to that directory.

    ** The parts and their files

    Flashing the I/O processor (iomcu/bootloader, iomcu/common, iomcu/ioutil):
    - Checksum: iomcu_checksum.c, crc8 and crc16 as polynomial arithmetic.
    - BtldrProto: the registers, structs and memory layout shared by both ends.
    - Bootloader: main.c, commands.c, i2c.c, flash.c of the bootloader; the
      record [btldr] holds its globals and the byte memory, [main_step] is one
      poll of the I2C peripheral, [Bootloader.main] a whole run.
    - BootloaderInv, BootloaderProps, BootloaderStart: invariants and the
      guarantees for every sequence of polls; BootloaderBus and BootloaderRegs:
      the byte-level slave refines register-level operations.
    - Ioutil: ioutil.c and i2c.c of the host utility in a state monad over the
      operating-system interface [Os]; IoutilSpec proves its commands against
      an interface, BtldrHost connects that interface to the bootloader model
      and gives the end-to-end theorems.

    The audio path of the player (lib/audio, lib/fifo):
    - Endian, Ring: integers as bytes, circular buffers, the abstract queue.
    - Fifo2 (fifo2.c), FifoLib (lib/fifo/fifo.c), AudioFifo (fifo.c): the byte
      queues; the first two refine the abstract queue of stale and fresh bytes.
    - Mqueue (mqueue.c): messages to the decoder thread on top of AudioFifo.
    - Streambuf (streambuf.c): data and inline commands on top of Fifo2;
      StreambufSpec and StreambufRefines: the abstract stream and the
      refinement.
    - AudioSync: the hand-over of a playing stream in audio.c on top of
      Streambuf.
    - DecodeOutput: decode/decode_output.c with fixed_math.h and the transition
      interval of decode_priv.h; the record [output] holds the ring of decoded
      samples, the track, the fade and the volume.  DecodeOutputFade: a fade
      copied in steps is a fade frame by frame; DecodeOutputProps and
      DecodeOutputStart: the loop and the first buffer of a track;
      DecodeOutputGain: track gain.
    - Playback: playback_callback of decode/decode_i2s_backend.c and the start
      point of decode/audio_helper.c; PlaybackProps, PlaybackThrough: what is
      written is what is played.
    - DecodePcm, DecodePcmProps, PcmToDevice: decode/decode_pcm.c, from bytes of
      the stream to samples of the device.
    - AudioControl: operation codes, handlers, clients and the steps of the
      decode thread of audio.c; the record [control] joins message queue,
      stream and output.  AudioOps, AudioCommands, AudioInline: codes, commands
      through the queue and commands through the stream.  AudioSystem: the
      invariant of the shared state over all steps.
    - AudioThread: whole passes of audio_decode_thread_execute.  AudioModules:
      what the thread expects of a decoder, a type class, with the PCM decoder
      as its instance.  AudioPlayer: clients, thread and device refine an
      abstract player.  PlayTrack: from a client's call to sound.

    The network side of the player (lib/beep, playnet):
    - Net (net.c with the vectors of beeplib.c): connections with their buffers,
      [conn_event] what one report of poll does, [port_step] one pass of the
      port's thread.  NetProps: the type class [Messages] of callbacks that take
      messages from the received bytes, and that such a callback gets every
      message however the bytes are cut; NetPort: the port is a list.
    - StreamCh (beep_stream_ch.c): packets, sender and receiver;
      StreamChProps: the receiver is an instance of [Messages];
      StreamChThrough: from the sender's calls to the handlers.
    - PlayerLocal (player_local.c and audio_status of audio.c): the player on
      top of AudioControl and Streambuf; the record [player_local].
    - Playnet (playnet.c): the handlers of the stream channel and the ubus
      methods.  PlaynetProps: the handlers on the abstract stream; PlaynetTrack:
      from a controller's calls to the stream buffer; PlaynetVolume: volume.

    The controller firmware of the I/O processor (iomcu/controller):
    - Knob (knob.c, and the expansion of iomcu/ioutil/i2c_encdata.c) with
      KnobProps: debouncing, quadrature decoding, compression of samples.
    - Controller (i2c.c, the DMA and ADC interrupts of stm8l15x_it.c, main.c,
      startup.c): the record [ctrl] holds the globals, [step] is one interrupt
      or one pass of the main loop; ControllerProps and ControllerReport prove
      bounds, the restart key and the conservation of knob events.
    - Led (led.c and the TIM4 interrupt) with LedSort, LedRows, LedPlay,
      LedProps: from brightness values to a schedule to lit LEDs.
    - Standalone (standalone.c, startup.c and the TIM3 interrupt): the pictures
      the controller draws by itself.

    ** Conventions

    C integers are [Z] with the wrap-around of their type written out ([u8],
    [u16], [u32], [u64], [s8], [s32]); structs are records, enums are inductive
    types, arrays are lists.  A read or write outside an array, a failed
    assert and an exit are [None], so that a theorem that a run is [Some] is a
    theorem that none of them happens.  Interrupts, threads and the peer on the
    bus are sequences of events over which the theorems quantify; each
    interrupt handler and each main-loop pass is one step, so interrupts inside
    a pass are not modelled.  Results of pthread and system calls are arguments.

    ** What the theorems show

    Flashing: whatever arrives on the bus, only the application areas of the
    memory change and only a complete, valid image is started; the start key
    gates everything; the slave answers register transactions as specified;
    write, read, erase and start of the host utility do end to end what they
    promise (and erase of the EEPROM provably never erases, failing unless
    malloc has no memory); the checksums detect the errors they are there for;
    buffer indices stay in range but for the check of an empty register write;
    an autoboot image starts after a fixed number of polls.

    Audio: the byte queues are bounded queues for every operation sequence;
    the message queue keeps messages whole and in order, provided room was
    asked for all of a message; the stream buffer is a stream of data with
    inline commands for every legal run, and not beyond (more commands than
    slots); a hand-over transfers exactly the kept bytes with their counters.
    Queued commands run once each, in order, whatever the interleaving, when
    the room a client asked for is the room it needs; decoder output returns
    and keeps the shared state in range in every reachable state, but for one
    division by zero; fades, gains and PCM decoding (however the stream is cut)
    compute what their frame-by-frame specifications say; and
    a track that is started is heard, sample for sample, behind the one before.

    Network: what is sent on the stream channel is what the handlers get, for
    every cutting of the bytes; a port is a list of connections for every run;
    a receiver leaves its buffer only for a packet of negative size, and then
    always; a track that a controller sends is in the stream buffer of the
    device as commands and data in order; the volume methods do what they say
    and keep the gain in range.

    Controller: DMA never leaves its buffers; only the key resets; knob events
    are conserved from the pins to the acknowledged report; the encoder counts
    the winding number of the signals; the sorting network sorts and every LED
    is on, in each frame, during periods that add up to its brightness (timer
    periods and busy loops as they are asked for; how long the timer makes them
    last is not modelled); the timer interrupts stay in their tables for every
    interleaving.

    ** Bounds and fuel

    The retry loop of the host tries 50 times as the code does.  Loops whose
    length depends on data carry fuel: copy loops of the message queue as many
    steps as bytes, the flashing loops one step per block, waits one step per
    wake-up of the given list, the loop over stale counters ten passes with
    nine slots (the theorem shows that it ends within them), the port one call of its callback per received byte and
    one more, the calls that block one attempt per sleep of the given list,
    decoder output one pass per frame and per byte of a
    transition ([output_fuel], [pcm_fuel]), playback one pass per frame, the
    thread one message per byte of the queue.  Each theorem about a result
    states that the result is produced, so fuel cannot hide a loop that does
    not end.  The audio invariant covers sample rates from 10 to 384000, cross
    fades of at most 600 seconds, within which no product leaves 32 bits, and
    every other transition of any period.

    ** Not modelled

    Option parsing, terminal output and logging; hardware set-up; the
    controller's debug registers and the handlers that only halt; the LED code
    in its other configurations (six rows, 10-bit PWM).  Of the audio path: the
    other codecs (wrappers of mad, aac, vorbis and flac; any module that keeps
    the interface of AudioModules stands for them), the ALSA backend, opening
    and writing the device, the mixing of effects, the upload of samples to a
    test server, the child processes of decode_play.c and audio_init and debug
    output of audio.c.  Of the network side: opening sockets, the artificial
    network delay, the parsing of ubus messages by libubox and the event loop;
    the port's lock is taken to be held as the code holds it.  The update
    packages of beepupdate; beepcomm, beepdata, wifisetup and the rest of
    lib/beep, which are glue over JSON, HTTP and ubus libraries; everything
    vendored (LibDS in lib/libds, OpenWrt, LuCI, U-Boot, mDNSResponder,
    mongoose, the ST peripheral library).

    ** This file

    The shared vocabulary: machine integers, big-endian struct layout, byte
    buffers, a sparse byte memory, the [beep] hint database and the tactics the
    component files use. *)

From stdpp Require Export base tactics list gmap.
From Stdlib Require Export ZArith Lia Bool.

#[global] Open Scope Z_scope.

Create HintDb beep.

(** ** Machine integers *)

Definition u8 (z : Z) : Z := z mod 256.
Definition u16 (z : Z) : Z := z mod 65536.
Definition u32 (z : Z) : Z := z mod 4294967296.
Definition u64 (z : Z) : Z := z mod 18446744073709551616.

(** Two's-complement conversions to the signed types. *)
Definition s8 (z : Z) : Z := (z + 128) mod 256 - 128.
Definition s32 (z : Z) : Z := (z + 2147483648) mod 4294967296 - 2147483648.

Definition is_u8 (z : Z) : Prop := 0 <= z < 256.
Definition is_u16 (z : Z) : Prop := 0 <= z < 65536.
Definition is_u32 (z : Z) : Prop := 0 <= z < 4294967296.

(** C truth values. *)
Definition c_true (z : Z) : bool := negb (z =? 0).
Definition c_bool (b : bool) : Z := if b then 1 else 0.

Ltac unfold_ints := unfold u8, u16, u32, u64, s8, s32, is_u8, is_u16, is_u32 in *.

Lemma u8_range z : is_u8 (u8 z).
Proof. unfold_ints. apply Z.mod_pos_bound; lia. Qed.

Lemma u16_range z : is_u16 (u16 z).
Proof. unfold_ints. apply Z.mod_pos_bound; lia. Qed.

Lemma u32_range z : is_u32 (u32 z).
Proof. unfold_ints. apply Z.mod_pos_bound; lia. Qed.

Lemma u8_small z : is_u8 z → u8 z = z.
Proof. unfold_ints. intros. apply Z.mod_small; lia. Qed.

Lemma u16_small z : is_u16 z → u16 z = z.
Proof. unfold_ints. intros. apply Z.mod_small; lia. Qed.

Lemma u32_small z : is_u32 z → u32 z = z.
Proof. unfold_ints. intros. apply Z.mod_small; lia. Qed.

#[export] Hint Resolve u8_range u16_range u32_range : beep.

(** Turns the boolean comparisons of the translated guards into propositions
    that [lia] and [congruence] understand. *)
Ltac bool_prop :=
  repeat match goal with
  | H : (_ && _) = true |- _ => apply andb_true_iff in H; destruct H
  | H : (_ && _) = false |- _ => apply andb_false_iff in H
  | H : (_ || _) = true |- _ => apply orb_true_iff in H
  | H : (_ || _) = false |- _ => apply orb_false_iff in H; destruct H
  | H : negb _ = true |- _ => apply negb_true_iff in H
  | H : negb _ = false |- _ => apply negb_false_iff in H
  | H : (_ =? _) = true |- _ => apply Z.eqb_eq in H
  | H : (_ =? _) = false |- _ => apply Z.eqb_neq in H
  | H : (_ <? _) = true |- _ => apply Z.ltb_lt in H
  | H : (_ <? _) = false |- _ => apply Z.ltb_ge in H
  | H : (_ <=? _) = true |- _ => apply Z.leb_le in H
  | H : (_ <=? _) = false |- _ => apply Z.leb_gt in H
  end.

(** Case analysis on every test of the goal. *)
Ltac split_ifs :=
  repeat match goal with
  | |- context [if ?b then _ else _] => let E := fresh "E" in destruct b eqn:E
  end.

(** ** Bits of machine integers *)

(** A boolean property of every byte, by evaluation. *)
Lemma byte_forall (P : Z → bool) b : forallb P (seqZ 0 256) = true → is_u8 b → P b = true.
Proof.
  rewrite forallb_forall. intros H Hb. apply H, list_elem_of_In, elem_of_seqZ.
  unfold is_u8 in Hb. lia.
Qed.

Lemma testbit_small z n i : 0 <= z < 2 ^ n → n <= i → Z.testbit z i = false.
Proof.
  intros Hz Hi. destruct (Z.eq_dec z 0) as [->|Hne]; [apply Z.testbit_0_l|].
  apply Z.bits_above_log2; [lia|].
  apply Z.lt_le_trans with n; [|lia]. apply Z.log2_lt_pow2; lia.
Qed.

Lemma lxor_range n a b : 0 <= n → 0 <= a < 2 ^ n → 0 <= b < 2 ^ n → 0 <= Z.lxor a b < 2 ^ n.
Proof.
  intros Hn Ha Hb. assert (Hp : 0 <= Z.lxor a b) by (apply Z.lxor_nonneg; lia).
  split; [done|]. destruct (Z.eq_dec (Z.lxor a b) 0) as [->|Hne]; [lia|].
  apply Z.log2_lt_pow2; [lia|].
  pose proof (Z.log2_lxor a b ltac:(lia) ltac:(lia)) as Hl.
  assert (Z.log2 a < n ∨ a = 0) by (destruct (Z.eq_dec a 0); [lia|left; apply Z.log2_lt_pow2; lia]).
  assert (Z.log2 b < n ∨ b = 0) by (destruct (Z.eq_dec b 0); [lia|left; apply Z.log2_lt_pow2; lia]).
  destruct (Z.eq_dec n 0) as [->|]; [|destruct H, H0; subst; simpl in *; lia].
  exfalso. apply Hne. replace a with 0 by lia. replace b with 0 by lia. done.
Qed.

Lemma land_range_l n a b : 0 <= n → 0 <= a < 2 ^ n → 0 <= Z.land a b < 2 ^ n.
Proof.
  intros Hn Ha. rewrite <- (Z.mod_small a (2 ^ n)) by lia.
  rewrite <- Z.land_ones, <- Z.land_assoc, (Z.land_comm (Z.ones n)), Z.land_assoc,
    Z.land_ones by lia.
  apply Z.mod_pos_bound. lia.
Qed.

Lemma lor_range n a b : 0 <= n → 0 <= a < 2 ^ n → 0 <= b < 2 ^ n → 0 <= Z.lor a b < 2 ^ n.
Proof.
  intros Hn Ha Hb. assert (Hp : 0 <= Z.lor a b) by (apply Z.lor_nonneg; lia).
  split; [done|]. destruct (Z.eq_dec (Z.lor a b) 0) as [->|Hne]; [lia|].
  apply Z.log2_lt_pow2; [lia|]. rewrite Z.log2_lor by lia.
  apply Z.max_lub_lt.
  - destruct (Z.eq_dec a 0) as [->|]; [simpl|apply Z.log2_lt_pow2; lia].
    destruct (Z.eq_dec n 0) as [->|]; [|lia]. exfalso; apply Hne. by replace b with 0 by lia.
  - destruct (Z.eq_dec b 0) as [->|]; [simpl|apply Z.log2_lt_pow2; lia].
    destruct (Z.eq_dec n 0) as [->|]; [|lia]. exfalso; apply Hne. by replace a with 0 by lia.
Qed.

(** ** Big-endian layout of the packed structs *)

Definition be16 (z : Z) : list Z := [u8 (Z.shiftr z 8); u8 z].
Definition be32 (z : Z) : list Z :=
  [u8 (Z.shiftr z 24); u8 (Z.shiftr z 16); u8 (Z.shiftr z 8); u8 z].

Definition get16 (l : list Z) (o : nat) : Z := 256 * (l !!! o) + l !!! (o + 1)%nat.
Definition get32 (l : list Z) (o : nat) : Z :=
  65536 * get16 l o + get16 l (o + 2).

Lemma be16_get z a b : be16 z = [a; b] → 256 * a + b = u16 z.
Proof.
  unfold be16, u8, u16. intros H; simplify_eq. rewrite Z.shiftr_div_pow2 by lia.
  change (2 ^ 8) with 256. change 65536 with (256 * 256).
  rewrite Z.rem_mul_r by lia. lia.
Qed.

Lemma get16_be16 z : get16 (be16 z) 0 = u16 z.
Proof. unfold get16. simpl. eapply be16_get. reflexivity. Qed.

Lemma be32_be16 z : be32 z = be16 (Z.shiftr z 16) ++ be16 z.
Proof.
  unfold be32, be16. rewrite Z.shiftr_shiftr by lia. reflexivity.
Qed.

Lemma get32_be32 z : get32 (be32 z) 0 = u32 z.
Proof.
  unfold get32. rewrite be32_be16. unfold get16, be16; simpl.
  pose proof (be16_get (Z.shiftr z 16) _ _ eq_refl) as H1.
  pose proof (be16_get z _ _ eq_refl) as H2. rewrite H1, H2.
  unfold u16, u32. rewrite Z.shiftr_div_pow2 by lia. change (2 ^ 16) with 65536.
  change 4294967296 with (65536 * 65536). rewrite Z.rem_mul_r by lia. lia.
Qed.

Lemma length_be16 z : length (be16 z) = 2%nat.
Proof. reflexivity. Qed.
Lemma length_be32 z : length (be32 z) = 4%nat.
Proof. reflexivity. Qed.

(** Every element of a buffer is a byte. *)
Definition bytes (l : list Z) : Prop := Forall is_u8 l.

Lemma bytes_be16 z : bytes (be16 z).
Proof. repeat constructor; apply u8_range. Qed.
Lemma bytes_be32 z : bytes (be32 z).
Proof. repeat constructor; apply u8_range. Qed.
Lemma bytes_app l1 l2 : bytes l1 → bytes l2 → bytes (l1 ++ l2).
Proof. intros. by apply Forall_app. Qed.
Lemma bytes_lookup l i : bytes l → is_u8 (l !!! i).
Proof.
  intros H. destruct (l !! i) as [x|] eqn:E.
  - rewrite (list_lookup_total_correct _ _ _ E). by eapply Forall_lookup_1.
  - rewrite list_lookup_total_alt, E. simpl. unfold is_u8. cbn. lia.
Qed.
Lemma bytes_insert l i x : bytes l → is_u8 x → bytes (<[i := x]> l).
Proof. intros. by apply Forall_insert. Qed.

#[export] Hint Resolve bytes_be16 bytes_be32 bytes_app bytes_lookup bytes_insert : beep.

(** ** Storing a run of bytes in a buffer at an offset *)

Lemma bytes_inserts l i k : bytes l → bytes k → bytes (list_inserts i k l).
Proof.
  revert i l. induction k as [|x k IH]; intros i l Hl Hk; simpl; [done|].
  apply bytes_insert; [|by inversion Hk]. apply IH; [done|by inversion Hk].
Qed.
#[export] Hint Resolve bytes_inserts : beep.

Lemma list_inserts_0 (l k : list Z) :
  (length k <= length l)%nat → list_inserts 0 k l = k ++ drop (length k) l.
Proof.
  intros H. apply list_eq. intros i. destruct (decide (i < length k)%nat).
  - rewrite list_lookup_inserts, lookup_app_l by lia. by rewrite Nat.sub_0_r.
  - rewrite list_lookup_inserts_ge, lookup_app_r, lookup_drop by lia. f_equal. lia.
Qed.

Lemma take_add {A} (l : list A) n k : take (n + k) l = take n l ++ take k (drop n l).
Proof. revert l. induction n as [|n IH]; intros [|x l]; simpl; rewrite ?take_nil, ?IH; done. Qed.

Lemma list_inserts_app i (k1 k2 l : list Z) :
  list_inserts i (k1 ++ k2) l = list_inserts (i + length k1) k2 (list_inserts i k1 l).
Proof.
  revert i l. induction k1 as [|x k1 IH]; intros i l; cbn [app list_inserts length].
  - by rewrite Nat.add_0_r.
  - rewrite IH, (list_insert_inserts_lt _ i (S i + length k1)) by lia. f_equal. lia.
Qed.

(** ** Sparse byte memory *)

Abbreviation mem := (gmap Z Z).

Definition mread (m : mem) (a : Z) : Z := m !!! a.
Definition mwrite (m : mem) (a v : Z) : mem := <[a := v]> m.

(** Stores [l] at consecutive addresses from [a]. *)
Fixpoint mwrites (m : mem) (a : Z) (l : list Z) : mem :=
  match l with
  | [] => m
  | x :: l' => mwrites (mwrite m a x) (a + 1) l'
  end.

(** The [n] bytes from address [a]. *)
Fixpoint mreads (m : mem) (a : Z) (n : nat) : list Z :=
  match n with
  | O => []
  | S n' => mread m a :: mreads m (a + 1) n'
  end.

Lemma mread_mwrite_eq m a v : mread (mwrite m a v) a = v.
Proof. unfold mread, mwrite. rewrite lookup_total_insert. by case_decide. Qed.
Lemma mread_mwrite_ne m a b v : a ≠ b → mread (mwrite m a v) b = mread m b.
Proof. unfold mread, mwrite. intros. rewrite lookup_total_insert. by case_decide. Qed.

Lemma mread_mwrites_out m a l b : b < a ∨ a + Z.of_nat (length l) <= b →
  mread (mwrites m a l) b = mread m b.
Proof.
  revert m a. induction l as [|x l IH]; intros m a H; simpl in *; [done|].
  rewrite IH by lia. apply mread_mwrite_ne. lia.
Qed.

Lemma mwrites_app m a l1 l2 :
  mwrites m a (l1 ++ l2) = mwrites (mwrites m a l1) (a + Z.of_nat (length l1)) l2.
Proof.
  revert m a. induction l1 as [|b l1 IH]; intros m a; cbn [app mwrites length].
  - by rewrite Z.add_0_r.
  - rewrite IH. f_equal. lia.
Qed.

Lemma length_mreads m a n : length (mreads m a n) = n.
Proof. revert a. induction n; intros; simpl; f_equal; auto. Qed.

Lemma lookup_mreads m a n i : (i < n)%nat → mreads m a n !! i = Some (mread m (a + Z.of_nat i)).
Proof.
  revert a i. induction n as [|n IH]; intros a i Hi; [lia|]. destruct i as [|i]; simpl.
  - do 2 f_equal. lia.
  - rewrite IH by lia. do 2 f_equal. lia.
Qed.

(** Reading through a 16-bit pointer that does not wrap. *)
Lemma fmap_seqZ_mreads (f : Z → Z) m a n : 0 <= n → (∀ i, 0 <= i < n → f i = mread m (a + i)) →
  f <$> seqZ 0 n = mreads m a (Z.to_nat n).
Proof.
  intros Hn Hf. apply list_eq. intros i. rewrite list_lookup_fmap.
  destruct (decide (Z.of_nat i < n)).
  - rewrite lookup_seqZ_lt, lookup_mreads by lia. simpl. f_equal. rewrite Z.add_0_l. apply Hf. lia.
  - rewrite lookup_seqZ_ge, lookup_ge_None_2 by (rewrite ?length_mreads; lia). done.
Qed.

Lemma mreads_ext m m' a n :
  (∀ b, a <= b < a + Z.of_nat n → mread m b = mread m' b) → mreads m a n = mreads m' a n.
Proof.
  revert a. induction n as [|n IH]; intros a H; simpl; [done|].
  rewrite (H a) by lia. f_equal. apply IH. intros. apply H. lia.
Qed.

Lemma mreads_mwrites m a l : mreads (mwrites m a l) a (length l) = l.
Proof.
  revert m a. induction l as [|x l IH]; intros m a; simpl; [done|].
  rewrite mread_mwrites_out by lia. rewrite mread_mwrite_eq. f_equal. apply IH.
Qed.

Lemma mreads_app m a n k : mreads m a (n + k) = mreads m a n ++ mreads m (a + Z.of_nat n) k.
Proof.
  revert a. induction n as [|n IH]; intros a; simpl.
  - f_equal; lia.
  - rewrite IH. do 3 f_equal. lia.
Qed.

Lemma mreads_mwrites_out m a l b n :
  b + Z.of_nat n <= a ∨ a + Z.of_nat (length l) <= b →
  mreads (mwrites m a l) b n = mreads m b n.
Proof. intros. apply mreads_ext. intros. apply mread_mwrites_out. lia. Qed.

Definition mem_bytes (m : mem) : Prop := ∀ a, is_u8 (mread m a).

Lemma mem_bytes_write m a v : mem_bytes m → is_u8 v → mem_bytes (mwrite m a v).
Proof.
  intros Hm Hv b. destruct (Z.eq_dec a b) as [->|].
  - by rewrite mread_mwrite_eq.
  - by rewrite mread_mwrite_ne.
Qed.

Lemma mem_bytes_writes m a l : mem_bytes m → bytes l → mem_bytes (mwrites m a l).
Proof.
  revert m a. induction l as [|x l IH]; intros m a Hm Hl; simpl; [done|].
  inversion Hl; subst. apply IH; [|done]. by apply mem_bytes_write.
Qed.

Lemma bytes_mreads m a n : mem_bytes m → bytes (mreads m a n).
Proof. intros Hm. revert a. induction n; intros a; simpl; constructor; auto. apply IHn. Qed.

#[export] Hint Resolve mem_bytes_write mem_bytes_writes bytes_mreads : beep.
