(* ===== verification/Checksum.v ===== *)
(** The checksums shared by the Linux utility and the STM8L firmware
    (device/src/iomcu/common/iomcu_checksum.c): [crc8], [crc16] and the I2C
    message checksum built on [crc8].  A C buffer argument [buf, len] is the
    list of the [len] bytes the loop reads. *)

From S2P Require Import Prelude.

(** ** The C functions *)

Definition IOMCU_CRC8_INIT : Z := 0xff.
Definition IOMCU_CRC16_INIT : Z := 0x0000.

(** One turn of the inner loop of [crc8]: polynomial 0xd5, [crc] a uint8_t. *)
Definition crc8_bit (crc : Z) : Z :=
  if c_true (Z.land crc 0x80) then u8 (Z.lxor (Z.shiftl crc 1) 0xd5)
  else u8 (Z.shiftl crc 1).

Definition crc8_byte (crc b : Z) : Z := Nat.iter 8 crc8_bit (Z.lxor crc b).

Definition crc8 (crc : Z) (buf : list Z) : Z := fold_left crc8_byte buf crc.

(** One turn of the inner loop of [crc16]: polynomial 0x8005, [crc] a uint16_t. *)
Definition crc16_bit (crc : Z) : Z :=
  if c_true (Z.land crc 0x8000) then u16 (Z.lxor (Z.shiftl crc 1) 0x8005)
  else u16 (Z.shiftl crc 1).

Definition crc16_byte (crc b : Z) : Z :=
  Nat.iter 8 crc16_bit (Z.lxor crc (Z.shiftl b 8)).

Definition crc16 (crc : Z) (buf : list Z) : Z := fold_left crc16_byte buf crc.

(** The initial value is a uint8_t parameter, so [IOMCU_CRC8_INIT + regaddr]
    is truncated. *)
Definition i2c_message_checksum (buf : list Z) (regaddr : Z) : Z :=
  crc8 (u8 (IOMCU_CRC8_INIT + regaddr)) buf.

(** [rd i] is what [buf[i]] reads, also outside the array.  The length given
    to [crc8] is truncated to the firmware's [crclen_t] (uint8_t), the index
    of the comparison is an int. *)
Definition i2c_message_verify (rd : Z → Z) (regaddr len : Z) : bool :=
  crc8 (u8 (IOMCU_CRC8_INIT + regaddr)) (rd <$> seqZ 0 (u8 (len - 1))) =? rd (len - 1).

(** ** A width-generic register and its algebra *)

Definition lfsr (w p c : Z) : Z :=
  Z.lxor (if Z.testbit c (w - 1) then p else 0) (Z.shiftl c 1 mod 2 ^ w).

Lemma c_true_land_pow2 c k : 0 <= k → c_true (Z.land c (2 ^ k)) = Z.testbit c k.
Proof.
  intros Hk. unfold c_true. destruct (Z.testbit c k) eqn:E.
  - destruct (Z.eqb_spec (Z.land c (2 ^ k)) 0) as [H|]; [|done].
    apply (f_equal (λ z, Z.testbit z k)) in H.
    rewrite Z.land_spec, E, Z.pow2_bits_true, Z.testbit_0_l in H by lia. done.
  - destruct (Z.eqb_spec (Z.land c (2 ^ k)) 0) as [|H]; [done|]. exfalso; apply H.
    apply Z.bits_inj'. intros i Hi. rewrite Z.land_spec, Z.testbit_0_l.
    destruct (Z.eq_dec i k) as [->|]; [by rewrite E|].
    rewrite Z.pow2_bits_false by lia. by rewrite andb_false_r.
Qed.

Lemma mod_pow2_lxor w a b : 0 <= w →
  Z.lxor a b mod 2 ^ w = Z.lxor (a mod 2 ^ w) (b mod 2 ^ w).
Proof.
  intros Hw. rewrite <- !Z.land_ones by done. apply Z.bits_inj'. intros i Hi.
  rewrite !Z.lxor_spec, !Z.land_spec, Z.lxor_spec.
  by destruct (Z.testbit a i), (Z.testbit b i), (Z.testbit (Z.ones w) i).
Qed.

Lemma crc_bit_lfsr w p c : 0 < w → 0 <= p < 2 ^ w →
  (if c_true (Z.land c (2 ^ (w - 1))) then Z.lxor (Z.shiftl c 1) p mod 2 ^ w
   else Z.shiftl c 1 mod 2 ^ w) = lfsr w p c.
Proof.
  intros Hw Hp. rewrite c_true_land_pow2 by lia. unfold lfsr.
  destruct (Z.testbit c (w - 1)).
  - rewrite mod_pow2_lxor, (Z.mod_small p) by lia. apply Z.lxor_comm.
  - by rewrite Z.lxor_0_l.
Qed.

Lemma crc8_bit_lfsr c : crc8_bit c = lfsr 8 0xd5 c.
Proof. rewrite <- crc_bit_lfsr by lia. reflexivity. Qed.

Lemma crc16_bit_lfsr c : crc16_bit c = lfsr 16 0x8005 c.
Proof. rewrite <- crc_bit_lfsr by lia. reflexivity. Qed.

Section Lfsr.
Context (w p : Z) (Hw : 0 < w) (Hp : 0 <= p < 2 ^ w) (Hodd : Z.testbit p 0 = true).

Lemma lfsr_range c : 0 <= lfsr w p c < 2 ^ w.
Proof using Hw Hp.
  unfold lfsr. apply lxor_range; [lia| |apply Z.mod_pos_bound; lia].
  destruct (Z.testbit c (w - 1)); lia.
Qed.

Lemma lfsr_lxor a b : lfsr w p (Z.lxor a b) = Z.lxor (lfsr w p a) (lfsr w p b).
Proof using Hw.
  unfold lfsr. rewrite Z.lxor_spec, Z.shiftl_lxor, mod_pow2_lxor by lia.
  destruct (Z.testbit a (w - 1)), (Z.testbit b (w - 1)); simpl;
    rewrite ?Z.lxor_0_l; apply Z.bits_inj'; intros i Hi; rewrite !Z.lxor_spec;
    by destruct (Z.testbit p i), (Z.testbit (_ mod _) i), (Z.testbit (_ mod _) i).
Qed.

Lemma lfsr_kernel c : 0 <= c < 2 ^ w → lfsr w p c = 0 → c = 0.
Proof using Hw Hp Hodd.
  intros Hc H. unfold lfsr in H. destruct (Z.testbit c (w - 1)) eqn:E.
  - apply (f_equal (λ z, Z.testbit z 0)) in H.
    rewrite Z.lxor_spec, Hodd, Z.mod_pow2_bits_low, Z.shiftl_spec_low, Z.testbit_0_l in H by lia.
    done.
  - rewrite Z.lxor_0_l, Z.shiftl_mul_pow2 in H by lia.
    assert (c < 2 ^ (w - 1)).
    { destruct (Z.lt_ge_cases c (2 ^ (w - 1))) as [|Hge]; [done|].
      exfalso.
      assert (Hb : Z.testbit c (w - 1) = true); [|congruence].
      apply Z.testbit_true; [lia|].
      replace (c / 2 ^ (w - 1)) with 1; [done|].
      apply Z.div_unique with (c - 2 ^ (w - 1)); [left|lia].
      replace w with (w - 1 + 1) in Hc by lia. rewrite Z.pow_add_r in Hc; lia. }
    rewrite Z.mod_small in H; [lia|].
    replace w with (w - 1 + 1) by lia. rewrite Z.pow_add_r; lia.
Qed.

Lemma lfsr_inj a b : 0 <= a < 2 ^ w → 0 <= b < 2 ^ w → lfsr w p a = lfsr w p b → a = b.
Proof using Hw Hp Hodd.
  intros Ha Hb H. apply Z.lxor_eq, lfsr_kernel; [apply lxor_range; lia|].
  rewrite lfsr_lxor, H. apply Z.lxor_nilpotent.
Qed.

Lemma iter_lfsr_range n c : 0 <= c < 2 ^ w → 0 <= Nat.iter n (lfsr w p) c < 2 ^ w.
Proof using Hw Hp. destruct n; simpl; auto using lfsr_range. Qed.

Lemma iter_lfsr_lxor n a b :
  Nat.iter n (lfsr w p) (Z.lxor a b)
  = Z.lxor (Nat.iter n (lfsr w p) a) (Nat.iter n (lfsr w p) b).
Proof using Hw. induction n; simpl; [done|]. by rewrite IHn, lfsr_lxor. Qed.

Lemma iter_lfsr_inj n a b : 0 <= a < 2 ^ w → 0 <= b < 2 ^ w →
  Nat.iter n (lfsr w p) a = Nat.iter n (lfsr w p) b → a = b.
Proof using Hw Hp Hodd.
  intros Ha Hb. induction n; simpl; [done|].
  intros H. apply IHn, lfsr_inj; auto using iter_lfsr_range.
Qed.
End Lfsr.

Lemma iter_ext {A} (f g : A → A) n x : (∀ y, f y = g y) → Nat.iter n f x = Nat.iter n g x.
Proof. intros H. induction n; simpl; [done|]. by rewrite IHn, H. Qed.

Lemma crc8_byte_lfsr c b : crc8_byte c b = Nat.iter 8 (lfsr 8 0xd5) (Z.lxor c b).
Proof. apply iter_ext, crc8_bit_lfsr. Qed.

Lemma crc16_byte_lfsr c b :
  crc16_byte c b = Nat.iter 8 (lfsr 16 0x8005) (Z.lxor c (Z.shiftl b 8)).
Proof. apply iter_ext, crc16_bit_lfsr. Qed.

(** ** crc8 *)

Lemma crc8_byte_range c b : is_u8 c → is_u8 b → is_u8 (crc8_byte c b).
Proof.
  intros Hc Hb. rewrite crc8_byte_lfsr. apply (iter_lfsr_range 8 0xd5); [lia..|].
  by apply (lxor_range 8).
Qed.

Lemma crc8_range c l : is_u8 c → bytes l → is_u8 (crc8 c l).
Proof.
  unfold crc8. revert c. induction l as [|b l IH]; intros c Hc Hl; simpl; [done|].
  inversion Hl; subst. auto using crc8_byte_range.
Qed.

Lemma crc8_app c l1 l2 : crc8 c (l1 ++ l2) = crc8 (crc8 c l1) l2.
Proof. apply fold_left_app. Qed.

Lemma crc8_byte_inj c c' b b' : is_u8 c → is_u8 c' → is_u8 b → is_u8 b' →
  crc8_byte c b = crc8_byte c' b' → Z.lxor c b = Z.lxor c' b'.
Proof.
  intros Hc Hc' Hb Hb'. rewrite !crc8_byte_lfsr. intros H.
  eapply (iter_lfsr_inj 8 0xd5); [lia|lia|done| | |exact H]; by apply (lxor_range 8).
Qed.

Lemma lxor_cancel_r a b c : Z.lxor a c = Z.lxor b c → a = b.
Proof.
  intros H. apply (f_equal (λ z, Z.lxor z c)) in H.
  by rewrite !Z.lxor_assoc, Z.lxor_nilpotent, !Z.lxor_0_r in H.
Qed.

Lemma lxor_cancel_l a b c : Z.lxor c a = Z.lxor c b → a = b.
Proof. rewrite !(Z.lxor_comm c). apply lxor_cancel_r. Qed.

Lemma crc8_inj l c c' : bytes l → is_u8 c → is_u8 c' → crc8 c l = crc8 c' l → c = c'.
Proof.
  unfold crc8. revert c c'. induction l as [|b l IH]; intros c c' Hl Hc Hc' H; simpl in *; [done|].
  inversion Hl; subst. apply IH in H; auto using crc8_byte_range.
  apply crc8_byte_inj in H; auto. by apply lxor_cancel_r in H.
Qed.

(** A message that differs from another in exactly one byte, wherever it
    is and whatever the change, has a different [crc8]. *)
Lemma crc8_detects_one_byte crc l1 b b' l2 :
  is_u8 crc → bytes l1 → bytes l2 → is_u8 b → is_u8 b' → b ≠ b' →
  crc8 crc (l1 ++ b :: l2) ≠ crc8 crc (l1 ++ b' :: l2).
Proof.
  intros Hc H1 H2 Hb Hb' Hne Heq. rewrite !crc8_app in Heq. simpl in Heq.
  pose proof (crc8_range crc l1 Hc H1) as Hr.
  apply (crc8_inj l2) in Heq; auto using crc8_byte_range.
  apply crc8_byte_inj in Heq; auto. by apply lxor_cancel_l in Heq.
Qed.

(** ** crc16 *)

Lemma shiftl8_range b : is_u8 b → 0 <= Z.shiftl b 8 < 2 ^ 16.
Proof. unfold is_u8. rewrite Z.shiftl_mul_pow2 by lia. lia. Qed.

Lemma crc16_byte_range c b : is_u16 c → is_u8 b → is_u16 (crc16_byte c b).
Proof.
  intros Hc Hb. rewrite crc16_byte_lfsr. apply (iter_lfsr_range 16 0x8005); [lia..|].
  apply lxor_range; [lia|done|by apply shiftl8_range].
Qed.

Lemma crc16_range c l : is_u16 c → bytes l → is_u16 (crc16 c l).
Proof.
  unfold crc16. revert c. induction l as [|b l IH]; intros c Hc Hl; simpl; [done|].
  inversion Hl; subst. auto using crc16_byte_range.
Qed.

Lemma crc16_app c l1 l2 : crc16 c (l1 ++ l2) = crc16 (crc16 c l1) l2.
Proof. apply fold_left_app. Qed.

Lemma crc16_inj l c c' : bytes l → is_u16 c → is_u16 c' → crc16 c l = crc16 c' l → c = c'.
Proof.
  unfold crc16. revert c c'. induction l as [|b l IH]; intros c c' Hl Hc Hc' H; simpl in *; [done|].
  inversion Hl; subst. apply IH in H; auto using crc16_byte_range.
  rewrite !crc16_byte_lfsr in H.
  apply (iter_lfsr_inj 16 0x8005) in H; [|lia|lia|done|apply lxor_range; [lia|done|by apply shiftl8_range]..].
  by apply lxor_cancel_r in H.
Qed.

(** Eight turns of the register move a low byte up without feedback. *)
Lemma iter_lfsr16_low b : is_u8 b → Nat.iter 8 (lfsr 16 0x8005) b = Z.shiftl b 8.
Proof.
  intros Hb. apply Z.eqb_eq.
  apply (byte_forall (λ b, Nat.iter 8 (lfsr 16 0x8005) b =? Z.shiftl b 8)); [|done].
  vm_compute. reflexivity.
Qed.

(** Absorbing two bytes is sixteen turns on the register with both bytes
    folded in. *)
Lemma crc16_two_bytes c b1 b2 : is_u8 b2 →
  crc16_byte (crc16_byte c b1) b2
  = Nat.iter 16 (lfsr 16 0x8005) (Z.lxor c (Z.lxor (Z.shiftl b1 8) b2)).
Proof.
  intros Hb. rewrite !crc16_byte_lfsr, <- (iter_lfsr16_low b2) by done.
  rewrite <- iter_lfsr_lxor by lia.
  change 16%nat with (8 + 8)%nat. rewrite Nat.iter_add.
  by rewrite Z.lxor_assoc.
Qed.

Lemma pair_bytes_inj a1 a2 b1 b2 : is_u8 a2 → is_u8 b2 →
  Z.lxor (Z.shiftl a1 8) a2 = Z.lxor (Z.shiftl b1 8) b2 → a1 = b1 ∧ a2 = b2.
Proof.
  intros Ha Hb H.
  assert (Hs : ∀ x y i, 0 <= i → is_u8 y → Z.testbit (Z.lxor (Z.shiftl x 8) y) i
    = if i <? 8 then Z.testbit y i else Z.testbit x (i - 8)).
  { intros x y i Hi Hy. rewrite Z.lxor_spec, Z.shiftl_spec by lia.
    destruct (Z.ltb_spec i 8).
    - rewrite (Z.testbit_neg_r x) by lia. done.
    - rewrite (testbit_small y 8) by (unfold is_u8 in Hy; lia). by rewrite xorb_false_r. }
  split; apply Z.bits_inj'; intros i Hi.
  - apply (f_equal (λ z, Z.testbit z (i + 8))) in H. rewrite !Hs in H by (done || lia).
    destruct (Z.ltb_spec (i + 8) 8); [lia|]. by replace (i + 8 - 8) with i in H by lia.
  - destruct (Z.ltb_spec i 8) as [Hlt|Hge].
    + apply (f_equal (λ z, Z.testbit z i)) in H. rewrite !Hs in H by (done || lia).
      destruct (Z.ltb_spec i 8); [done|lia].
    + unfold is_u8 in *. rewrite !(testbit_small _ 8) by lia. done.
Qed.

(** C35.  Two firmware images that differ only inside two adjacent bytes never
    have the same [crc16]. *)
Theorem crc16_detects_two_bytes crc l1 a1 a2 b1 b2 l2 :
  is_u16 crc → bytes l1 → bytes l2 → bytes [a1; a2; b1; b2] → (a1, a2) ≠ (b1, b2) →
  crc16 crc (l1 ++ a1 :: a2 :: l2) ≠ crc16 crc (l1 ++ b1 :: b2 :: l2).
Proof.
  intros Hc H1 H2 Hb Hne Heq. rewrite !crc16_app in Heq. simpl in Heq.
  unfold bytes in Hb. rewrite !Forall_cons in Hb. destruct Hb as (Ha1 & Ha2 & Hb1 & Hb2 & _).
  pose proof (crc16_range crc l1 Hc H1) as Hr.
  apply (crc16_inj l2) in Heq; auto using crc16_byte_range.
  rewrite !crc16_two_bytes in Heq by done.
  apply (iter_lfsr_inj 16 0x8005) in Heq; [|lia|lia|done|..].
  - apply lxor_cancel_l, pair_bytes_inj in Heq; [|done..]. destruct Heq; subst. done.
  - apply lxor_range; [lia|done|]. apply lxor_range; [lia|by apply shiftl8_range|].
    unfold is_u8 in *. lia.
  - apply lxor_range; [lia|done|]. apply lxor_range; [lia|by apply shiftl8_range|].
    unfold is_u8 in *. lia.
Qed.

Lemma crc16_detects_two_bytes_witness :
  crc16 IOMCU_CRC16_INIT ([0x82] ++ 0x00 :: 0x01 :: [0xff]) ≠ crc16 IOMCU_CRC16_INIT ([0x82] ++ 0x80 :: 0x00 :: [0xff]).
Proof.
  apply (crc16_detects_two_bytes IOMCU_CRC16_INIT [0x82] 0 1 0x80 0 [0xff]);
    try (unfold is_u16, IOMCU_CRC16_INIT; lia); try discriminate;
    repeat (apply List.Forall_cons || apply List.Forall_nil); unfold is_u8; lia.
Defined.

(** ** I2C messages *)

(** What [buf[i]] reads when the array holds [l]: outside it, whatever the
    linker placed there ([oob]). *)
Definition buf_rd (l : list Z) (oob : Z → Z) (i : Z) : Z :=
  if (0 <=? i) && (i <? Z.of_nat (length l)) then l !!! Z.to_nat i else oob i.

Lemma buf_rd_in l oob i : 0 <= i < Z.of_nat (length l) → buf_rd l oob i = l !!! Z.to_nat i.
Proof.
  intros. unfold buf_rd. rewrite (proj2 (Z.leb_le _ _)), (proj2 (Z.ltb_lt _ _)) by lia. done.
Qed.

Lemma buf_rd_seq l oob n : 0 <= n <= Z.of_nat (length l) →
  buf_rd l oob <$> seqZ 0 n = take (Z.to_nat n) l.
Proof.
  intros Hn. apply list_eq. intros i. rewrite list_lookup_fmap.
  destruct (decide (Z.of_nat i < n)).
  - rewrite lookup_seqZ_lt, lookup_take_lt by lia. simpl.
    rewrite Z.add_0_l, buf_rd_in, Nat2Z.id by lia. symmetry.
    apply list_lookup_lookup_total_lt. lia.
  - rewrite lookup_seqZ_ge, lookup_take_ge by lia. done.
Qed.

(** The message the sender puts on the bus after the register byte. *)
Definition i2c_message (payload : list Z) (regaddr : Z) : list Z :=
  payload ++ [i2c_message_checksum payload regaddr].

Lemma i2c_message_verify_eq l c oob reg rest : (length l <= 254)%nat →
  i2c_message_verify (buf_rd (l ++ c :: rest) oob) reg (Z.of_nat (length l) + 1)
  = (i2c_message_checksum l reg =? c).
Proof.
  intros Hl. unfold i2c_message_verify, i2c_message_checksum.
  replace (Z.of_nat (length l) + 1 - 1) with (Z.of_nat (length l)) by lia.
  rewrite (u8_small (Z.of_nat (length l))) by (unfold is_u8; lia).
  rewrite buf_rd_seq by (rewrite length_app; simpl; lia).
  rewrite Nat2Z.id, take_app_length.
  rewrite buf_rd_in by (rewrite length_app; simpl; lia).
  rewrite Nat2Z.id, list_lookup_total_middle; done.
Qed.

(** C34.  The receiver accepts every message the sender builds, and rejects it
    as soon as one of its bytes, payload or checksum, arrived changed. *)
Theorem i2c_message_check payload reg oob i b :
  bytes payload → (length payload <= 254)%nat →
  let msg := i2c_message payload reg in
  let n := Z.of_nat (length msg) in
  i2c_message_verify (buf_rd msg oob) reg n = true ∧
  ((i < length msg)%nat → is_u8 b → b ≠ msg !!! i →
   i2c_message_verify (buf_rd (<[i := b]> msg) oob) reg n = false).
Proof.
  intros Hp Hl msg n. assert (Hn : n = Z.of_nat (length payload) + 1).
  { subst n msg. unfold i2c_message. rewrite length_app. simpl. lia. }
  rewrite Hn. split.
  - subst msg. unfold i2c_message. rewrite i2c_message_verify_eq by done. apply Z.eqb_refl.
  - intros Hi Hb Hne. subst msg. unfold i2c_message in *. rewrite length_app in Hi. simpl in Hi.
    destruct (decide (i < length payload)%nat) as [Hlt|Hge].
    + rewrite insert_app_l by done.
      rewrite <- (length_insert payload i b), i2c_message_verify_eq by (rewrite length_insert; done).
      apply Z.eqb_neq. unfold i2c_message_checksum.
      destruct (lookup_lt_is_Some_2 payload i Hlt) as [x Hx].
      rewrite (insert_take_drop payload) by done.
      rewrite <- (take_drop_middle payload i x Hx) at 3.
      assert (Hx8 : is_u8 x) by (eapply Forall_lookup_1; eauto).
      apply crc8_detects_one_byte; auto using u8_range; [by apply Forall_take|by apply Forall_drop|].
      rewrite lookup_total_app_l in Hne by done.
      by rewrite (list_lookup_total_correct _ _ _ Hx) in Hne.
    + rewrite insert_app_r_alt by lia. replace (i - length payload)%nat with 0%nat by lia. simpl.
      rewrite i2c_message_verify_eq by done. apply Z.eqb_neq. intros Heq. apply Hne.
      rewrite lookup_total_app_r by lia. replace (i - length payload)%nat with 0%nat by lia.
      simpl. done.
Qed.

Lemma i2c_message_check_witness :
  i2c_message [0xc0; 0xaa; 0xaa; 0xa4] 0x80 = [0xc0; 0xaa; 0xaa; 0xa4; 0x0f] ∧
  i2c_message_verify (buf_rd (<[1%nat := 0xab]> (i2c_message [0xc0; 0xaa; 0xaa; 0xa4] 0x80)) (λ _, 0)) 0x80 5 = false.
Proof.
  split; [vm_compute; reflexivity|].
  assert (Hb : bytes [0xc0; 0xaa; 0xaa; 0xa4])
    by (repeat (apply List.Forall_cons || apply List.Forall_nil); unfold is_u8; lia).
  apply (i2c_message_check [0xc0; 0xaa; 0xaa; 0xa4] 0x80 (λ _, 0) 1 0xab Hb ltac:(simpl; lia)).
  - vm_compute. lia.
  - unfold is_u8. lia.
  - vm_compute. discriminate.
Defined.
