(* ===== verification/BtldrProto.v ===== *)
(** The I2C protocol between the Linux utility and the STM8L bootloader
    (device/src/iomcu/common/bootloader_proto.h, iomcu_shared.h) and the
    memory layout of the bootloader (device/src/iomcu/bootloader/bootloader.h,
    medium-density constants of stm8l15x_flash.h: every IAR project defines
    STM8L15X_MD).  The packed structs are records with their byte layout; the
    STM8 and the MIPS host are both big-endian. *)

From S2P Require Import Prelude.

(** ** Register numbers, sizes and status values (the #defines) *)

Abbreviation I2C_BTLDR_REG_RW_MASK := 0x80.
Abbreviation I2C_BTLDR_REG_READ := 0x00.
Abbreviation I2C_BTLDR_REG_BTLDR_INFO := 0x00.
Abbreviation I2C_BTLDR_REG_STATUS := 0x01.
Abbreviation I2C_BTLDR_REG_DEV_INFO := 0x02.
Abbreviation I2C_BTLDR_REG_FLASH_INFO := 0x03.
Abbreviation I2C_BTLDR_REG_APP_INFO := 0x04.
Abbreviation I2C_BTLDR_REG_EEPROM_READ := 0x05.
Abbreviation I2C_BTLDR_REG_DATA_READ := 0x06.
Abbreviation I2C_BTLDR_REG_RESV_2 := 0x7f.
Abbreviation I2C_BTLDR_REG_START := 0x80.
Abbreviation I2C_BTLDR_REG_WAIT := 0x82.
Abbreviation I2C_BTLDR_REG_APP_INFO_SET := 0x84.
Abbreviation I2C_BTLDR_REG_EEPROM_READ_ADDR := 0x85.
Abbreviation I2C_BTLDR_REG_DATA_READ_ADDR := 0x86.
Abbreviation I2C_BTLDR_REG_EEPROM_WRITE_ADDR := 0x87.
Abbreviation I2C_BTLDR_REG_EEPROM_WRITE := 0x88.
Abbreviation I2C_BTLDR_REG_DATA_WRITE_ADDR := 0x89.
Abbreviation I2C_BTLDR_REG_DATA_WRITE := 0x8a.
Abbreviation I2C_BTLDR_REG_RESV := 0xff.

Abbreviation I2C_BTLDR_REG_BTLDR_INFO_SIZE := 8.
Abbreviation I2C_BTLDR_REG_STATUS_SIZE := 1.
Abbreviation I2C_BTLDR_REG_DEV_INFO_SIZE := 26.
Abbreviation I2C_BTLDR_REG_FLASH_INFO_SIZE := 28.
Abbreviation I2C_BTLDR_REG_APP_INFO_SIZE := 11.
Abbreviation I2C_BTLDR_REG_START_SIZE := 4.
Abbreviation I2C_BTLDR_REG_APP_INFO_SET_SIZE := 9.
Abbreviation I2C_BTLDR_REG_FLASH_RW_ADDR_SIZE := 4.

Abbreviation I2C_BTLDR_INFO_SLAVE_ENDIAN := 0x87654321.
Abbreviation I2C_BTLDR_INFO_PROTO_VERSION := 2.

Abbreviation I2C_BTLDR_TIME_UNIT_MASK := 0x8000.
Abbreviation I2C_BTLDR_TIME_UNIT_MS := 0x8000.
Abbreviation I2C_BTLDR_TIME_NUM_MASK := 0x7fff.

Abbreviation I2C_BTLDR_APP_STATUS_READY_MASK := 0x7f.
Abbreviation I2C_BTLDR_APP_STATUS_READY_NA := 0x00.
Abbreviation I2C_BTLDR_APP_STATUS_READY_READY := 0x01.
Abbreviation I2C_BTLDR_APP_STATUS_READY_CRC_FAILED := 0x02.
Abbreviation I2C_BTLDR_APP_STATUS_READY_NO_RESET := 0x03.
Abbreviation I2C_BTLDR_APP_STATUS_READY_RESV := 0x7f.
Abbreviation I2C_BTLDR_APP_STATUS_AUTOBOOT_MASK := 0x80.
Abbreviation I2C_BTLDR_APP_STATUS_AUTOBOOT_YES := 0x80.

Abbreviation I2C_BTLDR_STATE_OK := 0x00.
Abbreviation I2C_BTLDR_STATE_OVERFLOW := 0x01.
Abbreviation I2C_BTLDR_STATE_UNDERFLOW := 0x02.
Abbreviation I2C_BTLDR_STATE_INVALID_REG := 0x03.
Abbreviation I2C_BTLDR_STATE_INVALID_I2C_SIZE := 0x04.
Abbreviation I2C_BTLDR_STATE_BAD_KEY := 0x05.
Abbreviation I2C_BTLDR_STATE_INVALID_BLOCK_SIZE := 0x06.
Abbreviation I2C_BTLDR_STATE_INVALID_ADDR := 0x07.
Abbreviation I2C_BTLDR_STATE_BUSY := 0x09.
Abbreviation I2C_BTLDR_STATE_FLASH_INTERRUPTED := 0x0a.
Abbreviation I2C_BTLDR_STATE_CHECKSUM_FAILED := 0x0b.
Abbreviation I2C_BTLDR_STATE_DATA_NOT_READY := 0x0c.
Abbreviation I2C_BTLDR_STATE_FLASH_NOT_READY := 0x0d.
Abbreviation I2C_BTLDR_STATE_APP_NOT_READY := 0x0e.
Abbreviation I2C_BTLDR_STATE_COMM_ERROR := 0xff.

(** The start key; sent MSB ([KEY_3]) first. *)
Definition IOMCU_COMMON_KEY : list Z := [0xc0; 0xaa; 0xaa; 0xa4].
Abbreviation I2C_BTLDR_START_KEY_3 := 0xc0.
Abbreviation I2C_BTLDR_START_KEY_2 := 0xaa.
Abbreviation I2C_BTLDR_START_KEY_1 := 0xaa.
Abbreviation I2C_BTLDR_START_KEY_0 := 0xa4.

(** ** Flash geometry *)

Abbreviation FLASH_BLOCK_SIZE := 0x80.
Abbreviation FLASH_PROGRAM_START_PHYSICAL_ADDRESS := 0x8000.
Abbreviation FLASH_DATA_EEPROM_START_PHYSICAL_ADDRESS := 0x1000.
Abbreviation FLASH_PROGRAM_BLOCKS_NUMBER := 0x100.
Abbreviation FLASH_DATA_EEPROM_BLOCKS_NUMBER := 0x8.
Abbreviation IOMCU_BTLDR_RESV_EEPROM_BLOCKS := 1.
Abbreviation IOMCU_BTLDR_RESV_DATA_BLOCKS := 64.

Definition BTLDR_STM8L15X_EEPROM_BASE : Z :=
  FLASH_DATA_EEPROM_START_PHYSICAL_ADDRESS + IOMCU_BTLDR_RESV_EEPROM_BLOCKS * FLASH_BLOCK_SIZE.
Definition BTLDR_STM8L15X_EEPROM_SIZE : Z :=
  (FLASH_DATA_EEPROM_BLOCKS_NUMBER - IOMCU_BTLDR_RESV_EEPROM_BLOCKS) * FLASH_BLOCK_SIZE.
Definition BTLDR_STM8L15X_DATA_BASE : Z :=
  FLASH_PROGRAM_START_PHYSICAL_ADDRESS + IOMCU_BTLDR_RESV_DATA_BLOCKS * FLASH_BLOCK_SIZE.
Definition BTLDR_STM8L15X_DATA_SIZE : Z :=
  (FLASH_PROGRAM_BLOCKS_NUMBER - IOMCU_BTLDR_RESV_DATA_BLOCKS) * FLASH_BLOCK_SIZE.

Lemma EEPROM_BASE_val : BTLDR_STM8L15X_EEPROM_BASE = 0x1080. Proof. reflexivity. Qed.
Lemma EEPROM_SIZE_val : BTLDR_STM8L15X_EEPROM_SIZE = 0x380. Proof. reflexivity. Qed.
Lemma DATA_BASE_val : BTLDR_STM8L15X_DATA_BASE = 0xa000. Proof. reflexivity. Qed.
Lemma DATA_SIZE_val : BTLDR_STM8L15X_DATA_SIZE = 0x6000. Proof. reflexivity. Qed.

Ltac flash_geometry :=
  rewrite ?EEPROM_BASE_val, ?EEPROM_SIZE_val, ?DATA_BASE_val, ?DATA_SIZE_val in *.

Abbreviation BTLDR_VERSION := 5.
Abbreviation BTLDR_DEV_INFO_BRD_ID := 0x0002.
Abbreviation BTLDR_DEV_INFO_BRD_REV := 4.
Abbreviation BTLDR_DEV_INFO_CHIP_ID := 0x0003.

(** ** The packed structs *)

Record BtldrInfo := { bi_endian : Z; bi_proto_ver : Z; bi_btldr_ver : Z }.
Definition BtldrInfo_bytes (p : BtldrInfo) : list Z :=
  be32 (bi_endian p) ++ be16 (bi_proto_ver p) ++ be16 (bi_btldr_ver p).
Definition BtldrInfo_of (l : list Z) : BtldrInfo :=
  {| bi_endian := get32 l 0; bi_proto_ver := get16 l 4; bi_btldr_ver := get16 l 6 |}.

Record BtldrDeviceInfo := {
  di_board_id : Z; di_board_rev : Z; di_chip_id : Z;
  di_chip_serial : list Z; di_option_bytes : list Z }.
Definition BtldrDeviceInfo_bytes (p : BtldrDeviceInfo) : list Z :=
  be16 (di_board_id p) ++ be16 (di_board_rev p) ++ be16 (di_chip_id p)
  ++ di_chip_serial p ++ di_option_bytes p.

Record BtldrFlashInfo := {
  fi_eeprom_base : Z; fi_eeprom_size : Z; fi_data_base : Z; fi_data_size : Z;
  fi_eeprom_blocksize : Z; fi_data_blocksize : Z;
  fi_eeprom_read_time : Z; fi_eeprom_write_time : Z;
  fi_data_read_time : Z; fi_data_write_time : Z }.
Definition BtldrFlashInfo_bytes (p : BtldrFlashInfo) : list Z :=
  be32 (fi_eeprom_base p) ++ be32 (fi_eeprom_size p) ++ be32 (fi_data_base p)
  ++ be32 (fi_data_size p) ++ be16 (fi_eeprom_blocksize p) ++ be16 (fi_data_blocksize p)
  ++ be16 (fi_eeprom_read_time p) ++ be16 (fi_eeprom_write_time p)
  ++ be16 (fi_data_read_time p) ++ be16 (fi_data_write_time p).
Definition BtldrFlashInfo_of (l : list Z) : BtldrFlashInfo :=
  {| fi_eeprom_base := get32 l 0; fi_eeprom_size := get32 l 4; fi_data_base := get32 l 8;
     fi_data_size := get32 l 12; fi_eeprom_blocksize := get16 l 16; fi_data_blocksize := get16 l 18;
     fi_eeprom_read_time := get16 l 20; fi_eeprom_write_time := get16 l 22;
     fi_data_read_time := get16 l 24; fi_data_write_time := get16 l 26 |}.

Record BtldrAppInfo := {
  ai_size : Z; ai_crc16 : Z; ai_app_ver : Z; ai_app_info_set_time : Z; ai_status : Z }.
Definition BtldrAppInfo_bytes (p : BtldrAppInfo) : list Z :=
  be32 (ai_size p) ++ be16 (ai_crc16 p) ++ be16 (ai_app_ver p)
  ++ be16 (ai_app_info_set_time p) ++ [u8 (ai_status p)].
Definition BtldrAppInfo_of (l : list Z) : BtldrAppInfo :=
  {| ai_size := get32 l 0; ai_crc16 := get16 l 4; ai_app_ver := get16 l 6;
     ai_app_info_set_time := get16 l 8; ai_status := l !!! 10%nat |}.

Record BtldrAppInfoSet := { as_size : Z; as_crc16 : Z; as_app_ver : Z; as_autoboot : Z }.
Definition BtldrAppInfoSet_bytes (p : BtldrAppInfoSet) : list Z :=
  be32 (as_size p) ++ be16 (as_crc16 p) ++ be16 (as_app_ver p) ++ [u8 (as_autoboot p)].
Definition BtldrAppInfoSet_of (l : list Z) : BtldrAppInfoSet :=
  {| as_size := get32 l 0; as_crc16 := get16 l 4; as_app_ver := get16 l 6;
     as_autoboot := l !!! 8%nat |}.

(** The record kept in the first EEPROM block (main.c). *)
Record BtldrEEPROMData := {
  ed_magic : Z; ed_app_size : Z; ed_app_crc16 : Z; ed_app_ver : Z;
  ed_autoboot : Z; ed_crc8 : Z }.
Abbreviation BTLDR_EEPROM_DATA_MAGIC := 0x42454550.
Definition BtldrEEPROMData_size : nat := 14.
(** The bytes of the record before its [crc8] field. *)
Definition BtldrEEPROMData_head (p : BtldrEEPROMData) : list Z :=
  be32 (ed_magic p) ++ be32 (ed_app_size p) ++ be16 (ed_app_crc16 p)
  ++ be16 (ed_app_ver p) ++ [u8 (ed_autoboot p)].
Definition BtldrEEPROMData_bytes (p : BtldrEEPROMData) : list Z :=
  BtldrEEPROMData_head p ++ [u8 (ed_crc8 p)].
Definition BtldrEEPROMData_of (l : list Z) : BtldrEEPROMData :=
  {| ed_magic := get32 l 0; ed_app_size := get32 l 4; ed_app_crc16 := get16 l 8;
     ed_app_ver := get16 l 10; ed_autoboot := l !!! 12%nat; ed_crc8 := l !!! 13%nat |}.

(** ** Reading a field back from where a struct was stored *)

Lemma get16_app_r (l1 l2 : list Z) o : get16 (l1 ++ l2) (length l1 + o) = get16 l2 o.
Proof.
  unfold get16. rewrite <- Nat.add_assoc. rewrite !lookup_total_app_r by lia.
  do 3 f_equal; lia.
Qed.

Lemma get32_app_r (l1 l2 : list Z) o : get32 (l1 ++ l2) (length l1 + o) = get32 l2 o.
Proof. unfold get32. rewrite <- Nat.add_assoc, !get16_app_r. done. Qed.

Lemma get16_be16_app z l : get16 (be16 z ++ l) 0 = u16 z.
Proof. rewrite <- get16_be16. done. Qed.

Lemma get32_be32_app z l : get32 (be32 z ++ l) 0 = u32 z.
Proof. rewrite <- get32_be32. done. Qed.
