(* ===== verification/Bootloader.v ===== *)
(** The STM8L bootloader (device/src/iomcu/bootloader: main.c, commands.c,
    i2c.c, flash.c) as state-passing functions on one record of its globals
    and the byte-addressed memory.  Every function of the C files that
    changes state is a definition of the same name. *)

From S2P Require Import Prelude Checksum BtldrProto.

(** ** Globals *)

Inductive run_state_t := RUN_STATE_BTLDR_START | RUN_STATE_BTLDR_RUN | RUN_STATE_APP_START.

Inductive i2c_state_t :=
  | I2C_STATE_IDLE | I2C_STATE_REG_WAIT | I2C_STATE_DATA_IN
  | I2C_STATE_OUT_START_WAIT | I2C_STATE_DATA_OUT.

Inductive flash_state_t :=
  | FLASH_STATE_IDLE
  | FLASH_STATE_EEPROM_READ_ADDR_READY | FLASH_STATE_EEPROM_READ_RUN
  | FLASH_STATE_EEPROM_READ_DATA_READY
  | FLASH_STATE_EEPROM_WRITE_ADDR_READY | FLASH_STATE_EEPROM_WRITE_DATA_READY
  | FLASH_STATE_EEPROM_WRITE_RUN
  | FLASH_STATE_DATA_READ_ADDR_READY | FLASH_STATE_DATA_READ_RUN
  | FLASH_STATE_DATA_READ_DATA_READY
  | FLASH_STATE_DATA_WRITE_ADDR_READY | FLASH_STATE_DATA_WRITE_DATA_READY
  | FLASH_STATE_DATA_WRITE_RUN
  | FLASH_STATE_APP_INFO_WRITE_RUN.

#[export] Instance run_state_t_eq_dec : EqDecision run_state_t.
Proof. solve_decision. Defined.
#[export] Instance i2c_state_t_eq_dec : EqDecision i2c_state_t.
Proof. solve_decision. Defined.
#[export] Instance flash_state_t_eq_dec : EqDecision flash_state_t.
Proof. solve_decision. Defined.

Record btldr := mk_btldr {
  run_state : run_state_t;
  btldr_state : Z;
  app_status : Z;
  flash_state : flash_state_t;
  flash_addr : Z;
  i2c_state : i2c_state_t;
  i2c_buf : list Z;
  i2c_offset : Z;
  i2c_out_remaining : Z;
  i2c_reg : Z;
  memory : mem
}.

Definition set_run_state v s := mk_btldr v (btldr_state s) (app_status s) (flash_state s)
  (flash_addr s) (i2c_state s) (i2c_buf s) (i2c_offset s) (i2c_out_remaining s) (i2c_reg s) (memory s).
Definition set_btldr_state v s := mk_btldr (run_state s) v (app_status s) (flash_state s)
  (flash_addr s) (i2c_state s) (i2c_buf s) (i2c_offset s) (i2c_out_remaining s) (i2c_reg s) (memory s).
Definition set_app_status v s := mk_btldr (run_state s) (btldr_state s) v (flash_state s)
  (flash_addr s) (i2c_state s) (i2c_buf s) (i2c_offset s) (i2c_out_remaining s) (i2c_reg s) (memory s).
Definition set_flash_state v s := mk_btldr (run_state s) (btldr_state s) (app_status s) v
  (flash_addr s) (i2c_state s) (i2c_buf s) (i2c_offset s) (i2c_out_remaining s) (i2c_reg s) (memory s).
Definition set_flash_addr v s := mk_btldr (run_state s) (btldr_state s) (app_status s) (flash_state s)
  v (i2c_state s) (i2c_buf s) (i2c_offset s) (i2c_out_remaining s) (i2c_reg s) (memory s).
Definition set_i2c_state v s := mk_btldr (run_state s) (btldr_state s) (app_status s) (flash_state s)
  (flash_addr s) v (i2c_buf s) (i2c_offset s) (i2c_out_remaining s) (i2c_reg s) (memory s).
Definition set_i2c_buf v s := mk_btldr (run_state s) (btldr_state s) (app_status s) (flash_state s)
  (flash_addr s) (i2c_state s) v (i2c_offset s) (i2c_out_remaining s) (i2c_reg s) (memory s).
Definition set_i2c_offset v s := mk_btldr (run_state s) (btldr_state s) (app_status s) (flash_state s)
  (flash_addr s) (i2c_state s) (i2c_buf s) v (i2c_out_remaining s) (i2c_reg s) (memory s).
Definition set_i2c_out_remaining v s := mk_btldr (run_state s) (btldr_state s) (app_status s) (flash_state s)
  (flash_addr s) (i2c_state s) (i2c_buf s) (i2c_offset s) v (i2c_reg s) (memory s).
Definition set_i2c_reg v s := mk_btldr (run_state s) (btldr_state s) (app_status s) (flash_state s)
  (flash_addr s) (i2c_state s) (i2c_buf s) (i2c_offset s) (i2c_out_remaining s) v (memory s).
Definition set_memory v s := mk_btldr (run_state s) (btldr_state s) (app_status s) (flash_state s)
  (flash_addr s) (i2c_state s) (i2c_buf s) (i2c_offset s) (i2c_out_remaining s) (i2c_reg s) v.

Abbreviation I2C_BUF_SIZE := 192.

(** [i2c_buf] has two bytes more than [I2C_BUF_SIZE], for the checksum and the
    trailing readout byte. *)
Definition i2c_buf_len : nat := 194.

(** ** flash.c *)

Inductive FLASH_MemType := FLASH_MemType_Program | FLASH_MemType_Data.

(** The copy loop of [flash_programblock_mem]; the pointer is 16 bits wide
    ([MemoryAddressCast] is uint16_t on medium-density parts). *)
Fixpoint flash_copy (m : mem) (p : Z) (buf : list Z) : mem :=
  match buf with
  | [] => m
  | b :: buf' => flash_copy (mwrite m (u16 p) b) (p + 1) buf'
  end.

Definition flash_programblock_mem (m : mem) (startaddress : Z) (buf : list Z) : mem :=
  flash_copy m (u16 startaddress) (take (Z.to_nat FLASH_BLOCK_SIZE) buf).

Definition flash_programblock (m : mem) (block : Z) (memtype : FLASH_MemType) (buf : list Z) : mem :=
  let startaddress := match memtype with
    | FLASH_MemType_Program => FLASH_PROGRAM_START_PHYSICAL_ADDRESS
    | FLASH_MemType_Data => FLASH_DATA_EEPROM_START_PHYSICAL_ADDRESS
    end in
  let startaddress := u32 (startaddress + u32 (block * FLASH_BLOCK_SIZE)) in
  flash_programblock_mem m startaddress buf.

Definition FLASH_ReadByte (m : mem) (addr : Z) : Z := mread m (u16 addr).

(** ** main.c: application record and status *)

Abbreviation BTLDR_EEPROM_DATA_OFFSET := FLASH_DATA_EEPROM_START_PHYSICAL_ADDRESS.
Abbreviation BTLDR_EEPROM_DATA_BLOCK := 0.
Abbreviation BTLDR_APP_INFO_SET_TIME := 35268. (* I2C_BTLDR_TIME_UNIT_MS | 2500 *)
Abbreviation BTLDR_STM8L15X_INT_OPCODE := 0x82.

Definition read_app_info (s : btldr) : BtldrAppInfo :=
  let bytep := (λ i, FLASH_ReadByte (memory s) (BTLDR_EEPROM_DATA_OFFSET + i)) <$>
    seqZ 0 (Z.of_nat BtldrEEPROMData_size) in
  let data := BtldrEEPROMData_of bytep in
  let crc := crc8 IOMCU_CRC8_INIT (take (BtldrEEPROMData_size - 1) bytep) in
  if (crc =? ed_crc8 data) && (ed_magic data =? BTLDR_EEPROM_DATA_MAGIC) then
    {| ai_size := ed_app_size data; ai_crc16 := ed_app_crc16 data;
       ai_app_ver := ed_app_ver data; ai_app_info_set_time := BTLDR_APP_INFO_SET_TIME;
       ai_status := Z.lor (app_status s) (ed_autoboot data) |}
  else
    {| ai_size := 0; ai_crc16 := 0; ai_app_ver := 0;
       ai_app_info_set_time := BTLDR_APP_INFO_SET_TIME; ai_status := 0 |}.

(** The block loop of [update_app_status]: copy a block to [i2c_buf], fold it
    into the crc, advance [flashp]. *)
Fixpoint app_crc_loop (m : mem) (app_blocks : nat) (flashp : Z) (buf : list Z) (crc : Z)
  : list Z * Z :=
  match app_blocks with
  | O => (buf, crc)
  | S app_blocks' =>
      let block := (λ i, mread m (u16 (flashp + i))) <$> seqZ 0 FLASH_BLOCK_SIZE in
      let buf := list_inserts 0 block buf in
      let crc := crc16 crc (take (Z.to_nat FLASH_BLOCK_SIZE) buf) in
      app_crc_loop m app_blocks' (u16 (flashp + FLASH_BLOCK_SIZE)) buf crc
  end.

Definition update_app_status (s : btldr) : btldr :=
  let flashp := u16 BTLDR_STM8L15X_DATA_BASE in
  let s := set_app_status I2C_BTLDR_APP_STATUS_READY_RESV s in
  let app_info := read_app_info s in
  let s := set_app_status I2C_BTLDR_APP_STATUS_READY_NA s in
  if Z.land (ai_status app_info) I2C_BTLDR_APP_STATUS_READY_MASK
     =? I2C_BTLDR_APP_STATUS_READY_RESV then
    if BTLDR_STM8L15X_DATA_SIZE <? ai_size app_info then s else
    let s := set_app_status (Z.land (ai_status app_info) I2C_BTLDR_APP_STATUS_AUTOBOOT_MASK) s in
    if negb (mread (memory s) flashp =? BTLDR_STM8L15X_INT_OPCODE) then
      set_app_status (Z.lor (app_status s) I2C_BTLDR_APP_STATUS_READY_NO_RESET) s
    else
      let app_blocks := u16 (ai_size app_info / FLASH_BLOCK_SIZE) in
      let '(buf, crc) := app_crc_loop (memory s) (Z.to_nat app_blocks) flashp
        (i2c_buf s) IOMCU_CRC16_INIT in
      let s := set_i2c_buf buf s in
      if negb (crc =? ai_crc16 app_info) then
        set_app_status (Z.lor (app_status s) I2C_BTLDR_APP_STATUS_READY_CRC_FAILED) s
      else
        set_app_status (Z.lor (app_status s) I2C_BTLDR_APP_STATUS_READY_READY) s
  else s.

Definition write_app_info (p : BtldrAppInfoSet) (s : btldr) : btldr :=
  let buf := list_inserts 0 (replicate (Z.to_nat FLASH_BLOCK_SIZE) 0) (i2c_buf s) in
  let data := {| ed_magic := BTLDR_EEPROM_DATA_MAGIC; ed_app_size := as_size p;
    ed_app_crc16 := as_crc16 p; ed_app_ver := as_app_ver p;
    ed_autoboot := Z.land (as_autoboot p) I2C_BTLDR_APP_STATUS_AUTOBOOT_MASK; ed_crc8 := 0 |} in
  let buf := list_inserts 0 (BtldrEEPROMData_head data) buf in
  let buf := <[(BtldrEEPROMData_size - 1)%nat :=
    crc8 IOMCU_CRC8_INIT (take (BtldrEEPROMData_size - 1) buf)]> buf in
  let s := set_i2c_buf buf s in
  let s := set_memory (flash_programblock (memory s) BTLDR_EEPROM_DATA_BLOCK
    FLASH_MemType_Data (i2c_buf s)) s in
  update_app_status s.

Definition init_run_state (s : btldr) : btldr :=
  let s := update_app_status s in
  if app_status s =? Z.lor I2C_BTLDR_APP_STATUS_READY_READY I2C_BTLDR_APP_STATUS_AUTOBOOT_YES
  then set_run_state RUN_STATE_BTLDR_START s
  else set_run_state RUN_STATE_BTLDR_RUN s.

Definition flash_rdwr_run_read (next : flash_state_t) (s : btldr) : btldr :=
  let s := set_i2c_out_remaining FLASH_BLOCK_SIZE s in
  let data := (λ i, FLASH_ReadByte (memory s) (u32 (flash_addr s + i))) <$> seqZ 0 FLASH_BLOCK_SIZE in
  let s := set_i2c_buf (list_inserts 0 data (i2c_buf s)) s in
  set_flash_state next s.

Definition flash_rdwr_run_write (start : Z) (memtype : FLASH_MemType) (s : btldr) : btldr :=
  let block := u16 (u32 (flash_addr s - start) / FLASH_BLOCK_SIZE) in
  set_memory (flash_programblock (memory s) block memtype (i2c_buf s)) s.

Definition flash_rdwr_run (s : btldr) : btldr :=
  match flash_state s with
  | FLASH_STATE_EEPROM_READ_RUN =>
      flash_rdwr_run_read FLASH_STATE_EEPROM_READ_DATA_READY s
  | FLASH_STATE_DATA_READ_RUN =>
      flash_rdwr_run_read FLASH_STATE_DATA_READ_DATA_READY s
  | FLASH_STATE_EEPROM_WRITE_RUN =>
      let s := flash_rdwr_run_write FLASH_DATA_EEPROM_START_PHYSICAL_ADDRESS FLASH_MemType_Data s in
      set_flash_state FLASH_STATE_IDLE s
  | FLASH_STATE_DATA_WRITE_RUN =>
      let s := flash_rdwr_run_write FLASH_PROGRAM_START_PHYSICAL_ADDRESS FLASH_MemType_Program s in
      (* Invalidate the app ready flag if we write to data. *)
      let s := set_app_status (Z.land (app_status s) (Z.lnot I2C_BTLDR_APP_STATUS_READY_MASK)) s in
      let s := set_app_status (Z.lor (app_status s) I2C_BTLDR_APP_STATUS_READY_NA) s in
      set_flash_state FLASH_STATE_IDLE s
  | _ => set_btldr_state I2C_BTLDR_STATE_FLASH_NOT_READY (set_flash_state FLASH_STATE_IDLE s)
  end.

Definition write_app_info_run (s : btldr) : btldr :=
  let info := BtldrAppInfoSet_of (i2c_buf s) in
  set_flash_state FLASH_STATE_IDLE (write_app_info info s).

(** ** commands.c: registers read by the master *)

Abbreviation BTLDR_STM8L15X_UNIQUE_ID_BASE := 0x4926.
Definition BTLDR_STM8L15X_OPTION_BYTES : list Z :=
  [0x4800; 0x4802; 0x4807; 0x4808; 0x4809; 0x480A; 0x480B; 0x480C].
Abbreviation BTLDR_STM8L15X_FLASH_WRITE_TIME := 32776. (* I2C_BTLDR_TIME_UNIT_MS | 8 *)
Abbreviation BTLDR_STM8L15X_FLASH_READ_TIME := 10. (* I2C_BTLDR_TIME_UNIT_US | 10 *)

Definition btldr_info : BtldrInfo :=
  {| bi_endian := I2C_BTLDR_INFO_SLAVE_ENDIAN; bi_proto_ver := I2C_BTLDR_INFO_PROTO_VERSION;
     bi_btldr_ver := BTLDR_VERSION |}.

Definition device_info (m : mem) : BtldrDeviceInfo :=
  {| di_board_id := BTLDR_DEV_INFO_BRD_ID; di_board_rev := BTLDR_DEV_INFO_BRD_REV;
     di_chip_id := BTLDR_DEV_INFO_CHIP_ID;
     di_chip_serial := (λ i, FLASH_ReadByte m (BTLDR_STM8L15X_UNIQUE_ID_BASE + i)) <$> seqZ 0 12;
     di_option_bytes := FLASH_ReadByte m <$> BTLDR_STM8L15X_OPTION_BYTES |}.

Definition flash_info : BtldrFlashInfo :=
  {| fi_eeprom_base := BTLDR_STM8L15X_EEPROM_BASE; fi_eeprom_size := BTLDR_STM8L15X_EEPROM_SIZE;
     fi_data_base := BTLDR_STM8L15X_DATA_BASE; fi_data_size := BTLDR_STM8L15X_DATA_SIZE;
     fi_eeprom_blocksize := FLASH_BLOCK_SIZE; fi_data_blocksize := FLASH_BLOCK_SIZE;
     fi_eeprom_read_time := BTLDR_STM8L15X_FLASH_READ_TIME;
     fi_eeprom_write_time := BTLDR_STM8L15X_FLASH_WRITE_TIME;
     fi_data_read_time := BTLDR_STM8L15X_FLASH_READ_TIME;
     fi_data_write_time := BTLDR_STM8L15X_FLASH_WRITE_TIME |}.

(** Store a struct at the start of [i2c_buf] and announce its size. *)
Definition reply (l : list Z) (size : Z) (s : btldr) : btldr :=
  set_i2c_out_remaining size (set_i2c_buf (list_inserts 0 l (i2c_buf s)) s).

(** The [default:] branch: 0xff for the whole buffer and an error state. *)
Definition reply_error (error_btldr_state : Z) (s : btldr) : btldr :=
  let s := set_i2c_buf (list_inserts 0 (replicate (Z.to_nat I2C_BUF_SIZE) 0xff) (i2c_buf s)) s in
  let s := set_i2c_offset 0 s in
  let s := set_i2c_out_remaining I2C_BUF_SIZE s in
  set_btldr_state error_btldr_state s.

(** The effect of reading [I2C_BTLDR_REG_STATUS] on the flash state machine. *)
Definition status_flash_step (last_flash_state : flash_state_t) (last_btldr_state : Z)
    (s : btldr) : btldr :=
  if bool_decide (last_flash_state ≠ FLASH_STATE_IDLE)
     && (last_btldr_state =? I2C_BTLDR_STATE_OK) then
    match last_flash_state with
    | FLASH_STATE_EEPROM_READ_ADDR_READY => set_flash_state FLASH_STATE_EEPROM_READ_RUN s
    | FLASH_STATE_DATA_READ_ADDR_READY => set_flash_state FLASH_STATE_DATA_READ_RUN s
    | FLASH_STATE_EEPROM_WRITE_ADDR_READY => set_flash_state FLASH_STATE_EEPROM_WRITE_DATA_READY s
    | FLASH_STATE_DATA_WRITE_ADDR_READY => set_flash_state FLASH_STATE_DATA_WRITE_DATA_READY s
    | _ => set_btldr_state I2C_BTLDR_STATE_FLASH_INTERRUPTED s
    end
  else s.

Definition cmd_data_out (cmd : Z) (s : btldr) : btldr :=
  let last_btldr_state := btldr_state s in
  let last_flash_state := flash_state s in
  let s := set_btldr_state I2C_BTLDR_STATE_OK s in
  let s := set_i2c_offset 0 s in
  let s := set_flash_state FLASH_STATE_IDLE s in
  if cmd =? I2C_BTLDR_REG_BTLDR_INFO then
    reply (BtldrInfo_bytes btldr_info) I2C_BTLDR_REG_BTLDR_INFO_SIZE s
  else if cmd =? I2C_BTLDR_REG_STATUS then
    let s := status_flash_step last_flash_state last_btldr_state s in
    reply [last_btldr_state] I2C_BTLDR_REG_STATUS_SIZE s
  else if cmd =? I2C_BTLDR_REG_DEV_INFO then
    reply (BtldrDeviceInfo_bytes (device_info (memory s))) I2C_BTLDR_REG_DEV_INFO_SIZE s
  else if cmd =? I2C_BTLDR_REG_FLASH_INFO then
    reply (BtldrFlashInfo_bytes flash_info) I2C_BTLDR_REG_FLASH_INFO_SIZE s
  else if cmd =? I2C_BTLDR_REG_APP_INFO then
    reply (BtldrAppInfo_bytes (read_app_info s)) I2C_BTLDR_REG_APP_INFO_SIZE s
  else if (cmd =? I2C_BTLDR_REG_EEPROM_READ) || (cmd =? I2C_BTLDR_REG_DATA_READ) then
    if (i2c_out_remaining s =? FLASH_BLOCK_SIZE)
       && ((cmd =? I2C_BTLDR_REG_EEPROM_READ)
           && bool_decide (last_flash_state = FLASH_STATE_EEPROM_READ_DATA_READY)
           || (cmd =? I2C_BTLDR_REG_DATA_READ)
              && bool_decide (last_flash_state = FLASH_STATE_DATA_READ_DATA_READY))
    then set_flash_state FLASH_STATE_IDLE s
    else reply_error I2C_BTLDR_STATE_DATA_NOT_READY s
  else reply_error I2C_BTLDR_STATE_INVALID_REG s.

(** ** commands.c: registers written by the master *)

Definition set_addr_ready_flash_state (cmd : Z) (s : btldr) : btldr :=
  if cmd =? I2C_BTLDR_REG_EEPROM_READ_ADDR then
    set_flash_state FLASH_STATE_EEPROM_READ_ADDR_READY s
  else if cmd =? I2C_BTLDR_REG_DATA_READ_ADDR then
    set_flash_state FLASH_STATE_DATA_READ_ADDR_READY s
  else if cmd =? I2C_BTLDR_REG_EEPROM_WRITE_ADDR then
    set_flash_state FLASH_STATE_EEPROM_WRITE_ADDR_READY s
  else if cmd =? I2C_BTLDR_REG_DATA_WRITE_ADDR then
    set_flash_state FLASH_STATE_DATA_WRITE_ADDR_READY s
  else set_flash_state FLASH_STATE_IDLE s.

Abbreviation BTLDR_STM8L15X_INVALID_ADDR_MASK := 0x7f.

Definition check_flash_addr (cmd addr : Z) : Z :=
  if c_true (Z.land addr BTLDR_STM8L15X_INVALID_ADDR_MASK) then I2C_BTLDR_STATE_INVALID_ADDR
  else if (cmd =? I2C_BTLDR_REG_EEPROM_READ_ADDR) || (cmd =? I2C_BTLDR_REG_EEPROM_WRITE_ADDR) then
    if (addr <? BTLDR_STM8L15X_EEPROM_BASE)
       || (BTLDR_STM8L15X_EEPROM_BASE + BTLDR_STM8L15X_EEPROM_SIZE <=? addr)
    then I2C_BTLDR_STATE_INVALID_ADDR else I2C_BTLDR_STATE_OK
  else if (cmd =? I2C_BTLDR_REG_DATA_READ_ADDR) || (cmd =? I2C_BTLDR_REG_DATA_WRITE_ADDR) then
    if (addr <? BTLDR_STM8L15X_DATA_BASE)
       || (BTLDR_STM8L15X_DATA_BASE + BTLDR_STM8L15X_DATA_SIZE <=? addr)
    then I2C_BTLDR_STATE_INVALID_ADDR else I2C_BTLDR_STATE_OK
  else I2C_BTLDR_STATE_OK.

(** The start key is in the buffer, MSB first. *)
Definition key_ok (buf : list Z) : bool :=
  (buf !!! 0%nat =? I2C_BTLDR_START_KEY_3) && (buf !!! 1%nat =? I2C_BTLDR_START_KEY_2)
  && (buf !!! 2%nat =? I2C_BTLDR_START_KEY_1) && (buf !!! 3%nat =? I2C_BTLDR_START_KEY_0).

Definition cmd_start (s : btldr) : btldr :=
  if i2c_offset s =? I2C_BTLDR_REG_START_SIZE then
    if key_ok (i2c_buf s) then
      match run_state s with
      | RUN_STATE_BTLDR_START => set_run_state RUN_STATE_BTLDR_RUN s
      | RUN_STATE_BTLDR_RUN =>
          if Z.land (app_status s) I2C_BTLDR_APP_STATUS_READY_MASK
             =? I2C_BTLDR_APP_STATUS_READY_READY
          then set_run_state RUN_STATE_APP_START s
          else set_btldr_state I2C_BTLDR_STATE_APP_NOT_READY s
      | RUN_STATE_APP_START => set_btldr_state I2C_BTLDR_STATE_BUSY s
      end
    else set_btldr_state I2C_BTLDR_STATE_BAD_KEY s
  else set_btldr_state I2C_BTLDR_STATE_INVALID_I2C_SIZE s.

Definition cmd_wait (s : btldr) : btldr :=
  if i2c_offset s =? I2C_BTLDR_REG_START_SIZE then
    if key_ok (i2c_buf s) then
      match run_state s with
      | RUN_STATE_BTLDR_START => set_run_state RUN_STATE_BTLDR_RUN s
      | RUN_STATE_BTLDR_RUN => set_run_state RUN_STATE_BTLDR_RUN s
      | RUN_STATE_APP_START => set_btldr_state I2C_BTLDR_STATE_BUSY s
      end
    else set_btldr_state I2C_BTLDR_STATE_BAD_KEY s
  else set_btldr_state I2C_BTLDR_STATE_INVALID_I2C_SIZE s.

Definition cmd_set_addr (cmd : Z) (s : btldr) : btldr :=
  let addr := get32 (i2c_buf s) 0 in
  let s := set_btldr_state (check_flash_addr cmd addr) s in
  if btldr_state s =? I2C_BTLDR_STATE_OK
  then set_addr_ready_flash_state cmd (set_flash_addr addr s)
  else s.

Definition cmd_write_block (cmd : Z) (last_flash_state : flash_state_t) (s : btldr) : btldr :=
  if i2c_offset s =? FLASH_BLOCK_SIZE then
    if bool_decide (last_flash_state = FLASH_STATE_EEPROM_WRITE_DATA_READY)
       && (cmd =? I2C_BTLDR_REG_EEPROM_WRITE)
    then set_flash_state FLASH_STATE_EEPROM_WRITE_RUN s
    else if bool_decide (last_flash_state = FLASH_STATE_DATA_WRITE_DATA_READY)
       && (cmd =? I2C_BTLDR_REG_DATA_WRITE)
    then set_flash_state FLASH_STATE_DATA_WRITE_RUN s
    else set_btldr_state I2C_BTLDR_STATE_FLASH_NOT_READY (set_flash_state FLASH_STATE_IDLE s)
  else set_btldr_state I2C_BTLDR_STATE_INVALID_BLOCK_SIZE s.

Definition cmd_data_in (cmd : Z) (s : btldr) : btldr :=
  let last_flash_state := flash_state s in
  let s := set_btldr_state I2C_BTLDR_STATE_OK s in
  let s := set_flash_state FLASH_STATE_IDLE s in
  if cmd =? I2C_BTLDR_REG_START then cmd_start s
  else if cmd =? I2C_BTLDR_REG_WAIT then cmd_wait s
  else if cmd =? I2C_BTLDR_REG_APP_INFO_SET then
    if i2c_offset s =? I2C_BTLDR_REG_APP_INFO_SET_SIZE
    then set_flash_state FLASH_STATE_APP_INFO_WRITE_RUN s
    else set_btldr_state I2C_BTLDR_STATE_INVALID_I2C_SIZE s
  else if (cmd =? I2C_BTLDR_REG_EEPROM_READ_ADDR) || (cmd =? I2C_BTLDR_REG_DATA_READ_ADDR)
       || (cmd =? I2C_BTLDR_REG_EEPROM_WRITE_ADDR) || (cmd =? I2C_BTLDR_REG_DATA_WRITE_ADDR)
  then cmd_set_addr cmd s
  else if (cmd =? I2C_BTLDR_REG_EEPROM_WRITE) || (cmd =? I2C_BTLDR_REG_DATA_WRITE)
  then cmd_write_block cmd last_flash_state s
  else set_btldr_state I2C_BTLDR_STATE_INVALID_REG s.

(** ** i2c.c: the byte-level slave *)

Inductive i2c_start_t := I2C_START_RECV | I2C_START_TRA.

Definition I2C_STATE_RESET (s : btldr) : btldr :=
  match i2c_state s with
  | I2C_STATE_IDLE => s
  | _ => set_i2c_reg I2C_BTLDR_REG_RESV (set_i2c_out_remaining 0
           (set_i2c_offset 0 (set_i2c_state I2C_STATE_IDLE s)))
  end.

Definition i2c_message_start (tra : i2c_start_t) (s : btldr) : btldr :=
  match i2c_state s, tra with
  | I2C_STATE_IDLE, I2C_START_RECV => set_i2c_state I2C_STATE_REG_WAIT s
  | I2C_STATE_IDLE, I2C_START_TRA => s
  | I2C_STATE_OUT_START_WAIT, I2C_START_TRA =>
      let s := cmd_data_out (i2c_reg s) s in
      let checksum := i2c_message_checksum
        (take (Z.to_nat (i2c_out_remaining s)) (drop (Z.to_nat (i2c_offset s)) (i2c_buf s)))
        (i2c_reg s) in
      let s := set_i2c_buf (<[Z.to_nat (i2c_offset s + i2c_out_remaining s) := checksum]>
        (i2c_buf s)) s in
      let s := set_i2c_out_remaining (u8 (i2c_out_remaining s + 2)) s in
      set_i2c_state I2C_STATE_DATA_OUT s
  | _, _ => I2C_STATE_RESET s
  end.

(** [oob] is the memory around [i2c_buf] at that moment. *)
Definition i2c_message_stop (oob : Z → Z) (s : btldr) : btldr :=
  match i2c_state s with
  | I2C_STATE_DATA_IN =>
      I2C_STATE_RESET
        (if i2c_message_verify (buf_rd (i2c_buf s) oob) (i2c_reg s) (i2c_offset s)
         then cmd_data_in (i2c_reg s) (set_i2c_offset (u8 (i2c_offset s - 1)) s)
         else set_flash_state FLASH_STATE_IDLE
                (set_btldr_state I2C_BTLDR_STATE_CHECKSUM_FAILED s))
  | _ => I2C_STATE_RESET s
  end.

Definition i2c_byte_in (byte : Z) (s : btldr) : btldr :=
  match i2c_state s with
  | I2C_STATE_REG_WAIT =>
      if negb (byte =? I2C_BTLDR_REG_RESV) then
        let s :=
          if bool_decide (run_state s = RUN_STATE_BTLDR_RUN) || (byte =? I2C_BTLDR_REG_START)
          then set_i2c_reg byte s
          else set_i2c_reg (Z.lor I2C_BTLDR_REG_RESV_2 (Z.land byte I2C_BTLDR_REG_RW_MASK)) s in
        if Z.land (i2c_reg s) I2C_BTLDR_REG_RW_MASK =? I2C_BTLDR_REG_READ
        then set_i2c_state I2C_STATE_OUT_START_WAIT s
        else set_i2c_state I2C_STATE_DATA_IN s
      else I2C_STATE_RESET s
  | I2C_STATE_DATA_IN =>
      if i2c_offset s <? I2C_BUF_SIZE then
        let s := set_i2c_buf (<[Z.to_nat (i2c_offset s) := byte]> (i2c_buf s)) s in
        set_i2c_offset (u8 (i2c_offset s + 1)) s
      else set_btldr_state I2C_BTLDR_STATE_OVERFLOW s
  | _ => I2C_STATE_RESET s
  end.

Definition i2c_byte_out (s : btldr) : Z * btldr :=
  match i2c_state s with
  | I2C_STATE_DATA_OUT =>
      if c_true (i2c_out_remaining s) && (i2c_offset s <? I2C_BUF_SIZE) then
        (i2c_buf s !!! Z.to_nat (i2c_offset s),
         set_i2c_out_remaining (u8 (i2c_out_remaining s - 1))
           (set_i2c_offset (u8 (i2c_offset s + 1)) s))
      else if c_true (i2c_out_remaining s) then
        (0x55, set_btldr_state I2C_BTLDR_STATE_OVERFLOW s)
      else (0x55, set_btldr_state I2C_BTLDR_STATE_UNDERFLOW s)
  | _ => (0x55, I2C_STATE_RESET s)
  end.

(** One read of the peripheral's status registers, the byte in its data
    register and the memory around [i2c_buf]. *)
Record i2c_sample := { SR1 : Z; SR2 : Z; SR3 : Z; DR : Z; OOB : Z → Z }.

Abbreviation I2C_SR1_TXE := 0x80.
Abbreviation I2C_SR1_RXNE := 0x40.
Abbreviation I2C_SR1_STOPF := 0x10.
Abbreviation I2C_SR1_BTF := 0x04.
Abbreviation I2C_SR1_ADDR := 0x02.
Abbreviation I2C_SR2_AF := 0x04.
Abbreviation I2C_SR2_COMM_ERRORS := 0x2b. (* WUFH | OVR | ARLO | BERR *)
Abbreviation I2C_SR3_TRA := 0x04.

(** What the slave writes to the peripheral's registers. *)
Inductive i2c_write := CR2_or_STOP | SR2_clear | SR2_clear_AF | CR2_or_ACK | DR_write (byte : Z).

Definition i2c_out (s : btldr) : list i2c_write * btldr :=
  let '(byte, s) := i2c_byte_out s in ([DR_write byte], s).

(** [i2c_proc_event] after its wait loop has seen an event. *)
Definition i2c_proc_event (e : i2c_sample) (s : btldr) : list i2c_write * btldr :=
  let w1 := if c_true (Z.land (SR2 e) I2C_SR2_COMM_ERRORS) then [CR2_or_STOP; SR2_clear] else [] in
  let s := if c_true (Z.land (SR1 e) I2C_SR1_RXNE) then i2c_byte_in (DR e) s else s in
  let w2 := if c_true (Z.land (SR2 e) I2C_SR2_AF) then [SR2_clear_AF] else [] in
  let s := if c_true (Z.land (SR2 e) I2C_SR2_AF) then i2c_message_stop (OOB e) s else s in
  let w3 := if c_true (Z.land (SR1 e) I2C_SR1_STOPF) then [CR2_or_ACK] else [] in
  let s := if c_true (Z.land (SR1 e) I2C_SR1_STOPF) then i2c_message_stop (OOB e) s else s in
  let s := if c_true (Z.land (SR1 e) I2C_SR1_ADDR)
           then i2c_message_start (if Z.land (SR3 e) I2C_SR3_TRA =? I2C_SR3_TRA
                                   then I2C_START_TRA else I2C_START_RECV) s
           else s in
  let '(w4, s) :=
    if Z.land (SR1 e) (Z.lor I2C_SR1_TXE I2C_SR1_BTF) =? Z.lor I2C_SR1_TXE I2C_SR1_BTF
    then i2c_out s else ([], s) in
  let '(w5, s) := if c_true (Z.land (SR1 e) I2C_SR1_TXE) then i2c_out s else ([], s) in
  (w1 ++ w2 ++ w3 ++ w4 ++ w5, s).

(** ** main.c: the two event loops *)

(** Release builds; [I2C_TIMEOUT_COUNT] rounds of this many polls. *)
Abbreviation I2C_62500_US_TIMEOUT := 0x9100.
Abbreviation I2C_TIMEOUT_COUNT := 16.

(** Where [main] is: in the start-key loop with its two counters, in the
    command loop, or jumped to the application. *)
Inductive phase_t :=
  | PStart (timeout timeout_counter : Z)
  | PRun
  | PApp.

Definition no_event (e : i2c_sample) : bool := (SR1 e =? 0) && (SR2 e =? 0).

(** Leaving the start-key loop. *)
Definition after_start_loop (timeout timeout_counter : Z) (s : btldr) : phase_t :=
  match run_state s with
  | RUN_STATE_BTLDR_START => PStart timeout timeout_counter
  | RUN_STATE_BTLDR_RUN => PRun
  | RUN_STATE_APP_START => PApp
  end.

(** The body of the command loop after [i2c_proc_event]. *)
Definition run_loop_body (s : btldr) : btldr :=
  match i2c_state s with
  | I2C_STATE_IDLE =>
      match flash_state s with
      | FLASH_STATE_EEPROM_READ_RUN | FLASH_STATE_DATA_READ_RUN
      | FLASH_STATE_EEPROM_WRITE_RUN | FLASH_STATE_DATA_WRITE_RUN => flash_rdwr_run s
      | FLASH_STATE_APP_INFO_WRITE_RUN => write_app_info_run s
      | _ => s
      end
  | _ => s
  end.

Definition run_loop_continues (s : btldr) : bool :=
  bool_decide (run_state s = RUN_STATE_BTLDR_RUN) || bool_decide (i2c_state s ≠ I2C_STATE_IDLE).

(** One poll of the peripheral: the innermost loops of [main] and of the wait
    loop of [i2c_proc_event] turn once per sample. *)
Definition main_step (ps : phase_t * btldr) (e : i2c_sample) : phase_t * btldr :=
  let '(ph, s) := ps in
  match ph with
  | PStart timeout timeout_counter =>
      if no_event e then
        let timeout := timeout - 1 in
        if timeout =? 0 then
          let timeout_counter := timeout_counter - 1 in
          let s := if timeout_counter =? 0
                   then (if bool_decide (run_state s = RUN_STATE_BTLDR_RUN) then s
                         else set_run_state RUN_STATE_APP_START s)
                   else s in
          (after_start_loop I2C_62500_US_TIMEOUT timeout_counter s, s)
        else (PStart timeout timeout_counter, s)
      else
        let '(_, s) := i2c_proc_event e s in
        (after_start_loop timeout timeout_counter s, s)
  | PRun =>
      if no_event e then (PRun, s)
      else
        let '(_, s) := i2c_proc_event e s in
        let s := run_loop_body s in
        (if run_loop_continues s then PRun else PApp, s)
  | PApp => (PApp, s)
  end.

(** The globals as the startup code leaves them, over a given memory. *)
Definition btldr_reset (m : mem) : btldr := {|
  run_state := RUN_STATE_BTLDR_START;
  btldr_state := I2C_BTLDR_STATE_OK;
  app_status := 0;
  flash_state := FLASH_STATE_IDLE;
  flash_addr := 0;
  i2c_state := I2C_STATE_IDLE;
  i2c_buf := replicate i2c_buf_len 0;
  i2c_offset := 0;
  i2c_out_remaining := 0;
  i2c_reg := I2C_BTLDR_REG_RESV;
  memory := m |}.

(** [main] up to the start-key loop, then one step per sample. *)
Definition main_init (m : mem) : phase_t * btldr :=
  let s := init_run_state (btldr_reset m) in
  (after_start_loop I2C_62500_US_TIMEOUT I2C_TIMEOUT_COUNT s, s).

Definition main (m : mem) (samples : list i2c_sample) : phase_t * btldr :=
  fold_left main_step samples (main_init m).
