(* ===== verification/BootloaderInv.v ===== *)
(** What every reachable state of the bootloader satisfies: the buffer indices
    stay inside [i2c_buf], every flash address in use was validated, memory
    outside the two application areas never changes, and the application is
    only started when the image in flash passes every check. *)

From S2P Require Import Prelude Checksum BtldrProto Bootloader.

(** ** Specification: a valid application image *)

(** The 14-byte record of the first EEPROM block. *)
Definition app_record (m : mem) : BtldrEEPROMData :=
  BtldrEEPROMData_of (mreads m FLASH_DATA_EEPROM_START_PHYSICAL_ADDRESS BtldrEEPROMData_size).

Definition app_record_ok (m : mem) : Prop :=
  let bs := mreads m FLASH_DATA_EEPROM_START_PHYSICAL_ADDRESS BtldrEEPROMData_size in
  crc8 IOMCU_CRC8_INIT (take 13 bs) = ed_crc8 (app_record m)
  ∧ ed_magic (app_record m) = BTLDR_EEPROM_DATA_MAGIC.

(** The whole blocks of the application the record describes. *)
Definition app_image (m : mem) : list Z :=
  mreads m BTLDR_STM8L15X_DATA_BASE
    (Z.to_nat (ed_app_size (app_record m) / FLASH_BLOCK_SIZE * FLASH_BLOCK_SIZE)).

Definition app_valid (m : mem) : Prop :=
  app_record_ok m
  ∧ ed_app_size (app_record m) <= BTLDR_STM8L15X_DATA_SIZE
  ∧ mread m BTLDR_STM8L15X_DATA_BASE = BTLDR_STM8L15X_INT_OPCODE
  ∧ crc16 IOMCU_CRC16_INIT (app_image m) = ed_app_crc16 (app_record m).

(** Addresses the bootloader may program: the application's flash, the
    EEPROM (its first block holds the application record). *)
Definition writable (a : Z) : Prop :=
  BTLDR_STM8L15X_DATA_BASE <= a < BTLDR_STM8L15X_DATA_BASE + BTLDR_STM8L15X_DATA_SIZE
  ∨ FLASH_DATA_EEPROM_START_PHYSICAL_ADDRESS <= a
    < FLASH_DATA_EEPROM_START_PHYSICAL_ADDRESS + FLASH_DATA_EEPROM_BLOCKS_NUMBER * FLASH_BLOCK_SIZE.

Definition same_outside (m0 m : mem) : Prop := ∀ a, ¬ writable a → mread m a = mread m0 a.

Definition ready (s : btldr) : Prop :=
  Z.land (app_status s) I2C_BTLDR_APP_STATUS_READY_MASK = I2C_BTLDR_APP_STATUS_READY_READY.

(** ** Arithmetic of the address check *)

Definition eeprom_addr_ok (a : Z) : Prop :=
  a mod 128 = 0 ∧ BTLDR_STM8L15X_EEPROM_BASE <= a
  < BTLDR_STM8L15X_EEPROM_BASE + BTLDR_STM8L15X_EEPROM_SIZE.
Definition data_addr_ok (a : Z) : Prop :=
  a mod 128 = 0 ∧ BTLDR_STM8L15X_DATA_BASE <= a
  < BTLDR_STM8L15X_DATA_BASE + BTLDR_STM8L15X_DATA_SIZE.

Definition flash_ok (f : flash_state_t) (a : Z) : Prop :=
  match f with
  | FLASH_STATE_IDLE | FLASH_STATE_APP_INFO_WRITE_RUN => True
  | FLASH_STATE_EEPROM_READ_ADDR_READY | FLASH_STATE_EEPROM_READ_RUN
  | FLASH_STATE_EEPROM_READ_DATA_READY | FLASH_STATE_EEPROM_WRITE_ADDR_READY
  | FLASH_STATE_EEPROM_WRITE_DATA_READY | FLASH_STATE_EEPROM_WRITE_RUN => eeprom_addr_ok a
  | _ => data_addr_ok a
  end.

Lemma land_7f_mod a : Z.land a 0x7f = a mod 128.
Proof. change 0x7f with (Z.ones 7). rewrite Z.land_ones by lia. reflexivity. Qed.

Lemma check_flash_addr_ok cmd a : check_flash_addr cmd a = I2C_BTLDR_STATE_OK →
  (cmd = I2C_BTLDR_REG_EEPROM_READ_ADDR ∨ cmd = I2C_BTLDR_REG_EEPROM_WRITE_ADDR → eeprom_addr_ok a)
  ∧ (cmd = I2C_BTLDR_REG_DATA_READ_ADDR ∨ cmd = I2C_BTLDR_REG_DATA_WRITE_ADDR → data_addr_ok a).
Proof.
  unfold check_flash_addr, c_true, eeprom_addr_ok, data_addr_ok.
  rewrite land_7f_mod. intros H.
  destruct (Z.eqb_spec (a mod 128) 0) as [Hm|]; [|done]. simpl in H.
  split; intros [->| ->]; simpl in H; flash_geometry;
    destruct (_ || _) eqn:E in H; try done; bool_prop; lia.
Qed.

(** ** Programming one block *)

Lemma flash_copy_mwrites m p l : 0 <= p → p + Z.of_nat (length l) <= 65536 →
  flash_copy m p l = mwrites m p l.
Proof.
  revert m p. induction l as [|b l IH]; intros m p Hp Hl; simpl in *; [done|].
  rewrite u16_small by (unfold is_u16; lia). apply IH; lia.
Qed.

Definition block_of (s : btldr) : list Z := take 128 (i2c_buf s).

Lemma programblock_eq m start a memtype buf :
  (memtype = FLASH_MemType_Program ∧ start = FLASH_PROGRAM_START_PHYSICAL_ADDRESS
   ∨ memtype = FLASH_MemType_Data ∧ start = FLASH_DATA_EEPROM_START_PHYSICAL_ADDRESS) →
  a mod 128 = 0 → start <= a → a + 128 <= 65536 →
  flash_programblock m (u16 (u32 (a - start) / FLASH_BLOCK_SIZE)) memtype buf
  = mwrites m a (take 128 buf).
Proof.
  intros Hs Hm Hlo Hhi. unfold flash_programblock, flash_programblock_mem.
  assert (Hq : ∃ q, a = start + 128 * q ∧ 0 <= q).
  { apply Z.mod_divide in Hm as [q ->]; [|done]. destruct Hs as [[_ ->]|[_ ->]].
    - exists (q - 256). lia.
    - exists (q - 32). lia. }
  destruct Hq as (q & -> & Hq).
  assert (Hst : match memtype with FLASH_MemType_Program => 32768 | FLASH_MemType_Data => 4096 end = start)
    by (destruct Hs as [[-> ->]|[-> ->]]; done).
  assert (0 <= start) by (destruct Hs as [[_ ->]|[_ ->]]; lia).
  rewrite Hst. replace (start + 128 * q - start) with (q * 128) by lia.
  rewrite (u32_small (q * 128)) by (unfold is_u32; lia). rewrite Z.div_mul by done.
  rewrite (u16_small q) by (unfold is_u16; lia).
  rewrite (u32_small (q * 128)), u32_small, u16_small by (unfold is_u16, is_u32; lia).
  replace (start + q * 128) with (start + 128 * q) by lia.
  apply flash_copy_mwrites; [lia|]. rewrite length_take. change (Z.to_nat 128) with 128%nat. lia.
Qed.

(** ** Invariants *)

(** Everything but the position in the I2C message. *)
Record core (m0 : mem) (s : btldr) : Prop := {
  c_len : length (i2c_buf s) = i2c_buf_len;
  c_buf : bytes (i2c_buf s);
  c_bst : is_u8 (btldr_state s);
  c_app : is_u8 (app_status s);
  c_reg : is_u8 (i2c_reg s);
  c_mem : mem_bytes (memory s);
  c_flash : flash_ok (flash_state s) (flash_addr s);
  c_quiet : run_state s ≠ RUN_STATE_BTLDR_RUN → flash_state s = FLASH_STATE_IDLE ∧ ready s;
  c_valid : ready s → app_valid (memory s);
  c_frame : same_outside m0 (memory s)
}.

(** The registers a master can select while the bootloader waits for the
    start key. *)
Definition locked_reg (r : Z) : Prop :=
  r = I2C_BTLDR_REG_START ∨ r = I2C_BTLDR_REG_RESV_2 ∨ r = I2C_BTLDR_REG_RESV.

(** The position in the message: indices inside the buffer, zero offset
    outside a message, and room for what is left to send. *)
Record pos (s : btldr) : Prop := {
  p_off : 0 <= i2c_offset s <= I2C_BUF_SIZE;
  p_rem : 0 <= i2c_out_remaining s;
  p_zero : i2c_state s ≠ I2C_STATE_DATA_IN → i2c_state s ≠ I2C_STATE_DATA_OUT → i2c_offset s = 0;
  p_sum : i2c_state s = I2C_STATE_DATA_OUT →
    i2c_offset s + i2c_out_remaining s <= Z.of_nat i2c_buf_len;
  p_max : i2c_state s ≠ I2C_STATE_DATA_OUT → i2c_out_remaining s <= FLASH_BLOCK_SIZE;
  p_lock : run_state s ≠ RUN_STATE_BTLDR_RUN → locked_reg (i2c_reg s)
}.

Definition inv (m0 : mem) (s : btldr) : Prop := core m0 s ∧ pos s.

Create HintDb btldr.
#[export] Hint Resolve c_len c_buf c_bst c_app c_reg c_mem c_flash c_quiet c_valid c_frame : btldr.
#[export] Hint Resolve p_off p_rem p_zero p_sum p_max p_lock : btldr.

(** Splits a state invariant of an updated state into its field goals. *)
Ltac inv_fields :=
  match goal with
  | H : core _ ?s |- _ => destruct H; destruct s; unfold ready in *; cbn in *; constructor; cbn
  | H : pos ?s |- _ => destruct H; destruct s; cbn in *; constructor; cbn
  end; auto with btldr beep.

Ltac pos_fields :=
  match goal with
  | H : pos ?s |- _ =>
      let Hz := fresh in let Hm := fresh in
      pose proof (p_zero _ H) as Hz; pose proof (p_max _ H) as Hm;
      destruct H; destruct s; cbn in *; subst; constructor; cbn; intros;
      try done; try (apply Hz; done); try (apply Hm; done); auto; try lia
  end.

Ltac u8_const := unfold is_u8, IOMCU_CRC8_INIT; lia.

(** Updates that touch one field. *)
Lemma core_set_btldr_state m0 v s : core m0 s → is_u8 v → core m0 (set_btldr_state v s).
Proof. intros. inv_fields. Qed.
Lemma core_set_i2c_state m0 v s : core m0 s → core m0 (set_i2c_state v s).
Proof. intros. inv_fields. Qed.
Lemma core_set_i2c_offset m0 v s : core m0 s → core m0 (set_i2c_offset v s).
Proof. intros. inv_fields. Qed.
Lemma core_set_out_remaining m0 v s : core m0 s → core m0 (set_i2c_out_remaining v s).
Proof. intros. inv_fields. Qed.
Lemma core_set_i2c_reg m0 v s : core m0 s → is_u8 v → core m0 (set_i2c_reg v s).
Proof. intros. inv_fields. Qed.
Lemma core_set_i2c_buf m0 v s : core m0 s → length v = i2c_buf_len → bytes v →
  core m0 (set_i2c_buf v s).
Proof. intros. inv_fields. Qed.
Lemma core_flash_idle m0 s : core m0 s → core m0 (set_flash_state FLASH_STATE_IDLE s).
Proof. intros. inv_fields. intros Hr. split; [done|]. by destruct (c_quiet0 Hr). Qed.

#[export] Hint Resolve core_set_btldr_state core_set_i2c_state core_set_i2c_offset
  core_set_out_remaining core_set_i2c_reg core_set_i2c_buf core_flash_idle : btldr.

Lemma reset_inv m0 s : core m0 s → pos s ∨ i2c_state s ≠ I2C_STATE_IDLE → inv m0 (I2C_STATE_RESET s).
Proof.
  intros Hc Hp. unfold I2C_STATE_RESET.
  destruct (i2c_state s) eqn:E; split; auto;
    try (destruct Hp as [Hp|Hp]; [done|congruence]).
  all: try (repeat (apply core_set_i2c_reg || apply core_set_i2c_offset || apply core_set_out_remaining
    || apply core_set_i2c_state); [done|u8_const]).
  all: constructor; cbn; unfold locked_reg; lia || auto.
Qed.

(** ** Reading from the peripheral never leaves the buffer *)

Lemma core_reply m0 l size s : core m0 s → bytes l → core m0 (reply l size s).
Proof.
  intros Hc Hl. unfold reply. apply core_set_out_remaining, core_set_i2c_buf; auto.
  - rewrite length_inserts. by destruct Hc.
  - apply bytes_inserts; [by destruct Hc|done].
Qed.

Lemma bytes_replicate n x : is_u8 x → bytes (replicate n x).
Proof. intros. by apply Forall_replicate. Qed.

Lemma core_reply_error m0 e s : core m0 s → is_u8 e → core m0 (reply_error e s).
Proof.
  intros Hc He. unfold reply_error.
  apply core_set_btldr_state; [|done].
  apply core_set_out_remaining, core_set_i2c_offset, core_set_i2c_buf; [done| |].
  - rewrite length_inserts. by destruct Hc.
  - apply bytes_inserts; [by destruct Hc|apply bytes_replicate; u8_const].
Qed.

Lemma bytes_BtldrInfo p : bytes (BtldrInfo_bytes p).
Proof. unfold BtldrInfo_bytes. eauto 10 with beep. Qed.
Lemma bytes_BtldrFlashInfo p : bytes (BtldrFlashInfo_bytes p).
Proof. unfold BtldrFlashInfo_bytes. eauto 20 with beep. Qed.
Lemma bytes_single z : bytes [u8 z].
Proof. constructor; [apply u8_range|constructor]. Qed.
#[export] Hint Resolve bytes_single : beep.
Lemma bytes_BtldrAppInfo p : bytes (BtldrAppInfo_bytes p).
Proof. unfold BtldrAppInfo_bytes. eauto 10 with beep. Qed.
Lemma bytes_BtldrAppInfoSet p : bytes (BtldrAppInfoSet_bytes p).
Proof. unfold BtldrAppInfoSet_bytes. eauto 10 with beep. Qed.
Lemma bytes_BtldrEEPROMData_head p : bytes (BtldrEEPROMData_head p).
Proof. unfold BtldrEEPROMData_head. eauto 10 with beep. Qed.
Lemma bytes_BtldrDeviceInfo m : mem_bytes m → bytes (BtldrDeviceInfo_bytes (device_info m)).
Proof.
  intros Hm. unfold BtldrDeviceInfo_bytes.
  repeat apply bytes_app; auto with beep; apply Forall_fmap, Forall_true; intros; apply Hm.
Qed.

(** A flash state other than idle may be entered only in the command loop and
    with an address validated for it. *)
Lemma core_set_flash_state m0 f s : core m0 s → flash_ok f (flash_addr s) →
  (f ≠ FLASH_STATE_IDLE → run_state s = RUN_STATE_BTLDR_RUN) → core m0 (set_flash_state f s).
Proof.
  intros Hc Hf Hr. inv_fields. intros Hn. split; [|by destruct (c_quiet0 Hn)].
  destruct (decide (f = FLASH_STATE_IDLE)); [done|]. by destruct (Hn (Hr n)).
Qed.

Lemma busy_running m0 s : core m0 s → flash_state s ≠ FLASH_STATE_IDLE →
  run_state s = RUN_STATE_BTLDR_RUN.
Proof.
  intros Hc Hf. destruct (decide (run_state s = RUN_STATE_BTLDR_RUN)) as [|Hn]; [done|].
  by destruct (c_quiet m0 s Hc Hn).
Qed.

Lemma core_status_flash_step m0 b s s' : core m0 s → core m0 s' →
  flash_addr s' = flash_addr s → run_state s' = run_state s →
  core m0 (status_flash_step (flash_state s) b s').
Proof.
  intros Hc Hc' Ha Hr. unfold status_flash_step. case_bool_decide as Hf; [|done]. simpl.
  destruct (b =? 0); [|done].
  pose proof (c_flash _ _ Hc) as Hok. pose proof (busy_running _ _ Hc Hf) as Hrun.
  destruct (flash_state s); try (apply core_set_btldr_state; [done|u8_const]);
    apply core_set_flash_state; try done; rewrite ?Ha, ?Hr; done.
Qed.

Lemma core_cmd_data_out m0 cmd s : core m0 s → core m0 (cmd_data_out cmd s).
Proof.
  intros Hc. unfold cmd_data_out.
  set (s1 := set_flash_state FLASH_STATE_IDLE (set_i2c_offset 0 (set_btldr_state 0 s))).
  assert (Hc1 : core m0 s1) by (subst s1; apply core_flash_idle, core_set_i2c_offset,
    core_set_btldr_state; [done|u8_const]).
  split_ifs; auto using core_flash_idle, core_reply, bytes_BtldrInfo, bytes_BtldrFlashInfo,
    bytes_BtldrAppInfo.
  - apply core_reply; [by apply core_status_flash_step|]. apply Forall_singleton. by destruct Hc.
  - apply core_reply; [done|]. apply bytes_BtldrDeviceInfo. by destruct Hc1.
  - apply core_reply_error; [done|u8_const].
  - apply core_reply_error; [done|u8_const].
Qed.

(** After [cmd_data_out] the reply starts at offset 0 and fits the buffer. *)
Lemma cmd_data_out_pos cmd s : pos s → i2c_state s = I2C_STATE_OUT_START_WAIT →
  let s' := cmd_data_out cmd s in
  i2c_offset s' = 0 ∧ 0 <= i2c_out_remaining s' <= I2C_BUF_SIZE ∧
  i2c_reg s' = i2c_reg s ∧ run_state s' = run_state s.
Proof.
  intros Hp Hst. pose proof (p_rem _ Hp). pose proof (p_max _ Hp ltac:(by rewrite Hst)).
  unfold cmd_data_out, status_flash_step, reply, reply_error.
  split_ifs; cbn; try (repeat split; lia).
  all: destruct (flash_state s); cbn; repeat split; lia.
Qed.

Lemma message_start_inv m0 tra s : inv m0 s → inv m0 (i2c_message_start tra s).
Proof.
  intros [Hc Hp]. unfold i2c_message_start. destruct (i2c_state s) eqn:Hst.
  - destruct tra; [|done]. split; [by apply core_set_i2c_state|].
    pos_fields.
  - apply reset_inv; auto.
  - apply reset_inv; auto.
  - destruct tra; [apply reset_inv; auto|].
    destruct (cmd_data_out_pos (i2c_reg s) s Hp Hst) as (Ho & Hr & Hreg & Hrun).
    pose proof (p_lock _ Hp) as Hlk.
    pose proof (core_cmd_data_out m0 (i2c_reg s) s Hc) as Hc'.
    set (s' := cmd_data_out (i2c_reg s) s) in *. split.
    + apply core_set_i2c_state, core_set_out_remaining, core_set_i2c_buf; [done|..].
      * rewrite length_insert. by destruct Hc'.
      * apply bytes_insert; [by destruct Hc'|]. unfold i2c_message_checksum.
        apply crc8_range; [apply u8_range|]. apply Forall_take, Forall_drop. by destruct Hc'.
    + constructor; cbn; rewrite ?Ho, ?Hreg, ?Hrun; try done; rewrite u8_small by (unfold is_u8; lia);
        unfold i2c_buf_len; lia.
  - apply reset_inv; auto.
Qed.

Lemma byte_out_inv m0 s : inv m0 s → inv m0 (i2c_byte_out s).2.
Proof.
  intros [Hc Hp]. unfold i2c_byte_out. destruct (i2c_state s) eqn:Hst; cbn [snd];
    try (apply reset_inv; auto; fail).
  unfold c_true. destruct (Z.eqb_spec (i2c_out_remaining s) 0) as [Hz|Hz]; simpl.
  - split; [apply core_set_btldr_state; [done|u8_const]|]. pos_fields.
  - destruct (Z.ltb_spec (i2c_offset s) 192) as [Hlt|Hge]; cbn [snd].
    + pose proof (p_sum _ Hp Hst). destruct Hp; destruct s; cbn in *; subst. unfold i2c_buf_len in *.
      split; [apply core_set_out_remaining, core_set_i2c_offset; done|].
      constructor; cbn; rewrite ?u8_small by (unfold is_u8; lia); unfold i2c_buf_len; try lia; auto; done.
    + split; [apply core_set_btldr_state; [done|u8_const]|]. pos_fields.
Qed.

Lemma land_128_cases b : is_u8 b → Z.land b 128 = 0 ∨ Z.land b 128 = 128.
Proof.
  intros Hb. pose proof (byte_forall (λ b, (Z.land b 128 =? 0) || (Z.land b 128 =? 128)) b
    eq_refl Hb) as H. cbn beta in H. bool_prop. destruct H as [H|H]; bool_prop; auto.
Qed.

Lemma byte_in_inv m0 byte s : inv m0 s → is_u8 byte → inv m0 (i2c_byte_in byte s).
Proof.
  intros [Hc Hp] Hb. unfold i2c_byte_in. destruct (i2c_state s) eqn:Hst;
    try (apply reset_inv; auto; fail).
  - destruct (byte =? 255); [apply reset_inv; auto|]. cbn [negb].
    set (s1 := if _ || _ then _ else _).
    assert (Hc1 : core m0 s1).
    { subst s1. destruct (_ || _); apply core_set_i2c_reg; auto. apply (lor_range 8); [lia|lia|].
      apply (land_range_l 8); [lia|]. unfold is_u8 in Hb. lia. }
    assert (Hp1 : i2c_offset s1 = 0 ∧ i2c_out_remaining s1 = i2c_out_remaining s)
      by (subst s1; destruct (_ || _); cbn; split; auto; apply (p_zero _ Hp); by rewrite Hst).
    destruct Hp1 as [Ho Hr]. pose proof (p_rem _ Hp). pose proof (p_max _ Hp ltac:(by rewrite Hst)).
    assert (Hl1 : run_state s1 ≠ RUN_STATE_BTLDR_RUN → locked_reg (i2c_reg s1)).
    { subst s1. case_bool_decide as Hrun; cbn; [done|]. intros _. unfold locked_reg.
      destruct (Z.eqb_spec byte 128); cbn; [by left|].
      destruct (land_128_cases byte Hb) as [->| ->]; auto. }
    destruct (_ =? 0); (split; [by apply core_set_i2c_state|constructor; cbn; rewrite ?Ho, ?Hr; done || lia]).
  - destruct (Z.ltb_spec (i2c_offset s) 192) as [Hlt|Hge].
    + split.
      * apply core_set_i2c_offset, core_set_i2c_buf; [done|..].
        -- rewrite length_insert. by destruct Hc.
        -- apply bytes_insert; [by destruct Hc|done].
      * destruct Hp; destruct s; cbn in *; subst.
        constructor; cbn; rewrite ?u8_small by (unfold is_u8; lia); auto; done || lia.
    + split; [apply core_set_btldr_state; [done|u8_const]|]. pos_fields.
Qed.

(** ** Registers written by the master *)

Lemma core_cmd_set_addr m0 cmd s : core m0 s → flash_state s = FLASH_STATE_IDLE →
  (run_state s = RUN_STATE_BTLDR_RUN) →
  cmd = I2C_BTLDR_REG_EEPROM_READ_ADDR ∨ cmd = I2C_BTLDR_REG_DATA_READ_ADDR ∨
  cmd = I2C_BTLDR_REG_EEPROM_WRITE_ADDR ∨ cmd = I2C_BTLDR_REG_DATA_WRITE_ADDR →
  core m0 (cmd_set_addr cmd s).
Proof.
  intros Hc Hf Hr Hcmd. unfold cmd_set_addr. cbn [btldr_state set_btldr_state].
  assert (Hu : is_u8 (check_flash_addr cmd (get32 (i2c_buf s) 0))).
  { unfold check_flash_addr. split_ifs; u8_const. }
  destruct (Z.eqb_spec (check_flash_addr cmd (get32 (i2c_buf s) 0)) 0) as [Ha|].
  - destruct (check_flash_addr_ok _ _ Ha) as [He Hd].
    assert (Hc' : core m0 (set_flash_addr (get32 (i2c_buf s) 0) (set_btldr_state (check_flash_addr cmd (get32 (i2c_buf s) 0)) s))).
    { inv_fields. by rewrite Hf. }
    unfold set_addr_ready_flash_state.
    destruct Hcmd as [->|[->|[->| ->]]]; cbn -[set_flash_state set_flash_addr set_btldr_state];
      apply core_set_flash_state; auto; cbn; auto.
  - by apply core_set_btldr_state.
Qed.

Lemma core_cmd_write_block m0 cmd s s' : core m0 s → core m0 s' →
  flash_addr s' = flash_addr s → run_state s' = run_state s →
  core m0 (cmd_write_block cmd (flash_state s) s').
Proof.
  intros Hc Hc' Ha Hr. unfold cmd_write_block.
  pose proof (c_flash _ _ Hc) as Hok. pose proof (busy_running _ _ Hc) as Hrun.
  destruct (_ =? 128); [|apply core_set_btldr_state; [done|u8_const]].
  case_bool_decide as H1; [rewrite H1 in *|]; cbn [andb].
  - destruct (cmd =? 136).
    + apply core_set_flash_state; [done|by rewrite Ha|]. rewrite Hr. auto.
    + apply core_set_btldr_state; [by apply core_flash_idle|u8_const].
  - case_bool_decide as H2; [rewrite H2 in *|]; cbn [andb].
    + destruct (cmd =? 138).
      * apply core_set_flash_state; [done|by rewrite Ha|]. rewrite Hr. auto.
      * apply core_set_btldr_state; [by apply core_flash_idle|u8_const].
    + apply core_set_btldr_state; [by apply core_flash_idle|u8_const].
Qed.

Lemma core_cmd_start m0 s : core m0 s → flash_state s = FLASH_STATE_IDLE → core m0 (cmd_start s).
Proof.
  intros Hc Hf. unfold cmd_start.
  destruct (_ =? 4); [|apply core_set_btldr_state; [done|u8_const]].
  destruct (key_ok _); [|apply core_set_btldr_state; [done|u8_const]].
  destruct (run_state s) eqn:Hr.
  - inv_fields.
  - destruct (Z.eqb_spec (Z.land (app_status s) 127) 1); [inv_fields|].
    apply core_set_btldr_state; [done|u8_const].
  - apply core_set_btldr_state; [done|u8_const].
Qed.

Lemma core_cmd_wait m0 s : core m0 s → core m0 (cmd_wait s).
Proof.
  intros Hc. unfold cmd_wait.
  destruct (_ =? 4); [|apply core_set_btldr_state; [done|u8_const]].
  destruct (key_ok _); [|apply core_set_btldr_state; [done|u8_const]].
  destruct (run_state s) eqn:Hr.
  - inv_fields.
  - inv_fields.
  - apply core_set_btldr_state; [done|u8_const].
Qed.

Lemma core_cmd_data_in m0 cmd s : core m0 s →
  (run_state s ≠ RUN_STATE_BTLDR_RUN → locked_reg cmd) → core m0 (cmd_data_in cmd s).
Proof.
  intros Hc Hl. unfold cmd_data_in.
  set (s1 := set_flash_state FLASH_STATE_IDLE (set_btldr_state 0 s)).
  assert (Hc1 : core m0 s1) by (subst s1; apply core_flash_idle, core_set_btldr_state; [done|u8_const]).
  destruct (Z.eqb_spec cmd 128); [by apply core_cmd_start|].
  destruct (Z.eqb_spec cmd 130); [by apply core_cmd_wait|].
  destruct (decide (run_state s = RUN_STATE_BTLDR_RUN)) as [Hrun|Hrun].
  - destruct (Z.eqb_spec cmd 132).
    { destruct (_ =? 9); [by apply core_set_flash_state|apply core_set_btldr_state; [done|u8_const]]. }
    match goal with |- context [if ?b then cmd_set_addr _ _ else _] => destruct b eqn:E end.
    { apply core_cmd_set_addr; auto. bool_prop. repeat (destruct E as [E|E]; bool_prop); auto. }
    match goal with |- context [if ?b then cmd_write_block _ _ _ else _] => destruct b end;
      [by apply core_cmd_write_block|].
    apply core_set_btldr_state; [done|u8_const].
  - destruct (Hl Hrun) as [->|[->| ->]]; [done|..]; cbn -[set_btldr_state];
      (apply core_set_btldr_state; [done|u8_const]).
Qed.

Lemma cmd_data_in_i2c_state cmd s : i2c_state (cmd_data_in cmd s) = i2c_state s.
Proof.
  unfold cmd_data_in, cmd_start, cmd_wait, cmd_set_addr, set_addr_ready_flash_state, cmd_write_block.
  split_ifs; cbn; try done; destruct (run_state s); cbn; try done; split_ifs; done.
Qed.

Lemma message_stop_inv m0 oob s : inv m0 s → inv m0 (i2c_message_stop oob s).
Proof.
  intros [Hc Hp]. unfold i2c_message_stop. destruct (i2c_state s) eqn:Hst;
    try (apply reset_inv; auto; fail).
  apply reset_inv; [|right].
  - destruct (i2c_message_verify _ _ _).
    + apply core_cmd_data_in; [by apply core_set_i2c_offset|]. apply (p_lock _ Hp).
    + apply core_flash_idle, core_set_btldr_state; [done|u8_const].
  - destruct (i2c_message_verify _ _ _).
    + rewrite cmd_data_in_i2c_state. cbn. by rewrite Hst.
    + cbn. by rewrite Hst.
Qed.

Lemma proc_event_inv m0 e s : inv m0 s → is_u8 (DR e) → inv m0 (i2c_proc_event e s).2.
Proof.
  intros Hi Hdr. unfold i2c_proc_event, i2c_out.
  set (s1 := if c_true (Z.land (SR1 e) 64) then _ else _).
  assert (H1 : inv m0 s1) by (subst s1; destruct (c_true _); auto using byte_in_inv).
  clearbody s1.
  set (s2 := if c_true (Z.land (SR2 e) 4) then i2c_message_stop _ s1 else _).
  assert (H2 : inv m0 s2) by (subst s2; destruct (c_true _); auto using message_stop_inv).
  clearbody s2.
  set (s3 := if c_true (Z.land (SR1 e) 16) then i2c_message_stop _ s2 else _).
  assert (H3 : inv m0 s3) by (subst s3; destruct (c_true _); auto using message_stop_inv).
  clearbody s3.
  set (s4 := if c_true (Z.land (SR1 e) 2) then _ else _).
  assert (H4 : inv m0 s4) by (subst s4; destruct (c_true _); auto using message_start_inv).
  clearbody s4. pose proof (byte_out_inv m0 s4 H4) as H5.
  destruct (i2c_byte_out s4) as [b5 s5] eqn:E5. cbn [snd] in H5.
  pose proof (byte_out_inv m0 s5 H5) as H6.
  destruct (_ =? Z.lor _ _); destruct (c_true (Z.land (SR1 e) 128)); rewrite ?E5; cbn [snd]; auto.
  by destruct (i2c_byte_out s5).
Qed.

(** ** The application record and status *)

Lemma read_app_info_bytes m :
  (λ i, FLASH_ReadByte m (BTLDR_EEPROM_DATA_OFFSET + i)) <$> seqZ 0 (Z.of_nat BtldrEEPROMData_size)
  = mreads m 0x1000 14.
Proof.
  change (mreads m 0x1000 14) with (mreads m 0x1000 (Z.to_nat (Z.of_nat BtldrEEPROMData_size))).
  apply fmap_seqZ_mreads; [unfold BtldrEEPROMData_size; lia|].
  intros i Hi. unfold FLASH_ReadByte. rewrite u16_small; [done|].
  unfold is_u16, BtldrEEPROMData_size in *. lia.
Qed.

Lemma block_bytes m p : 0 <= p → p + 128 <= 65536 →
  (λ i, mread m (u16 (p + i))) <$> seqZ 0 FLASH_BLOCK_SIZE = mreads m p 128.
Proof.
  intros H1 H2. change 128%nat with (Z.to_nat 128). apply fmap_seqZ_mreads; [lia|].
  intros i Hi. rewrite u16_small by (unfold is_u16; lia). done.
Qed.

Lemma app_crc_loop_spec m n p buf crc : 0 <= p → p + 128 * Z.of_nat n <= 65536 →
  length buf = i2c_buf_len → bytes buf → mem_bytes m →
  let '(buf', crc') := app_crc_loop m n p buf crc in
  crc' = crc16 crc (mreads m p (128 * n)) ∧ length buf' = i2c_buf_len ∧ bytes buf'.
Proof.
  revert p buf crc. induction n as [|n IH]; intros p buf crc Hp Hn Hl Hb Hm; cbn [app_crc_loop]; [done|].
  rewrite block_bytes by lia. change (Z.to_nat 128) with 128%nat.
  assert (Hins : list_inserts 0 (mreads m p 128) buf = mreads m p 128 ++ drop 128 buf).
  { rewrite list_inserts_0; rewrite length_mreads; [done|]. rewrite Hl. unfold i2c_buf_len. lia. }
  rewrite Hins.
  assert (Ht : take 128 (mreads m p 128 ++ drop 128 buf) = mreads m p 128).
  { rewrite take_app_le by (rewrite length_mreads; lia). apply take_ge. by rewrite length_mreads. }
  rewrite Ht. assert (Hl' : length (mreads m p 128 ++ drop 128 buf) = i2c_buf_len).
  { rewrite length_app, length_mreads, length_drop, Hl. done. }
  assert (Hb' : bytes (mreads m p 128 ++ drop 128 buf)).
  { apply bytes_app; [by apply bytes_mreads|by apply Forall_drop]. }
  assert (Hcrc : crc16 crc (mreads m p (128 * S n))
    = crc16 (crc16 crc (mreads m p 128)) (mreads m (p + 128) (128 * n))).
  { replace (128 * S n)%nat with (128 + 128 * n)%nat by lia. rewrite mreads_app, crc16_app. done. }
  destruct n as [|n].
  - cbn [app_crc_loop]. rewrite Hcrc. done.
  - rewrite u16_small by (unfold is_u16; lia).
    specialize (IH (p + 128) _ (crc16 crc (mreads m p 128)) ltac:(lia) ltac:(lia) Hl' Hb' Hm).
    destruct (app_crc_loop _ _ _ _ _). rewrite Hcrc. done.
Qed.

Lemma bytes_get_u8 l i : bytes l → is_u8 (l !!! i).
Proof. apply bytes_lookup. Qed.

Lemma get16_range l o : bytes l → is_u16 (get16 l o).
Proof.
  intros Hl. unfold get16. pose proof (bytes_lookup l o Hl). pose proof (bytes_lookup l (o + 1) Hl).
  unfold is_u8, is_u16 in *. lia.
Qed.

Lemma get32_range l o : bytes l → is_u32 (get32 l o).
Proof.
  intros Hl. unfold get32. pose proof (get16_range l o Hl). pose proof (get16_range l (o + 2) Hl).
  unfold is_u16, is_u32 in *. lia.
Qed.

(** The status byte that [update_app_status] computes from the flags of the
    record and a verdict. *)
Definition verdict (autoboot k : Z) : Z :=
  Z.lor (Z.land (Z.lor I2C_BTLDR_APP_STATUS_READY_RESV autoboot) I2C_BTLDR_APP_STATUS_AUTOBOOT_MASK) k.

Lemma verdict_facts a k : is_u8 a → 0 <= k < 4 →
  Z.land (Z.lor 0x7f a) 0x7f = 0x7f ∧ Z.land (verdict a k) 0x7f = k ∧ is_u8 (verdict a k)
  ∧ Z.land (verdict a k) 0x80 = Z.land a 0x80.
Proof.
  intros Ha Hk. pose proof (byte_forall (λ a, forallb (λ k,
    (Z.land (Z.lor 0x7f a) 0x7f =? 0x7f) && (Z.land (verdict a k) 0x7f =? k)
    && (0 <=? verdict a k) && (verdict a k <? 256)
    && (Z.land (verdict a k) 0x80 =? Z.land a 0x80)) [0; 1; 2; 3]) a eq_refl Ha) as H.
  cbn beta in H. rewrite forallb_forall in H. specialize (H k).
  assert (Hin : In k [0; 1; 2; 3]) by (simpl; lia). specialize (H Hin). bool_prop.
  unfold is_u8. auto.
Qed.

(** What [update_app_status] leaves alone. *)
Definition same_but_status (s s' : btldr) : Prop :=
  run_state s' = run_state s ∧ btldr_state s' = btldr_state s ∧ flash_state s' = flash_state s
  ∧ flash_addr s' = flash_addr s ∧ i2c_state s' = i2c_state s ∧ i2c_offset s' = i2c_offset s
  ∧ i2c_out_remaining s' = i2c_out_remaining s ∧ i2c_reg s' = i2c_reg s ∧ memory s' = memory s.

Lemma app_image_blocks m : 0 <= ed_app_size (app_record m) →
  app_image m = mreads m BTLDR_STM8L15X_DATA_BASE
    (128 * Z.to_nat (ed_app_size (app_record m) / FLASH_BLOCK_SIZE)).
Proof.
  intros H. unfold app_image. f_equal.
  assert (0 <= ed_app_size (app_record m) / 128) by (apply Z.div_pos; lia). lia.
Qed.

Definition status_post (s s' : btldr) : Prop :=
  ((ready s' ↔ app_valid (memory s))
   ∧ (ready s' → Z.land (app_status s') 0x80 = Z.land (ed_autoboot (app_record (memory s))) 0x80)) ∧ is_u8 (app_status s') ∧ same_but_status s s'
  ∧ length (i2c_buf s') = i2c_buf_len ∧ bytes (i2c_buf s').

Lemma status_post_intro s s' v buf :
  s' = set_app_status v (set_i2c_buf buf s) → is_u8 v → length buf = i2c_buf_len → bytes buf →
  (Z.land v 0x7f = 1 ↔ app_valid (memory s)) →
  (Z.land v 0x7f = 1 → Z.land v 0x80 = Z.land (ed_autoboot (app_record (memory s))) 0x80) →
  status_post s s'.
Proof. intros -> Hv Hl Hb Hr Ha. unfold status_post, same_but_status. by split_and!. Qed.

(** The crc part of [update_app_status], once the record and the reset vector
    are right. *)
Lemma update_app_crc s (d := app_record (memory s)) :
  length (i2c_buf s) = i2c_buf_len → bytes (i2c_buf s) → mem_bytes (memory s) →
  app_record_ok (memory s) → is_u8 (ed_autoboot d) → is_u32 (ed_app_size d) →
  ed_app_size d <= BTLDR_STM8L15X_DATA_SIZE →
  mread (memory s) BTLDR_STM8L15X_DATA_BASE = BTLDR_STM8L15X_INT_OPCODE →
  status_post s
    (let '(buf, c) := app_crc_loop (memory s) (Z.to_nat (u16 (ed_app_size d / FLASH_BLOCK_SIZE)))
       BTLDR_STM8L15X_DATA_BASE (i2c_buf s) IOMCU_CRC16_INIT in
     if negb (c =? ed_app_crc16 d)
     then set_app_status (verdict (ed_autoboot d) 2) (set_i2c_buf buf s)
     else set_app_status (verdict (ed_autoboot d) 1) (set_i2c_buf buf s)).
Proof.
  intros Hl Hb Hm Hok Hab Hsz Hfit Hrv. flash_geometry.
  assert (Hdiv : 0 <= ed_app_size d / 128 ∧ 128 * (ed_app_size d / 128) <= ed_app_size d).
  { unfold is_u32 in Hsz. split; [apply Z.div_pos; lia|apply Z.mul_div_le; lia]. }
  rewrite (u16_small (ed_app_size d / 128)) by (unfold is_u16; lia).
  pose proof (app_crc_loop_spec (memory s) (Z.to_nat (ed_app_size d / 128)) 0xa000 (i2c_buf s)
    IOMCU_CRC16_INIT ltac:(lia) ltac:(lia) Hl Hb Hm) as Hloop.
  destruct (app_crc_loop _ _ _ _ _) as [buf c]. destruct Hloop as (Hcrc & Hl' & Hb').
  pose proof (app_image_blocks (memory s) ltac:(fold d; unfold is_u32 in Hsz; lia)) as Himg.
  fold d in Himg. rewrite DATA_BASE_val in Himg. rewrite <- Himg in Hcrc.
  destruct (Z.eqb_spec c (ed_app_crc16 d)) as [Heq|Hbad]; cbn [negb].
  - destruct (verdict_facts (ed_autoboot d) 1 Hab ltac:(lia)) as (_ & Hv & Hv8 & Hab').
    apply (status_post_intro s _ (verdict (ed_autoboot d) 1) buf); auto; rewrite Hv; try done.
    split; [intros _|done]. unfold app_valid. fold d. flash_geometry. by rewrite <- Hcrc.
  - destruct (verdict_facts (ed_autoboot d) 2 Hab ltac:(lia)) as (_ & Hv & Hv8 & Hab').
    apply (status_post_intro s _ (verdict (ed_autoboot d) 2) buf); auto; rewrite Hv; try done.
    split; [done|]. intros (_ & _ & _ & H4). fold d in H4. exfalso. apply Hbad. by rewrite Hcrc.
Qed.

Lemma update_app_status_spec s :
  length (i2c_buf s) = i2c_buf_len → bytes (i2c_buf s) → mem_bytes (memory s) →
  status_post s (update_app_status s).
Proof.
  intros Hl Hb Hm. unfold update_app_status, read_app_info.
  rewrite read_app_info_bytes. cbn [memory set_app_status app_status].
  change (BtldrEEPROMData_size - 1)%nat with 13%nat.
  change (BtldrEEPROMData_of (mreads (memory s) 4096 14)) with (app_record (memory s)).
  set (d := app_record (memory s)).
  assert (Hbs : bytes (mreads (memory s) FLASH_DATA_EEPROM_START_PHYSICAL_ADDRESS BtldrEEPROMData_size))
    by (by apply bytes_mreads).
  assert (Hab : is_u8 (ed_autoboot d)) by (by apply bytes_lookup).
  assert (Hsz : is_u32 (ed_app_size d)) by (by apply get32_range).
  set (crc := crc8 _ _).
  assert (Hrec : (crc =? ed_crc8 d) && (ed_magic d =? BTLDR_EEPROM_DATA_MAGIC) = true
    ↔ app_record_ok (memory s)).
  { rewrite andb_true_iff, !Z.eqb_eq. done. }
  destruct ((crc =? ed_crc8 d) && _) eqn:Eok; cbn [ai_status ai_size ai_crc16].
  2:{ apply (status_post_intro s _ 0 (i2c_buf s)); auto; [u8_const| |done].
      split; [done|]. intros [H _]. by apply Hrec in H. }
  assert (Hok : app_record_ok (memory s)) by (by apply Hrec). clear Hrec Eok.
  destruct (verdict_facts (ed_autoboot d) 0 Hab ltac:(lia)) as [-> _]. rewrite Z.eqb_refl.
  destruct (Z.ltb_spec BTLDR_STM8L15X_DATA_SIZE (ed_app_size d)) as [Hbig|Hfit].
  { apply (status_post_intro s _ 0 (i2c_buf s)); auto; [u8_const| |done].
    split; [done|]. intros (_ & H2 & _). fold d in H2. lia. }
  change (u16 BTLDR_STM8L15X_DATA_BASE) with BTLDR_STM8L15X_DATA_BASE.
  cbn [memory set_app_status app_status].
  destruct (Z.eqb_spec (mread (memory s) BTLDR_STM8L15X_DATA_BASE) 130) as [Hrv|Hrv]; cbn [negb].
  2:{ destruct (verdict_facts (ed_autoboot d) 3 Hab ltac:(lia)) as (_ & Hv & Hv8 & Hab').
      apply (status_post_intro s _ (verdict (ed_autoboot d) 3) (i2c_buf s)); auto; rewrite Hv; try done.
      split; [done|]. by intros (_ & _ & H3 & _). }
  exact (update_app_crc s Hl Hb Hm Hok Hab Hsz Hfit Hrv).
Qed.

(** ** Operations that program the flash *)

(** The part of [core] that does not speak about the application status. *)
Record shape (m0 : mem) (s : btldr) : Prop := {
  sh_len : length (i2c_buf s) = i2c_buf_len;
  sh_buf : bytes (i2c_buf s);
  sh_bst : is_u8 (btldr_state s);
  sh_reg : is_u8 (i2c_reg s);
  sh_mem : mem_bytes (memory s);
  sh_flash : flash_ok (flash_state s) (flash_addr s);
  sh_frame : same_outside m0 (memory s)
}.

Lemma core_shape m0 s : core m0 s → shape m0 s.
Proof. intros []. by constructor. Qed.

Lemma core_update m0 s : shape m0 s → run_state s = RUN_STATE_BTLDR_RUN →
  core m0 (update_app_status s).
Proof.
  intros [] Hrun.
  destruct (update_app_status_spec s) as ([Hr _] & H8 & (Hrs & Hbs & Hfs & Hfa & _ & _ & _ & Hreg & Hmem) & Hl & Hb); auto.
  constructor; rewrite ?Hmem, ?Hrs, ?Hbs, ?Hfs, ?Hfa, ?Hreg; auto; [done|]. intros. by apply Hr.
Qed.

Lemma same_outside_writes m0 m a l : same_outside m0 m →
  (∀ b, a <= b < a + Z.of_nat (length l) → writable b) → same_outside m0 (mwrites m a l).
Proof.
  intros Hm Hw b Hb. rewrite mread_mwrites_out; [by apply Hm|].
  destruct (decide (b < a)); [by left|]. right.
  destruct (decide (a + Z.of_nat (length l) <= b)); [done|]. exfalso. apply Hb, Hw. lia.
Qed.

Lemma write_app_info_mem p s : length (i2c_buf s) = i2c_buf_len → bytes (i2c_buf s) →
  ∃ buf, write_app_info p s
    = update_app_status (set_memory (mwrites (memory s) 0x1000 (take 128 buf)) (set_i2c_buf buf s))
  ∧ length buf = i2c_buf_len ∧ bytes buf.
Proof.
  intros Hl Hb. unfold write_app_info. cbv zeta.
  match goal with |- context [set_i2c_buf ?b s] => exists b; set (buf := b) end.
  assert (Hlen : length buf = i2c_buf_len) by (subst buf; rewrite length_insert, !length_inserts; done).
  assert (Hbytes : bytes buf).
  { subst buf. assert (Hx : bytes (list_inserts 0 (BtldrEEPROMData_head {| ed_magic := BTLDR_EEPROM_DATA_MAGIC;
      ed_app_size := as_size p; ed_app_crc16 := as_crc16 p; ed_app_ver := as_app_ver p;
      ed_autoboot := Z.land (as_autoboot p) 128; ed_crc8 := 0 |})
      (list_inserts 0 (replicate (Z.to_nat 128) 0) (i2c_buf s)))).
    { apply bytes_inserts; [|apply bytes_BtldrEEPROMData_head].
      apply bytes_inserts; [done|apply bytes_replicate; u8_const]. }
    apply bytes_insert; [done|]. apply crc8_range; [u8_const|by apply Forall_take]. }
  clearbody buf. split; [|done]. cbn [memory set_i2c_buf i2c_buf]. do 2 f_equal.
  assert (Hpb := programblock_eq (memory s) 0x1000 0x1000 FLASH_MemType_Data buf).
  apply Hpb; auto; lia.
Qed.

Lemma core_write_app_info m0 p s : core m0 s → run_state s = RUN_STATE_BTLDR_RUN →
  core m0 (write_app_info p s).
Proof.
  intros Hc Hrun. destruct (write_app_info_mem p s) as (buf & -> & Hl & Hb); [by destruct Hc..|].
  apply core_update; [|done]. destruct Hc. constructor; cbn; auto.
  - apply mem_bytes_writes; [done|by apply Forall_take].
  - apply same_outside_writes; [done|]. intros b. rewrite length_take. unfold writable. lia.
Qed.

(** [app_valid] looks at the record and the application area only. *)
Lemma app_valid_ext m m' :
  (∀ a, 0x1000 <= a < 0x100e ∨ 0xa000 <= a < 0x10000 → mread m' a = mread m a) →
  mem_bytes m → app_valid m → app_valid m'.
Proof.
  intros Hext Hm (Hok & Hsz & Hrv & Hcrc).
  assert (Hrec : mreads m' 0x1000 14 = mreads m 0x1000 14) by (apply mreads_ext; intros; apply Hext; lia).
  assert (Hd : app_record m' = app_record m)
    by (unfold app_record, BtldrEEPROMData_size; by rewrite Hrec).
  assert (H0 : 0 <= ed_app_size (app_record m)) by (apply get32_range; by apply bytes_mreads).
  unfold app_valid. rewrite Hd. flash_geometry. split_and!; auto.
  - unfold app_record_ok, BtldrEEPROMData_size in *. by rewrite Hd, Hrec.
  - rewrite Hext by lia. done.
  - rewrite <- Hcrc. unfold app_image. rewrite Hd. f_equal. apply mreads_ext. intros b Hb.
    apply Hext. flash_geometry.
    assert (0 <= ed_app_size (app_record m) / 128) by (apply Z.div_pos; lia).
    pose proof (Z.mul_div_le (ed_app_size (app_record m)) 128 ltac:(lia)). lia.
Qed.

Lemma flash_write_mem start memtype s :
  (memtype = FLASH_MemType_Program ∧ start = FLASH_PROGRAM_START_PHYSICAL_ADDRESS ∧ data_addr_ok (flash_addr s)
   ∨ memtype = FLASH_MemType_Data ∧ start = FLASH_DATA_EEPROM_START_PHYSICAL_ADDRESS ∧ eeprom_addr_ok (flash_addr s)) →
  flash_rdwr_run_write start memtype s
  = set_memory (mwrites (memory s) (flash_addr s) (block_of s)) s.
Proof.
  intros H. unfold flash_rdwr_run_write. f_equal.
  destruct H as [(-> & -> & Hm & Ha)|(-> & -> & Hm & Ha)]; flash_geometry;
    (apply programblock_eq; [auto|done|lia|]).
  - apply Z.mod_divide in Hm as [q Hq]; lia.
  - lia.
Qed.

Lemma bytes_block s : bytes (i2c_buf s) → bytes (block_of s).
Proof. apply Forall_take. Qed.

Lemma block_len s : (length (block_of s) <= 128)%nat.
Proof. unfold block_of. rewrite length_take. lia. Qed.

Lemma status_invalidate st : Z.land (Z.lor (Z.land st (Z.lnot 0x7f)) 0) 0x7f = 0.
Proof.
  rewrite Z.lor_0_r, <- Z.land_assoc. replace (Z.land (Z.lnot 0x7f) 0x7f) with 0 by reflexivity.
  apply Z.land_0_r.
Qed.

Lemma status_invalidate_u8 st : is_u8 st → is_u8 (Z.lor (Z.land st (Z.lnot 0x7f)) 0).
Proof. intros H. rewrite Z.lor_0_r. apply (land_range_l 8); [lia|]. unfold is_u8 in H. lia. Qed.

Lemma core_flash_read m0 s f : core m0 s → flash_ok f (flash_addr s) →
  run_state s = RUN_STATE_BTLDR_RUN → core m0 (flash_rdwr_run_read f s).
Proof.
  intros Hc Hf Hr. unfold flash_rdwr_run_read. apply core_set_flash_state; [|done|done].
  apply core_set_i2c_buf; [by apply core_set_out_remaining|rewrite length_inserts; by destruct Hc|].
  apply bytes_inserts; [by destruct Hc|]. apply Forall_fmap, Forall_true. intros. apply (c_mem _ _ Hc).
Qed.

Lemma eeprom_block_writable a b : eeprom_addr_ok a → a <= b < a + 128 → writable b ∧ 0x1080 <= b < 0x1400.
Proof.
  intros [Hm Ha] Hb. unfold writable. flash_geometry. apply Z.mod_divide in Hm as [q Hq]; lia.
Qed.

Lemma data_block_writable a b : data_addr_ok a → a <= b < a + 128 → writable b ∧ 0xa000 <= b < 0x10000.
Proof.
  intros [Hm Ha] Hb. unfold writable. flash_geometry. apply Z.mod_divide in Hm as [q Hq]; lia.
Qed.

Lemma core_flash_rdwr_run m0 s : core m0 s → run_state s = RUN_STATE_BTLDR_RUN →
  core m0 (flash_rdwr_run s).
Proof.
  intros Hc Hrun. unfold flash_rdwr_run. pose proof (c_flash _ _ Hc) as Hok.
  pose proof (bytes_block s (c_buf _ _ Hc)) as Hbb. pose proof (block_len s) as Hbl.
  destruct (flash_state s) eqn:Hf;
    try (apply core_set_btldr_state; [by apply core_flash_idle|u8_const]);
    try (apply core_flash_read; done).
  - rewrite flash_write_mem by auto. apply core_flash_idle. simpl in Hok.
    pose proof (λ b, eeprom_block_writable _ b Hok) as Hw. clear Hok.
    inv_fields.
    + intros Hr. eapply app_valid_ext; [|exact c_mem0|exact (c_valid0 Hr)].
      intros a Haa. apply mread_mwrites_out. destruct (Hw flash_addr ltac:(lia)). lia.
    + apply same_outside_writes; [done|]. intros b Hb. apply Hw. lia.
  - rewrite flash_write_mem by auto. apply core_flash_idle. cbn [app_status set_app_status].
    pose proof (λ b, data_block_writable _ b Hok) as Hw. clear Hok.
    inv_fields.
    + by apply status_invalidate_u8.
    + intros Hr. done.
    + intros Hx. pose proof (eq_trans (eq_sym (status_invalidate app_status)) Hx). done.
    + apply same_outside_writes; [done|]. intros b Hb. apply Hw. lia.
Qed.

(** ** The event loops *)

(** Fields an operation of the command loop must not disturb. *)
Definition same_i2c (s s' : btldr) : Prop :=
  run_state s' = run_state s ∧ i2c_state s' = i2c_state s ∧ i2c_offset s' = i2c_offset s
  ∧ i2c_reg s' = i2c_reg s
  ∧ (i2c_out_remaining s' = i2c_out_remaining s ∨ i2c_out_remaining s' = FLASH_BLOCK_SIZE).

Lemma pos_same_i2c s s' : pos s → i2c_state s = I2C_STATE_IDLE → same_i2c s s' → pos s'.
Proof.
  intros Hp Hst (Hr & Hi & Ho & Hg & Hm). destruct Hp. rewrite Hst in *.
  constructor; rewrite ?Hr, ?Hi, ?Ho, ?Hg; auto; try done.
  - destruct Hm as [->| ->]; [done|lia].
  - intros _. destruct Hm as [->| ->]; [auto|lia].
Qed.

Lemma flash_rdwr_run_i2c s : same_i2c s (flash_rdwr_run s).
Proof. unfold flash_rdwr_run, same_i2c. destruct (flash_state s); cbn; auto 10. Qed.

Lemma write_app_info_run_i2c m0 s : core m0 s → same_i2c s (write_app_info_run s).
Proof.
  intros Hc. unfold write_app_info_run.
  destruct (write_app_info_mem (BtldrAppInfoSet_of (i2c_buf s)) s) as (buf & -> & Hl & Hb); [by destruct Hc..|].
  set (s1 := set_memory _ _).
  assert (Hpost : status_post s1 (update_app_status s1)).
  { apply update_app_status_spec; [done..|].
    apply mem_bytes_writes; [apply (c_mem _ _ Hc)|by apply Forall_take]. }
  assert (Hs1 : same_i2c s s1) by (by split_and!; auto).
  clearbody s1. destruct Hpost as (_ & _ & (Hrs & _ & _ & _ & His & Hio & Hir & Hreg & _) & _).
  revert Hrs His Hio Hir Hreg. generalize (update_app_status s1). intros s2 Hrs His Hio Hir Hreg.
  destruct Hs1 as (H1 & H2 & H3 & H4 & H5). unfold same_i2c. cbn.
  by rewrite Hrs, His, Hio, Hreg, Hir, H1, H2, H3, H4.
Qed.

Lemma run_loop_body_inv m0 s : inv m0 s → run_state s = RUN_STATE_BTLDR_RUN ∨ flash_state s = FLASH_STATE_IDLE →
  inv m0 (run_loop_body s).
Proof.
  intros [Hc Hp] Hr. unfold run_loop_body. destruct (i2c_state s) eqn:Hst; try done.
  destruct (flash_state s) eqn:Hf; try done; (destruct Hr as [Hr|]; [|done]).
  all: try (split; [by apply core_flash_rdwr_run|eapply pos_same_i2c; eauto using flash_rdwr_run_i2c]).
  split; [|eapply pos_same_i2c; eauto using write_app_info_run_i2c].
  unfold write_app_info_run. apply core_flash_idle. by apply core_write_app_info.
Qed.

Lemma idle_or_running m0 s : core m0 s →
  run_state s = RUN_STATE_BTLDR_RUN ∨ flash_state s = FLASH_STATE_IDLE.
Proof.
  intros Hc. destruct (decide (run_state s = RUN_STATE_BTLDR_RUN)) as [|Hn]; [by left|].
  right. by destruct (c_quiet _ _ Hc Hn).
Qed.

(** What holds between two polls: the invariant, and the program point agrees
    with [run_state]. *)
Definition main_inv (m0 : mem) (ps : phase_t * btldr) : Prop :=
  inv m0 ps.2 ∧
  match ps.1 with
  | PStart timeout counter => run_state ps.2 = RUN_STATE_BTLDR_START
      ∧ 0 < timeout <= I2C_62500_US_TIMEOUT ∧ 0 < counter <= I2C_TIMEOUT_COUNT
  | PRun => run_state ps.2 ≠ RUN_STATE_BTLDR_START
  | PApp => run_state ps.2 = RUN_STATE_APP_START
  end.

Definition sample_ok (e : i2c_sample) : Prop := is_u8 (DR e).

Lemma start_gone s s' : run_state s ≠ RUN_STATE_BTLDR_START →
  run_state s' = run_state s ∨ run_state s' = RUN_STATE_BTLDR_RUN ∨ run_state s' = RUN_STATE_APP_START →
  run_state s' ≠ RUN_STATE_BTLDR_START.
Proof. intros H [->|[->| ->]]; done. Qed.

(** The bootloader never goes back to waiting for the start key. *)
Lemma cmd_data_out_run cmd s : run_state (cmd_data_out cmd s) = run_state s.
Proof.
  unfold cmd_data_out, status_flash_step, reply, reply_error.
  split_ifs; cbn; try done; destruct (flash_state s); done.
Qed.

Lemma cmd_data_in_run cmd s : run_state (cmd_data_in cmd s) = run_state s
  ∨ run_state (cmd_data_in cmd s) = RUN_STATE_BTLDR_RUN
  ∨ run_state (cmd_data_in cmd s) = RUN_STATE_APP_START.
Proof.
  unfold cmd_data_in, cmd_start, cmd_wait, cmd_set_addr, set_addr_ready_flash_state, cmd_write_block.
  split_ifs; cbn; auto; destruct (run_state s) eqn:Hrs; cbn; auto; split_ifs; cbn; auto.
Qed.

Lemma reset_run s : run_state (I2C_STATE_RESET s) = run_state s.
Proof. unfold I2C_STATE_RESET. by destruct (i2c_state s). Qed.

Lemma byte_in_run b s : run_state (i2c_byte_in b s) = run_state s.
Proof.
  unfold i2c_byte_in. destruct (i2c_state s); rewrite ?reset_run; try done; split_ifs;
    rewrite ?reset_run; done.
Qed.

Lemma message_start_run t s : run_state (i2c_message_start t s) = run_state s.
Proof.
  unfold i2c_message_start. destruct (i2c_state s), t; rewrite ?reset_run; try done.
  cbn. apply cmd_data_out_run.
Qed.

Lemma byte_out_run s : run_state (i2c_byte_out s).2 = run_state s.
Proof.
  unfold i2c_byte_out. destruct (i2c_state s); cbn [snd]; rewrite ?reset_run; try done.
  split_ifs; done.
Qed.

Lemma message_stop_run oob s : run_state s ≠ RUN_STATE_BTLDR_START →
  run_state (i2c_message_stop oob s) ≠ RUN_STATE_BTLDR_START.
Proof.
  intros H. unfold i2c_message_stop. destruct (i2c_state s); rewrite ?reset_run; auto.
  destruct (i2c_message_verify _ _ _); [|done].
  destruct (cmd_data_in_run (i2c_reg s) (set_i2c_offset (u8 (i2c_offset s - 1)) s)) as [->|[->| ->]]; done.
Qed.

Lemma i2c_out_run s : run_state (i2c_out s).2 = run_state s.
Proof. unfold i2c_out. pose proof (byte_out_run s). by destruct (i2c_byte_out s). Qed.

Lemma proc_event_run e s : run_state s ≠ RUN_STATE_BTLDR_START →
  run_state (i2c_proc_event e s).2 ≠ RUN_STATE_BTLDR_START.
Proof.
  intros H. unfold i2c_proc_event.
  set (s1 := if c_true (Z.land (SR1 e) 64) then _ else _).
  assert (H1 : run_state s1 = run_state s) by (subst s1; destruct (c_true _); auto using byte_in_run).
  rewrite <- H1 in H. clearbody s1.
  set (s2 := if c_true (Z.land (SR2 e) 4) then i2c_message_stop _ s1 else _).
  assert (H2 : run_state s2 ≠ RUN_STATE_BTLDR_START) by (subst s2; destruct (c_true _); auto using message_stop_run).
  clearbody s2.
  set (s3 := if c_true (Z.land (SR1 e) 16) then i2c_message_stop _ s2 else _).
  assert (H3 : run_state s3 ≠ RUN_STATE_BTLDR_START) by (subst s3; destruct (c_true _); auto using message_stop_run).
  clearbody s3.
  set (s4 := if c_true (Z.land (SR1 e) 2) then _ else _).
  assert (H4 : run_state s4 ≠ RUN_STATE_BTLDR_START)
    by (subst s4; destruct (c_true _); rewrite ?message_start_run; auto).
  clearbody s4. pose proof (i2c_out_run s4) as H5. destruct (i2c_out s4) as [w5 s5] eqn:E5.
  cbn [snd] in H5. pose proof (i2c_out_run s5) as H6.
  destruct (_ =? Z.lor _ _); destruct (c_true (Z.land (SR1 e) 128)); rewrite ?E5; cbn [snd];
    rewrite ?H5; auto.
  destruct (i2c_out s5). cbn [snd] in *. by rewrite H6, H5.
Qed.

Lemma run_loop_body_run m0 s : core m0 s → run_state (run_loop_body s) = run_state s.
Proof.
  intros Hc. unfold run_loop_body. destruct (i2c_state s); try done.
  destruct (flash_state s); try done; try apply flash_rdwr_run_i2c.
  eapply write_app_info_run_i2c; eauto.
Qed.

Lemma main_step_inv m0 ps e : main_inv m0 ps → sample_ok e → main_inv m0 (main_step ps e).
Proof.
  destruct ps as [ph s]. intros [Hi Hph] He. cbn [fst snd] in *. destruct ph as [t c| |]; cbn [main_step].
  - destruct Hph as (Hr & Ht & Hc). destruct (no_event e).
    + destruct (Z.eqb_spec (t - 1) 0) as [Hz|Hz].
      * destruct (Z.eqb_spec (c - 1) 0) as [Hcz|Hcz].
        -- rewrite bool_decide_eq_false_2 by congruence. split; [|done]. cbn [snd].
           destruct Hi as [Hc0 Hp0]. split.
           ++ pose proof (c_quiet _ _ Hc0 ltac:(congruence)). inv_fields.
           ++ pose proof (p_lock _ Hp0 ltac:(congruence)). pos_fields.
        -- split; [done|]. cbn. unfold after_start_loop. rewrite Hr. split_and!; done || lia.
      * split; [done|]. cbn. split_and!; done || lia.
    + pose proof (proc_event_inv m0 e s Hi He) as Hi'. destruct (i2c_proc_event e s) as [w s'].
      cbn [snd] in Hi'. split; [done|]. cbn. unfold after_start_loop.
      destruct (run_state s') eqn:Hr'; auto; by rewrite Hr'.
  - destruct (no_event e); [done|].
    pose proof (proc_event_inv m0 e s Hi He) as Hi'. pose proof (proc_event_run e s Hph) as Hr'.
    destruct (i2c_proc_event e s) as [w s']. cbn [snd] in *.
    pose proof (run_loop_body_inv m0 s' Hi' (idle_or_running m0 s' (proj1 Hi'))) as Hi''.
    pose proof (run_loop_body_run m0 s' (proj1 Hi')) as Hrr. split; [done|]. cbn [fst snd].
    destruct (run_loop_continues (run_loop_body s')) eqn:Hcont; rewrite Hrr; [done|].
    unfold run_loop_continues in Hcont. rewrite Hrr in Hcont. bool_prop.
    apply bool_decide_eq_false in H. destruct (run_state s'); done.
  - done.
Qed.

Lemma main_init_inv m : mem_bytes m → main_inv m (main_init m).
Proof.
  intros Hm. unfold main_init, init_run_state.
  set (s0 := btldr_reset m).
  assert (Hsh : shape m s0).
  { constructor; try done; try (cbn; u8_const). apply bytes_replicate; u8_const. }
  destruct (update_app_status_spec s0) as ([Hr _] & H8 & (Hrs & Hbs & Hfs & Hfa & His & Hio & Hir & Hreg & Hmem) & Hl & Hb);
    [apply Hsh..|].
  destruct Hsh. revert Hr H8 Hrs Hbs Hfs Hfa His Hio Hir Hreg Hmem Hl Hb.
  generalize (update_app_status s0). intros s1 Hr H8 Hrs Hbs Hfs Hfa His Hio Hir Hreg Hmem Hl Hb.
  assert (Hcore : ∀ r, (r ≠ RUN_STATE_BTLDR_RUN → ready s1) → core m (set_run_state r s1)).
  { intros r Hrr. constructor; cbn; rewrite ?Hmem, ?Hbs, ?Hfs, ?Hfa, ?Hreg; auto. intros. by apply Hr. }
  assert (Hpos : ∀ r, pos (set_run_state r s1)).
  { intros r. constructor; cbn; rewrite ?Hio, ?Hir, ?His, ?Hreg; cbn; unfold locked_reg; auto; lia || done. }
  destruct (Z.eqb_spec (app_status s1) (Z.lor 1 128)) as [Ha|Ha].
  - assert (Hrdy : ready s1) by (unfold ready; rewrite Ha; reflexivity).
    split; [split; [by apply Hcore|apply Hpos]|]. cbn. split_and!; done || lia.
  - split; [split; [by apply Hcore|apply Hpos]|]. cbn. done.
Qed.

Lemma main_steps_inv m0 samples ps : Forall sample_ok samples → main_inv m0 ps →
  main_inv m0 (fold_left main_step samples ps).
Proof.
  intros Hs. revert ps. induction Hs as [|e samples He Hs IH]; intros ps Hi; simpl; [done|].
  apply IH. by apply main_step_inv.
Qed.

Lemma main_reachable_inv m samples : mem_bytes m → Forall sample_ok samples → main_inv m (main m samples).
Proof. intros Hm Hs. apply main_steps_inv; [done|]. by apply main_init_inv. Qed.
