(* ===== verification/BootloaderProps.v ===== *)
(** The guarantees of the bootloader for every sequence of polls of the I2C
    peripheral, whatever a master, noise or another device puts on the bus:
    which memory it can change, when it starts the application, which
    registers answer before the start key, and how long it waits. *)

From S2P Require Import Prelude Checksum BtldrProto Bootloader BootloaderInv.

(** ** A concrete part, for the examples *)

Lemma mem_bytes_empty : mem_bytes ∅.
Proof. intros a. unfold mread. rewrite lookup_total_empty. unfold is_u8. cbn. lia. Qed.

(** An application of one block, with its record in EEPROM. *)
Definition demo_app : list Z := 0x82 :: replicate 127 0x11.
Definition demo_record (autoboot : Z) : list Z :=
  let head := BtldrEEPROMData_head {| ed_magic := BTLDR_EEPROM_DATA_MAGIC; ed_app_size := 128;
    ed_app_crc16 := crc16 IOMCU_CRC16_INIT demo_app; ed_app_ver := 7; ed_autoboot := autoboot;
    ed_crc8 := 0 |} in
  head ++ [crc8 IOMCU_CRC8_INIT head].
Definition demo_mem (autoboot : Z) : mem :=
  mwrites (mwrites ∅ 0x1000 (demo_record autoboot)) 0xa000 demo_app.

(** Polls as the peripheral produces them. *)
Definition ev_none : i2c_sample := {| SR1 := 0; SR2 := 0; SR3 := 0; DR := 0; OOB := λ _, 0 |}.
Definition ev_addr_recv : i2c_sample := {| SR1 := I2C_SR1_ADDR; SR2 := 0; SR3 := 0; DR := 0; OOB := λ _, 0 |}.
Definition ev_addr_tra : i2c_sample :=
  {| SR1 := I2C_SR1_ADDR; SR2 := 0; SR3 := I2C_SR3_TRA; DR := 0; OOB := λ _, 0 |}.
Definition ev_byte (b : Z) : i2c_sample := {| SR1 := I2C_SR1_RXNE; SR2 := 0; SR3 := 0; DR := b; OOB := λ _, 0 |}.
Definition ev_tx : i2c_sample := {| SR1 := I2C_SR1_TXE; SR2 := 0; SR3 := I2C_SR3_TRA; DR := 0; OOB := λ _, 0 |}.
Definition ev_stop : i2c_sample := {| SR1 := I2C_SR1_STOPF; SR2 := 0; SR3 := 0; DR := 0; OOB := λ _, 0 |}.
Definition ev_nack : i2c_sample := {| SR1 := 0; SR2 := I2C_SR2_AF; SR3 := 0; DR := 0; OOB := λ _, 0 |}.

(** A register write as the bus shows it to the slave. *)
Definition bus_write (reg : Z) (data : list Z) : list i2c_sample :=
  [ev_addr_recv; ev_byte reg] ++ (ev_byte <$> data) ++ [ev_stop].

(** A register read of [n] bytes: repeated start, one byte more than the
    master keeps (the slave fills the data register ahead), a NACK. *)
Definition bus_read (reg : Z) (n : nat) : list i2c_sample :=
  [ev_addr_recv; ev_byte reg; ev_addr_tra] ++ replicate (S n) ev_tx ++ [ev_nack].

Definition start_message (reg : Z) : list i2c_sample :=
  bus_write reg (i2c_message IOMCU_COMMON_KEY reg).

Lemma bytes_check l : forallb (λ b, (0 <=? b) && (b <? 256)) l = true → bytes l.
Proof.
  intros H. rewrite forallb_forall in H. apply Forall_forall. intros x Hx.
  apply list_elem_of_In, H in Hx. bool_prop. unfold is_u8. lia.
Qed.

Lemma samples_check l : forallb (λ e, (0 <=? DR e) && (DR e <? 256)) l = true → Forall sample_ok l.
Proof.
  intros H. rewrite forallb_forall in H. apply Forall_forall. intros x Hx.
  apply list_elem_of_In, H in Hx. bool_prop. unfold sample_ok, is_u8. lia.
Qed.

Lemma demo_mem_bytes a : mem_bytes (demo_mem (u8 a)).
Proof.
  unfold demo_mem. apply mem_bytes_writes; [|apply bytes_check; reflexivity].
  apply mem_bytes_writes; [apply mem_bytes_empty|]. unfold demo_record.
  apply bytes_app; [apply bytes_BtldrEEPROMData_head|]. apply Forall_singleton.
  apply crc8_range; [u8_const|apply bytes_BtldrEEPROMData_head].
Qed.

(** ** Starting the application *)

(** After these polls [main] has jumped to the application. *)
Definition app_started (m : mem) (samples : list i2c_sample) : Prop := (main m samples).1 = PApp.

(** The bootloader's globals and the memory after these polls. *)
Definition after (m : mem) (samples : list i2c_sample) : btldr := (main m samples).2.

(** C2.  Whatever arrives on the I2C bus, when the bootloader jumps to the
    application the record in EEPROM has its magic and crc8, the application
    fits the flash, its first byte is the reset vector's opcode and the crc16
    of its blocks is the recorded one. *)
Theorem boots_only_valid_app m samples :
  mem_bytes m → Forall sample_ok samples →
  app_started m samples → app_valid (memory (after m samples)).
Proof.
  unfold app_started, after. intros Hm Hs Hp. destruct (main_reachable_inv m samples Hm Hs) as [[Hc _] Hph].
  rewrite Hp in Hph. apply (c_valid _ _ Hc). apply (c_quiet _ _ Hc). by rewrite Hph.
Qed.

Lemma boots_only_valid_app_witness :
  app_started (demo_mem 0) (start_message I2C_BTLDR_REG_START)
  ∧ app_valid (memory (after (demo_mem 0) (start_message I2C_BTLDR_REG_START))).
Proof.
  assert (H : app_started (demo_mem 0) (start_message I2C_BTLDR_REG_START)) by (vm_compute; reflexivity).
  split; [exact H|].
  apply (boots_only_valid_app (demo_mem 0) (start_message I2C_BTLDR_REG_START));
    [exact (demo_mem_bytes 0)|apply samples_check; vm_compute; reflexivity|exact H].
Defined.

(** ** Memory *)

(** The block a pending flash write will program, if any. *)
Definition pending_write (s : btldr) : option Z :=
  match flash_state s with
  | FLASH_STATE_EEPROM_WRITE_ADDR_READY | FLASH_STATE_EEPROM_WRITE_DATA_READY
  | FLASH_STATE_EEPROM_WRITE_RUN | FLASH_STATE_DATA_WRITE_ADDR_READY
  | FLASH_STATE_DATA_WRITE_DATA_READY | FLASH_STATE_DATA_WRITE_RUN => Some (flash_addr s)
  | _ => None
  end.

(** C9.  Whatever arrives on the bus, only the application's part of the
    program flash and the EEPROM ever change: the bootloader cannot be made
    to overwrite itself, its vectors, the option bytes or RAM; and every block
    address a flash write is armed with is aligned and inside those areas
    without the reserved first EEPROM block. *)
Theorem flash_confined m samples :
  mem_bytes m → Forall sample_ok samples →
  let s := after m samples in
  (∀ a, ¬ writable a → mread (memory s) a = mread m a) ∧
  (∀ a, pending_write s = Some a →
     a mod FLASH_BLOCK_SIZE = 0 ∧
     (∀ b, a <= b < a + FLASH_BLOCK_SIZE → 0x1080 <= b < 0x1400 ∨ 0xa000 <= b < 0x10000)).
Proof.
  intros Hm Hs s. destruct (main_reachable_inv m samples Hm Hs) as [[Hc _] _]. fold (after m samples) in Hc. fold s in Hc.
  split; [apply (c_frame _ _ Hc)|]. intros a Ha. pose proof (c_flash _ _ Hc) as Hok.
  unfold pending_write in Ha. destruct (flash_state s); simplify_eq; simpl in Hok;
    (split; [by destruct Hok|]); intros b Hb;
    (left; by eapply eeprom_block_writable) || (right; by eapply data_block_writable).
Qed.

Definition demo_write : list i2c_sample :=
  start_message I2C_BTLDR_REG_START
  ++ bus_write I2C_BTLDR_REG_DATA_WRITE_ADDR (i2c_message (be32 0xa080) I2C_BTLDR_REG_DATA_WRITE_ADDR)
  ++ bus_read I2C_BTLDR_REG_STATUS 2.

Lemma flash_confined_witness :
  pending_write (after (demo_mem 0x80) demo_write) = Some 0xa080 ∧
  (∀ b, 0xa080 <= b < 0xa100 → 0x1080 <= b < 0x1400 ∨ 0xa000 <= b < 0x10000).
Proof.
  assert (H : pending_write (after (demo_mem 0x80) demo_write) = Some 0xa080) by (vm_compute; reflexivity).
  split; [exact H|].
  destruct (flash_confined (demo_mem 0x80) demo_write) as [_ Hp];
    [exact (demo_mem_bytes 0x80)|apply samples_check; vm_compute; reflexivity|].
  apply (Hp 0xa080 H).
Defined.

(** ** The indexes into [i2c_buf] *)

(** What each function of i2c.c reads or writes of [i2c_buf].  The reply that
    cmd_data_out stores is the part the checksum is then taken of. *)
Definition i2c_byte_in_indexes (s : btldr) : list Z :=
  match i2c_state s with
  | I2C_STATE_DATA_IN => if i2c_offset s <? I2C_BUF_SIZE then [i2c_offset s] else []
  | _ => []
  end.

Definition i2c_byte_out_indexes (s : btldr) : list Z :=
  match i2c_state s with
  | I2C_STATE_DATA_OUT => if c_true (i2c_out_remaining s) && (i2c_offset s <? I2C_BUF_SIZE) then [i2c_offset s] else []
  | _ => []
  end.

Definition i2c_message_start_indexes (tra : i2c_start_t) (s : btldr) : list Z :=
  match i2c_state s, tra with
  | I2C_STATE_OUT_START_WAIT, I2C_START_TRA =>
      let s := cmd_data_out (i2c_reg s) s in
      seqZ (i2c_offset s) (i2c_out_remaining s) ++ [i2c_offset s + i2c_out_remaining s]
  | _, _ => []
  end.

(** The bytes the checksum is taken of, then the one it is compared with. *)
Definition i2c_message_stop_indexes (s : btldr) : list Z :=
  match i2c_state s with
  | I2C_STATE_DATA_IN => seqZ 0 (u8 (i2c_offset s - 1)) ++ [i2c_offset s - 1]
  | _ => []
  end.

(** All of them during one event, in the states [i2c_proc_event] goes through. *)
Definition event_indexes (e : i2c_sample) (s : btldr) : list Z :=
  let rx := c_true (Z.land (SR1 e) I2C_SR1_RXNE) in
  let af := c_true (Z.land (SR2 e) I2C_SR2_AF) in
  let stop := c_true (Z.land (SR1 e) I2C_SR1_STOPF) in
  let tra := if Z.land (SR3 e) I2C_SR3_TRA =? I2C_SR3_TRA then I2C_START_TRA else I2C_START_RECV in
  let addr := c_true (Z.land (SR1 e) I2C_SR1_ADDR) in
  let btf := Z.land (SR1 e) (Z.lor I2C_SR1_TXE I2C_SR1_BTF) =? Z.lor I2C_SR1_TXE I2C_SR1_BTF in
  let txe := c_true (Z.land (SR1 e) I2C_SR1_TXE) in
  let s1 := if rx then i2c_byte_in (DR e) s else s in
  let s2 := if af then i2c_message_stop (OOB e) s1 else s1 in
  let s3 := if stop then i2c_message_stop (OOB e) s2 else s2 in
  let s4 := if addr then i2c_message_start tra s3 else s3 in
  let s5 := if btf then (i2c_byte_out s4).2 else s4 in
  (if rx then i2c_byte_in_indexes s else []) ++ (if af then i2c_message_stop_indexes s1 else [])
  ++ (if stop then i2c_message_stop_indexes s2 else []) ++ (if addr then i2c_message_start_indexes tra s3 else [])
  ++ (if btf then i2c_byte_out_indexes s4 else []) ++ (if txe then i2c_byte_out_indexes s5 else []).

(** The event ends a write to a register in which no byte of data arrived. *)
Definition ends_empty (e : i2c_sample) (s : btldr) : bool :=
  let s1 := if c_true (Z.land (SR1 e) I2C_SR1_RXNE) then i2c_byte_in (DR e) s else s in
  (c_true (Z.land (SR2 e) I2C_SR2_AF) || c_true (Z.land (SR1 e) I2C_SR1_STOPF))
  && bool_decide (i2c_state s1 = I2C_STATE_DATA_IN) && (i2c_offset s1 =? 0).

Definition in_i2c_buf (i : Z) : Prop := 0 <= i < Z.of_nat i2c_buf_len.

Lemma seqZ_in_buf k n : 0 <= k → k + n <= Z.of_nat i2c_buf_len → Forall in_i2c_buf (seqZ k n).
Proof. intros Hk Hn. apply Forall_forall. intros i Hi. apply elem_of_seqZ in Hi. unfold in_i2c_buf. lia. Qed.

Lemma byte_in_in_buf m0 s : inv m0 s → Forall in_i2c_buf (i2c_byte_in_indexes s).
Proof.
  intros [_ Hp]. pose proof (p_off _ Hp). unfold i2c_byte_in_indexes. destruct (i2c_state s); try done.
  destruct (_ <? _) eqn:E; [|done]. bool_prop. apply Forall_singleton. unfold in_i2c_buf, i2c_buf_len. lia.
Qed.

Lemma byte_out_in_buf m0 s : inv m0 s → Forall in_i2c_buf (i2c_byte_out_indexes s).
Proof.
  intros [_ Hp]. pose proof (p_off _ Hp). unfold i2c_byte_out_indexes. destruct (i2c_state s); try done.
  destruct (_ && _) eqn:E; [|done]. bool_prop. apply Forall_singleton. unfold in_i2c_buf, i2c_buf_len. lia.
Qed.

Lemma message_start_in_buf m0 tra s : inv m0 s → Forall in_i2c_buf (i2c_message_start_indexes tra s).
Proof.
  intros [_ Hp]. unfold i2c_message_start_indexes. destruct (i2c_state s) eqn:Hst, tra; try done.
  destruct (cmd_data_out_pos (i2c_reg s) s Hp Hst) as (Ho & Hr & _). apply Forall_app. split.
  - apply seqZ_in_buf; unfold i2c_buf_len; lia.
  - apply Forall_singleton. unfold in_i2c_buf, i2c_buf_len. lia.
Qed.

(** Checking a message stays inside unless it is empty; then the byte before
    the buffer is read. *)
Lemma message_stop_in_buf m0 s : inv m0 s →
  Forall in_i2c_buf (i2c_message_stop_indexes s) ↔ ¬ (i2c_state s = I2C_STATE_DATA_IN ∧ i2c_offset s = 0).
Proof.
  intros [_ Hp]. pose proof (p_off _ Hp). unfold i2c_message_stop_indexes. destruct (i2c_state s); try (split; [by intros _ [? _]|done]).
  rewrite Forall_app, Forall_singleton. unfold in_i2c_buf at 2. split; [intros [_ H1] [_ H2]; lia|].
  intros Hne. assert (0 < i2c_offset s) by (destruct (decide (i2c_offset s = 0)); [by destruct Hne|lia]).
  rewrite u8_small by (unfold is_u8; lia). split; [apply seqZ_in_buf|]; unfold i2c_buf_len; lia.
Qed.

Lemma stopped_idle oob s : i2c_state (i2c_message_stop oob s) = I2C_STATE_IDLE.
Proof.
  unfold i2c_message_stop, I2C_STATE_RESET. destruct (i2c_state s) eqn:E; try done; try (by rewrite E).
  match goal with |- context [match i2c_state ?x with _ => _ end] => destruct (i2c_state x) eqn:Ex end; done.
Qed.

Lemma stop_idle_indexes s : i2c_state s = I2C_STATE_IDLE → i2c_message_stop_indexes s = [].
Proof. intros H. unfold i2c_message_stop_indexes. by rewrite H. Qed.

Lemma event_in_buf m0 e s : inv m0 s → is_u8 (DR e) → Forall in_i2c_buf (event_indexes e s) ↔ ends_empty e s = false.
Proof.
  intros Hi Hdr. unfold event_indexes, ends_empty. cbv zeta.
  set (s1 := if c_true (Z.land (SR1 e) I2C_SR1_RXNE) then i2c_byte_in (DR e) s else s).
  assert (H1 : inv m0 s1) by (subst s1; destruct (c_true _); auto using byte_in_inv).
  set (af := c_true (Z.land (SR2 e) I2C_SR2_AF)). set (stop := c_true (Z.land (SR1 e) I2C_SR1_STOPF)).
  set (s2 := if af then i2c_message_stop (OOB e) s1 else s1).
  assert (H2 : inv m0 s2) by (subst s2; destruct af; auto using message_stop_inv).
  set (s3 := if stop then i2c_message_stop (OOB e) s2 else s2).
  assert (H3 : inv m0 s3) by (subst s3; destruct stop; auto using message_stop_inv).
  set (tra := if Z.land (SR3 e) I2C_SR3_TRA =? I2C_SR3_TRA then _ else _).
  set (s4 := if c_true (Z.land (SR1 e) I2C_SR1_ADDR) then i2c_message_start tra s3 else s3).
  assert (H4 : inv m0 s4) by (unfold s4; destruct (c_true (Z.land (SR1 e) I2C_SR1_ADDR)); [by apply message_start_inv|done]).
  set (btf := Z.land (SR1 e) _ =? _). set (s5 := if btf then (i2c_byte_out s4).2 else s4).
  assert (H5 : inv m0 s5) by (subst s5; destruct btf; auto using byte_out_inv).
  assert (Hstop : Forall in_i2c_buf ((if af then i2c_message_stop_indexes s1 else []) ++ (if stop then i2c_message_stop_indexes s2 else []))
    ↔ ((af || stop) && bool_decide (i2c_state s1 = I2C_STATE_DATA_IN) && (i2c_offset s1 =? 0)) = false).
  { pose proof (message_stop_in_buf m0 s1 H1) as Hm. rewrite <- not_true_iff_false, !andb_true_iff, bool_decide_eq_true, Z.eqb_eq.
    subst s2. destruct af; cbn [orb].
    - rewrite (stop_idle_indexes (i2c_message_stop (OOB e) s1)) by apply stopped_idle.
      destruct stop; rewrite app_nil_r, Hm; tauto.
    - destruct stop; cbn [app]; [rewrite Hm; tauto|]. split; [intros _ [[? _] _]; done|done]. }
  rewrite <- Hstop, !Forall_app. clear Hstop. clearbody s5 s4 tra s3 s2 s1 btf stop af. split; [tauto|]. intros [Ha Hb]. split_and!; try done.
  - destruct (c_true _); [by eapply byte_in_in_buf|done].
  - destruct (c_true _); [by eapply message_start_in_buf|done].
  - destruct btf; [by eapply byte_out_in_buf|done].
  - destruct (c_true _); [by eapply byte_out_in_buf|done].
Qed.

(** C27.  Which accesses to the I2C buffer can be out of range: for every
    sequence of events and every next one, each index into [i2c_buf] that the
    four functions of i2c.c use while they work on it lies within its 194
    bytes, except when the event ends a register write without a byte of data,
    whose check reads before the buffer; that is the only case.  Between events
    the positions fit the buffer and every global keeps its C type's range. *)
Theorem i2c_buffer_bounds m samples e :
  mem_bytes m → Forall sample_ok samples → sample_ok e →
  let s := after m samples in
  (Forall in_i2c_buf (event_indexes e s) ↔ ends_empty e s = false) ∧
  length (i2c_buf s) = i2c_buf_len ∧ bytes (i2c_buf s) ∧
  0 <= i2c_offset s <= I2C_BUF_SIZE ∧
  0 <= i2c_out_remaining s <= Z.of_nat i2c_buf_len - (if decide (i2c_state s = I2C_STATE_DATA_OUT) then i2c_offset s else 0) ∧
  is_u8 (btldr_state s) ∧ is_u8 (app_status s) ∧ is_u8 (i2c_reg s) ∧ mem_bytes (memory s).
Proof.
  intros Hm Hs He s. destruct (main_reachable_inv m samples Hm Hs) as [[Hc Hp] _]. fold (after m samples) in Hc, Hp. fold s in Hc, Hp.
  split; [by apply (event_in_buf m); [split|]|].
  pose proof (p_sum _ Hp) as Hsum. pose proof (p_max _ Hp) as Hmax.
  destruct Hc, Hp. unfold i2c_buf_len in *. split_and!; auto; try lia.
  case_decide as Hd; [specialize (Hsum Hd); lia|specialize (Hmax Hd); lia].
Qed.

(** A stop after one byte, and a stop right after the register. *)
Lemma i2c_buffer_bounds_witness :
  Forall in_i2c_buf (event_indexes ev_stop (after (demo_mem 0x80) [ev_addr_recv; ev_byte 0x80; ev_byte 7])) ∧
  ¬ Forall in_i2c_buf (event_indexes ev_stop (after (demo_mem 0x80) [ev_addr_recv; ev_byte 0x80])).
Proof.
  split.
  - apply (i2c_buffer_bounds (demo_mem 0x80) [ev_addr_recv; ev_byte 0x80; ev_byte 7] ev_stop);
      [exact (demo_mem_bytes 0x80)|apply samples_check; vm_compute; reflexivity|vm_compute; split; [discriminate|reflexivity]|vm_compute; reflexivity].
  - destruct (i2c_buffer_bounds (demo_mem 0x80) [ev_addr_recv; ev_byte 0x80] ev_stop) as [[H _] _];
      [exact (demo_mem_bytes 0x80)|apply samples_check; vm_compute; reflexivity|vm_compute; split; [discriminate|reflexivity]|].
    intros Hf. apply H in Hf. vm_compute in Hf. discriminate Hf.
Defined.
