(* ===== verification/BootloaderStart.v ===== *)
(** The start-key loop of the bootloader's [main]: what the master can do
    before the key, what the key message is, and when the loop times out. *)

From S2P Require Import Prelude Checksum BtldrProto Bootloader BootloaderInv BootloaderProps.

(** ** I2C events never touch the memory *)

Lemma cmd_data_out_memory cmd s : memory (cmd_data_out cmd s) = memory s.
Proof.
  unfold cmd_data_out, status_flash_step, reply, reply_error.
  split_ifs; cbn; try done; destruct (flash_state s); done.
Qed.

Lemma cmd_data_in_frame cmd s :
  memory (cmd_data_in cmd s) = memory s ∧ i2c_buf (cmd_data_in cmd s) = i2c_buf s.
Proof.
  unfold cmd_data_in, cmd_start, cmd_wait, cmd_set_addr, set_addr_ready_flash_state, cmd_write_block.
  split_ifs; cbn; auto; destruct (run_state s) eqn:Hrs; cbn; auto; split_ifs; cbn; auto.
Qed.

Lemma reset_frame s : memory (I2C_STATE_RESET s) = memory s ∧ i2c_buf (I2C_STATE_RESET s) = i2c_buf s
  ∧ i2c_state (I2C_STATE_RESET s) = I2C_STATE_IDLE.
Proof. unfold I2C_STATE_RESET. destruct (i2c_state s) eqn:E; cbn; auto. Qed.

Lemma byte_in_memory b s : memory (i2c_byte_in b s) = memory s.
Proof.
  unfold i2c_byte_in. pose proof (proj1 (reset_frame s)).
  destruct (i2c_state s); try done; split_ifs; done.
Qed.

Lemma message_start_memory t s : memory (i2c_message_start t s) = memory s.
Proof.
  unfold i2c_message_start. pose proof (proj1 (reset_frame s)).
  destruct (i2c_state s), t; try done. cbn. apply cmd_data_out_memory.
Qed.

Lemma message_stop_memory oob s : memory (i2c_message_stop oob s) = memory s.
Proof.
  unfold i2c_message_stop. destruct (i2c_state s); rewrite (proj1 (reset_frame _)); try done.
  destruct (i2c_message_verify _ _ _); [|done]. by rewrite (proj1 (cmd_data_in_frame _ _)).
Qed.

Lemma i2c_out_memory s : memory (i2c_out s).2 = memory s.
Proof.
  unfold i2c_out, i2c_byte_out. pose proof (proj1 (reset_frame s)).
  destruct (i2c_state s); try done. split_ifs; done.
Qed.

(** A property of states closed under the five handlers is closed under
    [i2c_proc_event]. *)
Lemma proc_event_closed (P : btldr → Prop) e s :
  P (i2c_byte_in (DR e) s) → (∀ s, P s → P (i2c_message_stop (OOB e) s)) →
  (∀ t s, P s → P (i2c_message_start t s)) → (∀ s, P s → P (i2c_out s).2) →
  P s → P (i2c_proc_event e s).2.
Proof.
  intros Hin Hstop Hstart Hout Hs. unfold i2c_proc_event.
  set (s4 := if c_true (Z.land (SR1 e) 2) then _ else _).
  assert (H4 : P s4).
  { subst s4. destruct (c_true (Z.land (SR1 e) 2)), (c_true (Z.land (SR1 e) 16)),
      (c_true (Z.land (SR2 e) 4)), (c_true (Z.land (SR1 e) 64)); auto. }
  clearbody s4. pose proof (Hout s4 H4) as H5. destruct (i2c_out s4) as [w5 s5] eqn:E5.
  cbn [snd] in H5. pose proof (Hout s5 H5) as H6.
  destruct (_ =? Z.lor _ _); destruct (c_true (Z.land (SR1 e) 128)); rewrite ?E5; cbn [snd]; auto.
  destruct (i2c_out s5). done.
Qed.

Lemma proc_event_memory e s : memory (i2c_proc_event e s).2 = memory s.
Proof.
  apply (proc_event_closed (λ s', memory s' = memory s)); [..|done]; intros; rewrite ?byte_in_memory,
    ?message_stop_memory, ?message_start_memory, ?i2c_out_memory; done.
Qed.

(** ** The start key *)

(** The key message has just been taken: five bytes, the key and its checksum
    for the start register. *)
Definition keyed (s : btldr) : Prop :=
  run_state s = RUN_STATE_BTLDR_RUN
  ∧ take 5 (i2c_buf s) = i2c_message IOMCU_COMMON_KEY I2C_BTLDR_REG_START
  ∧ (i2c_state s = I2C_STATE_IDLE ∨ i2c_state s = I2C_STATE_REG_WAIT).

Lemma key_ok_take buf : (4 <= length buf)%nat → key_ok buf = true → take 4 buf = IOMCU_COMMON_KEY.
Proof.
  intros Hl Hk. unfold key_ok in Hk. destruct buf as [|a [|b [|c [|d buf]]]]; simpl in Hl; try lia.
  simpl in Hk. bool_prop. simpl. by subst.
Qed.

Lemma verify_message buf oob reg n : (S n <= length buf)%nat → (n <= 254)%nat →
  i2c_message_verify (buf_rd buf oob) reg (Z.of_nat n + 1) = true →
  take (S n) buf = i2c_message (take n buf) reg.
Proof.
  intros Hl Hn Hv. destruct (lookup_lt_is_Some_2 buf n) as [c Hc]; [lia|].
  pose proof (take_drop_middle buf n c Hc) as Hbuf.
  assert (Ht : length (take n buf) = n) by (rewrite length_take; lia).
  rewrite <- Hbuf in Hv. rewrite <- Ht in Hv at 3.
  rewrite i2c_message_verify_eq in Hv by lia. apply Z.eqb_eq in Hv.
  unfold i2c_message. rewrite Hv. by apply take_S_r.
Qed.

Lemma cmd_data_in_start cmd s : run_state s = RUN_STATE_BTLDR_START → locked_reg cmd →
  run_state (cmd_data_in cmd s) = RUN_STATE_BTLDR_START
  ∨ cmd = I2C_BTLDR_REG_START ∧ i2c_offset s = 4 ∧ key_ok (i2c_buf s) = true
    ∧ run_state (cmd_data_in cmd s) = RUN_STATE_BTLDR_RUN.
Proof.
  intros Hr [->|[->| ->]]; unfold cmd_data_in; cbn; try (by left).
  unfold cmd_start. cbn. destruct (Z.eqb_spec (i2c_offset s) 4); [|by left].
  destruct (key_ok (i2c_buf s)) eqn:Hk; [|by left]. rewrite Hr. right. auto.
Qed.

Lemma message_stop_start m0 oob s : inv m0 s → run_state s = RUN_STATE_BTLDR_START →
  run_state (i2c_message_stop oob s) = RUN_STATE_BTLDR_START ∨ keyed (i2c_message_stop oob s).
Proof.
  intros [Hc Hp] Hr. unfold i2c_message_stop, keyed.
  destruct (i2c_state s) eqn:Hst; rewrite ?reset_run; auto.
  destruct (i2c_message_verify _ _ _) eqn:Hv; [|by left].
  destruct (cmd_data_in_start (i2c_reg s) (set_i2c_offset (u8 (i2c_offset s - 1)) s)) as [|(Hreg & Hoff & Hk & Hrun)];
    [done|apply (p_lock _ Hp); congruence|by left|].
  right. destruct (reset_frame (cmd_data_in (i2c_reg s) (set_i2c_offset (u8 (i2c_offset s - 1)) s))) as (_ & -> & ->).
  rewrite (proj2 (cmd_data_in_frame _ _)). cbn [i2c_buf i2c_offset set_i2c_offset] in *.
  split; [done|]. split; [|by left]. pose proof (c_len _ _ Hc) as Hlen. unfold i2c_buf_len in Hlen.
  pose proof (p_off _ Hp). rewrite <- (key_ok_take (i2c_buf s)) by (done || lia).
  assert (Ho : i2c_offset s = 5) by (unfold u8 in Hoff; destruct (decide (i2c_offset s = 0)) as [Hz|];
    [rewrite Hz in Hoff; done|rewrite Z.mod_small in Hoff; lia]).
  rewrite Ho, Hreg in Hv. by apply (verify_message _ oob _ 4); [lia..|].
Qed.

Lemma keyed_stable oob t s : keyed s →
  keyed (i2c_message_stop oob s) ∧ keyed (i2c_out s).2 ∧ keyed (i2c_message_start t s).
Proof.
  intros (Hr & Hb & [Hs|Hs]); unfold keyed, i2c_message_stop, i2c_message_start, i2c_out, i2c_byte_out,
    I2C_STATE_RESET; rewrite !Hs; destruct t; cbn; rewrite ?Hs; auto 10.
Qed.

(** What one poll in the start-key loop can do. *)
Lemma proc_event_start m0 e s : inv m0 s → sample_ok e → run_state s = RUN_STATE_BTLDR_START →
  run_state (i2c_proc_event e s).2 = RUN_STATE_BTLDR_START ∨ keyed (i2c_proc_event e s).2.
Proof.
  intros Hi He Hr.
  assert (H : (inv m0 (i2c_proc_event e s).2 ∧ run_state (i2c_proc_event e s).2 = RUN_STATE_BTLDR_START)
    ∨ keyed (i2c_proc_event e s).2); [|tauto].
  apply (proc_event_closed (λ s, (inv m0 s ∧ run_state s = RUN_STATE_BTLDR_START) ∨ keyed s)).
  - left. split; [by apply byte_in_inv|by rewrite byte_in_run].
  - intros s' [[Hi' Hr']|Hk]; [|right; by apply (keyed_stable (OOB e) I2C_START_TRA)].
    destruct (message_stop_start m0 (OOB e) s' Hi' Hr'); auto using message_stop_inv.
  - intros t s' [[Hi' Hr']|Hk]; [|right; by apply (keyed_stable (OOB e))].
    left. rewrite message_start_run. auto using message_start_inv.
  - intros s' [[Hi' Hr']|Hk]; [|right; by apply (keyed_stable (OOB e) I2C_START_TRA)].
    left. rewrite i2c_out_run. split; [|done]. unfold i2c_out.
    pose proof (byte_out_inv m0 s' Hi'). by destruct (i2c_byte_out s').
  - by left.
Qed.

Lemma main_snoc m samples e : main m (samples ++ [e]) = main_step (main m samples) e.
Proof. unfold main. by rewrite fold_left_app. Qed.

Lemma update_app_status_frame m : mem_bytes m → same_but_status (btldr_reset m) (update_app_status (btldr_reset m)).
Proof.
  intros Hm. assert (Hb : bytes (replicate i2c_buf_len 0)) by (apply bytes_replicate; u8_const).
  exact (proj1 (proj2 (proj2 (update_app_status_spec (btldr_reset m) eq_refl Hb Hm)))).
Qed.

Lemma main_init_memory m : mem_bytes m → memory (main_init m).2 = m.
Proof.
  intros Hm. pose proof (update_app_status_frame m Hm) as Hf. unfold same_but_status in Hf.
  destruct Hf as (_ & _ & _ & _ & _ & _ & _ & _ & Hf). unfold main_init, init_run_state.
  revert Hf. generalize (update_app_status (btldr_reset m)). intros s Hf.
  destruct (app_status s =? Z.lor 1 128); exact Hf.
Qed.

(** The loop is never entered again, so a state in it has only seen it. *)
Lemma start_step ps e t c : (main_step ps e).1 = PStart t c → ∃ t' c', ps.1 = PStart t' c'
  ∧ memory (main_step ps e).2 = memory ps.2.
Proof.
  destruct ps as [[t' c'| |] s]; cbn.
  - intros H. exists t', c'. split; [done|]. destruct (no_event e).
    + destruct (_ =? 0); [|done]. destruct (_ =? 0); [|done]. by destruct (bool_decide _).
    + pose proof (proc_event_memory e s). by destruct (i2c_proc_event e s).
  - destruct (no_event e); [done|]. destruct (i2c_proc_event e s). by destruct (run_loop_continues _).
  - done.
Qed.

Lemma start_memory m samples t c : mem_bytes m → (main m samples).1 = PStart t c →
  memory (main m samples).2 = m.
Proof.
  intros Hm. revert t c. induction samples as [|e l IH] using rev_ind; intros t c.
  { intros _. exact (main_init_memory m Hm). }
  rewrite main_snoc. intros H. destruct (start_step _ _ _ _ H) as (t' & c' & Hp & ->). by eapply IH.
Qed.

(** In the start-key loop with these counters. *)
Definition waiting (m : mem) (samples : list i2c_sample) (t c : Z) : Prop := (main m samples).1 = PStart t c.

(** C22.  While the bootloader waits for the start key nothing the bus carries
    changes the memory, no flash operation is armed, and only the start
    register or a reserved one is selected; the loop is left for the command
    loop only by the start-register message holding the key and its checksum,
    five bytes exactly, and for the application only by the timeout. *)
Theorem locked_until_key m samples e t c :
  mem_bytes m → Forall sample_ok samples → sample_ok e →
  waiting m samples t c →
  let s := (main m samples).2 in
  let next := main m (samples ++ [e]) in
  memory s = m ∧ flash_state s = FLASH_STATE_IDLE ∧ locked_reg (i2c_reg s) ∧
  (next.1 = PRun →
     take 5 (i2c_buf next.2) = i2c_message IOMCU_COMMON_KEY I2C_BTLDR_REG_START) ∧
  (next.1 = PApp → no_event e = true ∧ t = 1 ∧ c = 1).
Proof.
  unfold waiting. intros Hm Hs He Hp. cbv zeta. rewrite main_snoc.
  destruct (main_reachable_inv m samples Hm Hs) as [Hi Hph]. rewrite Hp in Hph.
  destruct Hph as (Hr & Ht & Hc). split; [by eapply start_memory|].
  destruct (c_quiet _ _ (proj1 Hi) ltac:(congruence)) as [Hfl _]. split; [done|].
  split; [apply (p_lock _ (proj2 Hi)); congruence|].
  pose proof (proc_event_start m e (main m samples).2 Hi He Hr) as Hev.
  destruct (main m samples) as [ph s]. cbn [fst snd] in *. subst ph. cbn [main_step].
  destruct (no_event e).
  - rewrite bool_decide_eq_false_2 by congruence.
    destruct (Z.eqb_spec (t - 1) 0); [|done]. destruct (Z.eqb_spec (c - 1) 0).
    + cbn. split; [done|]. intros _. split_and!; [done|lia..].
    + cbn. unfold after_start_loop. by rewrite Hr.
  - destruct (i2c_proc_event e s) as [w s']. cbn [fst snd] in *. unfold after_start_loop.
    destruct Hev as [->|(-> & Hb & _)]; done.
Qed.

Lemma locked_until_key_witness :
  let samples := bus_write I2C_BTLDR_REG_START (i2c_message IOMCU_COMMON_KEY I2C_BTLDR_REG_START) in
  let before := take 7 samples in
  memory (main (demo_mem 0x80) before).2 = demo_mem 0x80 ∧
  (main (demo_mem 0x80) (before ++ [ev_stop])).1 = PRun ∧
  take 5 (i2c_buf (main (demo_mem 0x80) (before ++ [ev_stop])).2)
  = i2c_message IOMCU_COMMON_KEY I2C_BTLDR_REG_START.
Proof.
  intros samples before.
  assert (H : (main (demo_mem 0x80) (before ++ [ev_stop])).1 = PRun) by (vm_compute; reflexivity).
  destruct (locked_until_key (demo_mem 0x80) before ev_stop I2C_62500_US_TIMEOUT I2C_TIMEOUT_COUNT)
    as (Hmem & _ & _ & Hkey & _);
    [exact (demo_mem_bytes 0x80)|apply samples_check; vm_compute; reflexivity|
     unfold sample_ok, is_u8; cbn; lia|vm_compute; reflexivity|].
  split; [exact Hmem|]. split; [exact H|]. exact (Hkey H).
Defined.

(** ** The timeout *)

(** Polls left before the loop gives up. *)
Definition polls_left (ph : phase_t) : Z :=
  match ph with PStart t c => t + (c - 1) * I2C_62500_US_TIMEOUT | _ => 0 end.

Lemma quiet_poll m0 t c s e : main_inv m0 (PStart t c, s) → no_event e = true →
  let ps := main_step (PStart t c, s) e in
  polls_left ps.1 = polls_left (PStart t c) - 1
  ∧ ((∃ t' c', ps.1 = PStart t' c') ∨ ps.1 = PApp ∧ polls_left (PStart t c) = 1).
Proof.
  intros [Hi (Hr & Ht & Hc)] He. cbn [fst snd] in *. cbn [main_step]. rewrite He.
  destruct (Z.eqb_spec (t - 1) 0); cbn; [|split; [lia|eauto]].
  rewrite bool_decide_eq_false_2 by congruence.
  destruct (Z.eqb_spec (c - 1) 0); cbn; [split; [lia|right; split; [done|lia]]|].
  unfold after_start_loop. rewrite Hr. cbn. split; [lia|eauto].
Qed.

Lemma no_event_run m0 samples ps : Forall sample_ok samples → Forall (λ e, no_event e = true) samples →
  main_inv m0 ps → (∃ t c, ps.1 = PStart t c) →
  (fold_left main_step samples ps).1 = PApp ↔ polls_left ps.1 <= Z.of_nat (length samples).
Proof.
  intros Hs Hq. revert ps. induction Hs as [|e l He Hs IH]; intros [ph s] Hi (t & c & Hph);
    cbn [fst] in Hph; subst ph.
  - cbn. destruct Hi as [_ (_ & Ht & Hc)]. split; [done|lia].
  - apply Forall_cons in Hq as [Hq Hqs]. cbn [fold_left length].
    destruct (quiet_poll m0 t c s e Hi Hq) as [Hl Hcase].
    pose proof (main_step_inv m0 _ e Hi He) as Hi'. cbn [fst].
    destruct Hcase as [Hst|[Ha H1]].
    + rewrite IH by done. lia.
    + split; [lia|]. intros _. clear -Ha. revert Ha. generalize (main_step (PStart t c, s) e).
      intros [ph s']. cbn [fst]. intros ->. induction l; auto.
Qed.

Lemma ready_autoboot st : is_u8 st → Z.land st 0x7f = 1 → Z.land st 0x80 = 0x80 → st = 0x81.
Proof.
  intros Hu. pose proof (byte_forall (λ st, implb (Z.land st 0x7f =? 1)
    (implb (Z.land st 0x80 =? 0x80) (st =? 0x81))) st eq_refl Hu) as H. cbn beta in H.
  intros H1 H2. rewrite H1, H2 in H. by apply Z.eqb_eq.
Qed.

Lemma main_init_autoboot m : mem_bytes m → app_valid m →
  Z.land (ed_autoboot (app_record m)) 0x80 = 0x80 →
  (main_init m).1 = PStart I2C_62500_US_TIMEOUT I2C_TIMEOUT_COUNT.
Proof.
  intros Hm Hv Ha. assert (Hb : bytes (replicate i2c_buf_len 0)) by (apply bytes_replicate; u8_const).
  destruct (update_app_status_spec (btldr_reset m) eq_refl Hb Hm) as ([Hr Hab] & H8 & _).
  unfold main_init, init_run_state. revert Hr Hab H8.
  generalize (update_app_status (btldr_reset m)). intros s Hr Hab H8.
  apply (proj2 Hr) in Hv. specialize (Hab Hv).
  rewrite (ready_autoboot (app_status s)); [reflexivity|done|done|]. by rewrite Hab.
Qed.

Lemma main_init_manual m : mem_bytes m →
  ¬ app_valid m ∨ Z.land (ed_autoboot (app_record m)) 0x80 = 0 → (main_init m).1 = PRun.
Proof.
  intros Hm Hno. assert (Hb : bytes (replicate i2c_buf_len 0)) by (apply bytes_replicate; u8_const).
  destruct (update_app_status_spec (btldr_reset m) eq_refl Hb Hm) as ([Hr Hab] & H8 & _).
  unfold main_init, init_run_state. revert Hr Hab H8.
  generalize (update_app_status (btldr_reset m)). intros s Hr Hab H8.
  destruct (Z.eqb_spec (app_status s) (Z.lor 1 128)) as [Hst|]; [|done]. exfalso.
  assert (Hrdy : ready s) by (unfold ready; rewrite Hst; reflexivity).
  destruct Hno as [Hno|Hno]; [by apply Hno, Hr|].
  specialize (Hab Hrdy). cbn [memory btldr_reset] in Hab. rewrite Hno, Hst in Hab. done.
Qed.

(** No event on the bus. *)
Definition silent (samples : list i2c_sample) : Prop := Forall (λ e, no_event e = true) samples.

(** C30.  With a valid application whose record asks for it and a silent bus,
    the bootloader starts the application after exactly 16 rounds of 0x9100
    polls, neither earlier nor later; without the autoboot flag or a valid
    application it never leaves the bootloader on its own. *)
Theorem autoboot_timeout m samples :
  mem_bytes m → Forall sample_ok samples → silent samples →
  (app_valid m → Z.land (ed_autoboot (app_record m)) 0x80 = 0x80 →
     ((main m samples).1 = PApp ↔ 16 * 0x9100 <= Z.of_nat (length samples)))
  ∧ (¬ app_valid m ∨ Z.land (ed_autoboot (app_record m)) 0x80 = 0 → (main m samples).1 = PRun).
Proof.
  unfold silent. intros Hm Hs Hq. split.
  - intros Hv Ha. pose proof (main_init_autoboot m Hm Hv Ha) as Hp. unfold main.
    rewrite (no_event_run m); [rewrite Hp; cbn; lia|done|done|by apply main_init_inv|eauto].
  - intros Hno. unfold main. pose proof (main_init_manual m Hm Hno) as Hp. revert Hp.
    generalize (main_init m). intros [ph s]. cbn [fst]. intros ->.
    induction Hq as [|e l He Hq IH]; [done|]. cbn [fold_left main_step]. rewrite He.
    apply IH. by inversion Hs.
Qed.

Lemma autoboot_timeout_witness :
  app_valid (demo_mem 0x80) ∧ (main (demo_mem 0x80) (replicate 100 ev_none)).1 ≠ PApp
  ∧ (main (demo_mem 0) (replicate 100 ev_none)).1 = PRun.
Proof.
  assert (Hv : app_valid (demo_mem 0x80)) by (vm_compute; repeat split; discriminate || reflexivity).
  assert (Hs : Forall sample_ok (replicate 100 ev_none)) by (apply samples_check; reflexivity).
  assert (Hq : silent (replicate 100 ev_none))
    by (apply Forall_replicate; reflexivity).
  split; [exact Hv|]. split.
  - intros H. apply (autoboot_timeout (demo_mem 0x80) (replicate 100 ev_none)) in H;
      [|exact (demo_mem_bytes 0x80)|exact Hs|exact Hq|exact Hv|vm_compute; reflexivity].
    rewrite length_replicate in H. lia.
  - apply (autoboot_timeout (demo_mem 0) (replicate 100 ev_none));
      [exact (demo_mem_bytes 0)|exact Hs|exact Hq|right; vm_compute; reflexivity].
Defined.
