(* ===== verification/BootloaderBus.v ===== *)
(** The bootloader seen from the bus: what a whole register write or register
    read does to a bootloader in its command loop.  The byte-level slave
    (start, register byte, data bytes, stop) is shown to implement these
    register-level operations, which the host utility is verified against. *)

From S2P Require Import Prelude Checksum BtldrProto Bootloader BootloaderInv BootloaderProps.

(** ** Register-level operations *)

(** The command loop between two messages. *)
Record resting (s : btldr) : Prop := {
  r_state : i2c_state s = I2C_STATE_IDLE;
  r_off : i2c_offset s = 0;
  r_run : run_state s = RUN_STATE_BTLDR_RUN;
  r_len : length (i2c_buf s) = i2c_buf_len;
  r_buf : bytes (i2c_buf s)
}.

(** The end of an iteration of the command loop. *)
Definition loop_end (s : btldr) : phase_t * btldr :=
  let s := run_loop_body s in (if run_loop_continues s then PRun else PApp, s).

(** The slave after the register byte. *)
Definition selected (reg : Z) (st : i2c_state_t) (s : btldr) : btldr :=
  set_i2c_state st (set_i2c_reg reg s).

(** A register write of [msg], checksum included. *)
Definition reg_write (reg : Z) (msg : list Z) (s : btldr) : phase_t * btldr :=
  loop_end (i2c_message_stop (λ _, 0)
    (set_i2c_offset (Z.of_nat (length msg))
      (set_i2c_buf (list_inserts 0 msg (i2c_buf s)) (selected reg I2C_STATE_DATA_IN s)))).

(** The reply a register read prepares, before its two trailing bytes. *)
Definition reg_reply (reg : Z) (s : btldr) : btldr :=
  cmd_data_out reg (selected reg I2C_STATE_OUT_START_WAIT s).

(** The reply with its checksum byte. *)
Definition reg_reply_buf (reg : Z) (s : btldr) : list Z :=
  let s1 := reg_reply reg s in
  let size := Z.to_nat (i2c_out_remaining s1) in
  <[size := i2c_message_checksum (take size (i2c_buf s1)) reg]> (i2c_buf s1).

(** A register read of [n] bytes. *)
Definition reg_read (reg : Z) (n : nat) (s : btldr) : list Z * (phase_t * btldr) :=
  (take n (reg_reply_buf reg s),
   loop_end (I2C_STATE_RESET (set_i2c_state I2C_STATE_DATA_OUT
     (set_i2c_buf (reg_reply_buf reg s) (reg_reply reg s))))).

(** ** One poll *)

(** The polls the bus produces, in a state of the command loop. *)
Lemma step_event e s : no_event e = false →
  main_step (PRun, s) e = loop_end (i2c_proc_event e s).2.
Proof. intros He. cbn [main_step]. rewrite He. by destruct (i2c_proc_event e s). Qed.

Lemma loop_end_busy s : run_state s = RUN_STATE_BTLDR_RUN → i2c_state s ≠ I2C_STATE_IDLE →
  loop_end s = (PRun, s).
Proof.
  intros Hr Hs. unfold loop_end, run_loop_body, run_loop_continues.
  destruct (i2c_state s) eqn:E; try done; rewrite Hr; done.
Qed.

Lemma proc_addr_recv s : (i2c_proc_event ev_addr_recv s).2 = i2c_message_start I2C_START_RECV s.
Proof. reflexivity. Qed.
Lemma proc_addr_tra s : (i2c_proc_event ev_addr_tra s).2 = i2c_message_start I2C_START_TRA s.
Proof. reflexivity. Qed.
Lemma proc_byte b s : (i2c_proc_event (ev_byte b) s).2 = i2c_byte_in b s.
Proof. reflexivity. Qed.
Lemma proc_stop s : (i2c_proc_event ev_stop s).2 = i2c_message_stop (λ _, 0) s.
Proof. reflexivity. Qed.
Lemma proc_nack s : (i2c_proc_event ev_nack s).2 = i2c_message_stop (λ _, 0) s.
Proof. reflexivity. Qed.
Lemma proc_tx s : i2c_proc_event ev_tx s = ([DR_write (i2c_byte_out s).1], (i2c_byte_out s).2).
Proof. cbv -[i2c_byte_out]. by destruct (i2c_byte_out s). Qed.

(** What a poll makes the slave write to the peripheral. *)
Definition poll_writes (ps : phase_t * btldr) (e : i2c_sample) : list i2c_write :=
  match ps.1 with PApp => [] | _ => if no_event e then [] else (i2c_proc_event e ps.2).1 end.

(** The bytes put on the bus along a sequence of polls. *)
Fixpoint bus_output (ps : phase_t * btldr) (samples : list i2c_sample) : list Z :=
  match samples with
  | [] => []
  | e :: samples' =>
      omap (λ w, match w with DR_write b => Some b | _ => None end) (poll_writes ps e)
      ++ bus_output (main_step ps e) samples'
  end.

(** ** Selecting a register *)

Lemma select_register reg s rest : resting s → reg ≠ I2C_BTLDR_REG_RESV →
  fold_left main_step ([ev_addr_recv; ev_byte reg] ++ rest) (PRun, s)
  = fold_left main_step rest (PRun, selected reg
      (if Z.land reg I2C_BTLDR_REG_RW_MASK =? I2C_BTLDR_REG_READ
       then I2C_STATE_OUT_START_WAIT else I2C_STATE_DATA_IN) s).
Proof.
  intros Hs Hreg. cbn [fold_left app]. rewrite step_event by done. rewrite proc_addr_recv.
  unfold i2c_message_start. rewrite (r_state _ Hs).
  rewrite loop_end_busy by (cbn; rewrite ?(r_run _ Hs); done).
  rewrite step_event by done. rewrite proc_byte. unfold i2c_byte_in. cbn [i2c_state set_i2c_state].
  destruct (Z.eqb_spec reg 255) as [|_]; [done|]. cbn [negb].
  rewrite bool_decide_eq_true_2 by (cbn; apply (r_run _ Hs)). cbn [orb i2c_reg set_i2c_reg].
  destruct (Z.land reg 128 =? 0); (rewrite loop_end_busy; [done|cbn; apply (r_run _ Hs)|done]).
Qed.

(** ** Register writes *)

Lemma receive_bytes l s rest :
  i2c_state s = I2C_STATE_DATA_IN → run_state s = RUN_STATE_BTLDR_RUN → 0 <= i2c_offset s →
  i2c_offset s + Z.of_nat (length l) <= I2C_BUF_SIZE →
  fold_left main_step ((ev_byte <$> l) ++ rest) (PRun, s)
  = fold_left main_step rest (PRun, set_i2c_offset (i2c_offset s + Z.of_nat (length l))
      (set_i2c_buf (list_inserts (Z.to_nat (i2c_offset s)) l (i2c_buf s)) s)).
Proof.
  revert s. induction l as [|b l IH]; intros s Hst Hr H0 Hl.
  - cbn. rewrite Z.add_0_r. by destruct s.
  - cbn [fmap list_fmap app fold_left]. cbn [length] in Hl. rewrite step_event by done. rewrite proc_byte.
    assert (Hin : i2c_byte_in b s = set_i2c_offset (i2c_offset s + 1)
      (set_i2c_buf (<[Z.to_nat (i2c_offset s) := b]> (i2c_buf s)) s)).
    { unfold i2c_byte_in. rewrite Hst. destruct (Z.ltb_spec (i2c_offset s) 192); [|lia].
      f_equal. cbn. rewrite u8_small; [done|]. unfold is_u8. lia. }
    rewrite Hin, loop_end_busy by (cbn; congruence). rewrite IH by (cbn; auto; lia).
    f_equal. f_equal. cbn [i2c_offset i2c_buf set_i2c_offset set_i2c_buf].
    replace (Z.to_nat (i2c_offset s + 1)) with (S (Z.to_nat (i2c_offset s))) by lia.
    rewrite <- list_insert_inserts_lt by lia.
    replace (i2c_offset s + 1 + Z.of_nat (length l)) with (i2c_offset s + Z.of_nat (length (b :: l)))
      by (cbn [length]; lia).
    reflexivity.
Qed.

(** The bytes of a register write reach the command handler whole. *)
Lemma bus_write_refines reg msg s : resting s → reg ≠ I2C_BTLDR_REG_RESV →
  Z.land reg I2C_BTLDR_REG_RW_MASK ≠ I2C_BTLDR_REG_READ →
  (length msg <= Z.to_nat I2C_BUF_SIZE)%nat →
  fold_left main_step (bus_write reg msg) (PRun, s) = reg_write reg msg s.
Proof.
  intros Hs Hreg Hrw Hl. unfold bus_write. rewrite select_register by done.
  destruct (Z.eqb_spec (Z.land reg 128) 0) as [|_]; [done|].
  rewrite receive_bytes; cbn [selected set_i2c_state set_i2c_reg i2c_state run_state i2c_offset];
    rewrite ?(r_off _ Hs); [|done|apply (r_run _ Hs)|lia|lia].
  cbn [fold_left]. rewrite step_event by done. rewrite proc_stop. reflexivity.
Qed.

(** The state the command handler gets, and its effect. *)
Definition received (reg : Z) (payload : list Z) (s : btldr) : btldr :=
  set_i2c_offset (Z.of_nat (length payload))
    (set_i2c_buf (list_inserts 0 (i2c_message payload reg) (i2c_buf s)) (selected reg I2C_STATE_DATA_IN s)).

Lemma length_i2c_message p reg : length (i2c_message p reg) = S (length p).
Proof. unfold i2c_message. rewrite length_app. simpl. lia. Qed.

Lemma reg_write_message reg p s : resting s → bytes p → (length p <= 191)%nat →
  reg_write reg (i2c_message p reg) s = loop_end (I2C_STATE_RESET (cmd_data_in reg (received reg p s))).
Proof.
  intros Hs Hp Hl. unfold reg_write, i2c_message_stop. cbn [i2c_state set_i2c_offset set_i2c_buf selected set_i2c_state].
  cbn [i2c_buf i2c_reg i2c_offset set_i2c_offset set_i2c_buf set_i2c_state set_i2c_reg].
  rewrite length_i2c_message, list_inserts_0 by (rewrite length_i2c_message, (r_len _ Hs); unfold i2c_buf_len; lia).
  unfold i2c_message at 1. rewrite <- app_assoc. cbn [app].
  replace (Z.of_nat (S (length p))) with (Z.of_nat (length p) + 1) by lia.
  rewrite i2c_message_verify_eq, Z.eqb_refl by lia.
  unfold received. rewrite list_inserts_0 by (rewrite length_i2c_message, (r_len _ Hs); unfold i2c_buf_len; lia).
  unfold set_i2c_offset. cbn. do 4 f_equal. unfold u8. rewrite Z.mod_small; lia.
Qed.


(** ** Register reads *)

Lemma byte_out_sends s : i2c_state s = I2C_STATE_DATA_OUT → 0 <= i2c_offset s < I2C_BUF_SIZE →
  0 < i2c_out_remaining s < 256 →
  i2c_byte_out s = (i2c_buf s !!! Z.to_nat (i2c_offset s),
    set_i2c_out_remaining (i2c_out_remaining s - 1) (set_i2c_offset (i2c_offset s + 1) s)).
Proof.
  intros Hst Ho Hr. unfold i2c_byte_out, c_true. rewrite Hst.
  destruct (Z.eqb_spec (i2c_out_remaining s) 0); [lia|].
  destruct (Z.ltb_spec (i2c_offset s) 192); [|lia]. cbn [negb andb].
  rewrite !u8_small by (unfold is_u8; lia). done.
Qed.

Lemma send_bytes k s rest :
  i2c_state s = I2C_STATE_DATA_OUT → run_state s = RUN_STATE_BTLDR_RUN → 0 <= i2c_offset s →
  i2c_offset s + Z.of_nat k <= I2C_BUF_SIZE → Z.of_nat k <= i2c_out_remaining s < 256 →
  (I2C_BUF_SIZE < Z.of_nat (length (i2c_buf s))) →
  let s' := set_i2c_out_remaining (i2c_out_remaining s - Z.of_nat k)
    (set_i2c_offset (i2c_offset s + Z.of_nat k) s) in
  fold_left main_step (replicate k ev_tx ++ rest) (PRun, s) = fold_left main_step rest (PRun, s')
  ∧ bus_output (PRun, s) (replicate k ev_tx ++ rest)
    = take k (drop (Z.to_nat (i2c_offset s)) (i2c_buf s)) ++ bus_output (PRun, s') rest.
Proof.
  revert s. induction k as [|k IH]; intros s Hst Hr H0 Hl Hk Hb.
  - cbn. rewrite Z.add_0_r, Z.sub_0_r. by destruct s.
  - cbn [replicate app fold_left bus_output].
    assert (Hstep : main_step (PRun, s) ev_tx = (PRun,
      set_i2c_out_remaining (i2c_out_remaining s - 1) (set_i2c_offset (i2c_offset s + 1) s))).
    { rewrite step_event by done. rewrite proc_tx, byte_out_sends by (done || lia). cbn [snd].
      rewrite loop_end_busy; [done|by cbn|cbn; congruence]. }
    rewrite Hstep. destruct (IH (set_i2c_out_remaining (i2c_out_remaining s - 1)
      (set_i2c_offset (i2c_offset s + 1) s))) as [IH1 IH2]; [by cbn; try lia..|].
    rewrite IH1, IH2. cbn [i2c_offset i2c_out_remaining i2c_buf set_i2c_offset set_i2c_out_remaining].
    assert (Hs' : set_i2c_out_remaining (i2c_out_remaining s - 1 - Z.of_nat k)
        (set_i2c_offset (i2c_offset s + 1 + Z.of_nat k)
          (set_i2c_out_remaining (i2c_out_remaining s - 1) (set_i2c_offset (i2c_offset s + 1) s)))
      = set_i2c_out_remaining (i2c_out_remaining s - Z.of_nat (S k))
          (set_i2c_offset (i2c_offset s + Z.of_nat (S k)) s)).
    { replace (i2c_out_remaining s - 1 - Z.of_nat k) with (i2c_out_remaining s - Z.of_nat (S k)) by lia.
      replace (i2c_offset s + 1 + Z.of_nat k) with (i2c_offset s + Z.of_nat (S k)) by lia. done. }
    rewrite Hs'. split; [done|]. rewrite app_assoc. f_equal.
    unfold poll_writes. cbn [fst snd]. change (no_event ev_tx) with false. rewrite proc_tx.
    rewrite byte_out_sends by (done || lia). cbn [fst omap list_omap app].
    destruct (lookup_lt_is_Some_2 (i2c_buf s) (Z.to_nat (i2c_offset s))) as [x Hx]; [lia|].
    rewrite (drop_S _ _ _ Hx), (list_lookup_total_correct _ _ _ Hx). cbn [take].
    do 3 f_equal. lia.
Qed.

(** Every reply starts at the buffer's first byte, fits with its two trailing
    bytes, and keeps the loop running. *)
Record reply_ok (s : btldr) : Prop := {
  q_state : i2c_state s = I2C_STATE_OUT_START_WAIT;
  q_run : run_state s = RUN_STATE_BTLDR_RUN;
  q_off : i2c_offset s = 0;
  q_rem : 0 <= i2c_out_remaining s <= I2C_BUF_SIZE;
  q_len : length (i2c_buf s) = i2c_buf_len
}.

Definition reply_pre (s : btldr) : Prop :=
  i2c_state s = I2C_STATE_OUT_START_WAIT ∧ run_state s = RUN_STATE_BTLDR_RUN
  ∧ i2c_offset s = 0 ∧ length (i2c_buf s) = i2c_buf_len.

Lemma reply_ok_reply l size s : reply_pre s → 0 <= size <= 192 → reply_ok (reply l size s).
Proof. intros (?&?&?&?) Hs. unfold reply. constructor; cbn [set_i2c_out_remaining set_i2c_buf
  i2c_state run_state i2c_offset i2c_out_remaining i2c_buf]; rewrite ?length_inserts; done. Qed.

Lemma reply_ok_error e s : reply_pre s → reply_ok (reply_error e s).
Proof. intros (?&?&?&?). unfold reply_error. constructor; cbn [set_i2c_out_remaining set_i2c_buf
  set_btldr_state set_i2c_offset i2c_state run_state i2c_offset i2c_out_remaining i2c_buf];
  rewrite ?length_inserts; done || lia. Qed.

Lemma reply_pre_step f b s : reply_pre s → reply_pre (status_flash_step f b s).
Proof. intros H. unfold status_flash_step. destruct (_ && _); [|done]. by destruct f. Qed.

Lemma reg_reply_ok reg s : resting s → reply_ok (reg_reply reg s).
Proof.
  intros Hs. unfold reg_reply, cmd_data_out, selected.
  set (s0 := set_flash_state FLASH_STATE_IDLE _).
  assert (Hp : reply_pre s0) by (destruct Hs; done).
  assert (Hrem : i2c_out_remaining s0 = i2c_out_remaining s) by done. clearbody s0.
  split_ifs; auto using reply_ok_error; try (apply reply_ok_reply; [|lia]; auto using reply_pre_step).
  destruct Hp as (?&?&?&?). bool_prop. constructor; cbn; auto; lia.
Qed.

Lemma proc_addr_tra_reply s : i2c_state s = I2C_STATE_OUT_START_WAIT → reply_ok (cmd_data_out (i2c_reg s) s) →
  i2c_reg (cmd_data_out (i2c_reg s) s) = i2c_reg s →
  (i2c_proc_event ev_addr_tra s).2
  = set_i2c_state I2C_STATE_DATA_OUT (set_i2c_out_remaining (i2c_out_remaining (cmd_data_out (i2c_reg s) s) + 2)
      (set_i2c_buf (let s1 := cmd_data_out (i2c_reg s) s in
         let size := Z.to_nat (i2c_out_remaining s1) in
         <[size := i2c_message_checksum (take size (i2c_buf s1)) (i2c_reg s)]> (i2c_buf s1))
         (cmd_data_out (i2c_reg s) s))).
Proof.
  intros Hst [] Hreg. rewrite proc_addr_tra. unfold i2c_message_start. rewrite Hst.
  cbv zeta. rewrite Hreg, q_off0. cbn [Z.to_nat drop]. rewrite Z.add_0_l.
  do 2 f_equal. cbn [i2c_out_remaining set_i2c_buf]. apply u8_small. unfold is_u8. lia.
Qed.

Lemma cmd_data_out_reg cmd s : i2c_reg (cmd_data_out cmd s) = i2c_reg s.
Proof.
  unfold cmd_data_out, reply, reply_error, status_flash_step.
  split_ifs; cbn [set_i2c_out_remaining set_i2c_buf set_i2c_offset set_btldr_state set_flash_state i2c_reg];
    try done; by destruct (flash_state s).
Qed.

Lemma bus_output_app l1 l2 ps :
  bus_output ps (l1 ++ l2) = bus_output ps l1 ++ bus_output (fold_left main_step l1 ps) l2.
Proof.
  revert ps. induction l1 as [|e l1 IH]; intros ps; [done|]. cbn [app bus_output fold_left].
  by rewrite IH, app_assoc.
Qed.

Lemma silent_polls ps e : (e = ev_addr_recv ∨ (∃ b, e = ev_byte b) ∨ e = ev_addr_tra ∨ e = ev_nack ∨ e = ev_stop) →
  omap (λ w, match w with DR_write b => Some b | _ => None end) (poll_writes ps e) = [].
Proof. unfold poll_writes. intros [->|[[b ->]|[->|[->| ->]]]]; by destruct ps as [[] s]. Qed.

(** A read of a register takes the bytes of the prepared reply. *)
Lemma bus_read_refines reg n s : resting s → Z.land reg I2C_BTLDR_REG_RW_MASK = I2C_BTLDR_REG_READ →
  Z.of_nat n + 1 <= I2C_BUF_SIZE → Z.of_nat n <= i2c_out_remaining (reg_reply reg s) + 1 →
  fold_left main_step (bus_read reg n) (PRun, s) = (reg_read reg n s).2
  ∧ take n (bus_output (PRun, s) (bus_read reg n)) = (reg_read reg n s).1.
Proof.
  intros Hs Hrw Hn Hrem. pose proof (reg_reply_ok reg s Hs) as Hok.
  assert (Hreg : reg ≠ 255) by (intros ->; done).
  assert (Hsel : fold_left main_step [ev_addr_recv; ev_byte reg; ev_addr_tra] (PRun, s)
    = (PRun, set_i2c_state I2C_STATE_DATA_OUT (set_i2c_out_remaining (i2c_out_remaining (reg_reply reg s) + 2)
        (set_i2c_buf (reg_reply_buf reg s) (reg_reply reg s))))).
  { change [ev_addr_recv; ev_byte reg; ev_addr_tra] with ([ev_addr_recv; ev_byte reg] ++ [ev_addr_tra]).
    rewrite select_register by done. rewrite Hrw. cbn [Z.eqb fold_left]. rewrite step_event by done.
    rewrite proc_addr_tra_reply; [|done|exact Hok|apply cmd_data_out_reg].
    apply loop_end_busy; [|done]. apply (q_run _ Hok). }
  unfold bus_read. change ([ev_addr_recv; ev_byte reg; ev_addr_tra] ++ replicate (S n) ev_tx ++ [ev_nack])
    with ([ev_addr_recv; ev_byte reg; ev_addr_tra] ++ (replicate (S n) ev_tx ++ [ev_nack])).
  rewrite fold_left_app, bus_output_app, Hsel.
  match goal with |- context [(PRun, ?s1)] => set (s2 := s1) end.
  assert (Hlen : length (i2c_buf s2) = i2c_buf_len).
  { subst s2. cbn [i2c_buf set_i2c_state set_i2c_out_remaining set_i2c_buf]. unfold reg_reply_buf.
    rewrite length_insert. apply (q_len _ Hok). }
  destruct Hok. destruct (send_bytes (S n) s2 [ev_nack]) as [H1 H2]; try done.
  { subst s2. cbn. rewrite q_off0. done. }
  { subst s2. cbn. rewrite q_off0. lia. }
  { subst s2. cbn. lia. }
  { rewrite Hlen. done. }
  rewrite H1, H2. split.
  - cbn [fold_left]. rewrite step_event by done. rewrite proc_nack. unfold i2c_message_stop, reg_read.
    reflexivity.
  - cbn [bus_output]. rewrite (silent_polls _ ev_nack), !silent_polls by eauto 6. cbn [app].
    rewrite app_nil_r, take_take. replace (n `min` S n)%nat with n by lia.
    subst s2. cbn [i2c_offset set_i2c_state set_i2c_out_remaining set_i2c_buf i2c_buf]. by rewrite q_off0.
Qed.

(** ** Whole conversations *)

Definition at_rest (m0 : mem) (s : btldr) : Prop :=
  inv m0 s ∧ i2c_state s = I2C_STATE_IDLE ∧ run_state s = RUN_STATE_BTLDR_RUN.

Lemma at_rest_resting m0 s : at_rest m0 s → resting s.
Proof.
  intros ([Hc Hp] & Hi & Hr). constructor; auto; [|apply (c_len _ _ Hc)|apply (c_buf _ _ Hc)].
  apply (p_zero _ Hp); congruence.
Qed.

(** The bytes a register's reply has at least; larger reads underflow. *)
Definition reply_size (reg : Z) : Z :=
  if reg =? I2C_BTLDR_REG_BTLDR_INFO then I2C_BTLDR_REG_BTLDR_INFO_SIZE
  else if reg =? I2C_BTLDR_REG_STATUS then I2C_BTLDR_REG_STATUS_SIZE
  else if reg =? I2C_BTLDR_REG_DEV_INFO then I2C_BTLDR_REG_DEV_INFO_SIZE
  else if reg =? I2C_BTLDR_REG_FLASH_INFO then I2C_BTLDR_REG_FLASH_INFO_SIZE
  else if reg =? I2C_BTLDR_REG_APP_INFO then I2C_BTLDR_REG_APP_INFO_SIZE
  else FLASH_BLOCK_SIZE.

Lemma reply_size_le reg s : reply_size reg <= i2c_out_remaining (reg_reply reg s).
Proof.
  unfold reply_size, reg_reply, cmd_data_out. set (s0 := set_flash_state FLASH_STATE_IDLE _).
  assert (Hrem : i2c_out_remaining s0 = i2c_out_remaining s) by done. clearbody s0.
  unfold reply, reply_error. split_ifs; bool_prop; cbn; lia.
Qed.

Inductive txn := TWrite (reg : Z) (msg : list Z) | TRead (reg : Z) (n : nat).

Definition txn_ok (t : txn) : Prop :=
  match t with
  | TWrite reg msg => is_u8 reg ∧ reg ≠ I2C_BTLDR_REG_RESV ∧ Z.land reg I2C_BTLDR_REG_RW_MASK ≠ I2C_BTLDR_REG_READ
      ∧ bytes msg ∧ (length msg <= 192)%nat
  | TRead reg n => is_u8 reg ∧ Z.land reg I2C_BTLDR_REG_RW_MASK = I2C_BTLDR_REG_READ
      ∧ Z.of_nat n <= reply_size reg + 1
  end.

(** A transaction on the wire and at register level. *)
Definition txn_samples (t : txn) : list i2c_sample :=
  match t with TWrite reg msg => bus_write reg msg | TRead reg n => bus_read reg n end.
Definition txn_step (s : btldr) (t : txn) : list Z * (phase_t * btldr) :=
  match t with TWrite reg msg => ([], reg_write reg msg s) | TRead reg n => reg_read reg n s end.

Lemma txn_samples_ok t : txn_ok t → Forall sample_ok (txn_samples t).
Proof.
  assert (Hb : ∀ b, is_u8 b → sample_ok (ev_byte b)) by done.
  assert (Hc : ∀ e, DR e = 0 → sample_ok e) by (intros e He; unfold sample_ok; rewrite He; u8_const).
  destruct t as [reg msg|reg n]; cbn.
  - intros (Hr & _ & _ & Hm & _). repeat (constructor; auto). apply Forall_app_2; [|by repeat (constructor; auto)].
    apply Forall_fmap, (Forall_impl _ _ _ Hm). auto.
  - intros (Hr & _). repeat (constructor; auto). apply Forall_app_2; [|by repeat (constructor; auto)].
    apply Forall_replicate. auto.
Qed.

Lemma txn_refines m0 s t : at_rest m0 s → txn_ok t →
  fold_left main_step (txn_samples t) (PRun, s) = (txn_step s t).2
  ∧ (∀ reg n, t = TRead reg n → take n (bus_output (PRun, s) (txn_samples t)) = (txn_step s t).1).
Proof.
  intros Hs Ht. pose proof (at_rest_resting _ _ Hs) as Hrest. destruct t as [reg msg|reg n]; cbn in *.
  - destruct Ht as (_ & Hr & Hw & _ & Hl). split; [by apply bus_write_refines|done].
  - destruct Ht as (_ & Hr & Hn). pose proof (reply_size_le reg s).
    assert (reply_size reg <= 128) by (unfold reply_size; split_ifs; lia).
    destruct (bus_read_refines reg n s) as [H1 H2]; [done|done|lia|lia|].
    split; [done|]. intros ? ? [= <- <-]. done.
Qed.

(** After a transaction the bootloader is back in its command loop with the
    slave idle, or it left for the application. *)
Lemma loop_end_rest m0 s : i2c_state s = I2C_STATE_IDLE → main_inv m0 (loop_end s) → (loop_end s).1 = PRun →
  core m0 s → at_rest m0 (loop_end s).2.
Proof.
  intros Hi [Hinv _] Hp Hs. split; [done|].
  assert (Hb : i2c_state (run_loop_body s) = I2C_STATE_IDLE).
  { unfold run_loop_body. rewrite Hi.
    destruct (flash_state s); try done; try (rewrite <- Hi; apply flash_rdwr_run_i2c).
    rewrite <- Hi. eapply write_app_info_run_i2c, Hs. }
  unfold loop_end in *. cbn [fst snd] in *. split; [done|].
  unfold run_loop_continues in Hp. rewrite Hb in Hp.
  rewrite (bool_decide_eq_false_2 (I2C_STATE_IDLE ≠ _)) in Hp by auto. rewrite orb_false_r in Hp.
  destruct (decide (run_state (run_loop_body s) = RUN_STATE_BTLDR_RUN)) as [|Hn]; [done|].
  rewrite bool_decide_eq_false_2 in Hp by done. done.
Qed.

Lemma reset_core m0 s : core m0 s → core m0 (I2C_STATE_RESET s).
Proof.
  intros Hc. unfold I2C_STATE_RESET. destruct (i2c_state s); [done|..];
    (apply core_set_i2c_reg; [|u8_const]; by apply core_set_out_remaining, core_set_i2c_offset, core_set_i2c_state).
Qed.

Lemma reset_idle s : i2c_state (I2C_STATE_RESET s) = I2C_STATE_IDLE.
Proof. unfold I2C_STATE_RESET. by destruct (i2c_state s) eqn:E. Qed.

Lemma core_reply_buf m0 reg s : core m0 s → is_u8 reg →
  core m0 (set_i2c_buf (reg_reply_buf reg s) (reg_reply reg s)).
Proof.
  intros Hc Hr.
  assert (Hr1 : core m0 (reg_reply reg s))
    by (by apply core_cmd_data_out, core_set_i2c_state, core_set_i2c_reg).
  unfold reg_reply_buf. apply core_set_i2c_buf; [done|rewrite length_insert; apply (c_len _ _ Hr1)|].
  apply bytes_insert; [apply (c_buf _ _ Hr1)|].
  apply crc8_range; [apply u8_range|]. apply Forall_take, (c_buf _ _ Hr1).
Qed.

(** The state a transaction hands to the end of the loop. *)
Lemma txn_step_end m0 s t : at_rest m0 s → txn_ok t →
  ∃ s', (txn_step s t).2 = loop_end s' ∧ i2c_state s' = I2C_STATE_IDLE ∧ core m0 s'.
Proof.
  intros ([Hc Hp] & Hi & Hr) Ht. destruct t as [reg msg|reg n]; cbn in Ht; unfold txn_step, reg_read; cbn [snd].
  - destruct Ht as (Hreg & _ & _ & Hm & Hl). eexists. split; [done|].
    unfold i2c_message_stop. cbn [i2c_state set_i2c_offset set_i2c_buf selected set_i2c_state].
    split; [apply reset_idle|]. apply reset_core.
    match goal with |- core _ (if ?b then cmd_data_in ?r (set_i2c_offset _ ?s1) else _) =>
      set (s2 := s1); assert (H2 : core m0 s2) end.
    { subst s2. apply core_set_i2c_offset, core_set_i2c_buf;
        [by apply core_set_i2c_state, core_set_i2c_reg|rewrite length_inserts; apply (c_len _ _ Hc)|].
      apply bytes_inserts; [apply (c_buf _ _ Hc)|done]. }
    destruct (i2c_message_verify _ _ _).
    + apply core_cmd_data_in; [by apply core_set_i2c_offset|]. intros Hn. exfalso. by apply Hn.
    + apply core_flash_idle, core_set_btldr_state; [done|u8_const].
  - destruct Ht as (Hreg & _ & _). eexists. split; [done|]. split; [apply reset_idle|].
    apply reset_core, core_set_i2c_state. by apply core_reply_buf.
Qed.

Lemma txn_step_rest m0 s t : at_rest m0 s → txn_ok t → (txn_step s t).2.1 = PRun →
  at_rest m0 (txn_step s t).2.2.
Proof.
  intros Hs Ht Hp. destruct (txn_refines m0 s t Hs Ht) as [Hrun _].
  assert (Hinv : main_inv m0 (txn_step s t).2).
  { rewrite <- Hrun. apply main_steps_inv; [by apply txn_samples_ok|].
    destruct Hs as (Hi & _ & Hr). split; [done|]. cbn. congruence. }
  destruct (txn_step_end m0 s t Hs Ht) as (s' & Heq & Hi & Hc). rewrite Heq in *.
  by apply loop_end_rest.
Qed.

(** A conversation at register level; nothing answers after the jump to the
    application. *)
Fixpoint conversation (ps : phase_t * btldr) (ts : list txn) : list (list Z) * (phase_t * btldr) :=
  match ts with
  | [] => ([], ps)
  | t :: ts' =>
      match ps.1 with
      | PRun => let '(out, ps) := txn_step ps.2 t in
                let '(outs, ps) := conversation ps ts' in (out :: outs, ps)
      | _ => let '(outs, ps) := conversation ps ts' in ([] :: outs, ps)
      end
  end.

(** The bytes the master keeps of each read. *)
Fixpoint wire (ps : phase_t * btldr) (ts : list txn) : list (list Z) * (phase_t * btldr) :=
  match ts with
  | [] => ([], ps)
  | t :: ts' =>
      let out := match t with TRead _ n => take n (bus_output ps (txn_samples t)) | _ => [] end in
      let '(outs, ps) := wire (fold_left main_step (txn_samples t) ps) ts' in (out :: outs, ps)
  end.

Lemma app_absorbs l s : fold_left main_step l (PApp, s) = (PApp, s).
Proof. induction l; auto. Qed.

Lemma app_silent l s : bus_output (PApp, s) l = [].
Proof. induction l; auto. Qed.

Lemma txn_output m0 s t : at_rest m0 s → txn_ok t →
  match t with TRead _ n => take n (bus_output (PRun, s) (txn_samples t)) | _ => [] end = (txn_step s t).1.
Proof.
  intros Hs Ht. destruct (txn_refines m0 s t Hs Ht) as [_ H2]. destruct t as [reg msg|reg n]; [done|].
  by eapply H2.
Qed.

(** C17.  The byte-level slave of i2c.c and the loop of main.c implement the
    register-level protocol: any sequence of register writes and reads put on
    the bus as starts, bytes and stops is answered, and leaves the same
    state, as the command handlers applied to whole messages. *)
Theorem wire_refines_registers m0 s ts : at_rest m0 s → Forall txn_ok ts →
  wire (PRun, s) ts = conversation (PRun, s) ts.
Proof.
  intros Hs Hts. revert s Hs. induction Hts as [|t ts Ht Hts IH]; intros s Hs; [done|].
  cbn [wire conversation fst snd]. rewrite (txn_output m0) by done.
  destruct (txn_refines m0 s t Hs Ht) as [-> _].
  pose proof (txn_step_rest m0 s t Hs Ht) as Hrest.
  destruct (txn_step_end m0 s t Hs Ht) as (s' & Heq & _).
  destruct (txn_step s t) as [out [ph s1]]. cbn [fst snd] in *.
  destruct ph as [t0 c0| |].
  - exfalso. unfold loop_end in Heq. by destruct (run_loop_continues _).
  - rewrite IH by auto. done.
  - clear -ts. assert (H : wire (PApp, s1) ts = conversation (PApp, s1) ts); [|by rewrite H].
    induction ts as [|t ts IH]; [done|]. cbn [wire conversation fst].
    rewrite app_absorbs, app_silent, IH. by destruct t; rewrite ?take_nil.
Qed.

Definition demo_state : btldr := (main (demo_mem 0) []).2.

Lemma demo_state_rest : at_rest (demo_mem 0) demo_state.
Proof.
  destruct (main_reachable_inv (demo_mem 0) [] (demo_mem_bytes 0) (Forall_nil_2 _)) as [Hi _].
  split; [exact Hi|]. split; vm_compute; reflexivity.
Qed.

(** Read the protocol version, then arm a write of the second block. *)
Definition demo_txns : list txn :=
  [TRead I2C_BTLDR_REG_BTLDR_INFO 9;
   TWrite I2C_BTLDR_REG_DATA_WRITE_ADDR (i2c_message (be32 0xa080) I2C_BTLDR_REG_DATA_WRITE_ADDR);
   TRead I2C_BTLDR_REG_STATUS 2].

Lemma wire_refines_registers_witness :
  wire (PRun, demo_state) demo_txns = conversation (PRun, demo_state) demo_txns
  ∧ head (conversation (PRun, demo_state) demo_txns).1
    = Some (i2c_message [0x87; 0x65; 0x43; 0x21; 0; 2; 0; 5] I2C_BTLDR_REG_BTLDR_INFO).
Proof.
  split; [|vm_compute; reflexivity].
  apply (wire_refines_registers (demo_mem 0)); [exact demo_state_rest|].
  unfold demo_txns. repeat apply Forall_cons_2; [..|apply Forall_nil_2]; unfold txn_ok, is_u8;
    split_and!; try lia; try discriminate; try reflexivity; [apply bytes_check; vm_compute; reflexivity|].
  rewrite length_i2c_message. apply le_S_n. simpl. lia.
Defined.
