(* ===== verification/BootloaderRegs.v ===== *)
(** The registers of the bootloader one by one, at message level: what each
    write and each read of the flashing protocol does, branch by branch.
    These are the facts a host relies on. *)

From S2P Require Import Prelude Checksum BtldrProto Bootloader BootloaderInv BootloaderProps BootloaderBus.

(** What a host can know of the bootloader between two transactions. *)
Record dev (m0 m : mem) (status : Z) (f : flash_state_t) (addr b : Z) (s : btldr) : Prop := {
  d_rest : at_rest m0 s;
  d_mem : memory s = m;
  d_status : app_status s = status;
  d_flash : flash_state s = f;
  d_addr : flash_addr s = addr;
  d_bst : btldr_state s = b
}.

(** A well-formed register write of a payload. *)
Definition send (reg : Z) (payload : list Z) (s : btldr) : phase_t * btldr :=
  reg_write reg (i2c_message payload reg) s.

Definition write_reg (reg : Z) : Prop :=
  is_u8 reg ∧ reg ≠ I2C_BTLDR_REG_RESV ∧ Z.land reg I2C_BTLDR_REG_RW_MASK ≠ I2C_BTLDR_REG_READ.

Lemma bytes_i2c_message p reg : bytes p → bytes (i2c_message p reg).
Proof.
  intros Hp. apply bytes_app; [done|]. apply Forall_singleton. apply crc8_range; [apply u8_range|done].
Qed.

Lemma send_txn_ok reg p : write_reg reg → bytes p → (length p <= 191)%nat →
  txn_ok (TWrite reg (i2c_message p reg)).
Proof.
  intros (H1 & H2 & H3) Hp Hl. cbn. rewrite length_i2c_message. split_and!; auto; [|lia].
  by apply bytes_i2c_message.
Qed.

Definition run_flash_state (f : flash_state_t) : bool :=
  match f with
  | FLASH_STATE_EEPROM_READ_RUN | FLASH_STATE_DATA_READ_RUN | FLASH_STATE_EEPROM_WRITE_RUN
  | FLASH_STATE_DATA_WRITE_RUN | FLASH_STATE_APP_INFO_WRITE_RUN => true
  | _ => false
  end.

Lemma loop_end_quiet s : run_state s = RUN_STATE_BTLDR_RUN → run_flash_state (flash_state s) = false →
  loop_end s = (PRun, s).
Proof.
  intros Hr Hf. unfold loop_end, run_loop_body, run_loop_continues.
  destruct (i2c_state s), (flash_state s); try done; by rewrite Hr.
Qed.

Lemma reset_same s : let s' := I2C_STATE_RESET s in
  run_state s' = run_state s ∧ btldr_state s' = btldr_state s ∧ app_status s' = app_status s
  ∧ flash_state s' = flash_state s ∧ flash_addr s' = flash_addr s ∧ i2c_buf s' = i2c_buf s
  ∧ memory s' = memory s.
Proof. unfold I2C_STATE_RESET. destruct (i2c_state s); done. Qed.

(** A write whose handler leaves no flash operation to run. *)
Lemma send_quiet m0 reg p s m st f a b (s1 := cmd_data_in reg (received reg p s)) :
  at_rest m0 s → write_reg reg → bytes p → (length p <= 191)%nat →
  run_state s1 = RUN_STATE_BTLDR_RUN → run_flash_state f = false →
  memory s1 = m → app_status s1 = st → flash_state s1 = f → flash_addr s1 = a → btldr_state s1 = b →
  (send reg p s).1 = PRun ∧ dev m0 m st f a b (send reg p s).2.
Proof.
  intros Hs Hreg Hp Hl Hr Hf Hm Hst Hfs Ha Hb.
  assert (Hsend : send reg p s = (PRun, I2C_STATE_RESET s1)).
  { unfold send. rewrite reg_write_message by (try done; by eapply at_rest_resting).
    destruct (reset_same s1) as (Hr' & _ & _ & Hf' & _).
    apply loop_end_quiet; [by rewrite Hr'|by rewrite Hf', Hfs]. }
  pose proof (txn_step_rest m0 s _ Hs (send_txn_ok reg p Hreg Hp Hl)) as Hrest.
  cbn [txn_step snd] in Hrest. fold (send reg p s) in Hrest. rewrite Hsend in *. split; [done|].
  specialize (Hrest eq_refl). cbn [fst snd] in *.
  destruct (reset_same s1) as (_ & H2 & H3 & H4 & H5 & _ & H7).
  constructor; [done|congruence..].
Qed.

(** ** Flash addresses *)

Lemma received_buf reg p s : resting s → (length p <= 191)%nat →
  i2c_buf (received reg p s) = p ++ i2c_message_checksum p reg :: drop (S (length p)) (i2c_buf s).
Proof.
  intros Hs Hl. unfold received. cbn [i2c_buf set_i2c_offset set_i2c_buf].
  rewrite list_inserts_0, length_i2c_message by (rewrite length_i2c_message, (r_len _ Hs); unfold i2c_buf_len; lia).
  unfold i2c_message. by rewrite <- app_assoc.
Qed.

Lemma received_addr reg a s : resting s → is_u32 a → get32 (i2c_buf (received reg (be32 a) s)) 0 = a.
Proof.
  intros Hs Ha. rewrite received_buf by (try done; rewrite length_be32; lia).
  rewrite get32_be32_app. by apply u32_small.
Qed.

(** The state the four address registers arm. *)
Definition addr_ready (reg : Z) : option flash_state_t :=
  if reg =? I2C_BTLDR_REG_EEPROM_READ_ADDR then Some FLASH_STATE_EEPROM_READ_ADDR_READY
  else if reg =? I2C_BTLDR_REG_DATA_READ_ADDR then Some FLASH_STATE_DATA_READ_ADDR_READY
  else if reg =? I2C_BTLDR_REG_EEPROM_WRITE_ADDR then Some FLASH_STATE_EEPROM_WRITE_ADDR_READY
  else if reg =? I2C_BTLDR_REG_DATA_WRITE_ADDR then Some FLASH_STATE_DATA_WRITE_ADDR_READY
  else None.

Lemma cmd_data_in_addr reg f s : addr_ready reg = Some f →
  write_reg reg ∧ (∀ s, set_addr_ready_flash_state reg s = set_flash_state f s) ∧
  cmd_data_in reg s = cmd_set_addr reg (set_flash_state FLASH_STATE_IDLE (set_btldr_state 0 s)).
Proof.
  unfold addr_ready, set_addr_ready_flash_state, cmd_data_in, write_reg, is_u8.
  destruct (Z.eqb_spec reg 0x85) as [->|]; [intros [= <-]; split_and!; done || lia|].
  destruct (Z.eqb_spec reg 0x86) as [->|]; [intros [= <-]; split_and!; done || lia|].
  destruct (Z.eqb_spec reg 0x87) as [->|]; [intros [= <-]; split_and!; done || lia|].
  destruct (Z.eqb_spec reg 0x89) as [->|]; [intros [= <-]; split_and!; done || lia|done].
Qed.

Lemma addr_ready_quiet reg f : addr_ready reg = Some f → run_flash_state f = false.
Proof. unfold addr_ready. split_ifs; by intros [= <-]. Qed.

(** Writing an address register: a good address arms its flash state and
    answers OK, a bad one disarms whatever was armed. *)
Lemma send_addr m0 reg a s m st f0 a0 b0 f : dev m0 m st f0 a0 b0 s →
  addr_ready reg = Some f → is_u32 a →
  let e := check_flash_addr reg a in
  (send reg (be32 a) s).1 = PRun ∧
  (if e =? I2C_BTLDR_STATE_OK then dev m0 m st f a 0 (send reg (be32 a) s).2
   else dev m0 m st FLASH_STATE_IDLE a0 e (send reg (be32 a) s).2).
Proof.
  intros [Hs Hm Hst Hf0 Ha0 Hb0] Hreg Ha e.
  destruct (cmd_data_in_addr reg f (received reg (be32 a) s) Hreg) as (Hw & Hset & Hcmd).
  pose proof (at_rest_resting _ _ Hs) as Hrest. pose proof (received_addr reg a s Hrest Ha) as Hget.
  unfold cmd_set_addr in Hcmd. cbn [i2c_buf set_flash_state set_btldr_state btldr_state] in Hcmd.
  rewrite Hget in Hcmd. fold e in Hcmd.
  assert (Hr : run_state s = RUN_STATE_BTLDR_RUN) by apply Hs.
  destruct (Z.eqb_spec e 0) as [He|He].
  - rewrite Hset in Hcmd.
    apply (send_quiet m0 reg (be32 a) s); auto using bytes_be32; try (rewrite Hcmd; cbn; congruence).
    + rewrite length_be32. lia.
    + by eapply addr_ready_quiet.
  - destruct (send_quiet m0 reg (be32 a) s m st FLASH_STATE_IDLE a0 e) as [H1 H2];
      auto using bytes_be32; try (rewrite Hcmd; cbn; congruence). rewrite length_be32. lia.
Qed.

(** ** Flash blocks *)

(** The write registers, the state they need, the area they program. *)
Inductive write_area := EepromArea | DataArea.
Definition area_write_reg (k : write_area) : Z :=
  match k with EepromArea => I2C_BTLDR_REG_EEPROM_WRITE | DataArea => I2C_BTLDR_REG_DATA_WRITE end.
Definition area_data_ready (k : write_area) : flash_state_t :=
  match k with EepromArea => FLASH_STATE_EEPROM_WRITE_DATA_READY | DataArea => FLASH_STATE_DATA_WRITE_DATA_READY end.
Definition area_write_run (k : write_area) : flash_state_t :=
  match k with EepromArea => FLASH_STATE_EEPROM_WRITE_RUN | DataArea => FLASH_STATE_DATA_WRITE_RUN end.
(** Programming the data area drops the ready flag. *)
Definition area_status (k : write_area) (st : Z) : Z :=
  match k with EepromArea => st | DataArea => Z.lor (Z.land st (Z.lnot I2C_BTLDR_APP_STATUS_READY_MASK)) 0 end.

Lemma flash_rdwr_run_write_area k s : flash_state s = area_write_run k → flash_ok (flash_state s) (flash_addr s) →
  flash_rdwr_run s = set_flash_state FLASH_STATE_IDLE (set_app_status (area_status k (app_status s))
    (set_memory (mwrites (memory s) (flash_addr s) (block_of s)) s)).
Proof.
  intros Hf Hok. unfold flash_rdwr_run. rewrite Hf in *. destruct k; cbn [area_write_run flash_ok] in *;
    rewrite flash_write_mem by auto; by destruct s.
Qed.

Lemma cmd_write_block_area k s : flash_state s = area_data_ready k → i2c_offset s = FLASH_BLOCK_SIZE →
  cmd_data_in (area_write_reg k) s
  = set_flash_state (area_write_run k) (set_flash_state FLASH_STATE_IDLE (set_btldr_state 0 s)).
Proof.
  intros Hf Ho. destruct k; cbn [area_write_reg area_data_ready] in *; unfold cmd_data_in; cbn -[cmd_write_block];
    unfold cmd_write_block; cbn [i2c_offset set_flash_state set_btldr_state]; by rewrite Hf, Ho.
Qed.

Lemma area_write_reg_ok k : write_reg (area_write_reg k).
Proof. destruct k; split_and!; done || (unfold is_u8; cbn; lia). Qed.

Lemma loop_end_write k s : i2c_state s = I2C_STATE_IDLE → run_state s = RUN_STATE_BTLDR_RUN →
  flash_state s = area_write_run k → flash_ok (flash_state s) (flash_addr s) →
  loop_end s = (PRun, set_flash_state FLASH_STATE_IDLE (set_app_status (area_status k (app_status s))
    (set_memory (mwrites (memory s) (flash_addr s) (block_of s)) s))).
Proof.
  intros Hi Hr Hf Hok. unfold loop_end. rewrite <- (flash_rdwr_run_write_area k s Hf Hok).
  assert (Hb : run_loop_body s = flash_rdwr_run s).
  { unfold run_loop_body. rewrite Hi, Hf. by destruct k. }
  rewrite Hb. unfold run_loop_continues.
  destruct (flash_rdwr_run_i2c s) as [Hr' _]. by rewrite Hr', Hr.
Qed.

(** The handler's state once the message is over. *)
Lemma send_end m0 reg p s : at_rest m0 s → write_reg reg → bytes p → (length p <= 191)%nat →
  ∃ s1, send reg p s = loop_end s1 ∧ i2c_state s1 = I2C_STATE_IDLE
  ∧ (let s2 := cmd_data_in reg (received reg p s) in
     run_state s1 = run_state s2 ∧ btldr_state s1 = btldr_state s2 ∧ app_status s1 = app_status s2
     ∧ flash_state s1 = flash_state s2 ∧ flash_addr s1 = flash_addr s2 ∧ i2c_buf s1 = i2c_buf s2
     ∧ memory s1 = memory s2)
  ∧ ((send reg p s).1 = PRun → at_rest m0 (send reg p s).2).
Proof.
  intros Hs Hw Hp Hl. exists (I2C_STATE_RESET (cmd_data_in reg (received reg p s))).
  split; [apply reg_write_message; [by eapply at_rest_resting|done|done]|].
  split; [apply reset_idle|]. split; [apply reset_same|].
  exact (txn_step_rest m0 s _ Hs (send_txn_ok reg p Hw Hp Hl)).
Qed.

(** The register write of a whole block in the armed state programs it. *)
Lemma send_block m0 k l s m st a : dev m0 m st (area_data_ready k) a 0 s →
  bytes l → length l = 128%nat →
  (send (area_write_reg k) l s).1 = PRun ∧
  dev m0 (mwrites m a l) (area_status k st) FLASH_STATE_IDLE a 0 (send (area_write_reg k) l s).2.
Proof.
  intros [Hs Hm Hst Hf Ha Hb] Hl Hlen. pose proof (at_rest_resting _ _ Hs) as Hrest.
  assert (Hok : flash_ok (area_write_run k) a).
  { pose proof (c_flash _ _ (proj1 (proj1 Hs))) as H. rewrite Hf, Ha in H. by destruct k. }
  destruct (send_end m0 (area_write_reg k) l s) as (s1 & Heq & Hi & Hs1 & Hres);
    [done|apply area_write_reg_ok|done|lia|]. rewrite Heq in *. clear Heq.
  rewrite cmd_write_block_area in Hs1 by first [exact Hf|cbn; by rewrite Hlen].
  destruct Hs1 as (Hr1 & Hb1 & Ha1 & Hf1 & Hfa1 & Hbuf1 & Hm1).
  cbn [run_state btldr_state app_status flash_state flash_addr i2c_buf memory set_flash_state set_btldr_state] in *.
  rewrite received_buf in Hbuf1 by (done || lia).
  change (flash_addr (received (area_write_reg k) l s)) with (flash_addr s) in Hfa1.
  change (memory (received (area_write_reg k) l s)) with (memory s) in Hm1.
  change (app_status (received (area_write_reg k) l s)) with (app_status s) in Ha1.
  change (run_state (received (area_write_reg k) l s)) with (run_state s) in Hr1.
  assert (Hblk : block_of s1 = l) by (unfold block_of; rewrite Hbuf1, <- Hlen; apply take_app_length).
  assert (Hrun : run_state s1 = RUN_STATE_BTLDR_RUN) by (rewrite Hr1; apply Hs).
  rewrite (loop_end_write k s1) in * by (rewrite ?Hf1, ?Hfa1, ?Ha; done).
  split; [done|]. specialize (Hres eq_refl). cbn [snd] in *.
  constructor; [done|cbn..]; try congruence.
Qed.

(** ** Reading registers *)

Definition read_reg (reg : Z) : Prop :=
  is_u8 reg ∧ Z.land reg I2C_BTLDR_REG_RW_MASK = I2C_BTLDR_REG_READ.

(** A read of [size] bytes and their checksum. *)
Definition recv (reg : Z) (size : nat) (s : btldr) : list Z * (phase_t * btldr) := reg_read reg (S size) s.

Lemma recv_txn_ok reg size : read_reg reg → Z.of_nat size <= reply_size reg → txn_ok (TRead reg (S size)).
Proof. intros [H1 H2] H3. cbn -[Z.of_nat]. split_and!; auto; lia. Qed.

Lemma recv_end m0 reg size s : at_rest m0 s → read_reg reg → Z.of_nat size <= reply_size reg →
  ∃ s1, (recv reg size s).2 = loop_end s1 ∧ i2c_state s1 = I2C_STATE_IDLE
  ∧ (let s2 := reg_reply reg s in
     run_state s1 = run_state s2 ∧ btldr_state s1 = btldr_state s2 ∧ app_status s1 = app_status s2
     ∧ flash_state s1 = flash_state s2 ∧ flash_addr s1 = flash_addr s2
     ∧ i2c_buf s1 = reg_reply_buf reg s ∧ memory s1 = memory s2)
  ∧ ((recv reg size s).2.1 = PRun → at_rest m0 (recv reg size s).2.2).
Proof.
  intros Hs Hw Hl. eexists. split; [reflexivity|]. split; [apply reset_idle|].
  split; [exact (reset_same (set_i2c_state I2C_STATE_DATA_OUT
    (set_i2c_buf (reg_reply_buf reg s) (reg_reply reg s))))|].
  exact (txn_step_rest m0 s _ Hs (recv_txn_ok reg size Hw Hl)).
Qed.

(** A reply of exactly the bytes [l]. *)
Lemma reply_message reg l size s : resting s → length l = size → (size <= 190)%nat →
  i2c_out_remaining (reg_reply reg s) = Z.of_nat size → take size (i2c_buf (reg_reply reg s)) = l →
  (recv reg size s).1 = i2c_message l reg.
Proof.
  intros Hs Hl Hmax Hrem Htake. unfold recv, reg_read, reg_reply_buf. cbn [fst].
  pose proof (q_len _ (reg_reply_ok reg s Hs)) as Hlen. unfold i2c_buf_len in Hlen.
  rewrite Hrem, Nat2Z.id, Htake.
  rewrite (take_S_r _ _ (i2c_message_checksum l reg)) by (apply list_lookup_insert_eq; lia).
  by rewrite take_insert_ge, Htake by lia.
Qed.

(** Two answers that do not depend on the state of the flash machine. *)
Lemma reply_take l size s : length l = Z.to_nat size → (length l <= length (i2c_buf s))%nat →
  take (Z.to_nat size) (i2c_buf (reply l size s)) = l.
Proof.
  intros Hl Hb. unfold reply. cbn [i2c_buf set_i2c_out_remaining set_i2c_buf].
  rewrite list_inserts_0 by done. rewrite <- Hl. apply take_app_length.
Qed.

Lemma recv_plain m0 reg l size s m st f a b : dev m0 m st f a b s → read_reg reg →
  (∀ s, reg_reply reg s = reply (l s) size (set_flash_state FLASH_STATE_IDLE (set_i2c_offset 0
     (set_btldr_state I2C_BTLDR_STATE_OK (selected reg I2C_STATE_OUT_START_WAIT s))))) →
  length (l s) = Z.to_nat size → 0 <= size <= 128 → size <= reply_size reg →
  (recv reg (Z.to_nat size) s).1 = i2c_message (l s) reg ∧ (recv reg (Z.to_nat size) s).2.1 = PRun
  ∧ dev m0 m st FLASH_STATE_IDLE a 0 (recv reg (Z.to_nat size) s).2.2.
Proof.
  intros [Hs Hm Hst Hf Ha Hb] Hw Heq Hlen Hsz Hle. pose proof (at_rest_resting _ _ Hs) as Hrest.
  split.
  { apply reply_message; try done; [lia|rewrite Heq; cbn; lia|]. rewrite Heq. apply reply_take; [done|].
    cbn [i2c_buf set_flash_state set_i2c_offset set_btldr_state selected set_i2c_state set_i2c_reg].
    rewrite (r_len _ Hrest). unfold i2c_buf_len. lia. }
  destruct (recv_end m0 reg (Z.to_nat size) s) as (s1 & Hend & Hi & Hs1 & Hres); [done|done|lia|].
  rewrite Heq in Hs1. destruct Hs1 as (Hr1 & Hb1 & Ha1 & Hf1 & Hfa1 & _ & Hm1).
  unfold reply, selected in *.
  cbn [run_state btldr_state app_status flash_state flash_addr memory set_i2c_out_remaining set_i2c_buf
    set_flash_state set_i2c_offset set_btldr_state set_i2c_state set_i2c_reg] in *.
  rewrite Hend in *. rewrite (loop_end_quiet s1) in * by (rewrite ?Hf1, ?Hr1; try done; apply Hs).
  cbn [fst snd] in *. split; [done|]. constructor; auto; congruence.
Qed.

Lemma recv_flash_info m0 s m st f a b : dev m0 m st f a b s →
  let r := recv I2C_BTLDR_REG_FLASH_INFO 28 s in
  r.1 = i2c_message (BtldrFlashInfo_bytes flash_info) I2C_BTLDR_REG_FLASH_INFO ∧ r.2.1 = PRun
  ∧ dev m0 m st FLASH_STATE_IDLE a 0 r.2.2.
Proof.
  intros Hd. apply (recv_plain m0 3 (λ _, BtldrFlashInfo_bytes flash_info) 28 s m st f a b); done || lia.
Qed.

Lemma recv_btldr_info m0 s m st f a b : dev m0 m st f a b s →
  let r := recv I2C_BTLDR_REG_BTLDR_INFO 8 s in
  r.1 = i2c_message (BtldrInfo_bytes btldr_info) I2C_BTLDR_REG_BTLDR_INFO ∧ r.2.1 = PRun
  ∧ dev m0 m st FLASH_STATE_IDLE a 0 r.2.2.
Proof.
  intros Hd. apply (recv_plain m0 0 (λ _, BtldrInfo_bytes btldr_info) 8 s m st f a b); done || lia.
Qed.

(** The application record as [I2C_BTLDR_REG_APP_INFO] reports it. *)
Definition app_info_of (m : mem) (st : Z) : BtldrAppInfo :=
  read_app_info (set_app_status st (btldr_reset m)).

Lemma read_app_info_ext s s' : memory s = memory s' → app_status s = app_status s' →
  read_app_info s = read_app_info s'.
Proof. intros Hm Ha. unfold read_app_info. by rewrite Hm, Ha. Qed.

Lemma length_BtldrAppInfo p : length (BtldrAppInfo_bytes p) = 11%nat.
Proof. reflexivity. Qed.

Lemma reg_reply_app_info s : reg_reply I2C_BTLDR_REG_APP_INFO s
  = reply (BtldrAppInfo_bytes (read_app_info s)) 11 (set_flash_state FLASH_STATE_IDLE (set_i2c_offset 0
     (set_btldr_state I2C_BTLDR_STATE_OK (selected I2C_BTLDR_REG_APP_INFO I2C_STATE_OUT_START_WAIT s)))).
Proof.
  unfold reg_reply, cmd_data_out. cbn [Z.eqb Pos.eqb].
  by rewrite (read_app_info_ext _ s).
Qed.

Lemma recv_app_info m0 s m st f a b : dev m0 m st f a b s →
  let r := recv I2C_BTLDR_REG_APP_INFO 11 s in
  r.1 = i2c_message (BtldrAppInfo_bytes (app_info_of m st)) I2C_BTLDR_REG_APP_INFO ∧ r.2.1 = PRun
  ∧ dev m0 m st FLASH_STATE_IDLE a 0 r.2.2.
Proof.
  intros Hd. assert (Hai : app_info_of m st = read_app_info s).
  { apply read_app_info_ext; cbn; symmetry; apply Hd. }
  rewrite Hai. apply (recv_plain m0 4 (λ s, BtldrAppInfo_bytes (read_app_info s)) 11 s m st f a b);
    [done|done|apply reg_reply_app_info|apply length_BtldrAppInfo|lia|done].
Qed.

(** ** The status register *)

(** What a status read answers and how it moves the flash machine. *)
Lemma reg_reply_status s :
  reg_reply I2C_BTLDR_REG_STATUS s
  = reply [btldr_state s] 1 (status_flash_step (flash_state s) (btldr_state s)
      (set_flash_state FLASH_STATE_IDLE (set_i2c_offset 0
        (set_btldr_state I2C_BTLDR_STATE_OK (selected I2C_BTLDR_REG_STATUS I2C_STATE_OUT_START_WAIT s))))).
Proof. reflexivity. Qed.

Lemma status_step_fields f b s : let s' := status_flash_step f b s in
  run_state s' = run_state s ∧ app_status s' = app_status s ∧ flash_addr s' = flash_addr s
  ∧ memory s' = memory s ∧ i2c_buf s' = i2c_buf s.
Proof. unfold status_flash_step. destruct (_ && _); [|done]. by destruct f. Qed.

Lemma recv_status_answer m0 s m st f a b : dev m0 m st f a b s →
  (recv I2C_BTLDR_REG_STATUS 1 s).1 = i2c_message [b] I2C_BTLDR_REG_STATUS.
Proof.
  intros [Hs Hm Hst Hf Ha Hb]. pose proof (at_rest_resting _ _ Hs) as Hrest.
  apply reply_message; try done; [lia|]. rewrite reg_reply_status, Hb.
  apply (reply_take [b] 1); [done|].
  destruct (status_step_fields (flash_state s) b (set_flash_state FLASH_STATE_IDLE (set_i2c_offset 0
    (set_btldr_state 0 (selected 1 I2C_STATE_OUT_START_WAIT s))))) as (_ & _ & _ & _ & ->).
  cbn [i2c_buf set_flash_state set_i2c_offset set_btldr_state selected set_i2c_state set_i2c_reg].
  rewrite (r_len _ Hrest). unfold i2c_buf_len. simpl length. lia.
Qed.

(** A status read that starts no flash read. *)
Definition status_next (f : flash_state_t) (b : Z) : flash_state_t :=
  if b =? I2C_BTLDR_STATE_OK then
    match f with
    | FLASH_STATE_EEPROM_READ_ADDR_READY => FLASH_STATE_EEPROM_READ_RUN
    | FLASH_STATE_DATA_READ_ADDR_READY => FLASH_STATE_DATA_READ_RUN
    | FLASH_STATE_EEPROM_WRITE_ADDR_READY => FLASH_STATE_EEPROM_WRITE_DATA_READY
    | FLASH_STATE_DATA_WRITE_ADDR_READY => FLASH_STATE_DATA_WRITE_DATA_READY
    | _ => FLASH_STATE_IDLE
    end
  else FLASH_STATE_IDLE.

Definition status_err (f : flash_state_t) (b : Z) : Z :=
  if b =? I2C_BTLDR_STATE_OK then
    match f with
    | FLASH_STATE_IDLE | FLASH_STATE_EEPROM_READ_ADDR_READY | FLASH_STATE_DATA_READ_ADDR_READY
    | FLASH_STATE_EEPROM_WRITE_ADDR_READY | FLASH_STATE_DATA_WRITE_ADDR_READY => I2C_BTLDR_STATE_OK
    | _ => I2C_BTLDR_STATE_FLASH_INTERRUPTED
    end
  else I2C_BTLDR_STATE_OK.

Lemma status_step_next f b s : flash_state s = FLASH_STATE_IDLE → btldr_state s = 0 →
  flash_state (status_flash_step f b s) = status_next f b
  ∧ btldr_state (status_flash_step f b s) = status_err f b.
Proof.
  intros Hf Hb. unfold status_flash_step, status_next, status_err.
  destruct (b =? 0); destruct f; cbn; auto.
Qed.

Lemma recv_status_end m0 s m st f a b : dev m0 m st f a b s →
  ∃ s1, (recv I2C_BTLDR_REG_STATUS 1 s).2 = loop_end s1 ∧ i2c_state s1 = I2C_STATE_IDLE
  ∧ run_state s1 = RUN_STATE_BTLDR_RUN ∧ memory s1 = m ∧ app_status s1 = st ∧ flash_addr s1 = a
  ∧ flash_state s1 = status_next f b ∧ btldr_state s1 = status_err f b
  ∧ length (i2c_buf s1) = i2c_buf_len
  ∧ ((recv I2C_BTLDR_REG_STATUS 1 s).2.1 = PRun → at_rest m0 (recv I2C_BTLDR_REG_STATUS 1 s).2.2).
Proof.
  intros [Hs Hm Hst Hf Ha Hb]. pose proof (at_rest_resting _ _ Hs) as Hrest.
  destruct (recv_end m0 1 1 s) as (s1 & Hend & Hi & Hs1 & Hres); [done|split; [unfold is_u8; lia|done]|done|].
  exists s1. split; [done|]. split; [done|].
  destruct Hs1 as (Hr1 & Hb1 & Ha1 & Hf1 & Hfa1 & Hbuf1 & Hm1).
  assert (Hlen1 : length (i2c_buf s1) = i2c_buf_len).
  { rewrite Hbuf1. unfold reg_reply_buf. rewrite length_insert. apply (q_len _ (reg_reply_ok 1 s Hrest)). }
  rewrite reg_reply_status in *. unfold reply in *. rewrite Hf, Hb in *.
  cbn [run_state btldr_state app_status flash_state flash_addr memory set_i2c_out_remaining set_i2c_buf] in *.
  set (s0 := set_flash_state FLASH_STATE_IDLE _) in *.
  destruct (status_step_fields f b s0) as (E1 & E2 & E3 & E4 & _).
  destruct (status_step_next f b s0) as [E5 E6]; [done|done|].
  rewrite E1 in Hr1. rewrite E2 in Ha1. rewrite E3 in Hfa1. rewrite E4 in Hm1.
  rewrite E5 in Hf1. rewrite E6 in Hb1.
  split_and!; try done; [rewrite Hr1; apply Hs|rewrite Hm1; exact Hm|rewrite Ha1; exact Hst|rewrite Hfa1; exact Ha].
Qed.

(** Arming a write, or asking with nothing armed: no flash access follows. *)
Lemma recv_status_quiet m0 s m st f a b : dev m0 m st f a b s → run_flash_state (status_next f b) = false →
  (recv I2C_BTLDR_REG_STATUS 1 s).2.1 = PRun
  ∧ dev m0 m st (status_next f b) a (status_err f b) (recv I2C_BTLDR_REG_STATUS 1 s).2.2.
Proof.
  intros Hd Hq. destruct (recv_status_end m0 s m st f a b Hd)
    as (s1 & Hend & Hi & Hr & Hm & Hst & Ha & Hf & Hb & _ & Hres).
  rewrite Hend in *. rewrite loop_end_quiet in * by (done || by rewrite Hf).
  split; [done|]. constructor; auto.
Qed.

(** ** Reading flash blocks *)

Definition area_read_reg (k : write_area) : Z :=
  match k with EepromArea => I2C_BTLDR_REG_EEPROM_READ | DataArea => I2C_BTLDR_REG_DATA_READ end.
Definition area_read_armed (k : write_area) : flash_state_t :=
  match k with EepromArea => FLASH_STATE_EEPROM_READ_ADDR_READY | DataArea => FLASH_STATE_DATA_READ_ADDR_READY end.
Definition area_read_run (k : write_area) : flash_state_t :=
  match k with EepromArea => FLASH_STATE_EEPROM_READ_RUN | DataArea => FLASH_STATE_DATA_READ_RUN end.
Definition area_read_ready (k : write_area) : flash_state_t :=
  match k with EepromArea => FLASH_STATE_EEPROM_READ_DATA_READY | DataArea => FLASH_STATE_DATA_READ_DATA_READY end.

Lemma area_addr_in_memory k f a : f = area_read_run k ∨ f = area_write_run k ∨ f = area_read_armed k →
  flash_ok f a → 0 <= a ∧ a + 128 <= 65536.
Proof.
  intros [->|[->| ->]]; destruct k; cbn [area_read_run area_write_run area_read_armed flash_ok];
    unfold eeprom_addr_ok, data_addr_ok; flash_geometry; intros [Hm Ha]; try lia;
    apply Z.mod_divide in Hm as [q Hq]; lia.
Qed.

(** The block is in the buffer, ready to be read. *)
Definition loaded (m : mem) (a : Z) (s : btldr) : Prop :=
  i2c_out_remaining s = FLASH_BLOCK_SIZE ∧ take 128 (i2c_buf s) = mreads m a 128.

Lemma flash_read_loads next s : 0 <= flash_addr s → flash_addr s + 128 <= 65536 →
  (128 <= length (i2c_buf s))%nat → loaded (memory s) (flash_addr s) (flash_rdwr_run_read next s).
Proof.
  intros H0 H1 Hl. unfold flash_rdwr_run_read, loaded.
  cbn [i2c_out_remaining i2c_buf memory flash_addr set_flash_state set_i2c_buf set_i2c_out_remaining].
  split; [done|]. unfold FLASH_ReadByte.
  assert (Hdata : (λ i, mread (memory s) (u16 (u32 (flash_addr s + i)))) <$> seqZ 0 128
    = mreads (memory s) (flash_addr s) 128).
  { apply (fmap_seqZ_mreads _ _ _ 128); [done|]. intros i Hi.
    rewrite u32_small, u16_small by (unfold is_u16, is_u32; lia). done. }
  rewrite Hdata, list_inserts_0 by (rewrite length_mreads; lia). rewrite take_app_le by (rewrite length_mreads; lia).
  apply take_ge. by rewrite length_mreads.
Qed.

Lemma loop_end_read k s : i2c_state s = I2C_STATE_IDLE → run_state s = RUN_STATE_BTLDR_RUN →
  flash_state s = area_read_run k → loop_end s = (PRun, flash_rdwr_run_read (area_read_ready k) s).
Proof.
  intros Hi Hr Hf. assert (Hb : run_loop_body s = flash_rdwr_run_read (area_read_ready k) s).
  { unfold run_loop_body, flash_rdwr_run. rewrite Hi, Hf. by destruct k. }
  unfold loop_end, run_loop_continues. rewrite Hb.
  cbn [run_state flash_rdwr_run_read set_flash_state set_i2c_buf set_i2c_out_remaining]. by rewrite Hr.
Qed.

(** The status read after a read address fetches the block. *)
Lemma recv_status_read m0 k s m st a : dev m0 m st (area_read_armed k) a 0 s →
  let ps := (recv I2C_BTLDR_REG_STATUS 1 s).2 in
  ps.1 = PRun ∧ dev m0 m st (area_read_ready k) a 0 ps.2 ∧ loaded m a ps.2.
Proof.
  intros Hd ps. subst ps. destruct (recv_status_end m0 s m st _ a 0 Hd)
    as (s1 & Hend & Hi & Hr & Hm & Hst & Ha & Hf & Hb & Hlen & Hres).
  assert (Hok : 0 <= a ∧ a + 128 <= 65536).
  { pose proof (c_flash _ _ (proj1 (proj1 (d_rest _ _ _ _ _ _ _ Hd)))) as H.
    rewrite (d_flash _ _ _ _ _ _ _ Hd), (d_addr _ _ _ _ _ _ _ Hd) in H.
    eapply (area_addr_in_memory k); eauto. }
  assert (Hf1 : flash_state s1 = area_read_run k) by (rewrite Hf; by destruct k).
  assert (Hb1 : btldr_state s1 = 0) by (rewrite Hb; by destruct k).
  rewrite Hend in *. rewrite (loop_end_read k) in * by done. cbn [fst snd] in *.
  split; [done|]. split; [by constructor; auto|].
  rewrite <- Hm, <- Ha. apply flash_read_loads; [lia|lia|]. rewrite Hlen. unfold i2c_buf_len. lia.
Qed.

Lemma reg_reply_block k s : flash_state s = area_read_ready k → i2c_out_remaining s = FLASH_BLOCK_SIZE →
  reg_reply (area_read_reg k) s = set_flash_state FLASH_STATE_IDLE (set_flash_state FLASH_STATE_IDLE
    (set_i2c_offset 0 (set_btldr_state I2C_BTLDR_STATE_OK
      (selected (area_read_reg k) I2C_STATE_OUT_START_WAIT s)))).
Proof.
  intros Hf Hr. unfold reg_reply, cmd_data_out, selected.
  cbn [flash_state i2c_out_remaining set_flash_state set_i2c_offset set_btldr_state set_i2c_state set_i2c_reg].
  rewrite Hf, Hr. by destruct k.
Qed.

(** Reading the block register returns the block's bytes. *)
Lemma recv_block m0 k s m st a : dev m0 m st (area_read_ready k) a 0 s → loaded m a s →
  let r := recv (area_read_reg k) 128 s in
  r.1 = i2c_message (mreads m a 128) (area_read_reg k) ∧ r.2.1 = PRun
  ∧ dev m0 m st FLASH_STATE_IDLE a 0 r.2.2.
Proof.
  intros [Hs Hm Hst Hf Ha Hb] [Hrem Htake] r. subst r. pose proof (at_rest_resting _ _ Hs) as Hrest.
  pose proof (reg_reply_block k s Hf Hrem) as Heq.
  split.
  { apply reply_message; [done|apply length_mreads|lia|rewrite Heq; done|rewrite Heq; done]. }
  destruct (recv_end m0 (area_read_reg k) 128 s) as (s1 & Hend & Hi & Hs1 & Hres);
    [done|destruct k; split; done || (unfold is_u8; cbn; lia)|by destruct k|].
  rewrite Heq in Hs1. destruct Hs1 as (Hr1 & Hb1 & Ha1 & Hf1 & Hfa1 & _ & Hm1).
  unfold selected in *.
  cbn [run_state btldr_state app_status flash_state flash_addr memory
    set_flash_state set_i2c_offset set_btldr_state set_i2c_state set_i2c_reg] in *.
  rewrite Hend in *. rewrite (loop_end_quiet s1) in * by (rewrite ?Hf1, ?Hr1; try done; apply Hs).
  cbn [fst snd] in *. split; [done|]. constructor; auto; congruence.
Qed.

(** ** The application record *)

Lemma EEPROMData_roundtrip d c : is_u32 (ed_magic d) → is_u32 (ed_app_size d) → is_u16 (ed_app_crc16 d) →
  is_u16 (ed_app_ver d) → is_u8 (ed_autoboot d) →
  BtldrEEPROMData_of (BtldrEEPROMData_head d ++ [c])
  = {| ed_magic := ed_magic d; ed_app_size := ed_app_size d; ed_app_crc16 := ed_app_crc16 d;
       ed_app_ver := ed_app_ver d; ed_autoboot := ed_autoboot d; ed_crc8 := c |}.
Proof.
  intros H1 H2 H3 H4 H5. unfold BtldrEEPROMData_of, BtldrEEPROMData_head. rewrite <- !app_assoc. f_equal.
  - by rewrite get32_be32_app, u32_small.
  - etransitivity; [exact (get32_app_r (be32 _) _ 0)|]. by rewrite get32_be32_app, u32_small.
  - etransitivity; [exact (get16_app_r (be32 _ ++ be32 _) _ 0)|]. by rewrite get16_be16_app, u16_small.
  - etransitivity; [exact (get16_app_r (be32 _ ++ be32 _ ++ be16 _) _ 0)|]. by rewrite get16_be16_app, u16_small.
  - exact (u8_small _ H5).
Qed.

Lemma AppInfoSet_roundtrip p l : is_u32 (as_size p) → is_u16 (as_crc16 p) → is_u16 (as_app_ver p) →
  is_u8 (as_autoboot p) → BtldrAppInfoSet_of (BtldrAppInfoSet_bytes p ++ l) = p.
Proof.
  intros H1 H2 H3 H4. unfold BtldrAppInfoSet_of, BtldrAppInfoSet_bytes. rewrite <- !app_assoc.
  destruct p as [sz crc ver ab]; cbn [as_size as_crc16 as_app_ver as_autoboot] in *. f_equal.
  - by rewrite get32_be32_app, u32_small.
  - etransitivity; [exact (get16_app_r (be32 _) _ 0)|]. by rewrite get16_be16_app, u16_small.
  - etransitivity; [exact (get16_app_r (be32 _ ++ be16 _) _ 0)|]. by rewrite get16_be16_app, u16_small.
  - exact (u8_small _ H4).
Qed.

(** The record [write_app_info] stores. *)
Definition record_of (p : BtldrAppInfoSet) : BtldrEEPROMData :=
  {| ed_magic := BTLDR_EEPROM_DATA_MAGIC; ed_app_size := as_size p; ed_app_crc16 := as_crc16 p;
     ed_app_ver := as_app_ver p;
     ed_autoboot := Z.land (as_autoboot p) I2C_BTLDR_APP_STATUS_AUTOBOOT_MASK; ed_crc8 := 0 |}.

Definition record_bytes (p : BtldrAppInfoSet) : list Z :=
  BtldrEEPROMData_head (record_of p) ++ [crc8 IOMCU_CRC8_INIT (BtldrEEPROMData_head (record_of p))].

Definition record_block (p : BtldrAppInfoSet) : list Z := record_bytes p ++ replicate 114 0.

Lemma write_app_info_buf p s : length (i2c_buf s) = i2c_buf_len →
  ∃ buf, write_app_info p s
    = update_app_status (set_memory (mwrites (memory s) 0x1000 (record_block p)) (set_i2c_buf buf s))
  ∧ length buf = i2c_buf_len ∧ take 128 buf = record_block p ∧ drop 128 buf = drop 128 (i2c_buf s).
Proof.
  intros Hl. unfold write_app_info. cbv zeta.
  fold (record_of p). change (BtldrEEPROMData_size - 1)%nat with 13%nat.
  set (head := BtldrEEPROMData_head (record_of p)).
  assert (Hhead : length head = 13%nat) by reflexivity.
  rewrite (list_inserts_0 (i2c_buf s)) by (rewrite length_replicate, Hl; unfold i2c_buf_len; lia).
  rewrite length_replicate. change (Z.to_nat 128) with 128%nat.
  rewrite (list_inserts_0 (replicate 128 0 ++ _)), Hhead
    by (rewrite length_app, length_replicate, Hhead; lia).
  rewrite drop_app_le, drop_replicate by (rewrite length_replicate; lia).
  change (128 - 13)%nat with 115%nat. rewrite (take_app_length' head) by done.
  rewrite insert_app_r_alt, Hhead by (rewrite Hhead; lia). change (13 - 13)%nat with 0%nat.
  change (replicate 115 0) with (0 :: replicate 114 0). cbn [app insert list_insert].
  set (buf := head ++ crc8 IOMCU_CRC8_INIT head :: replicate 114 0 ++ drop 128 (i2c_buf s)).
  exists buf.
  assert (Hbuf : buf = record_block p ++ drop 128 (i2c_buf s)).
  { subst buf. unfold record_block, record_bytes. fold head. by rewrite <- !app_assoc. }
  assert (Hrb : length (record_block p) = 128%nat) by reflexivity.
  assert (Ht : take 128 buf = record_block p) by (rewrite Hbuf; by apply take_app_length').
  split; [|split_and!].
  - cbn [memory set_i2c_buf i2c_buf].
    assert (Hpb : flash_programblock (memory s) 0 FLASH_MemType_Data buf
      = mwrites (memory s) 0x1000 (take 128 buf))
      by (apply (programblock_eq (memory s) 0x1000 0x1000 FLASH_MemType_Data buf); try lia; auto).
    by rewrite Hpb, Ht.
  - rewrite Hbuf, length_app, Hrb, length_drop, Hl. reflexivity.
  - done.
  - rewrite Hbuf. by apply drop_app_length'.
Qed.

Definition info_set_ok (p : BtldrAppInfoSet) : Prop :=
  is_u32 (as_size p) ∧ is_u16 (as_crc16 p) ∧ is_u16 (as_app_ver p) ∧ is_u8 (as_autoboot p).

Lemma record_ok p m : info_set_ok p →
  let m' := mwrites m 0x1000 (record_block p) in
  app_record_ok m' ∧ ed_app_size (app_record m') = as_size p ∧ ed_app_crc16 (app_record m') = as_crc16 p
  ∧ ed_app_ver (app_record m') = as_app_ver p
  ∧ ed_autoboot (app_record m') = Z.land (as_autoboot p) I2C_BTLDR_APP_STATUS_AUTOBOOT_MASK.
Proof.
  intros (H1 & H2 & H3 & H4) m'.
  assert (Hr : mreads m' 0x1000 14 = record_bytes p).
  { assert (Ha : mreads m' 0x1000 (14 + 114) = record_block p)
      by (exact (mreads_mwrites m 0x1000 (record_block p))).
    rewrite mreads_app in Ha. apply app_inj_1 in Ha as [-> _]; [done|]. by rewrite length_mreads. }
  assert (Hab : is_u8 (Z.land (as_autoboot p) 128))
    by (apply (land_range_l 8); [lia|]; unfold is_u8 in H4; lia).
  unfold app_record_ok, app_record, BtldrEEPROMData_size. rewrite Hr. unfold record_bytes.
  assert (Hmag : is_u32 (ed_magic (record_of p))) by (unfold is_u32; cbn [ed_magic record_of]; lia).
  rewrite (EEPROMData_roundtrip (record_of p) _ Hmag H1 H2 H3 Hab).
  cbn [ed_magic ed_app_size ed_app_crc16 ed_app_ver ed_autoboot ed_crc8 record_of]. split_and!; try done.
Qed.

Lemma bytes_record_block p : bytes (record_block p).
Proof.
  apply bytes_app; [|apply bytes_replicate; u8_const].
  apply bytes_app; [apply bytes_BtldrEEPROMData_head|]. apply Forall_singleton.
  apply crc8_range; [u8_const|apply bytes_BtldrEEPROMData_head].
Qed.

(** [write_app_info] stores the record and derives the status from it. *)
Lemma write_app_info_post p s m : length (i2c_buf s) = i2c_buf_len → bytes (i2c_buf s) → mem_bytes m →
  memory s = m → info_set_ok p →
  let m' := mwrites m 0x1000 (record_block p) in
  ∃ s', write_app_info p s = s' ∧ memory s' = m' ∧ run_state s' = run_state s
    ∧ btldr_state s' = btldr_state s ∧ flash_addr s' = flash_addr s ∧ i2c_state s' = i2c_state s
    ∧ is_u8 (app_status s') ∧ (Z.land (app_status s') 0x7f = 1 ↔ app_valid m')
    ∧ (Z.land (app_status s') 0x7f = 1 → Z.land (app_status s') 0x80 = Z.land (as_autoboot p) 0x80).
Proof.
  intros Hl Hb Hm Hms Hp m'. destruct (write_app_info_buf p s Hl) as (buf & Hw & Hlb & Htb & Hdb).
  rewrite Hms in Hw. fold m' in Hw. eexists. split; [exact Hw|]. clear Hw.
  assert (Hm' : mem_bytes m') by (apply mem_bytes_writes; [done|apply bytes_record_block]).
  destruct (record_ok p m Hp) as (_ & _ & _ & _ & Hrec). fold m' in Hrec. clearbody m'.
  assert (Hbb : bytes buf).
  { rewrite <- (take_drop 128 buf), Htb, Hdb. apply bytes_app; [apply bytes_record_block|by apply Forall_drop]. }
  set (s2 := set_memory m' (set_i2c_buf buf s)).
  destruct (update_app_status_spec s2 Hlb Hbb Hm')
    as ([Hrdy Hab] & H8 & (E1 & E2 & E3 & E4 & E5 & _ & _ & _ & E9) & _).
  revert Hrdy Hab H8 E1 E2 E3 E4 E5 E9. generalize (update_app_status s2). intros s3.
  unfold s2. cbn [memory run_state btldr_state flash_state flash_addr i2c_state set_memory set_i2c_buf].
  intros Hrdy Hab H8 E1 E2 E3 E4 E5 E9. split_and!; try done; [apply Hrdy..|].
  intros Hrd. rewrite (Hab Hrd), Hrec. by rewrite <- Z.land_assoc.
Qed.

(** The record command ends with the record in EEPROM and the status the
    stored record and the flash deserve. *)
Lemma send_app_info m0 p s m st f a b : dev m0 m st f a b s → info_set_ok p →
  let ps := send I2C_BTLDR_REG_APP_INFO_SET (BtldrAppInfoSet_bytes p) s in
  let m' := mwrites m 0x1000 (record_block p) in
  ps.1 = PRun ∧ ∃ st', dev m0 m' st' FLASH_STATE_IDLE a 0 ps.2 ∧ is_u8 st'
    ∧ (Z.land st' 0x7f = 1 ↔ app_valid m')
    ∧ (Z.land st' 0x7f = 1 → Z.land st' 0x80 = Z.land (as_autoboot p) 0x80).
Proof.
  intros [Hs Hm Hst Hf Ha Hb] Hp ps m'. subst ps. pose proof (at_rest_resting _ _ Hs) as Hrest.
  pose proof (bytes_BtldrAppInfoSet p) as Hpb. pose proof (AppInfoSet_roundtrip p) as Hrt.
  assert (Hpl : length (BtldrAppInfoSet_bytes p) = 9%nat) by reflexivity.
  revert Hpb Hrt Hpl. generalize (BtldrAppInfoSet_bytes p). intros pl Hpb Hrt Hpl.
  destruct (send_end m0 0x84 pl s) as (s1 & Heq & Hi & Hs1 & Hres);
    [done|split_and!; done || (unfold is_u8; lia)|done|lia|].
  assert (Hcmd : cmd_data_in 0x84 (received 0x84 pl s)
    = set_flash_state FLASH_STATE_APP_INFO_WRITE_RUN (set_flash_state FLASH_STATE_IDLE
        (set_btldr_state 0 (received 0x84 pl s)))).
  { unfold cmd_data_in. cbn [Z.eqb Pos.eqb]. unfold received at 1.
    cbn [i2c_offset set_flash_state set_btldr_state set_i2c_offset]. by rewrite Hpl. }
  rewrite Hcmd in Hs1. destruct Hs1 as (Hr1 & Hb1 & Ha1 & Hf1 & Hfa1 & Hbuf1 & Hm1).
  cbn [run_state btldr_state flash_state flash_addr i2c_buf memory set_flash_state set_btldr_state] in *.
  rewrite received_buf in Hbuf1 by (done || lia).
  change (flash_addr (received 0x84 pl s)) with (flash_addr s) in Hfa1.
  change (memory (received 0x84 pl s)) with (memory s) in Hm1.
  change (run_state (received 0x84 pl s)) with (run_state s) in Hr1.
  destruct (write_app_info_post p s1 m) as (s3 & Hw & E1 & E2 & E3 & E4 & E5 & H8 & Hrdy & Hab).
  { rewrite Hbuf1, length_app. cbn [length]. rewrite length_drop, (r_len _ Hrest), Hpl. reflexivity. }
  { rewrite Hbuf1. apply bytes_app; [done|]. constructor;
      [apply crc8_range; [apply u8_range|done]|apply Forall_drop, (r_buf _ Hrest)]. }
  { rewrite <- Hm. apply (c_mem _ _ (proj1 (proj1 Hs))). }
  { congruence. } { done. }
  fold m' in E1, Hrdy, Hab. clearbody m'.
  assert (Hbody : run_loop_body s1 = set_flash_state FLASH_STATE_IDLE s3).
  { unfold run_loop_body, write_app_info_run. rewrite Hi, Hf1, Hbuf1.
    destruct Hp as (?&?&?&?). by rewrite Hrt, Hw. }
  rewrite Heq in *. unfold loop_end in *. rewrite Hbody in *. unfold run_loop_continues in *.
  cbn [run_state i2c_state set_flash_state] in *. rewrite E2, Hr1 in *.
  rewrite (proj2 (proj2 Hs)) in *. rewrite bool_decide_eq_true_2 in * by done. cbn [orb fst snd] in *.
  split; [done|]. exists (app_status s3). split_and!; try done.
  constructor; cbn [memory app_status flash_state flash_addr btldr_state set_flash_state];
    [by apply Hres|done|done|done|congruence..].
Qed.

(** ** The start register in the command loop *)

Lemma received_key reg key s : resting s → (length key <= 191)%nat → key = IOMCU_COMMON_KEY →
  key_ok (i2c_buf (received reg key s)) = true.
Proof. intros Hs Hl ->. rewrite received_buf by done. reflexivity. Qed.

(** The start key jumps to the application exactly when it is ready. *)
Lemma send_start m0 s m st f a b : dev m0 m st f a b s →
  let ps := send I2C_BTLDR_REG_START IOMCU_COMMON_KEY s in
  memory ps.2 = m ∧
  (if Z.land st 0x7f =? 1 then ps.1 = PApp
   else ps.1 = PRun ∧ dev m0 m st FLASH_STATE_IDLE a I2C_BTLDR_STATE_APP_NOT_READY ps.2).
Proof.
  intros [Hs Hm Hst Hf Ha Hb] ps. subst ps. pose proof (at_rest_resting _ _ Hs) as Hrest.
  assert (Hkb : bytes IOMCU_COMMON_KEY) by (apply bytes_check; reflexivity).
  destruct (send_end m0 0x80 IOMCU_COMMON_KEY s) as (s1 & Heq & Hi & Hs1 & Hres);
    [done|split_and!; done || (unfold is_u8; lia)|done|cbn; lia|].
  assert (Hcmd : cmd_data_in 0x80 (received 0x80 IOMCU_COMMON_KEY s)
    = let s0 := set_flash_state FLASH_STATE_IDLE (set_btldr_state 0 (received 0x80 IOMCU_COMMON_KEY s)) in
      if Z.land st 0x7f =? 1 then set_run_state RUN_STATE_APP_START s0
      else set_btldr_state I2C_BTLDR_STATE_APP_NOT_READY s0).
  { unfold cmd_data_in. cbn [Z.eqb Pos.eqb]. unfold cmd_start.
    cbn [i2c_offset i2c_buf run_state app_status set_flash_state set_btldr_state].
    change (i2c_offset (received 0x80 IOMCU_COMMON_KEY s)) with 4.
    change (run_state (received 0x80 IOMCU_COMMON_KEY s)) with (run_state s).
    change (app_status (received 0x80 IOMCU_COMMON_KEY s)) with (app_status s).
    rewrite received_key by (done || (cbn; lia)). rewrite (proj2 (proj2 Hs)), Hst. done. }
  rewrite Hcmd in Hs1. cbv zeta in Hs1. rewrite Heq in *.
  destruct (Z.land st 0x7f =? 1).
  - destruct Hs1 as (Hr1 & _ & _ & Hf1 & _ & _ & Hm1). cbn [run_state flash_state memory set_run_state set_flash_state] in *.
    assert (Hend : loop_end s1 = (PApp, s1)).
    { unfold loop_end, run_loop_body, run_loop_continues. rewrite Hi, Hf1, Hi, Hr1. done. }
    rewrite Hend. split; [|done]. cbn [snd]. rewrite Hm1. exact Hm.
  - destruct Hs1 as (Hr1 & Hb1 & Ha1 & Hf1 & Hfa1 & _ & Hm1).
    cbn [run_state btldr_state app_status flash_state flash_addr memory set_btldr_state set_flash_state] in *.
    rewrite loop_end_quiet in * by (rewrite ?Hf1, ?Hr1; try done; apply Hs). cbn [fst snd] in *.
    split; [rewrite Hm1; exact Hm|]. split; [done|].
    constructor; auto; [by rewrite Hm1|by rewrite Ha1|by rewrite Hfa1].
Qed.
