(* ===== verification/Ioutil.v ===== *)
(** ioutil (device/src/iomcu/ioutil: ioutil.c, i2c.c of the MIPS build), the
    Linux utility that flashes the bootloader over I2C.  The functions run in
    a state monad over the operating system; what the system does is the
    interface [Os].  Messages to the terminal are left out. *)

From S2P Require Import Prelude Checksum BtldrProto.

(** ** The operating system *)

Inductive i2c_msg := I2cWrite (addr : Z) (buf : list Z) | I2cRead (addr len : Z).

(** ioctl(I2C_RDWR): its result, the bytes of the read message, and whether a
    message came back with I2C_M_NO_RD_ACK. *)
Record ioctl_result := { io_ret : Z; io_read : list Z; io_no_ack : bool }.

Class Os (W : Type) := {
  os_malloc : Z → W → bool * W;
  os_open_bus : Z → W → bool * W;
  os_i2c_rdwr : list i2c_msg → W → ioctl_result * W;
  os_sleep : Z → W → W;
  os_usleep : Z → W → W;
  (* the firmware file: fopen and its size; fread; fopen for writing; fwrite *)
  os_fopen_read : W → option Z * W;
  os_fread : Z → W → list Z * W;
  os_fopen_write : W → bool * W;
  os_fwrite : list Z → W → Z * W
}.

(** A computation of the utility; [None] is the end of the process by a
    signal (a division by zero, an abort). *)
Definition host (W A : Type) : Type := W → option (A * W).
#[export] Instance host_ret W : MRet (host W) := λ A x w, Some (x, w).
#[export] Instance host_bind W : MBind (host W) := λ A B f m w,
  match m w with Some (x, w') => f x w' | None => None end.

Definition trap {W A} : host W A := λ _, None.
Definition sys {W A} (f : W → A * W) : host W A := λ w, Some (f w).
Definition sys_ {W} (f : W → W) : host W unit := λ w, Some (tt, f w).

(** ** Settings: the globals process_cmd_args fills in *)

Record config := {
  i2c_bus : Z;
  app_addr : Z;
  app_restart_key : list Z;
  btldr_addr : Z;
  btldr_start_key : list Z;
  ignore_chksum : bool;
  new_stop : bool;
  write_fw_app_ver : Z;
  set_autoboot : bool
}.

Abbreviation I2C_BTLDR_ADDR := 0x22.
Abbreviation I2C_CONTROLLER_ADDR := 0x23.
Abbreviation I2C_CONTROLLER_REG_RESTART := 0x81.
Abbreviation I2C_CONTROLLER_REG_RESTART_SIZE := 4.

Definition default_config : config := {|
  i2c_bus := 0; app_addr := I2C_CONTROLLER_ADDR; app_restart_key := IOMCU_COMMON_KEY;
  btldr_addr := I2C_BTLDR_ADDR; btldr_start_key := IOMCU_COMMON_KEY; ignore_chksum := false;
  new_stop := false; write_fw_app_ver := 0; set_autoboot := false |}.

Abbreviation RW_ACK := 0.
Abbreviation RW_NACK := 1.
Abbreviation RW_ERROR_SEND := 2.
Abbreviation RW_ERROR_BUS := 3.
Abbreviation RW_ERROR_PARAM := 4.
Abbreviation RW_ERROR_NOMEM := 5.

Section Ioutil.
Context {W : Type} `{Os W} (cfg : config).

(** ** i2c.c *)

(** The result and the bytes of the read buffer. *)
Definition i2c_rw (bus addr : Z) (wbuf : list Z) (rlen : Z) : host W (Z * list Z) :=
  let wlen := Z.of_nat (length wbuf) in
  if (wlen =? 0) && (rlen =? 0) then mret (RW_ERROR_PARAM, []) else
  let packets :=
    if (0 <? wlen) && (0 <? rlen) then [I2cWrite addr wbuf; I2cRead addr rlen]
    else if 0 <? wlen then [I2cWrite addr wbuf]
    else [I2cRead addr rlen] in
  f ← sys (os_open_bus bus);
  if negb f then mret (RW_ERROR_BUS, []) else
  r ← sys (os_i2c_rdwr packets);
  if io_ret r <? 0 then mret (RW_ERROR_SEND, [])
  else if io_no_ack r then mret (RW_NACK, io_read r)
  else mret (RW_ACK, io_read r).

Definition i2c_reg_read (bus addr regaddr len : Z) : host W (Z * list Z) :=
  i2c_rw bus addr [regaddr] len.

Definition i2c_reg_write (bus addr regaddr : Z) (buf : list Z) : host W Z :=
  tbuf ← sys (os_malloc (Z.of_nat (length buf) + 1));
  if negb tbuf then mret RW_ERROR_NOMEM else
  '(ret, _) ← i2c_rw bus addr (regaddr :: buf) 0;
  mret ret.

(** ** Register access with checksums *)

(** The host's [crclen_t] is int: no truncation. *)
Definition host_message_verify (buf : list Z) (regaddr : Z) (len : nat) : bool :=
  i2c_message_checksum (take (len - 1) buf) regaddr =? buf !!! (len - 1)%nat.

(** [buf] is the destination's old contents, kept on every error. *)
Definition ioutil_reg_read (bus addr regaddr : Z) (buf : list Z) (len : nat) : host W (Z * list Z) :=
  tbuf ← sys (os_malloc (Z.of_nat len + 1));
  if negb tbuf then mret (127, buf) else
  '(ret, tbuf) ← i2c_reg_read bus addr regaddr (Z.of_nat len + 1);
  if ret =? 0 then
    if host_message_verify tbuf regaddr (len + 1) || ignore_chksum cfg
    then mret (ret, take len tbuf)
    else mret (2, buf)
  else mret (ret, buf).

Definition ioutil_reg_write (bus addr regaddr : Z) (buf : list Z) : host W Z :=
  tbuf ← sys (os_malloc (Z.of_nat (length buf) + 1));
  if negb tbuf then mret 127 else
  i2c_reg_write bus addr regaddr (buf ++ [i2c_message_checksum buf regaddr]).

Definition rd_btldr_info : host W (Z * BtldrInfo) :=
  '(ret, buf) ← ioutil_reg_read (i2c_bus cfg) (btldr_addr cfg) I2C_BTLDR_REG_BTLDR_INFO
    (replicate 8 0) 8;
  mret (ret, BtldrInfo_of buf).

Definition rd_btldr_status : host W (Z * Z) :=
  '(ret, buf) ← ioutil_reg_read (i2c_bus cfg) (btldr_addr cfg) I2C_BTLDR_REG_STATUS (replicate 1 0) 1;
  mret (ret, if ret =? 0 then buf !!! 0%nat else I2C_BTLDR_STATE_COMM_ERROR).

Abbreviation I2C_BTLDR_REG_DEV_INFO_SIZE_V1 := 18.

Definition rd_btldr_dev_info (proto_ver : Z) : host W (Z * list Z) :=
  if proto_ver =? 1
  then ioutil_reg_read (i2c_bus cfg) (btldr_addr cfg) I2C_BTLDR_REG_DEV_INFO (replicate 26 0) 18
  else ioutil_reg_read (i2c_bus cfg) (btldr_addr cfg) I2C_BTLDR_REG_DEV_INFO (replicate 26 0) 26.

Definition rd_btldr_flash_info : host W (Z * BtldrFlashInfo) :=
  '(ret, buf) ← ioutil_reg_read (i2c_bus cfg) (btldr_addr cfg) I2C_BTLDR_REG_FLASH_INFO
    (replicate 28 0) 28;
  mret (ret, BtldrFlashInfo_of buf).

(** [old] is what the struct held before. *)
Definition rd_btldr_app_info (old : BtldrAppInfo) : host W (Z * BtldrAppInfo) :=
  '(ret, buf) ← ioutil_reg_read (i2c_bus cfg) (btldr_addr cfg) I2C_BTLDR_REG_APP_INFO
    (BtldrAppInfo_bytes old) 11;
  mret (ret, BtldrAppInfo_of buf).

Definition wr_btldr_flash_addr (addr regaddr : Z) : host W Z :=
  ioutil_reg_write (i2c_bus cfg) (btldr_addr cfg) regaddr (be32 addr).

Definition wr_btldr_app_info_set (p : BtldrAppInfoSet) : host W Z :=
  ioutil_reg_write (i2c_bus cfg) (btldr_addr cfg) I2C_BTLDR_REG_APP_INFO_SET (BtldrAppInfoSet_bytes p).

Definition no_app_info : BtldrAppInfo :=
  {| ai_size := 0; ai_crc16 := 0; ai_app_ver := 0; ai_app_info_set_time := 0; ai_status := 0 |}.

(** ** Delays *)

(** Seconds and microseconds of a delay value of the protocol. *)
Definition delay_parts (delay : Z) : Z * Z :=
  let d := delay in
  if Z.land d I2C_BTLDR_TIME_UNIT_MASK =? I2C_BTLDR_TIME_UNIT_MS then
    let d := Z.land d I2C_BTLDR_TIME_NUM_MASK in
    let sec := d / 1000 in
    let d := u16 (d - sec * 1000) in
    (sec, d * 1000)
  else (0, d).

Definition ioutil_sleep (delay : Z) : host W unit :=
  let '(sec, usec) := delay_parts delay in
  _ ← (if c_true sec then sys_ (os_sleep sec) else mret tt);
  if c_true usec then sys_ (os_usleep usec) else mret tt.

(** ** Starting and stopping *)

Definition ioutil_status : host W Z :=
  '(ret, _) ← rd_btldr_status; mret ret.

Definition ioutil_start : host W Z :=
  ioutil_reg_write (i2c_bus cfg) (btldr_addr cfg) I2C_BTLDR_REG_START (btldr_start_key cfg).

Definition ioutil_wait : host W Z :=
  ioutil_reg_write (i2c_bus cfg) (btldr_addr cfg) I2C_BTLDR_REG_WAIT (btldr_start_key cfg).

(** The do-while loop of [ioutil_stop]: at most [start_count] tries. *)
Fixpoint ioutil_stop_loop (start_count : nat) : host W Z :=
  match start_count with
  | O => trap
  | S start_count =>
      ret ← (if new_stop cfg then ioutil_wait else ioutil_start);
      _ ← sys_ (os_usleep 100000);
      if (ret =? 0) || (start_count =? 0)%nat then mret ret else ioutil_stop_loop start_count
  end.

Definition ioutil_stop : host W Z :=
  ret ← ioutil_reg_write (i2c_bus cfg) (app_addr cfg) I2C_CONTROLLER_REG_RESTART (app_restart_key cfg);
  if negb (ret =? 0) then mret ret else
  _ ← sys_ (os_usleep 500000);
  ioutil_stop_loop 50.

Definition ioutil_info (proto_ver : Z) : host W Z :=
  '(ret, _) ← rd_btldr_dev_info proto_ver;
  '(ret, _) ← (if ret =? 0 then rd_btldr_flash_info else mret (ret, BtldrFlashInfo_of []));
  '(ret, _) ← (if ret =? 0 then rd_btldr_app_info no_app_info else mret (ret, no_app_info));
  mret ret.

Definition ioutil_set_autoboot : host W Z :=
  '(ret, app_info) ← rd_btldr_app_info no_app_info;
  if negb (ret =? 0) then mret ret else
  let app_info_set := {| as_size := ai_size app_info; as_crc16 := ai_crc16 app_info;
    as_app_ver := ai_app_ver app_info;
    as_autoboot := if set_autoboot cfg then I2C_BTLDR_APP_STATUS_AUTOBOOT_YES else 0 |} in
  ret ← wr_btldr_app_info_set app_info_set;
  if negb (ret =? 0) then mret ret else
  _ ← ioutil_sleep (ai_app_info_set_time app_info);
  mret ret.

(** ** Flash blocks *)

Inductive flash_type_t := IOUTIL_EEPROM_FLASH | IOUTIL_DATA_FLASH.

Definition ioutil_write_flash (write_addr : Z) (buf : list Z) (flash_type : flash_type_t)
    (delay : Z) : host W Z :=
  let regaddr_addr := match flash_type with
    | IOUTIL_EEPROM_FLASH => I2C_BTLDR_REG_EEPROM_WRITE_ADDR
    | IOUTIL_DATA_FLASH => I2C_BTLDR_REG_DATA_WRITE_ADDR end in
  let regaddr_write := match flash_type with
    | IOUTIL_EEPROM_FLASH => I2C_BTLDR_REG_EEPROM_WRITE
    | IOUTIL_DATA_FLASH => I2C_BTLDR_REG_DATA_WRITE end in
  ret ← wr_btldr_flash_addr write_addr regaddr_addr;
  '(ret, status) ← (if ret =? 0 then rd_btldr_status else mret (ret, 0));
  let ret := if ret =? 0 then (if status =? I2C_BTLDR_STATE_OK then 0 else 1) else ret in
  ret ← (if ret =? 0 then ioutil_reg_write (i2c_bus cfg) (btldr_addr cfg) regaddr_write buf
         else mret ret);
  '(ret, status) ← (if ret =? 0 then (_ ← ioutil_sleep delay; rd_btldr_status)
                    else mret (ret, status));
  mret (if ret =? 0 then (if status =? I2C_BTLDR_STATE_OK then 0 else 1) else ret).

Definition ioutil_read_flash (read_addr : Z) (buf : list Z) (len : nat) (flash_type : flash_type_t)
    (delay : Z) : host W (Z * list Z) :=
  let regaddr_addr := match flash_type with
    | IOUTIL_EEPROM_FLASH => I2C_BTLDR_REG_EEPROM_READ_ADDR
    | IOUTIL_DATA_FLASH => I2C_BTLDR_REG_DATA_READ_ADDR end in
  let regaddr_read := match flash_type with
    | IOUTIL_EEPROM_FLASH => I2C_BTLDR_REG_EEPROM_READ
    | IOUTIL_DATA_FLASH => I2C_BTLDR_REG_DATA_READ end in
  ret ← wr_btldr_flash_addr read_addr regaddr_addr;
  '(ret, status) ← (if ret =? 0 then rd_btldr_status else mret (ret, 0));
  let ret := if ret =? 0 then (if status =? I2C_BTLDR_STATE_OK then 0 else 1) else ret in
  if ret =? 0 then
    _ ← ioutil_sleep delay;
    ioutil_reg_read (i2c_bus cfg) (btldr_addr cfg) regaddr_read buf len
  else mret (ret, buf).

(** [ROUND_UP_ADDR] in uint32_t arithmetic; a zero block size traps. *)
Definition ROUND_UP_ADDR (addr bs : Z) : Z := u32 (u32 (addr + bs - 1) / bs * bs).

(** The block loop; [off] is how far [buf] has advanced. *)
Fixpoint rdwr_loop (fuel : nat) (base left blocksize : Z) (flash_type : flash_type_t) (delay : Z)
    (off : nat) (buf : list Z) (rd : bool) : host W (Z * list Z) :=
  if left =? 0 then mret (left, buf) else
  match fuel with
  | O => trap
  | S fuel =>
      let n := Z.to_nat blocksize in
      '(ret, buf) ← (if rd then
          '(ret, blk) ← ioutil_read_flash base (take n (drop off buf)) n flash_type delay;
          mret (ret, list_inserts off blk buf)
        else
          ret ← ioutil_write_flash base (take n (drop off buf)) flash_type delay;
          mret (ret, buf));
      if negb (ret =? 0) then mret (left, buf)
      else rdwr_loop fuel (u32 (base + blocksize)) (u32 (left - blocksize)) blocksize flash_type
             delay (off + n) buf rd
  end.

(** How many bytes were read or written, and the buffer. *)
Definition ioutil_rdwr_flash_block (base size blocksize : Z) (flash_type : flash_type_t) (delay : Z)
    (buf : list Z) (rd : bool) : host W (Z * list Z) :=
  if blocksize =? 0 then trap else
  if negb (base =? ROUND_UP_ADDR base blocksize) then mret (0, buf) else
  if negb (size =? ROUND_UP_ADDR size blocksize) then mret (0, buf) else
  '(rest, buf) ← rdwr_loop (Z.to_nat (size / blocksize)) base size blocksize flash_type delay 0 buf rd;
  mret (u32 (size - rest), buf).

Definition ioutil_erase_flash (base size blocksize : Z) (flash_type : flash_type_t) (delay : Z)
    : host W Z :=
  buf ← sys (os_malloc size);
  if negb buf then mret size else
  '(size, _) ← ioutil_rdwr_flash_block base size blocksize flash_type delay
    (replicate (Z.to_nat size) 0) false;
  mret size.

(** ** Commands *)

(** fopen for writing and fwrite of the whole buffer. *)
Definition write_file (buf : list Z) : host W Z :=
  stream ← sys os_fopen_write;
  if negb stream then mret 1 else
  wsize ← sys (os_fwrite buf);
  mret (if wsize =? Z.of_nat (length buf) then 0 else 1).

(** The firmware file, padded with zeros to whole blocks: the first [if]s of
    [ioutil_write_fw], up to the upload. *)
Definition load_fw (flash_info : BtldrFlashInfo) : host W (option (list Z * Z)) :=
  stream ← sys os_fopen_read;
  match stream with
  | None => mret None
  | Some fsize =>
      if fi_data_blocksize flash_info =? 0 then trap else
      let bsize := u32 (Z.quot (fsize + fi_data_blocksize flash_info - 1) (fi_data_blocksize flash_info)
                        * fi_data_blocksize flash_info) in
      if fi_data_size flash_info <? bsize then mret None else
      buf ← sys (os_malloc (u32 (bsize * 2)));
      if negb buf then mret None else
      data ← sys (os_fread fsize);
      if negb (Z.of_nat (length data) =? fsize) then mret None
      else mret (Some (list_inserts 0 data (replicate (Z.to_nat bsize) 0), bsize))
  end.

Definition ioutil_write_fw : host W Z :=
  '(ret, flash_info) ← rd_btldr_flash_info;
  '(ret, app_info) ← (if ret =? 0 then rd_btldr_app_info no_app_info else mret (ret, no_app_info));
  if negb (ret =? 0) then mret 1 else
  fw ← load_fw flash_info;
  match fw with
  | None => mret 1
  | Some (buf, bsize) =>
      '(wsize, _) ← ioutil_rdwr_flash_block (fi_data_base flash_info) bsize
        (fi_data_blocksize flash_info) IOUTIL_DATA_FLASH (fi_data_write_time flash_info) buf false;
      if negb (wsize =? bsize) then mret 1 else
      '(rsize, vbuf) ← ioutil_rdwr_flash_block (fi_data_base flash_info) bsize
        (fi_data_blocksize flash_info) IOUTIL_DATA_FLASH (fi_data_read_time flash_info)
        (replicate (Z.to_nat bsize) 0) true;
      if negb (rsize =? bsize) then mret 1 else
      if negb (bool_decide (buf = vbuf)) then mret 1 else
      let app_info_set := {| as_size := bsize; as_crc16 := crc16 IOMCU_CRC16_INIT buf;
        as_app_ver := write_fw_app_ver cfg;
        as_autoboot := Z.land (ai_status app_info) I2C_BTLDR_APP_STATUS_AUTOBOOT_MASK |} in
      ret ← wr_btldr_app_info_set app_info_set;
      if negb (ret =? 0) then mret ret else
      _ ← ioutil_sleep (ai_app_info_set_time app_info);
      '(ret, app_info) ← rd_btldr_app_info app_info;
      mret (if negb (ret =? 0)
               || negb (ai_size app_info =? as_size app_info_set)
               || negb (ai_crc16 app_info =? as_crc16 app_info_set)
               || negb (ai_app_ver app_info =? as_app_ver app_info_set)
               || negb (Z.land (ai_status app_info) I2C_BTLDR_APP_STATUS_AUTOBOOT_MASK
                        =? Z.land (as_autoboot app_info_set) I2C_BTLDR_APP_STATUS_AUTOBOOT_MASK)
            then 1 else 0)
  end.

Definition ioutil_read_fw : host W Z :=
  '(ret, flash_info) ← rd_btldr_flash_info;
  '(ret, app_info) ← (if ret =? 0 then rd_btldr_app_info no_app_info else mret (ret, no_app_info));
  if negb (ret =? 0) then mret ret else
  if fi_data_blocksize flash_info =? 0 then trap else
  let size := ROUND_UP_ADDR (ai_size app_info) (fi_data_blocksize flash_info) in
  let size := if fi_data_size flash_info <? size then fi_data_size flash_info else size in
  buf ← sys (os_malloc size);
  if negb buf then mret 1 else
  '(rsize, buf) ← ioutil_rdwr_flash_block (fi_data_base flash_info) size
    (fi_data_blocksize flash_info) IOUTIL_DATA_FLASH (fi_data_read_time flash_info)
    (replicate (Z.to_nat size) 0) true;
  if negb (rsize =? size) then mret 1 else write_file buf.

Definition ioutil_read_data : host W Z :=
  '(ret, flash_info) ← rd_btldr_flash_info;
  buf ← (if ret =? 0 then sys (os_malloc (fi_data_size flash_info)) else mret false);
  '(rsize, buf) ← (if buf : bool then
      '(rsize, buf) ← ioutil_rdwr_flash_block (fi_data_base flash_info) (fi_data_size flash_info)
        (fi_data_blocksize flash_info) IOUTIL_DATA_FLASH (fi_data_read_time flash_info)
        (replicate (Z.to_nat (fi_data_size flash_info)) 0) true;
      mret (Some rsize, buf)
    else mret (None, []));
  match rsize with
  | Some rsize => if rsize =? fi_data_size flash_info then write_file buf else mret (if ret =? 0 then 1 else ret)
  | None => mret (if ret =? 0 then 1 else ret)
  end.

Definition ioutil_erase_data : host W Z :=
  '(ret, flash_info) ← rd_btldr_flash_info;
  if negb (ret =? 0) then mret ret else
  esize ← ioutil_erase_flash (fi_data_base flash_info) (fi_data_size flash_info)
    (fi_data_blocksize flash_info) IOUTIL_DATA_FLASH (fi_data_write_time flash_info);
  mret (if esize =? fi_data_size flash_info then 0 else 1).

(** The buffer has [data_size] bytes; [eeprom_size] of them are written. *)
Definition ioutil_read_eeprom : host W Z :=
  '(ret, flash_info) ← rd_btldr_flash_info;
  buf ← (if ret =? 0 then sys (os_malloc (fi_data_size flash_info)) else mret false);
  '(rsize, buf) ← (if buf : bool then
      '(rsize, buf) ← ioutil_rdwr_flash_block (fi_eeprom_base flash_info) (fi_eeprom_size flash_info)
        (fi_eeprom_blocksize flash_info) IOUTIL_EEPROM_FLASH (fi_eeprom_read_time flash_info)
        (replicate (Z.to_nat (fi_data_size flash_info)) 0) true;
      mret (Some rsize, buf)
    else mret (None, []));
  match rsize with
  | Some rsize => if rsize =? fi_eeprom_size flash_info
                  then write_file (take (Z.to_nat rsize) buf) else mret (if ret =? 0 then 1 else ret)
  | None => mret (if ret =? 0 then 1 else ret)
  end.

Definition ioutil_erase_eeprom : host W Z :=
  '(ret, flash_info) ← rd_btldr_flash_info;
  if negb (ret =? 0) then mret ret else
  esize ← ioutil_erase_flash (fi_eeprom_base flash_info) (fi_eeprom_size flash_info)
    (fi_eeprom_blocksize flash_info) IOUTIL_DATA_FLASH (fi_eeprom_write_time flash_info);
  mret (if esize =? fi_eeprom_size flash_info then 0 else 1).

(** [main] after [process_cmd_args]. *)
Inductive ioutil_cmd_t :=
  | IOUTIL_CMD_WRITE_FW | IOUTIL_CMD_READ_FW | IOUTIL_CMD_READ_DATA | IOUTIL_CMD_ERASE_DATA
  | IOUTIL_CMD_READ_EEPROM | IOUTIL_CMD_ERASE_EEPROM | IOUTIL_CMD_STATUS | IOUTIL_CMD_INFO
  | IOUTIL_CMD_AUTOBOOT | IOUTIL_CMD_STOP | IOUTIL_CMD_START.

Definition ioutil_main (cmd : ioutil_cmd_t) : host W Z :=
  match cmd with
  | IOUTIL_CMD_STOP => ioutil_stop
  | IOUTIL_CMD_START => ioutil_start
  | IOUTIL_CMD_STATUS => ioutil_status
  | _ =>
      '(ret, _) ← rd_btldr_status;
      '(ret, info) ← (if ret =? 0 then rd_btldr_info else mret (ret, BtldrInfo_of []));
      if negb (ret =? 0) then mret ret
      else if I2C_BTLDR_INFO_PROTO_VERSION <? bi_proto_ver info then mret 1
      else match cmd with
      | IOUTIL_CMD_WRITE_FW => ioutil_write_fw
      | IOUTIL_CMD_READ_FW => ioutil_read_fw
      | IOUTIL_CMD_READ_DATA => ioutil_read_data
      | IOUTIL_CMD_ERASE_DATA => ioutil_erase_data
      | IOUTIL_CMD_READ_EEPROM => ioutil_read_eeprom
      | IOUTIL_CMD_ERASE_EEPROM => ioutil_erase_eeprom
      | IOUTIL_CMD_INFO => ioutil_info (bi_proto_ver info)
      | IOUTIL_CMD_AUTOBOOT => ioutil_set_autoboot
      | IOUTIL_CMD_STOP => ioutil_stop
      | IOUTIL_CMD_START => ioutil_start
      | IOUTIL_CMD_STATUS => trap
      end
  end.
End Ioutil.

(** ** Delays *)

Lemma land_8000 d : is_u16 d → Z.land d 0x8000 = if 0x8000 <=? d then 0x8000 else 0.
Proof.
  intros Hd. unfold is_u16 in Hd. apply Z.bits_inj'. intros n Hn. rewrite Z.land_spec.
  change 0x8000 with (2 ^ 15). rewrite (Z.pow2_bits_eqb 15) by lia.
  destruct (Z.eqb_spec 15 n) as [<-|Hne]; [|rewrite andb_false_r].
  - rewrite andb_true_r. destruct (Z.leb_spec (2 ^ 15) d).
    + rewrite Z.pow2_bits_true by lia. apply Z.testbit_true; [lia|].
      rewrite <- (Z.div_unique d (2 ^ 15) 1 (d - 2 ^ 15)) by lia. done.
    + rewrite Z.testbit_0_l. apply (testbit_small d 15); lia.
  - destruct (2 ^ 15 <=? d); [|by rewrite Z.testbit_0_l].
    symmetry. apply Z.pow2_bits_false. lia.
Qed.

(** The delay the bootloader asks for is slept exactly: a value with bit
    15 set is that many milliseconds, otherwise microseconds, split into
    whole seconds and less than a second of microseconds. *)
Theorem delay_exact d : is_u16 d →
  let '(sec, usec) := delay_parts d in
  0 <= sec ∧ 0 <= usec < 1000000 ∧
  sec * 1000000 + usec = (if 0x8000 <=? d then (d - 0x8000) * 1000 else d).
Proof.
  intros Hd. unfold delay_parts. rewrite land_8000 by done.
  assert (Hlow : Z.land d 0x7fff = d mod 0x8000) by exact (Z.land_ones d 15 ltac:(lia)).
  unfold is_u16 in Hd. destruct (Z.leb_spec 0x8000 d) as [Hge|Hlt]; cbn [Z.eqb].
  - rewrite Hlow, (Z.mod_eq d 0x8000) by lia.
    rewrite <- (Z.div_unique d 0x8000 1 (d - 0x8000)) by lia.
    assert (Hv : 0 <= d - 0x8000 * 1 < 0x8000 ∧ d - 0x8000 * 1 = d - 0x8000) by lia.
    revert Hv. generalize (d - 0x8000 * 1). intros v [Hv Hvd]. pose proof (Z.mod_pos_bound v 1000 ltac:(lia)) as Hm.
    pose proof (Z.div_mod v 1000 ltac:(lia)) as Hdm. pose proof (Z.div_pos v 1000 ltac:(lia) ltac:(lia)).
    rewrite (u16_small (v - v / 1000 * 1000)) by (unfold is_u16; lia). cbn [Pos.eqb]. lia.
  - split; [lia|]. split; lia.
Qed.

Lemma delay_exact_witness : delay_parts 35268 = (2, 500000) ∧ 2 * 1000000 + 500000 = (35268 - 0x8000) * 1000.
Proof.
  split; [reflexivity|]. assert (Hd : is_u16 35268) by (unfold is_u16; lia).
  exact (proj2 (proj2 (delay_exact 35268 Hd))).
Defined.
