(* ===== verification/IoutilSpec.v ===== *)
(** The commands of ioutil verified against an interface: what a reachable
    bootloader behind a working operating system promises block by block and
    register by register.  Nothing here looks inside the bootloader. *)

From S2P Require Import Prelude Checksum BtldrProto Bootloader BootloaderInv BootloaderBus BootloaderRegs Ioutil.

(** ** The interface *)

(** [holds f m st w]: in the world [w] the firmware file holds [f], the
    bootloader is in its command loop with memory [m] and application status
    [st]. *)
Class FlashHost {W : Type} `{O : Os W} (cfg : config) := {
  holds : list Z → mem → Z → W → Prop;
  saved : W → list Z; (* what was last written to the output file *)
  fh_write_file f m st l w : holds f m st w →
    ∃ w', write_file l w = Some (0, w') ∧ holds f m st w' ∧ saved w' = l;
  granted : Z → bool; (* the blocks malloc has memory for *)
  fh_malloc f m st n w : holds f m st w → ∃ w', os_malloc n w = (granted n, w') ∧ holds f m st w';
  fh_fopen f m st w : holds f m st w →
    ∃ w', os_fopen_read w = (Some (Z.of_nat (length f)), w') ∧ holds f m st w';
  fh_fread f m st w : holds f m st w →
    ∃ w', os_fread (Z.of_nat (length f)) w = (f, w') ∧ holds f m st w';
  fh_sleep f m st n w : holds f m st w → holds f m st (os_sleep n w) ∧ holds f m st (os_usleep n w);
  fh_flash_info f m st w : holds f m st w →
    ∃ w', rd_btldr_flash_info cfg w = Some ((0, flash_info), w') ∧ holds f m st w';
  fh_app_info f m st old w : holds f m st w →
    ∃ w', rd_btldr_app_info cfg old w = Some ((0, app_info_of m st), w') ∧ holds f m st w';
  fh_app_info_set f m st p w : holds f m st w → info_set_ok p →
    let m' := mwrites m 0x1000 (record_block p) in
    ∃ w' st', wr_btldr_app_info_set cfg p w = Some (0, w') ∧ holds f m' st' w'
      ∧ (Z.land st' 0x7f = 1 ↔ app_valid m')
      ∧ (Z.land st' 0x7f = 1 → Z.land st' 0x80 = Z.land (as_autoboot p) 0x80);
  fh_write_block f m st a l delay w : holds f m st w → data_addr_ok a → bytes l → length l = 128%nat →
    ∃ w', ioutil_write_flash cfg a l IOUTIL_DATA_FLASH delay w = Some (0, w')
      ∧ holds f (mwrites m a l) (area_status DataArea st) w';
  fh_write_refused f m st a l delay w : holds f m st w → is_u32 a → ¬ data_addr_ok a →
    ∃ w', ioutil_write_flash cfg a l IOUTIL_DATA_FLASH delay w = Some (1, w') ∧ holds f m st w';
  fh_read_block f m st a old delay w : holds f m st w → data_addr_ok a →
    ∃ w', ioutil_read_flash cfg a old 128 IOUTIL_DATA_FLASH delay w = Some ((0, mreads m a 128), w')
      ∧ holds f m st w'
}.

(** Runs one step of a computation whose result is known. *)
Lemma host_bind_some {W A B} (m : host W A) (k : A → host W B) w x w' :
  m w = Some (x, w') → (m ≫= k) w = k x w'.
Proof. intros Hm. unfold mbind, host_bind. by rewrite Hm. Qed.

Lemma sys_some {W A} (f : W → A * W) w x w' : f w = (x, w') → sys f w = Some (x, w').
Proof. intros Hf. unfold sys. by rewrite Hf. Qed.

Ltac hstep H := rewrite (host_bind_some _ _ _ _ _ H); cbn beta iota.

Section Client.
Context {W : Type} `{O : Os W} (cfg : config) {FH : FlashHost cfg}.
Implicit Types (w : W) (m : mem) (f : list Z).

Lemma sleep_ok f m st d w : holds f m st w →
  ∃ w', ioutil_sleep d w = Some (tt, w') ∧ holds f m st w'.
Proof.
  intros Hw. unfold ioutil_sleep. destruct (delay_parts d) as [sec usec].
  assert (H1 : ∃ w1, (if c_true sec then sys_ (os_sleep sec) else mret tt) w = Some (tt, w1) ∧ holds f m st w1).
  { destruct (c_true sec); [|by exists w]. eexists. split; [done|]. by apply fh_sleep. }
  destruct H1 as (w1 & H1 & Hw1). hstep H1.
  destruct (c_true usec); [|by exists w1]. eexists. split; [done|]. by apply fh_sleep.
Qed.

(** ** The block loop *)

Lemma data_addr_step a n : data_addr_ok a → a + 128 * Z.of_nat (S (S n)) <= 0x10000 → data_addr_ok (a + 128).
Proof.
  unfold data_addr_ok. flash_geometry. intros [Hm Ha] Hn. split; [|lia].
  rewrite <- (Z.mul_1_l 128), Z.mod_add by lia. done.
Qed.

Lemma rdwr_loop_write f m st w delay n a off buf :
  holds f m st w → bytes buf → (n = 0%nat ∨ data_addr_ok a) → 0 <= a → a + 128 * Z.of_nat n <= 0x10000 →
  (off + 128 * n <= length buf)%nat →
  ∃ w' st', rdwr_loop cfg n a (128 * Z.of_nat n) 128 IOUTIL_DATA_FLASH delay off buf false w
    = Some ((0, buf), w') ∧ holds f (mwrites m a (take (128 * n) (drop off buf))) st' w'.
Proof.
  intros Hw Hb. revert m st w a off Hw. induction n as [|n IH]; intros m st w a off Hw Ha H0 Hn Hl.
  - cbn. eauto.
  - destruct Ha as [|Ha]; [done|]. cbn [rdwr_loop].
    destruct (Z.eqb_spec (128 * Z.of_nat (S n)) 0); [lia|]. change (Z.to_nat 128) with 128%nat.
    assert (Hblk : length (take 128 (drop off buf)) = 128%nat) by (rewrite length_take, length_drop; lia).
    destruct (fh_write_block f m st a (take 128 (drop off buf)) delay w) as (w1 & H1 & Hw1);
      [done|done|by apply Forall_take, Forall_drop|done|].
    assert (H1' : (ret ← ioutil_write_flash cfg a (take 128 (drop off buf)) IOUTIL_DATA_FLASH delay;
      mret (ret, buf)) w = Some ((0, buf), w1)) by (by hstep H1).
    hstep H1'. cbn [Z.eqb negb].
    assert (Hnext : n = 0%nat ∨ data_addr_ok (u32 (a + 128))).
    { destruct n as [|n]; [by left|right]. rewrite u32_small by (unfold is_u32; lia).
      by eapply (data_addr_step a n). }
    destruct (IH _ _ w1 (u32 (a + 128)) (off + 128)%nat Hw1 Hnext) as (w2 & st2 & H2 & Hw2);
      [rewrite u32_small by (unfold is_u32; lia); lia..|lia|].
    replace (u32 (128 * Z.of_nat (S n) - 128)) with (128 * Z.of_nat n)
      by (rewrite u32_small by (unfold is_u32; lia); lia).
    exists w2, st2. split; [exact H2|].
    replace (128 * S n)%nat with (128 + 128 * n)%nat by lia.
    rewrite take_add, mwrites_app, Hblk, drop_drop. rewrite u32_small in Hw2 by (unfold is_u32; lia).
    done.
Qed.

Lemma rdwr_loop_read f m st w delay n a off buf :
  holds f m st w → (n = 0%nat ∨ data_addr_ok a) → 0 <= a → a + 128 * Z.of_nat n <= 0x10000 →
  ∃ w', rdwr_loop cfg n a (128 * Z.of_nat n) 128 IOUTIL_DATA_FLASH delay off buf true w
    = Some ((0, list_inserts off (mreads m a (128 * n)) buf), w') ∧ holds f m st w'.
Proof.
  revert w a off buf. induction n as [|n IH]; intros w a off buf Hw Ha H0 Hn; [cbn; eauto|].
  destruct Ha as [|Ha]; [done|]. cbn [rdwr_loop].
  destruct (Z.eqb_spec (128 * Z.of_nat (S n)) 0); [lia|]. change (Z.to_nat 128) with 128%nat.
  destruct (fh_read_block f m st a (take 128 (drop off buf)) delay w) as (w1 & H1 & Hw1); [done|done|].
  assert (H1' : ('(ret, blk) ← ioutil_read_flash cfg a (take 128 (drop off buf)) 128 IOUTIL_DATA_FLASH delay;
    mret (ret, list_inserts off blk buf)) w = Some ((0, list_inserts off (mreads m a 128) buf), w1))
    by (by hstep H1).
  hstep H1'. cbn [Z.eqb negb].
  assert (Hu : u32 (a + 128) = a + 128) by (apply u32_small; unfold is_u32; lia).
  assert (Hnext : n = 0%nat ∨ data_addr_ok (u32 (a + 128))).
  { destruct n as [|n]; [by left|right]. rewrite Hu. by eapply (data_addr_step a n). }
  destruct (IH w1 (u32 (a + 128)) (off + 128)%nat (list_inserts off (mreads m a 128) buf) Hw1 Hnext)
    as (w2 & H2 & Hw2); [lia..|].
  replace (u32 (128 * Z.of_nat (S n) - 128)) with (128 * Z.of_nat n)
    by (rewrite u32_small by (unfold is_u32; lia); lia).
  exists w2. split; [|done]. rewrite H2, Hu. do 3 f_equal.
  replace (128 * S n)%nat with (128 + 128 * n)%nat by lia.
  rewrite mreads_app, list_inserts_app, length_mreads by lia. done.
Qed.

(** ** Whole ranges *)

Lemma ROUND_UP_whole q : 0 <= q → 128 * q + 127 < 2 ^ 32 → ROUND_UP_ADDR (128 * q) 128 = 128 * q.
Proof.
  intros H0 H1. unfold ROUND_UP_ADDR. rewrite (u32_small (128 * q + 128 - 1)) by (unfold is_u32; lia).
  replace (128 * q + 128 - 1) with (q * 128 + 127) by lia. rewrite Z.div_add_l by lia.
  change (127 / 128) with 0. rewrite Z.add_0_r, u32_small by (unfold is_u32; lia). lia.
Qed.

Lemma data_base_ok : data_addr_ok BTLDR_STM8L15X_DATA_BASE.
Proof. split; [done|]. flash_geometry. lia. Qed.

Lemma rdwr_block_setup n delay buf rd w : 128 * Z.of_nat n <= 0x6000 →
  ioutil_rdwr_flash_block cfg BTLDR_STM8L15X_DATA_BASE (128 * Z.of_nat n) 128 IOUTIL_DATA_FLASH delay buf rd w
  = ('(rest, buf) ← rdwr_loop cfg n 0xa000 (128 * Z.of_nat n) 128 IOUTIL_DATA_FLASH delay 0 buf rd;
     mret (u32 (128 * Z.of_nat n - rest), buf)) w.
Proof.
  intros Hn. unfold ioutil_rdwr_flash_block. rewrite ROUND_UP_whole by lia. flash_geometry.
  change (ROUND_UP_ADDR 0xa000 128) with 0xa000. rewrite !Z.eqb_refl. cbn [negb Z.eqb].
  replace (Z.to_nat (128 * Z.of_nat n / 128)) with n; [done|].
  rewrite Z.mul_comm, Z.div_mul by lia. lia.
Qed.

Lemma write_range f m st w delay n buf : holds f m st w → bytes buf → length buf = (128 * n)%nat →
  128 * Z.of_nat n <= 0x6000 →
  ∃ w' st', ioutil_rdwr_flash_block cfg BTLDR_STM8L15X_DATA_BASE (128 * Z.of_nat n) 128 IOUTIL_DATA_FLASH
    delay buf false w = Some ((128 * Z.of_nat n, buf), w') ∧ holds f (mwrites m 0xa000 buf) st' w'.
Proof.
  intros Hw Hb Hl Hn. rewrite rdwr_block_setup by done.
  destruct (rdwr_loop_write f m st w delay n 0xa000 0 buf) as (w' & st' & H1 & Hw');
    [done|done|right; exact data_base_ok|lia|lia|lia|].
  hstep H1. rewrite drop_0, take_ge in Hw' by lia. exists w', st'. split; [|done].
  rewrite Z.sub_0_r, u32_small by (unfold is_u32; lia). done.
Qed.

Lemma read_range f m st w delay n buf : holds f m st w → length buf = (128 * n)%nat →
  128 * Z.of_nat n <= 0x6000 →
  ∃ w', ioutil_rdwr_flash_block cfg BTLDR_STM8L15X_DATA_BASE (128 * Z.of_nat n) 128 IOUTIL_DATA_FLASH
    delay buf true w = Some ((128 * Z.of_nat n, mreads m 0xa000 (128 * n)), w') ∧ holds f m st w'.
Proof.
  intros Hw Hl Hn. rewrite rdwr_block_setup by done.
  destruct (rdwr_loop_read f m st w delay n 0xa000 0 buf) as (w' & H1 & Hw');
    [done|right; exact data_base_ok|lia|lia|].
  hstep H1. exists w'. split; [|done]. rewrite Z.sub_0_r, u32_small by (unfold is_u32; lia).
  rewrite list_inserts_0 by (rewrite length_mreads; lia). rewrite length_mreads, drop_ge, app_nil_r by lia. done.
Qed.

(** ** Writing firmware *)

Definition fw_blocks (f : list Z) : nat := Z.to_nat ((Z.of_nat (length f) + 127) / 128).

(** The file padded with zeros to whole blocks. *)
Definition fw_image (f : list Z) : list Z := f ++ replicate (128 * fw_blocks f - length f) 0.

Lemma fw_blocks_bound f : Z.of_nat (length f) <= 128 * Z.of_nat (fw_blocks f) < Z.of_nat (length f) + 128.
Proof.
  unfold fw_blocks. pose proof (Z.div_pos (Z.of_nat (length f) + 127) 128 ltac:(lia) ltac:(lia)).
  pose proof (Z.mod_pos_bound (Z.of_nat (length f) + 127) 128 ltac:(lia)).
  pose proof (Z.div_mod (Z.of_nat (length f) + 127) 128 ltac:(lia)). lia.
Qed.

Lemma length_fw_image f : length (fw_image f) = (128 * fw_blocks f)%nat.
Proof. unfold fw_image. rewrite length_app, length_replicate. pose proof (fw_blocks_bound f). lia. Qed.

Lemma bytes_fw_image f : bytes f → bytes (fw_image f).
Proof. intros Hf. apply bytes_app; [done|]. apply bytes_replicate. u8_const. Qed.

Lemma load_fw_ok f m st w : (∀ n, granted n = true) → holds f m st w → Z.of_nat (length f) <= 0x6000 →
  ∃ w', load_fw flash_info w = Some (Some (fw_image f, 128 * Z.of_nat (fw_blocks f)), w') ∧ holds f m st w'.
Proof.
  intros plenty Hw Hlen. pose proof (fw_blocks_bound f) as Hb. unfold load_fw.
  destruct (fh_fopen f m st w Hw) as (w1 & H1 & Hw1). hstep (sys_some _ _ _ _ H1).
  change (fi_data_blocksize flash_info) with 128. cbn [Z.eqb].
  assert (Hbs : u32 (Z.quot (Z.of_nat (length f) + 128 - 1) 128 * 128) = 128 * Z.of_nat (fw_blocks f)).
  { rewrite Z.quot_div_nonneg by lia. unfold fw_blocks in *.
    replace (Z.of_nat (length f) + 128 - 1) with (Z.of_nat (length f) + 127) by lia.
    assert (0 <= (Z.of_nat (length f) + 127) / 128) by (apply Z.div_pos; lia).
    rewrite Z2Nat.id in * by done. rewrite u32_small by (unfold is_u32; lia). lia. }
  rewrite Hbs. change (fi_data_size flash_info) with 0x6000.
  destruct (Z.ltb_spec 0x6000 (128 * Z.of_nat (fw_blocks f))) as [Hbig|_].
  { exfalso. assert (Z.of_nat (fw_blocks f) <= 192); [|lia].
    unfold fw_blocks in *. assert ((Z.of_nat (length f) + 127) / 128 < 193); [|lia].
    apply Z.div_lt_upper_bound; lia. }
  destruct (fh_malloc f m st (u32 (128 * Z.of_nat (fw_blocks f) * 2)) w1 Hw1) as (w2 & H2 & Hw2). rewrite plenty in H2.
  hstep (sys_some _ _ _ _ H2). cbn [negb].
  destruct (fh_fread f m st w2 Hw2) as (w3 & H3 & Hw3). hstep (sys_some _ _ _ _ H3).
  rewrite Z.eqb_refl. cbn [negb]. exists w3. split; [|done].
  rewrite list_inserts_0 by (rewrite length_replicate; lia).
  rewrite drop_replicate. replace (Z.to_nat (128 * Z.of_nat (fw_blocks f))) with (128 * fw_blocks f)%nat by lia.
  done.
Qed.

Lemma app_info_of_ok m st : app_record_ok m →
  app_info_of m st = {| ai_size := ed_app_size (app_record m); ai_crc16 := ed_app_crc16 (app_record m);
    ai_app_ver := ed_app_ver (app_record m); ai_app_info_set_time := BTLDR_APP_INFO_SET_TIME;
    ai_status := Z.lor st (ed_autoboot (app_record m)) |}.
Proof.
  intros [H1 H2]. unfold app_info_of, read_app_info. rewrite read_app_info_bytes.
  cbn [memory app_status set_app_status btldr_reset].
  change (BtldrEEPROMData_size - 1)%nat with 13%nat.
  change (BtldrEEPROMData_of (mreads m 4096 14)) with (app_record m).
  unfold BtldrEEPROMData_size in H1. rewrite H1, H2, !Z.eqb_refl. done.
Qed.

Lemma land_mask_u8 x : is_u8 (Z.land x 0x80).
Proof. rewrite Z.land_comm. apply (land_range_l 8); lia. Qed.

(** What the upload leaves: the image in flash, its record, and a valid
    application. *)
Definition fw_record (f : list Z) (autoboot : Z) : BtldrAppInfoSet :=
  {| as_size := 128 * Z.of_nat (fw_blocks f); as_crc16 := crc16 IOMCU_CRC16_INIT (fw_image f);
     as_app_ver := write_fw_app_ver cfg; as_autoboot := Z.land autoboot 0x80 |}.

Definition fw_memory (m : mem) (f : list Z) (autoboot : Z) : mem :=
  mwrites (mwrites m 0xa000 (fw_image f)) 0x1000 (record_block (fw_record f autoboot)).

Lemma fw_fits f : Z.of_nat (length f) <= 0x6000 → 128 * Z.of_nat (fw_blocks f) <= 0x6000.
Proof.
  intros Hl. unfold fw_blocks. assert ((Z.of_nat (length f) + 127) / 128 < 193); [|lia].
  apply Z.div_lt_upper_bound; lia.
Qed.

Lemma fw_record_ok f ab : bytes f → Z.of_nat (length f) <= 0x6000 → is_u16 (write_fw_app_ver cfg) →
  info_set_ok (fw_record f ab).
Proof.
  intros Hf Hl Hv. pose proof (fw_fits f Hl). split_and!; cbn [as_size as_crc16 as_app_ver as_autoboot fw_record].
  - unfold is_u32. lia.
  - apply crc16_range; [unfold is_u16, IOMCU_CRC16_INIT; lia|by apply bytes_fw_image].
  - done.
  - apply land_mask_u8.
Qed.

Lemma fw_memory_image m f ab : mreads (fw_memory m f ab) 0xa000 (128 * fw_blocks f) = fw_image f.
Proof.
  unfold fw_memory. rewrite mreads_mwrites_out.
  - rewrite <- length_fw_image. apply mreads_mwrites.
  - right. change (length (record_block _)) with 128%nat. lia.
Qed.

Lemma fw_memory_valid m f ab rest : bytes f → Z.of_nat (length f) <= 0x6000 → is_u16 (write_fw_app_ver cfg) →
  f = 0x82 :: rest → app_valid (fw_memory m f ab).
Proof.
  intros Hf Hl Hv Hhd. pose proof (fw_fits f Hl) as Hfit.
  pose proof (fw_record_ok f ab Hf Hl Hv) as Hok.
  destruct (record_ok (fw_record f ab) (mwrites m 0xa000 (fw_image f)) Hok) as (Hrec & Hsz & Hcrc & _ & _).
  fold (fw_memory m f ab) in Hrec, Hsz, Hcrc. split; [done|]. rewrite Hsz, Hcrc. flash_geometry.
  cbn [as_size as_crc16 fw_record]. split_and!; [done| |].
  - pose proof (fw_blocks_bound f) as Hb. rewrite Hhd in Hb at 1. cbn [length] in Hb.
    pose proof (lookup_mreads (fw_memory m f ab) 0xa000 (128 * fw_blocks f) 0 ltac:(lia)) as Hlk.
    rewrite fw_memory_image in Hlk. unfold fw_image in Hlk. rewrite Hhd in Hlk at 1.
    rewrite Z.add_0_r in Hlk. by injection Hlk.
  - unfold app_image. rewrite Hsz. cbn [as_size fw_record]. flash_geometry.
    rewrite (Z.mul_comm 128), Z.div_mul by lia.
    replace (Z.to_nat (Z.of_nat (fw_blocks f) * 128)) with (128 * fw_blocks f)%nat by lia.
    by rewrite fw_memory_image.
Qed.

Lemma fw_memory_version m f ab : bytes f → Z.of_nat (length f) <= 0x6000 → is_u16 (write_fw_app_ver cfg) →
  ed_app_ver (app_record (fw_memory m f ab)) = write_fw_app_ver cfg.
Proof.
  intros Hf Hl Hv. pose proof (fw_record_ok f ab Hf Hl Hv) as Hok.
  destruct (record_ok (fw_record f ab) (mwrites m 0xa000 (fw_image f)) Hok) as (_ & _ & _ & Hver & _). exact Hver.
Qed.

(** The check [ioutil_write_fw] makes of the record it reads back. *)
Lemma readback_ok p m st : app_record_ok m → ed_app_size (app_record m) = as_size p →
  ed_app_crc16 (app_record m) = as_crc16 p → ed_app_ver (app_record m) = as_app_ver p →
  ed_autoboot (app_record m) = Z.land (as_autoboot p) 0x80 → Z.land st 0x80 = Z.land (as_autoboot p) 0x80 →
  let app_info := app_info_of m st in
  (negb (0 =? 0) || negb (ai_size app_info =? as_size p) || negb (ai_crc16 app_info =? as_crc16 p)
   || negb (ai_app_ver app_info =? as_app_ver p)
   || negb (Z.land (ai_status app_info) I2C_BTLDR_APP_STATUS_AUTOBOOT_MASK
            =? Z.land (as_autoboot p) I2C_BTLDR_APP_STATUS_AUTOBOOT_MASK)) = false.
Proof.
  intros Hok Hsz Hcrc Hver Hab Hst app_info. unfold app_info. rewrite app_info_of_ok by done.
  cbn [ai_size ai_crc16 ai_app_ver ai_status]. rewrite Hsz, Hcrc, Hver, Hab.
  rewrite Z.land_lor_distr_l, Hst, <- Z.land_assoc, Z.lor_diag, !Z.eqb_refl. done.
Qed.

(** The whole command on a working setup. *)
Lemma write_fw_ok f m st w rest : (∀ n, granted n = true) → holds f m st w → bytes f → Z.of_nat (length f) <= 0x6000 →
  is_u16 (write_fw_app_ver cfg) → f = 0x82 :: rest →
  let ab := ai_status (app_info_of m st) in
  ∃ w' st', ioutil_write_fw cfg w = Some (0, w') ∧ holds f (fw_memory m f ab) st' w'
    ∧ Z.land st' 0x7f = 1 ∧ Z.land st' 0x80 = Z.land ab 0x80.
Proof.
  intros plenty Hw Hf Hl Hv Hhd ab. unfold ioutil_write_fw.
  destruct (fh_flash_info f m st w Hw) as (w1 & H1 & Hw1). hstep H1. cbn [Z.eqb].
  destruct (fh_app_info f m st no_app_info w1 Hw1) as (w2 & H2 & Hw2). hstep H2. cbn [Z.eqb negb].
  destruct (load_fw_ok f m st w2 plenty Hw2 Hl) as (w3 & H3 & Hw3). hstep H3.
  change (fi_data_base flash_info) with BTLDR_STM8L15X_DATA_BASE.
  change (fi_data_blocksize flash_info) with 128.
  pose proof (fw_fits f Hl) as Hfit. pose proof (bytes_fw_image f Hf) as Hbi.
  destruct (write_range f m st w3 (fi_data_write_time flash_info) (fw_blocks f) (fw_image f))
    as (w4 & st4 & H4 & Hw4); [done|done|apply length_fw_image|done|].
  hstep H4. rewrite Z.eqb_refl. cbn [negb].
  destruct (read_range f (mwrites m 0xa000 (fw_image f)) st4 w4 (fi_data_read_time flash_info) (fw_blocks f)
    (replicate (Z.to_nat (128 * Z.of_nat (fw_blocks f))) 0)) as (w5 & H5 & Hw5);
    [done|rewrite length_replicate; lia|done|].
  hstep H5. rewrite Z.eqb_refl. cbn [negb].
  rewrite <- length_fw_image, mreads_mwrites, bool_decide_eq_true_2 by done. cbn [negb].
  fold ab. pose proof (fw_record_ok f ab Hf Hl Hv) as Hok.
  pose proof (fw_memory_valid m f ab rest Hf Hl Hv Hhd) as Hvalid. unfold fw_memory in *.
  destruct (record_ok (fw_record f ab) (mwrites m 0xa000 (fw_image f)) Hok)
    as (Hrec & Hsz & Hcrc & Hver & Habt).
  destruct (fh_app_info_set f (mwrites m 0xa000 (fw_image f)) st4 (fw_record f ab) w5 Hw5 Hok)
    as (w6 & st6 & H6 & Hw6 & Hrdy & Hab).
  change {| as_size := 128 * Z.of_nat (fw_blocks f); as_crc16 := crc16 IOMCU_CRC16_INIT (fw_image f);
    as_app_ver := write_fw_app_ver cfg; as_autoboot := Z.land ab 0x80 |} with (fw_record f ab).
  assert (Habf : as_autoboot (fw_record f ab) = Z.land ab 0x80) by done.
  revert H6 Hw6 Hrdy Hab Hrec Hsz Hcrc Hver Habt Hvalid Habf.
  generalize (mwrites (mwrites m 0xa000 (fw_image f)) 0x1000 (record_block (fw_record f ab))).
  generalize (fw_record f ab). intros p m' H6 Hw6 Hrdy Hab Hrec Hsz Hcrc Hver Habt Hvalid Habf.
  hstep H6. cbn [Z.eqb negb]. apply (proj2 Hrdy) in Hvalid as Hrd. specialize (Hab Hrd).
  destruct (sleep_ok f m' st6 (ai_app_info_set_time (app_info_of m st)) w6 Hw6) as (w7 & H7 & Hw7).
  hstep H7. destruct (fh_app_info f m' st6 (app_info_of m st) w7 Hw7) as (w8 & H8 & Hw8). hstep H8.
  rewrite readback_ok by done.
  exists w8, st6. split_and!; try done. by rewrite Hab, Habf, <- Z.land_assoc.
Qed.

(** ** Reading and erasing *)

Lemma read_data_ok f m st w : (∀ n, granted n = true) → holds f m st w →
  ∃ w', ioutil_read_data cfg w = Some (0, w') ∧ holds f m st w' ∧ saved w' = mreads m 0xa000 (128 * 192).
Proof.
  intros plenty Hw. unfold ioutil_read_data.
  destruct (fh_flash_info f m st w Hw) as (w1 & H1 & Hw1). hstep H1. cbn [Z.eqb].
  destruct (fh_malloc f m st (fi_data_size flash_info) w1 Hw1) as (w2 & H2 & Hw2). rewrite plenty in H2.
  hstep (sys_some _ _ _ _ H2).
  destruct (read_range f m st w2 (fi_data_read_time flash_info) 192
    (replicate (Z.to_nat (fi_data_size flash_info)) 0)) as (w3 & H3 & Hw3);
    [done|by rewrite length_replicate|lia|].
  change (fi_data_base flash_info) with BTLDR_STM8L15X_DATA_BASE.
  change (fi_data_size flash_info) with (128 * Z.of_nat 192) in *.
  change (fi_data_blocksize flash_info) with 128.
  revert H3. generalize (mreads m 0xa000 (128 * 192)). intros l H3.
  assert (H3' : ('(rsize, buf) ← ioutil_rdwr_flash_block cfg BTLDR_STM8L15X_DATA_BASE (128 * Z.of_nat 192) 128
      IOUTIL_DATA_FLASH (fi_data_read_time flash_info) (replicate (Z.to_nat (128 * Z.of_nat 192)) 0) true;
    mret (Some rsize, buf)) w2 = Some ((Some (128 * Z.of_nat 192), l), w3)) by (by hstep H3).
  hstep H3'. rewrite Z.eqb_refl. by apply fh_write_file.
Qed.

(** Erasing the data area writes zeros everywhere and invalidates the
    application. *)
Lemma erase_data_ok f m st w : (∀ n, granted n = true) → holds f m st w →
  ∃ w' st', ioutil_erase_data cfg w = Some (0, w') ∧ holds f (mwrites m 0xa000 (replicate (128 * 192) 0)) st' w'.
Proof.
  intros plenty Hw. unfold ioutil_erase_data, ioutil_erase_flash.
  destruct (fh_flash_info f m st w Hw) as (w1 & H1 & Hw1). hstep H1. cbn [Z.eqb negb].
  change (fi_data_base flash_info) with BTLDR_STM8L15X_DATA_BASE.
  change (fi_data_size flash_info) with (128 * Z.of_nat 192) in *.
  change (fi_data_blocksize flash_info) with 128.
  destruct (fh_malloc f m st (128 * Z.of_nat 192) w1 Hw1) as (w2 & H2 & Hw2). rewrite plenty in H2.
  assert (Hlen : length (replicate (Z.to_nat (128 * Z.of_nat 192)) 0) = (128 * 192)%nat)
    by (by rewrite length_replicate).
  destruct (write_range f m st w2 (fi_data_write_time flash_info) 192
    (replicate (Z.to_nat (128 * Z.of_nat 192)) 0)) as (w3 & st3 & H3 & Hw3);
    [done|apply bytes_replicate; u8_const|done|lia|].
  change (Z.to_nat (128 * Z.of_nat 192)) with (128 * 192)%nat in *.
  revert H3 Hw3. generalize (replicate (128 * 192) 0). intros l H3 Hw3.
  assert (H3' : (buf ← sys (os_malloc (128 * Z.of_nat 192));
    if negb buf then mret (128 * Z.of_nat 192) else
    '(size, _) ← ioutil_rdwr_flash_block cfg BTLDR_STM8L15X_DATA_BASE (128 * Z.of_nat 192) 128
      IOUTIL_DATA_FLASH (fi_data_write_time flash_info) l false; mret size) w1
    = Some (128 * Z.of_nat 192, w3)).
  { hstep (sys_some _ _ _ _ H2). cbn [negb]. by hstep H3. }
  hstep H3'. rewrite Z.eqb_refl. eauto.
Qed.

Lemma eeprom_base_not_data : ¬ data_addr_ok BTLDR_STM8L15X_EEPROM_BASE.
Proof. intros [_ H]. flash_geometry. lia. Qed.

(** Erasing the EEPROM writes through the data registers: the bootloader
    refuses the first address and nothing changes.  The command then fails,
    but without memory for a block it has not even tried and succeeds. *)
Lemma erase_eeprom_fails f m st w : holds f m st w →
  ∃ w', ioutil_erase_eeprom cfg w = Some (if granted (fi_eeprom_size flash_info) then 1 else 0, w') ∧ holds f m st w'.
Proof.
  intros Hw. unfold ioutil_erase_eeprom, ioutil_erase_flash.
  destruct (fh_flash_info f m st w Hw) as (w1 & H1 & Hw1). hstep H1. cbn [Z.eqb negb].
  change (fi_eeprom_base flash_info) with BTLDR_STM8L15X_EEPROM_BASE.
  change (fi_eeprom_size flash_info) with (128 * Z.of_nat 7).
  change (fi_eeprom_blocksize flash_info) with 128.
  destruct (fh_malloc f m st (128 * Z.of_nat 7) w1 Hw1) as (w2 & H2 & Hw2).
  destruct (granted (128 * Z.of_nat 7)).
  2:{ assert (Hno : ∀ k : host W Z, (buf ← sys (os_malloc (128 * Z.of_nat 7)); if negb buf then mret (128 * Z.of_nat 7) else k) w1
        = Some (128 * Z.of_nat 7, w2)) by (intros k; by hstep (sys_some _ _ _ _ H2)).
      erewrite host_bind_some by apply Hno. cbn beta iota. rewrite Z.eqb_refl. eauto. }
  destruct (fh_write_refused f m st BTLDR_STM8L15X_EEPROM_BASE
    (take 128 (drop 0 (replicate (Z.to_nat (128 * Z.of_nat 7)) 0))) (fi_eeprom_write_time flash_info) w2 Hw2)
    as (w3 & H3 & Hw3); [flash_geometry; unfold is_u32; lia|apply eeprom_base_not_data|].
  revert H3. generalize (replicate (Z.to_nat (128 * Z.of_nat 7)) 0). intros l H3.
  assert (Hloop : rdwr_loop cfg 7 BTLDR_STM8L15X_EEPROM_BASE (128 * Z.of_nat 7) 128 IOUTIL_DATA_FLASH
    (fi_eeprom_write_time flash_info) 0 l false w2 = Some ((128 * Z.of_nat 7, l), w3)).
  { cbn [rdwr_loop]. destruct (Z.eqb_spec (128 * Z.of_nat 7) 0); [lia|]. change (Z.to_nat 128) with 128%nat.
    assert (H3' : (ret ← ioutil_write_flash cfg BTLDR_STM8L15X_EEPROM_BASE (take 128 (drop 0 l))
        IOUTIL_DATA_FLASH (fi_eeprom_write_time flash_info);
      mret (ret, l)) w2 = Some ((1, l), w3)) by (by hstep H3).
    by hstep H3'. }
  assert (Hblk : ioutil_rdwr_flash_block cfg BTLDR_STM8L15X_EEPROM_BASE (128 * Z.of_nat 7) 128 IOUTIL_DATA_FLASH
    (fi_eeprom_write_time flash_info) l false w2 = Some ((0, l), w3)).
  { unfold ioutil_rdwr_flash_block. change (ROUND_UP_ADDR BTLDR_STM8L15X_EEPROM_BASE 128) with BTLDR_STM8L15X_EEPROM_BASE.
    change (ROUND_UP_ADDR (128 * Z.of_nat 7) 128) with (128 * Z.of_nat 7). rewrite !Z.eqb_refl. cbn [negb Z.eqb].
    change (Z.to_nat (128 * Z.of_nat 7 / 128)) with 7%nat. by hstep Hloop. }
  assert (Her : (buf ← sys (os_malloc (128 * Z.of_nat 7));
    if negb buf then mret (128 * Z.of_nat 7) else
    '(size, _) ← ioutil_rdwr_flash_block cfg BTLDR_STM8L15X_EEPROM_BASE (128 * Z.of_nat 7) 128 IOUTIL_DATA_FLASH
      (fi_eeprom_write_time flash_info) l false; mret size) w1 = Some (0, w3)).
  { hstep (sys_some _ _ _ _ H2). cbn [negb]. by hstep Hblk. }
  hstep Her. eauto.
Qed.
End Client.
