(* ===== verification/BtldrHost.v ===== *)
(** The host utility talking to the bootloader: an operating system whose I2C
    bus ends at the model of bootloader/main.c, byte by byte, and the
    end-to-end theorems of the flashing commands. *)

From S2P Require Import Prelude Checksum BtldrProto Bootloader BootloaderInv BootloaderProps BootloaderBus BootloaderRegs Ioutil IoutilSpec.

(** ** A world with one bootloader on the bus *)

Record world := mk_world {
  slave : phase_t * btldr;
  fw_file : list Z;
  out_file : list Z;
  slept : Z (* microseconds *)
}.

Definition set_slave v w := mk_world v (fw_file w) (out_file w) (slept w).

Definition failed : ioctl_result := {| io_ret := -1; io_read := []; io_no_ack := false |}.
Definition done_read (l : list Z) : ioctl_result := {| io_ret := 2; io_read := l; io_no_ack := false |}.

(** The controller turns messages into bus events; nothing answers at other
    addresses, or once the application was started. *)
Definition world_rdwr (msgs : list i2c_msg) (w : world) : ioctl_result * world :=
  match (slave w).1, msgs with
  | PApp, _ => (failed, w)
  | _, [I2cWrite addr (reg :: data)] =>
      if addr =? I2C_BTLDR_ADDR
      then (done_read [], set_slave (fold_left main_step (bus_write reg data) (slave w)) w)
      else (failed, w)
  | _, [I2cWrite addr [reg]; I2cRead addr' n] =>
      if (addr =? I2C_BTLDR_ADDR) && (addr' =? I2C_BTLDR_ADDR)
      then let samples := bus_read reg (Z.to_nat n) in
           (done_read (take (Z.to_nat n) (bus_output (slave w) samples)),
            set_slave (fold_left main_step samples (slave w)) w)
      else (failed, w)
  | _, _ => (failed, w)
  end.

(** [grants] tells for which sizes malloc has memory. *)
Definition world_os_with (grants : Z → bool) : Os world := {|
  os_malloc := λ n w, (grants n, w);
  os_open_bus := λ bus w, (bus =? 0, w);
  os_i2c_rdwr := world_rdwr;
  os_sleep := λ n w, mk_world (slave w) (fw_file w) (out_file w) (slept w + 1000000 * n);
  os_usleep := λ n w, mk_world (slave w) (fw_file w) (out_file w) (slept w + n);
  os_fopen_read := λ w, (Some (Z.of_nat (length (fw_file w))), w);
  os_fread := λ n w, (take (Z.to_nat n) (fw_file w), w);
  os_fopen_write := λ w, (true, w);
  os_fwrite := λ l w, (Z.of_nat (length l), mk_world (slave w) (fw_file w) l (slept w))
|}.

(** Memory for everything. *)
#[export] Instance world_os : Os world := world_os_with (λ _, true).

(** ** Register access over this bus *)

Section Access.
Context (grants : Z → bool) (cfg : config).
#[local] Instance granting_os : Os world := world_os_with grants.
(** There is memory for a message to a register. *)
Hypothesis messages_granted : ∀ n, n <= 256 → grants n = true.
Hypothesis bus_0 : i2c_bus cfg = 0.
Hypothesis addr_22 : btldr_addr cfg = I2C_BTLDR_ADDR.

Lemma reply_size_bound reg : reply_size reg <= 128.
Proof. unfold reply_size. split_ifs; lia. Qed.

Lemma host_write m0 m st f a b s w reg p :
  slave w = (PRun, s) → dev m0 m st f a b s → write_reg reg → bytes p → (length p <= 191)%nat →
  ioutil_reg_write (i2c_bus cfg) (btldr_addr cfg) reg p w = Some (0, set_slave (send reg p s) w).
Proof.
  intros Hs Hd (Hr8 & Hrv & Hrw) Hp Hl. rewrite bus_0, addr_22.
  assert (Hbus : fold_left main_step (bus_write reg (i2c_message p reg)) (PRun, s) = send reg p s).
  { apply bus_write_refines; [eapply at_rest_resting, Hd|done|done|]. rewrite length_i2c_message. lia. }
  unfold ioutil_reg_write, i2c_reg_write, i2c_rw. fold (i2c_message p reg).
  unfold mbind, host_bind, mret, host_ret, sys. cbn [os_malloc os_open_bus os_i2c_rdwr granting_os world_os_with].
  rewrite !messages_granted by (rewrite ?length_i2c_message; cbn [length]; lia). cbn [negb Z.eqb].
  cbn [length]. rewrite length_i2c_message.
  replace (Z.of_nat (S (S (length p))) =? 0) with false by (symmetry; apply Z.eqb_neq; lia).
  replace (0 <? Z.of_nat (S (S (length p)))) with true by (symmetry; apply Z.ltb_lt; lia).
  cbn [andb Z.ltb Z.compare negb]. unfold world_rdwr. rewrite Hs. cbn [fst].
  rewrite Z.eqb_refl, Hbus. by destruct (i2c_message p reg).
Qed.

Lemma host_verify l reg n : length l = n → host_message_verify (i2c_message l reg) reg (n + 1) = true.
Proof.
  intros <-. unfold host_message_verify, i2c_message.
  replace (length l + 1 - 1)%nat with (length l) by lia.
  rewrite take_app_length, list_lookup_total_middle by done. apply Z.eqb_refl.
Qed.

Lemma host_read m0 m st f a b s w reg n l ps old :
  slave w = (PRun, s) → dev m0 m st f a b s → read_reg reg → Z.of_nat n <= reply_size reg →
  recv reg n s = (i2c_message l reg, ps) → length l = n →
  ioutil_reg_read cfg (i2c_bus cfg) (btldr_addr cfg) reg old n w = Some ((0, l), set_slave ps w).
Proof.
  intros Hs Hd Hreg Hn Hrecv Hl. rewrite bus_0, addr_22.
  destruct (txn_refines m0 s (TRead reg (S n)) (d_rest _ _ _ _ _ _ _ Hd) (recv_txn_ok reg n Hreg Hn))
    as [Hbus Hout]. specialize (Hout reg (S n) eq_refl).
  cbn [txn_samples txn_step] in Hbus, Hout. fold (recv reg n s) in Hbus, Hout.
  rewrite Hrecv in Hbus, Hout. cbn [fst snd] in Hbus, Hout.
  unfold ioutil_reg_read, i2c_reg_read, i2c_rw, mbind, host_bind, mret, host_ret, sys.
  cbn [os_malloc os_open_bus os_i2c_rdwr granting_os world_os_with].
  rewrite messages_granted by (pose proof (reply_size_bound reg); lia). cbn [negb Z.eqb Z.of_nat length].
  replace (0 <? Z.of_nat n + 1) with true by (symmetry; apply Z.ltb_lt; lia).
  change (Z.of_nat 1 =? 0) with false. change (0 <? Z.of_nat 1) with true. cbn [andb].
  unfold world_rdwr. rewrite Hs. cbn [fst]. change (34 =? 34) with true. cbn [andb]. replace (Z.to_nat (Z.of_nat n + 1)) with (S n) by lia.
  rewrite Hbus, Hout. cbn [io_ret io_no_ack io_read done_read Z.ltb Z.compare].
  cbn [Z.eqb]. rewrite host_verify by done. cbn [orb].
  unfold i2c_message. rewrite take_app_length' by done. reflexivity.
Qed.

(** ** The interface, discharged *)

Definition world_holds (f : list Z) (m : mem) (st : Z) (w : world) : Prop :=
  fw_file w = f ∧ ∃ m0 s fs a b, slave w = (PRun, s) ∧ dev m0 m st fs a b s.

Lemma holds_slave f w m0 m st fs a b ps : fw_file w = f → ps.1 = PRun → dev m0 m st fs a b ps.2 →
  world_holds f m st (set_slave ps w).
Proof. intros Hf Hp Hd. split; [done|]. exists m0, ps.2, fs, a, b. destruct ps. cbn in *. by subst. Qed.

Lemma rd_status m0 m st fs a b s w : slave w = (PRun, s) → dev m0 m st fs a b s →
  rd_btldr_status cfg w = Some ((0, b), set_slave (recv I2C_BTLDR_REG_STATUS 1 s).2 w).
Proof.
  intros Hs Hd. unfold rd_btldr_status. pose proof (recv_status_answer m0 s m st fs a b Hd) as Hans.
  assert (Hr : ioutil_reg_read cfg (i2c_bus cfg) (btldr_addr cfg) 1 (replicate 1 0) 1 w
    = Some ((0, [b]), set_slave (recv I2C_BTLDR_REG_STATUS 1 s).2 w)).
  { eapply (host_read m0); [done|done|split; [unfold is_u8; lia|done]|done|by rewrite <- Hans, <- surjective_pairing|done]. }
  by hstep Hr.
Qed.

Lemma check_data_addr reg a : reg = I2C_BTLDR_REG_DATA_READ_ADDR ∨ reg = I2C_BTLDR_REG_DATA_WRITE_ADDR →
  check_flash_addr reg a = if bool_decide (data_addr_ok a) then 0 else I2C_BTLDR_STATE_INVALID_ADDR.
Proof.
  intros Hreg. unfold check_flash_addr, c_true, data_addr_ok. rewrite land_7f_mod.
  destruct (Z.eqb_spec (a mod 128) 0) as [Hm|Hm]; cbn [negb].
  - assert (Hk : (reg =? 133) || (reg =? 135) = false ∧ (reg =? 134) || (reg =? 137) = true)
      by (by destruct Hreg as [->| ->]).
    destruct Hk as [-> ->]. flash_geometry.
    destruct (Z.ltb_spec a 40960), (Z.leb_spec (40960 + 24576) a); try lia; cbn [orb];
      (rewrite bool_decide_eq_true_2 by lia) || (rewrite bool_decide_eq_false_2 by lia); done.
  - rewrite bool_decide_eq_false_2 by lia. done.
Qed.

Lemma write_addr m0 m st fs a b s w reg f addr : slave w = (PRun, s) → dev m0 m st fs a b s →
  addr_ready reg = Some f → is_u32 addr →
  ∃ s', wr_btldr_flash_addr cfg addr reg w = Some (0, set_slave (PRun, s') w)
    ∧ (if check_flash_addr reg addr =? 0 then dev m0 m st f addr 0 s'
       else dev m0 m st FLASH_STATE_IDLE a (check_flash_addr reg addr) s').
Proof.
  intros Hs Hd Hreg Ha. destruct (send_addr m0 reg addr s m st fs a b f Hd Hreg Ha) as [Hp Hres].
  destruct (cmd_data_in_addr reg f s Hreg) as (Hw & _).
  unfold wr_btldr_flash_addr.
  rewrite (host_write m0 m st fs a b s w reg (be32 addr) Hs Hd Hw (bytes_be32 addr)) by (rewrite length_be32; lia).
  destruct (send reg (be32 addr) s) as [ph s']. cbn [fst snd] in *. subst ph. eauto.
Qed.

Lemma world_sleep f m st d w s : world_holds f m st w → slave w = s →
  ∃ w', ioutil_sleep d w = Some (tt, w') ∧ slave w' = s ∧ fw_file w' = f.
Proof.
  intros [Hf _] <-. unfold ioutil_sleep. destruct (delay_parts d) as [sec usec].
  unfold mbind, host_bind, sys_, mret, host_ret.
  destruct (c_true sec), (c_true usec); (eexists; split; [reflexivity|done]).
Qed.

Lemma data_addr_u32 a : data_addr_ok a → is_u32 a.
Proof. intros [_ H]. flash_geometry. unfold is_u32. lia. Qed.

Lemma world_write_block f m st a l delay w : world_holds f m st w → data_addr_ok a → bytes l →
  length l = 128%nat →
  ∃ w', ioutil_write_flash cfg a l IOUTIL_DATA_FLASH delay w = Some (0, w')
    ∧ world_holds f (mwrites m a l) (area_status DataArea st) w'.
Proof.
  intros [Hf (m0 & s & fs & a0 & b0 & Hs & Hd)] Ha Hl Hlen. unfold ioutil_write_flash.
  destruct (write_addr m0 m st fs a0 b0 s w 0x89 FLASH_STATE_DATA_WRITE_ADDR_READY a Hs Hd eq_refl
    (data_addr_u32 a Ha)) as (s1 & H1 & Hd1).
  rewrite check_data_addr, bool_decide_eq_true_2 in Hd1 by auto. cbn [Z.eqb] in Hd1.
  hstep H1. cbn [Z.eqb]. set (w1 := set_slave (PRun, s1) w).
  pose proof (rd_status m0 m st _ a 0 s1 w1 eq_refl Hd1) as H2. hstep H2. cbn [Z.eqb].
  destruct (recv_status_quiet m0 s1 m st _ a 0 Hd1 eq_refl) as [Hp2 Hd2].
  destruct (recv I2C_BTLDR_REG_STATUS 1 s1).2 as [ph2 s2]. cbn [fst snd] in Hp2, Hd2. subst ph2.
  set (w2 := set_slave (PRun, s2) w1).
  pose proof (host_write m0 m st _ a _ s2 w2 (area_write_reg DataArea) l eq_refl Hd2
    (area_write_reg_ok DataArea) Hl ltac:(lia)) as H3.
  cbn [area_write_reg] in H3. hstep H3. cbn [Z.eqb].
  destruct (send_block m0 DataArea l s2 m st a Hd2 Hl Hlen) as [Hp3 Hd3]. cbn [area_write_reg] in Hp3, Hd3.
  destruct (send I2C_BTLDR_REG_DATA_WRITE l s2) as [ph3 s3]. cbn [fst snd] in Hp3, Hd3. subst ph3.
  set (w3 := set_slave (PRun, s3) w2).
  destruct (world_sleep f _ _ delay w3 (PRun, s3)
    (holds_slave f w2 m0 _ _ _ _ _ (PRun, s3) Hf eq_refl Hd3) eq_refl) as (w4 & H4 & Hs4 & Hf4).
  pose proof (rd_status m0 _ _ _ _ _ s3 w4 Hs4 Hd3) as H5.
  assert (H45 : (_ ← ioutil_sleep delay; rd_btldr_status cfg) w3
    = Some ((0, 0), set_slave (recv I2C_BTLDR_REG_STATUS 1 s3).2 w4)) by (hstep H4; exact H5).
  hstep H45. cbn [Z.eqb]. eexists. split; [reflexivity|].
  destruct (recv_status_quiet m0 s3 _ _ _ _ _ Hd3 eq_refl) as [Hp5 Hd5].
  by eapply holds_slave.
Qed.

Lemma world_write_refused f m st a l delay w : world_holds f m st w → is_u32 a → ¬ data_addr_ok a →
  ∃ w', ioutil_write_flash cfg a l IOUTIL_DATA_FLASH delay w = Some (1, w') ∧ world_holds f m st w'.
Proof.
  intros [Hf (m0 & s & fs & a0 & b0 & Hs & Hd)] Ha Hbad. unfold ioutil_write_flash.
  destruct (write_addr m0 m st fs a0 b0 s w 0x89 FLASH_STATE_DATA_WRITE_ADDR_READY a Hs Hd eq_refl Ha)
    as (s1 & H1 & Hd1).
  rewrite check_data_addr, bool_decide_eq_false_2 in Hd1 by auto. cbn [Z.eqb] in Hd1.
  hstep H1. cbn [Z.eqb]. set (w1 := set_slave (PRun, s1) w).
  pose proof (rd_status m0 m st _ _ _ s1 w1 eq_refl Hd1) as H2. hstep H2. cbn [Z.eqb].
  eexists. split; [reflexivity|].
  destruct (recv_status_quiet m0 s1 m st _ _ _ Hd1 eq_refl) as [Hp2 Hd2]. by eapply holds_slave.
Qed.

Lemma world_read_block f m st a old delay w : world_holds f m st w → data_addr_ok a →
  ∃ w', ioutil_read_flash cfg a old 128 IOUTIL_DATA_FLASH delay w = Some ((0, mreads m a 128), w')
    ∧ world_holds f m st w'.
Proof.
  intros [Hf (m0 & s & fs & a0 & b0 & Hs & Hd)] Ha. unfold ioutil_read_flash.
  destruct (write_addr m0 m st fs a0 b0 s w 0x86 FLASH_STATE_DATA_READ_ADDR_READY a Hs Hd eq_refl
    (data_addr_u32 a Ha)) as (s1 & H1 & Hd1).
  rewrite check_data_addr, bool_decide_eq_true_2 in Hd1 by auto. cbn [Z.eqb] in Hd1.
  hstep H1. cbn [Z.eqb]. set (w1 := set_slave (PRun, s1) w).
  pose proof (rd_status m0 m st _ a 0 s1 w1 eq_refl Hd1) as H2. hstep H2. cbn [Z.eqb].
  destruct (recv_status_read m0 DataArea s1 m st a Hd1) as (Hp2 & Hd2 & Hld).
  destruct (recv I2C_BTLDR_REG_STATUS 1 s1).2 as [ph2 s2]. cbn [fst snd] in Hp2, Hd2, Hld. subst ph2.
  set (w2 := set_slave (PRun, s2) w1).
  destruct (world_sleep f _ _ delay w2 (PRun, s2)
    (holds_slave f w1 m0 _ _ _ _ _ (PRun, s2) Hf eq_refl Hd2) eq_refl) as (w3 & H3 & Hs3 & Hf3).
  hstep H3. destruct (recv_block m0 DataArea s2 m st a Hd2 Hld) as (Hout & Hp4 & Hd4).
  cbn [area_read_reg] in *.
  exists (set_slave (recv I2C_BTLDR_REG_DATA_READ 128 s2).2 w3). split; [|by eapply holds_slave].
  eapply (host_read m0); [exact Hs3|exact Hd2|split; [unfold is_u8; lia|done]|done| |apply length_mreads].
  by rewrite <- Hout, <- surjective_pairing.
Qed.

Lemma world_flash_info f m st w : world_holds f m st w →
  ∃ w', rd_btldr_flash_info cfg w = Some ((0, flash_info), w') ∧ world_holds f m st w'.
Proof.
  intros [Hf (m0 & s & fs & a0 & b0 & Hs & Hd)]. unfold rd_btldr_flash_info.
  destruct (recv_flash_info m0 s m st fs a0 b0 Hd) as (Hout & Hp & Hd').
  exists (set_slave (recv I2C_BTLDR_REG_FLASH_INFO 28 s).2 w). split; [|by eapply holds_slave].
  assert (Hr : ioutil_reg_read cfg (i2c_bus cfg) (btldr_addr cfg) 3 (replicate 28 0) 28 w
    = Some ((0, BtldrFlashInfo_bytes flash_info), set_slave (recv I2C_BTLDR_REG_FLASH_INFO 28 s).2 w)).
  { eapply (host_read m0); [exact Hs|exact Hd|split; [unfold is_u8; lia|done]|done| |reflexivity].
    by rewrite <- Hout, <- surjective_pairing. }
  by hstep Hr.
Qed.

Lemma AppInfo_roundtrip p : is_u32 (ai_size p) → is_u16 (ai_crc16 p) → is_u16 (ai_app_ver p) →
  is_u16 (ai_app_info_set_time p) → is_u8 (ai_status p) → BtldrAppInfo_of (BtldrAppInfo_bytes p) = p.
Proof.
  intros H1 H2 H3 H4 H5. unfold BtldrAppInfo_of, BtldrAppInfo_bytes.
  destruct p as [sz crc ver tm st]; cbn [ai_size ai_crc16 ai_app_ver ai_app_info_set_time ai_status] in *. f_equal.
  - by rewrite get32_be32_app, u32_small.
  - etransitivity; [exact (get16_app_r (be32 _) _ 0)|]. by rewrite get16_be16_app, u16_small.
  - etransitivity; [exact (get16_app_r (be32 _ ++ be16 _) _ 0)|]. by rewrite get16_be16_app, u16_small.
  - etransitivity; [exact (get16_app_r (be32 _ ++ be16 _ ++ be16 _) _ 0)|]. by rewrite get16_be16_app, u16_small.
  - exact (u8_small _ H5).
Qed.

Lemma app_info_of_roundtrip m st : mem_bytes m → is_u8 st →
  BtldrAppInfo_of (BtldrAppInfo_bytes (app_info_of m st)) = app_info_of m st.
Proof.
  intros Hm Hst. pose proof (bytes_mreads m 0x1000 14 Hm) as Hb.
  unfold app_info_of, read_app_info. rewrite read_app_info_bytes.
  cbn [memory app_status set_app_status btldr_reset]. revert Hb. generalize (mreads m 0x1000 14). intros l Hb.
  destruct (_ && _); [|reflexivity].
  apply AppInfo_roundtrip; cbn [ai_size ai_crc16 ai_app_ver ai_app_info_set_time ai_status BtldrEEPROMData_of
    ed_app_size ed_app_crc16 ed_app_ver ed_autoboot].
  - by apply get32_range.
  - by apply get16_range.
  - by apply get16_range.
  - unfold is_u16. lia.
  - apply (lor_range 8); [lia|unfold is_u8 in Hst; lia|]. pose proof (bytes_lookup l 12 Hb) as H.
    unfold is_u8 in H. lia.
Qed.

Lemma world_app_info f m st old w : world_holds f m st w →
  ∃ w', rd_btldr_app_info cfg old w = Some ((0, app_info_of m st), w') ∧ world_holds f m st w'.
Proof.
  intros [Hf (m0 & s & fs & a0 & b0 & Hs & Hd)]. unfold rd_btldr_app_info.
  destruct (recv_app_info m0 s m st fs a0 b0 Hd) as (Hout & Hp & Hd').
  exists (set_slave (recv I2C_BTLDR_REG_APP_INFO 11 s).2 w). split; [|by eapply holds_slave].
  assert (Hr : ioutil_reg_read cfg (i2c_bus cfg) (btldr_addr cfg) 4 (BtldrAppInfo_bytes old) 11 w
    = Some ((0, BtldrAppInfo_bytes (app_info_of m st)), set_slave (recv I2C_BTLDR_REG_APP_INFO 11 s).2 w)).
  { eapply (host_read m0); [exact Hs|exact Hd|split; [unfold is_u8; lia|done]|done| |reflexivity].
    by rewrite <- Hout, <- surjective_pairing. }
  hstep Hr. rewrite app_info_of_roundtrip; [done|..].
  - rewrite <- (d_mem _ _ _ _ _ _ _ Hd). apply (c_mem _ _ (proj1 (proj1 (d_rest _ _ _ _ _ _ _ Hd)))).
  - rewrite <- (d_status _ _ _ _ _ _ _ Hd). apply (c_app _ _ (proj1 (proj1 (d_rest _ _ _ _ _ _ _ Hd)))).
Qed.

Lemma world_app_info_set f m st p w : world_holds f m st w → info_set_ok p →
  let m' := mwrites m 0x1000 (record_block p) in
  ∃ w' st', wr_btldr_app_info_set cfg p w = Some (0, w') ∧ world_holds f m' st' w'
    ∧ (Z.land st' 0x7f = 1 ↔ app_valid m')
    ∧ (Z.land st' 0x7f = 1 → Z.land st' 0x80 = Z.land (as_autoboot p) 0x80).
Proof.
  intros [Hf (m0 & s & fs & a0 & b0 & Hs & Hd)] Hp.
  destruct (send_app_info m0 p s m st fs a0 b0 Hd Hp) as [Hph (st' & Hd' & _ & Hrdy & Hab)].
  revert Hph Hd' Hrdy. generalize (mwrites m 0x1000 (record_block p)). intros m' Hph Hd' Hrdy. cbv zeta.
  unfold wr_btldr_app_info_set.
  rewrite (host_write m0 m st fs a0 b0 s w 0x84 (BtldrAppInfoSet_bytes p) Hs Hd);
    [|split_and!; done || (unfold is_u8; lia)|apply bytes_BtldrAppInfoSet|cbn; lia].
  exists (set_slave (send 132 (BtldrAppInfoSet_bytes p) s) w), st'. split; [done|].
  split; [by eapply holds_slave|done].
Qed.

Instance world_flash_host : FlashHost cfg.
Proof.
  refine {| holds := world_holds; saved := out_file; granted := grants |}.
  - intros f m st l w Hw. unfold write_file, mbind, host_bind, sys, mret, host_ret. cbn.
    rewrite Z.eqb_refl. eexists. split; [reflexivity|]. done.
  - intros f m st n w Hw. exists w. done.
  - intros f m st w Hw. exists w. destruct Hw as [<- Hw]. done.
  - intros f m st w Hw. exists w. destruct Hw as [<- Hw]. cbn. by rewrite Nat2Z.id, take_ge.
  - intros f m st n w Hw. done.
  - apply world_flash_info.
  - apply world_app_info.
  - apply world_app_info_set.
  - apply world_write_block.
  - apply world_write_refused.
  - apply world_read_block.
Defined.
End Access.

(** ** End to end *)

(** A world whose bootloader sits in its command loop. *)
Definition flashing (m0 : mem) (s : btldr) (w : world) : Prop :=
  slave w = (PRun, s) ∧ at_rest m0 s.

Lemma flashing_holds m0 s w : flashing m0 s w → world_holds (fw_file w) (memory s) (app_status s) w.
Proof. intros [Hs Hr]. split; [done|]. exists m0, s, (flash_state s), (flash_addr s), (btldr_state s). by split. Qed.

Definition standard_setup (cfg : config) : Prop :=
  i2c_bus cfg = 0 ∧ btldr_addr cfg = I2C_BTLDR_ADDR ∧ btldr_start_key cfg = IOMCU_COMMON_KEY.

(** C1.  Uploading a firmware file that starts with the reset vector's opcode
    and fits the flash succeeds against the real bootloader, byte for byte on
    the bus: ioutil returns 0, the flash holds the file padded with zeros, the
    record is valid, and the following start command makes the bootloader
    jump to exactly that image. *)
Theorem write_fw_then_boots cfg m0 s w rest :
  standard_setup cfg → is_u16 (write_fw_app_ver cfg) → flashing m0 s w →
  bytes (fw_file w) → Z.of_nat (length (fw_file w)) <= BTLDR_STM8L15X_DATA_SIZE →
  fw_file w = BTLDR_STM8L15X_INT_OPCODE :: rest →
  ∃ w1 w2, ioutil_write_fw cfg w = Some (0, w1) ∧ ioutil_start cfg w1 = Some (0, w2)
    ∧ (slave w1).1 = PRun ∧ (slave w2).1 = PApp
    ∧ app_valid (memory (slave w2).2)
    ∧ mreads (memory (slave w2).2) BTLDR_STM8L15X_DATA_BASE (128 * fw_blocks (fw_file w)) = fw_image (fw_file w)
    ∧ ed_app_ver (app_record (memory (slave w2).2)) = write_fw_app_ver cfg.
Proof.
  intros (Hbus & Haddr & Hkey) Hver Hfl Hbytes Hlen Hhd. flash_geometry.
  destruct (write_fw_ok cfg (FH := world_flash_host (λ _, true) cfg (λ _ _, eq_refl) Hbus Haddr) (fw_file w) (memory s) (app_status s) w rest)
    as (w1 & st1 & H1 & Hw1 & Hrdy & _); [done|by eapply flashing_holds|done|done|done|done|].
  pose proof (fw_memory_valid cfg (memory s) (fw_file w) (ai_status (app_info_of (memory s) (app_status s)))
    rest Hbytes Hlen Hver Hhd) as Hvalid.
  pose proof (fw_memory_image cfg (memory s) (fw_file w) (ai_status (app_info_of (memory s) (app_status s)))) as Himg.
  pose proof (fw_memory_version cfg (memory s) (fw_file w) (ai_status (app_info_of (memory s) (app_status s)))
    Hbytes Hlen Hver) as Hv.
  revert Hw1 Hvalid Himg Hv. generalize (fw_memory cfg (memory s) (fw_file w) (ai_status (app_info_of (memory s) (app_status s)))).
  intros m' Hw1 Hvalid Himg Hv. destruct Hw1 as [_ (m1 & s1 & fs & a & b & Hs1 & Hd1)].
  exists w1, (set_slave (send I2C_BTLDR_REG_START IOMCU_COMMON_KEY s1) w1).
  destruct (send_start m1 s1 m' st1 fs a b Hd1) as [Hmem Happ]. rewrite Hrdy in Happ. cbn [Z.eqb Pos.eqb] in Happ.
  split_and!; [done| |by rewrite Hs1|exact Happ|..].
  - unfold ioutil_start. rewrite Hkey. apply (host_write (λ _, true) cfg (λ _ _, eq_refl) Hbus Haddr m1 m' st1 fs a b); try done.
    + apply bytes_check. reflexivity.
    + cbn. lia.
  - cbn [slave set_slave]. by rewrite Hmem.
  - cbn [slave set_slave]. by rewrite Hmem.
  - cbn [slave set_slave]. by rewrite Hmem.
Qed.

(** The demonstration setup: a bootloader waiting for commands, a file of two
    blocks and a half. *)
Definition demo_fw : list Z := 0x82 :: replicate 299 0x5a.
Definition demo_world : world :=
  {| slave := (PRun, demo_state); fw_file := demo_fw; out_file := []; slept := 0 |}.

Lemma demo_flashing : flashing (demo_mem 0) demo_state demo_world.
Proof. split; [reflexivity|exact demo_state_rest]. Qed.

Lemma write_fw_then_boots_witness :
  ∃ w1 w2, ioutil_write_fw default_config demo_world = Some (0, w1)
    ∧ ioutil_start default_config w1 = Some (0, w2) ∧ (slave w2).1 = PApp
    ∧ mreads (memory (slave w2).2) 0xa000 384 = demo_fw ++ replicate 84 0.
Proof.
  destruct (write_fw_then_boots default_config (demo_mem 0) demo_state demo_world (replicate 299 0x5a))
    as (w1 & w2 & H1 & H2 & _ & H3 & _ & H4 & _);
    [repeat split|unfold is_u16; cbn; lia|exact demo_flashing|apply bytes_check; reflexivity|
     vm_compute; discriminate|reflexivity|].
  exists w1, w2. split; [exact H1|]. split; [exact H2|]. split; [exact H3|].
  exact H4.
Defined.

(** C32.  Reading back the data area returns, byte for byte, what the flash
    holds, and changes nothing in the bootloader's memory. *)
Theorem read_data_exact cfg m0 s w :
  standard_setup cfg → flashing m0 s w →
  ∃ w1, ioutil_read_data cfg w = Some (0, w1)
    ∧ out_file w1 = mreads (memory s) BTLDR_STM8L15X_DATA_BASE (Z.to_nat BTLDR_STM8L15X_DATA_SIZE)
    ∧ (slave w1).1 = PRun ∧ memory (slave w1).2 = memory s.
Proof.
  intros (Hbus & Haddr & _) Hfl.
  destruct (read_data_ok cfg (FH := world_flash_host (λ _, true) cfg (λ _ _, eq_refl) Hbus Haddr) (fw_file w) (memory s) (app_status s) w)
    as (w1 & H1 & [_ (m1 & s1 & fs & a & b & Hs1 & Hd1)] & Hsaved); [done|by eapply flashing_holds|].
  exists w1. split; [done|]. split; [exact Hsaved|]. rewrite Hs1. split; [done|]. apply Hd1.
Qed.

Lemma read_data_exact_witness :
  ∃ w1, ioutil_read_data default_config demo_world = Some (0, w1)
    ∧ out_file w1 = mreads (memory demo_state) 0xa000 (Z.to_nat 0x6000).
Proof.
  destruct (read_data_exact default_config (demo_mem 0) demo_state demo_world)
    as (w1 & H1 & H2 & _); [repeat split|exact demo_flashing|].
  exists w1. split; [exact H1|exact H2].
Defined.

(** C33.  The erase-eeprom command never erases anything: it writes through
    the data-flash registers, the bootloader refuses the first EEPROM address
    as out of range and the memory stays as it is.  With memory for the
    messages to the registers, whatever else malloc grants, the command fails
    with 1, unless there is none for the buffer of zeros: then it reports
    success without having asked the bootloader. *)
Theorem erase_eeprom_refused grants cfg m0 s w :
  standard_setup cfg → flashing m0 s w → (∀ n, n <= 256 → grants n = true) →
  ∃ w1, ioutil_erase_eeprom (H := world_os_with grants) cfg w
      = Some (if grants BTLDR_STM8L15X_EEPROM_SIZE then 1 else 0, w1)
    ∧ (slave w1).1 = PRun ∧ memory (slave w1).2 = memory s.
Proof.
  intros (Hbus & Haddr & _) Hfl Hg.
  destruct (erase_eeprom_fails cfg (FH := world_flash_host grants cfg Hg Hbus Haddr) (fw_file w) (memory s) (app_status s) w)
    as (w1 & H1 & [_ (m1 & s1 & fs & a & b & Hs1 & Hd1)]); [by eapply flashing_holds|].
  exists w1. split; [done|]. rewrite Hs1. split; [done|]. apply Hd1.
Qed.

Lemma erase_eeprom_refused_witness :
  (∃ w1, ioutil_erase_eeprom default_config demo_world = Some (1, w1)
    ∧ memory (slave w1).2 = memory demo_state) ∧
  (∃ w1, ioutil_erase_eeprom (H := world_os_with (λ n, n <=? 512)) default_config demo_world = Some (0, w1)
    ∧ memory (slave w1).2 = memory demo_state).
Proof.
  split.
  - destruct (erase_eeprom_refused (λ _, true) default_config (demo_mem 0) demo_state demo_world)
      as (w1 & H1 & _ & H2); [repeat split|exact demo_flashing|reflexivity|].
    exists w1. split; [exact H1|exact H2].
  - destruct (erase_eeprom_refused (λ n, n <=? 512) default_config (demo_mem 0) demo_state demo_world)
      as (w1 & H1 & _ & H2); [repeat split|exact demo_flashing|intros n Hn; apply Z.leb_le; lia|].
    exists w1. split; [exact H1|exact H2].
Defined.

(** Erasing the data area fills it with zeros and leaves the bootloader
    refusing to start: afterwards the start command answers with the
    bootloader still in its command loop. *)
Theorem erase_data_disables_app cfg m0 s w :
  standard_setup cfg → flashing m0 s w →
  ∃ w1, ioutil_erase_data cfg w = Some (0, w1) ∧ (slave w1).1 = PRun
    ∧ mreads (memory (slave w1).2) BTLDR_STM8L15X_DATA_BASE (128 * 192) = replicate (128 * 192) 0
    ∧ ∃ w2, ioutil_start cfg w1 = Some (0, w2) ∧ (slave w2).1 = PRun.
Proof.
  intros (Hbus & Haddr & Hkey) Hfl.
  destruct (erase_data_ok cfg (FH := world_flash_host (λ _, true) cfg (λ _ _, eq_refl) Hbus Haddr) (fw_file w) (memory s) (app_status s) w)
    as (w1 & st1 & H1 & [_ (m1 & s1 & fs & a & b & Hs1 & Hd1)]); [done|by eapply flashing_holds|].
  assert (Hlen : length (replicate (128 * 192) 0) = (128 * 192)%nat) by (apply length_replicate).
  assert (Hhd : ∃ l, replicate (128 * 192) 0 = 0 :: l) by (by eexists).
  revert Hd1 Hlen Hhd. generalize (replicate (128 * 192) 0). intros l Hd1 Hlen [l' Hhd].
  pose proof (d_mem _ _ _ _ _ _ _ Hd1) as Hm1.
  exists w1. split; [done|]. rewrite Hs1. split; [done|]. cbn [snd]. rewrite Hm1. flash_geometry.
  split; [rewrite <- Hlen; apply mreads_mwrites|].
  assert (Hnot : Z.land st1 0x7f ≠ 1).
  { intros Hrdy. assert (Hv : app_valid (memory s1)).
    { apply (c_valid _ _ (proj1 (proj1 (d_rest _ _ _ _ _ _ _ Hd1)))). unfold ready.
      by rewrite (d_status _ _ _ _ _ _ _ Hd1). }
    destruct Hv as (_ & _ & Hrv & _). flash_geometry. rewrite Hm1, Hhd in Hrv. cbn [mwrites] in Hrv.
    rewrite mread_mwrites_out in Hrv by lia. rewrite mread_mwrite_eq in Hrv. done. }
  destruct (send_start m1 s1 _ st1 fs a b Hd1) as [_ Hst].
  destruct (Z.eqb_spec (Z.land st1 0x7f) 1) as [|_]; [done|]. destruct Hst as [Hph _].
  exists (set_slave (send I2C_BTLDR_REG_START IOMCU_COMMON_KEY s1) w1). split; [|done].
  unfold ioutil_start. rewrite Hkey. eapply (host_write (λ _, true) cfg (λ _ _, eq_refl) Hbus Haddr); [exact Hs1|exact Hd1|done|..].
  - apply bytes_check. reflexivity.
  - cbn. lia.
Qed.

Lemma erase_data_disables_app_witness :
  ∃ w1 w2, ioutil_erase_data default_config demo_world = Some (0, w1)
    ∧ ioutil_start default_config w1 = Some (0, w2) ∧ (slave w2).1 = PRun.
Proof.
  destruct (erase_data_disables_app default_config (demo_mem 0) demo_state demo_world)
    as (w1 & H1 & _ & _ & w2 & H2 & H3); [repeat split|exact demo_flashing|].
  exists w1, w2. split; [exact H1|]. split; [exact H2|exact H3].
Defined.
