(* ===== verification/Endian.v ===== *)
(** Integers as the bytes they occupy in memory: the audio code copies C
    integers in and out of byte buffers in the processor's own byte order. *)

From S2P Require Import Prelude.

Fixpoint le_bytes (n : nat) (v : Z) : list Z :=
  match n with
  | O => []
  | S n' => v mod 256 :: le_bytes n' (v / 256)
  end.

Fixpoint le_val (l : list Z) : Z :=
  match l with
  | [] => 0
  | x :: l' => x + 256 * le_val l'
  end.

(** The [n] bytes of an integer on a big- or little-endian processor. *)
Definition native (big : bool) (n : nat) (v : Z) : list Z :=
  if big then rev (le_bytes n v) else le_bytes n v.
Definition native_val (big : bool) (l : list Z) : Z :=
  le_val (if big then rev l else l).

Lemma length_le_bytes n v : length (le_bytes n v) = n.
Proof. revert v. induction n; intros; simpl; auto. Qed.

Lemma length_native big n v : length (native big n v) = n.
Proof. unfold native. destruct big; rewrite ?length_rev; apply length_le_bytes. Qed.

Lemma le_val_bytes n v : le_val (le_bytes n v) = v mod 256 ^ Z.of_nat n.
Proof.
  revert v. induction n as [|n IH]; intros v; cbn [le_bytes le_val]; [by rewrite Z.mod_1_r|].
  rewrite IH. replace (256 ^ Z.of_nat (S n)) with (256 * 256 ^ Z.of_nat n)
    by (rewrite Nat2Z.inj_succ, Z.pow_succ_r; lia).
  rewrite Z.rem_mul_r by lia. done.
Qed.

Lemma native_val_native big n v : 0 <= v < 256 ^ Z.of_nat n → native_val big (native big n v) = v.
Proof.
  intros Hv. unfold native_val, native. destruct big; rewrite ?rev_involutive, le_val_bytes; by apply Z.mod_small.
Qed.

Lemma bytes_le_bytes n v : bytes (le_bytes n v).
Proof. revert v. induction n; intros; constructor; [apply u8_range|apply IHn]. Qed.

Lemma bytes_native big n v : bytes (native big n v).
Proof. unfold native. destruct big; [apply Forall_rev|]; apply bytes_le_bytes. Qed.

#[export] Hint Resolve bytes_native : beep.

(** An array of 32-bit integers. *)
Definition words (big : bool) (l : list Z) : list Z := l ≫= native big 4.

Fixpoint words_val (big : bool) (n : nat) (l : list Z) : list Z :=
  match n with
  | O => []
  | S n' => native_val big (take 4 l) :: words_val big n' (drop 4 l)
  end.

Lemma length_words big l : length (words big l) = (4 * length l)%nat.
Proof.
  induction l as [|x l IH]; [done|].
  cbn [words mbind list_bind length]. unfold words in IH. rewrite length_app, length_native, IH. lia.
Qed.

Lemma words_val_words big l k : Forall is_u32 l → words_val big (length l) (words big l ++ k) = l.
Proof.
  induction 1 as [|x l Hx Hl IH]; [done|].
  cbn [words mbind list_bind length words_val]. unfold words in IH. rewrite <- app_assoc.
  rewrite take_app_length', drop_app_length' by (by rewrite length_native).
  rewrite IH, native_val_native; [done|]. unfold is_u32 in Hx. cbn. lia.
Qed.
