(* ===== verification/Ring.v ===== *)
(** Circular buffers: reading and writing runs of bytes that wrap around the
    end of an array, and the abstract queue of stale and fresh bytes that the
    fifo implementations refine. *)

From S2P Require Import Prelude.

(** ** Runs of bytes in a circular array *)

Section Ring.
Context (sz : Z).
Hypothesis sz_pos : 0 < sz.

(** The [n] bytes from position [i], wrapping. *)
Fixpoint slice (b : list Z) (i : Z) (n : nat) : list Z :=
  match n with
  | O => []
  | S n' => b !!! Z.to_nat (i mod sz) :: slice b (i + 1) n'
  end.

(** Stores [l] from position [i], wrapping. *)
Fixpoint put (b : list Z) (i : Z) (l : list Z) : list Z :=
  match l with
  | [] => b
  | x :: l' => put (<[Z.to_nat (i mod sz) := x]> b) (i + 1) l'
  end.

Lemma length_slice b i n : length (slice b i n) = n.
Proof. revert i. induction n; intros; simpl; auto. Qed.

Lemma length_put b i l : length (put b i l) = length b.
Proof. revert b i. induction l; intros; simpl; [done|]. by rewrite IHl, length_insert. Qed.

Lemma slice_app b i n m : slice b i (n + m) = slice b i n ++ slice b (i + Z.of_nat n) m.
Proof.
  revert i. induction n as [|n IH]; intros i; cbn [slice Nat.add app].
  - by rewrite Z.add_0_r.
  - rewrite IH. do 3 f_equal. lia.
Qed.

Lemma put_app b i l1 l2 : put b i (l1 ++ l2) = put (put b i l1) (i + Z.of_nat (length l1)) l2.
Proof.
  revert b i. induction l1 as [|x l1 IH]; intros b i; cbn [put app length].
  - by rewrite Z.add_0_r.
  - rewrite IH. f_equal. lia.
Qed.

Lemma slice_wrap b i n : slice b (i - sz) n = slice b i n.
Proof.
  revert i. induction n as [|n IH]; intros i; cbn [slice]; [done|].
  replace (i - sz + 1) with (i + 1 - sz) by lia. rewrite IH.
  replace (i - sz) with (i + -1 * sz) by lia. by rewrite Z.mod_add by lia.
Qed.

Lemma put_wrap b i l : put b (i - sz) l = put b i l.
Proof.
  revert b i. induction l as [|x l IH]; intros b i; cbn [put]; [done|].
  replace (i - sz + 1) with (i + 1 - sz) by lia. rewrite IH.
  replace (i - sz) with (i + -1 * sz) by lia. by rewrite Z.mod_add by lia.
Qed.

Lemma put_mod b i l : put b (i mod sz) l = put b i l.
Proof.
  revert b i. induction l as [|x l IH]; intros b i; cbn [put]; [done|].
  rewrite Z.mod_mod by lia. rewrite <- IH, Zplus_mod_idemp_l. apply IH.
Qed.

Lemma slice_mod b i n : slice b (i mod sz) n = slice b i n.
Proof.
  revert i. induction n as [|n IH]; intros i; cbn [slice]; [done|].
  rewrite Z.mod_mod by lia. rewrite <- IH, Zplus_mod_idemp_l, IH. done.
Qed.

(** A run that stays before the end is a plain copy. *)
Lemma slice_contig b i n : 0 <= i → i + Z.of_nat n <= sz → Z.of_nat (length b) = sz →
  slice b i n = take n (drop (Z.to_nat i) b).
Proof.
  revert i. induction n as [|n IH]; intros i H0 Hn Hb; cbn [slice]; [done|].
  rewrite Z.mod_small by lia. destruct (lookup_lt_is_Some_2 b (Z.to_nat i)) as [x Hx]; [lia|].
  rewrite (drop_S _ _ _ Hx), (list_lookup_total_correct _ _ _ Hx). cbn [take]. f_equal.
  rewrite IH by lia. do 2 f_equal. lia.
Qed.

Lemma put_contig b i l : 0 <= i → i + Z.of_nat (length l) <= sz →
  put b i l = list_inserts (Z.to_nat i) l b.
Proof.
  revert b i. induction l as [|x l IH]; intros b i H0 Hn; cbn [put list_inserts length] in *; [done|].
  rewrite Z.mod_small by lia. rewrite IH by lia.
  replace (Z.to_nat (i + 1)) with (S (Z.to_nat i)) by lia. by rewrite list_insert_inserts_lt by lia.
Qed.

(** Positions that differ by less than the size are different cells. *)
Lemma cell_ne i j : i < j < i + sz → Z.to_nat (i mod sz) ≠ Z.to_nat (j mod sz).
Proof.
  intros H Heq. pose proof (Z.mod_pos_bound i sz sz_pos). pose proof (Z.mod_pos_bound j sz sz_pos).
  assert (Hm : (j - i) mod sz = 0) by (rewrite Zminus_mod; replace (j mod sz) with (i mod sz) by lia;
    rewrite Z.sub_diag; by apply Z.mod_0_l; lia).
  rewrite Z.mod_small in Hm by lia. lia.
Qed.

Lemma slice_insert_out b i n j x : j < i → i + Z.of_nat n <= j + sz →
  slice (<[Z.to_nat (j mod sz) := x]> b) i n = slice b i n.
Proof.
  revert i. induction n as [|n IH]; intros i Hj Hn; cbn [slice]; [done|].
  rewrite IH by lia. f_equal. apply list_lookup_total_insert_ne. apply cell_ne. lia.
Qed.

(** Writing does not disturb a run that ends before it and starts less than
    a turn behind its end. *)
Lemma slice_put_out b i n j l : i + Z.of_nat n <= j → j + Z.of_nat (length l) <= i + sz →
  slice (put b j l) i n = slice b i n.
Proof.
  revert b j. induction l as [|x l IH]; intros b j Hj Hl; cbn [put length] in *; [done|].
  rewrite IH by lia.
  replace (j mod sz) with ((j - sz) mod sz)
    by (replace (j - sz) with (j + -1 * sz) by lia; by rewrite Z.mod_add by lia).
  apply slice_insert_out; lia.
Qed.

Lemma slice_put_same b i l : Z.of_nat (length l) <= sz → Z.of_nat (length b) = sz →
  slice (put b i l) i (length l) = l.
Proof.
  revert b i. induction l as [|x l IH]; intros b i Hl Hb; cbn [put slice length] in *; [done|].
  f_equal; [|apply IH; [lia|by rewrite length_insert]].
  assert (H1 : slice (put (<[Z.to_nat (i mod sz) := x]> b) (i + 1) l) i 1
    = slice (<[Z.to_nat (i mod sz) := x]> b) i 1) by (apply slice_put_out; lia).
  cbn [slice] in H1. injection H1 as ->. apply list_lookup_total_insert_eq.
  pose proof (Z.mod_pos_bound i sz sz_pos). lia.
Qed.

Lemma slice_take b i n k : (k <= n)%nat → take k (slice b i n) = slice b i k.
Proof.
  intros Hk. replace n with (k + (n - k))%nat by lia. rewrite slice_app.
  apply take_app_length'. by rewrite length_slice.
Qed.

Lemma slice_drop b i n k : (k <= n)%nat → drop k (slice b i n) = slice b (i + Z.of_nat k) (n - k).
Proof.
  intros Hk. replace n with (k + (n - k))%nat at 1 by lia. rewrite slice_app.
  apply drop_app_length'. by rewrite length_slice.
Qed.

(** ** The abstract queue *)

(** Bytes already dequeued but kept, then bytes not yet dequeued. *)
Record queue := mk_queue { q_stale : list Z; q_fresh : list Z }.

Definition q_used (stale : bool) (q : queue) : Z :=
  Z.of_nat (length (q_fresh q)) + (if stale then Z.of_nat (length (q_stale q)) else 0).

(** One cell stays unused to tell a full array from an empty one. *)
Definition q_room (q : queue) : Z := sz - 1 - q_used true q.

Definition q_enq (buf : list Z) (q : queue) : Z * queue :=
  if q_room q <? Z.of_nat (length buf) then (0, q)
  else (Z.of_nat (length buf), mk_queue (q_stale q) (q_fresh q ++ buf)).

Definition q_deq (n : Z) (discard : bool) (q : queue) : Z * list Z * queue :=
  if q_used false q <? n then (0, [], q)
  else let out := take (Z.to_nat n) (q_fresh q) in
       (n, out, mk_queue (if discard then [] else q_stale q ++ out) (drop (Z.to_nat n) (q_fresh q))).

Definition q_bytes (stale : bool) (q : queue) : list Z :=
  if stale then q_stale q ++ q_fresh q else q_fresh q.

Definition q_read (offset n : Z) (stale : bool) (q : queue) : Z * list Z :=
  if q_used stale q <? n + offset then (0, [])
  else (n, take (Z.to_nat n) (drop (Z.to_nat offset) (q_bytes stale q))).

Definition q_discard (n : Z) (q : queue) : Z * queue :=
  let diff := Z.of_nat (length (q_stale q)) in
  if diff <=? n then (diff, mk_queue [] (q_fresh q))
  else (n, mk_queue (drop (Z.to_nat n) (q_stale q)) (q_fresh q)).

(** ** An array and three positions hold a queue *)

Record ring_rep (b : list Z) (s r w : Z) (q : queue) : Prop := {
  rr_len : Z.of_nat (length b) = sz;
  rr_s : 0 <= s < sz;
  rr_r : 0 <= r < sz;
  rr_w : 0 <= w < sz;
  rr_room : 0 <= q_room q;
  rr_rs : let k := s + Z.of_nat (length (q_stale q)) in r = k ∨ r = k - sz;
  rr_ws : let k := s + Z.of_nat (length (q_stale q)) + Z.of_nat (length (q_fresh q)) in w = k ∨ w = k - sz;
  rr_stale : q_stale q = slice b s (length (q_stale q));
  rr_fresh : q_fresh q = slice b (s + Z.of_nat (length (q_stale q))) (length (q_fresh q))
}.

Lemma rep_init b : Z.of_nat (length b) = sz → ring_rep b 0 0 0 (mk_queue [] []).
Proof. intros Hb. constructor; cbn; auto; try lia. unfold q_room, q_used. cbn. lia. Qed.

(** Bytes of a position, seen from the position of its own. *)
Lemma rep_fresh_r b s r w q : ring_rep b s r w q → q_fresh q = slice b r (length (q_fresh q)).
Proof. intros []. destruct rr_rs0 as [->| ->]; [done|]. by rewrite slice_wrap. Qed.

Lemma rep_bytes_s b s r w q : ring_rep b s r w q →
  q_bytes true q = slice b s (length (q_stale q) + length (q_fresh q)).
Proof. intros []. cbn. by rewrite slice_app, <- rr_stale0, <- rr_fresh0. Qed.

Lemma rep_used b s r w q stale : ring_rep b s r w q →
  let p := if stale : bool then s else r in
  q_used stale q = if p <=? w then w - p else w - p + sz.
Proof.
  intros []. unfold q_room, q_used in *. destruct stale; cbn in *;
    [destruct (Z.leb_spec s w)|destruct (Z.leb_spec r w)]; lia.
Qed.

Lemma rep_free b s r w q : ring_rep b s r w q →
  q_room q = if w <? s then s - w - 1 else s - w + sz - 1.
Proof. intros []. unfold q_room, q_used in *. cbn in *. destruct (Z.ltb_spec w s); lia. Qed.

Lemma rep_enq b s r w q l : ring_rep b s r w q → Z.of_nat (length l) <= q_room q →
  let k := w + Z.of_nat (length l) in
  ring_rep (put b w l) s r (if k <? sz then k else k - sz) (mk_queue (q_stale q) (q_fresh q ++ l)).
Proof.
  intros [] Hl k. unfold q_room, q_used in *. cbn in *.
  assert (Hput : put b w l = put b (s + Z.of_nat (length (q_stale q)) + Z.of_nat (length (q_fresh q))) l)
    by (destruct rr_ws0 as [->| ->]; [done|by rewrite put_wrap]).
  constructor; cbn; rewrite ?length_put, ?length_app; try done; try lia.
  - destruct (Z.ltb_spec k sz); lia.
  - unfold q_room, q_used. cbn. rewrite length_app. lia.
  - destruct (Z.ltb_spec k sz); lia.
  - rewrite Hput, slice_put_out by lia. done.
  - rewrite slice_app, Hput. f_equal.
    + rewrite slice_put_out by lia. done.
    + symmetry. apply slice_put_same; lia.
Qed.

Lemma rep_deq b s r w q n : ring_rep b s r w q → 0 <= n <= Z.of_nat (length (q_fresh q)) →
  let k := r + n in
  ring_rep b s (if k <? sz then k else k - sz) w
    (mk_queue (q_stale q ++ take (Z.to_nat n) (q_fresh q)) (drop (Z.to_nat n) (q_fresh q))).
Proof.
  intros [] Hn k. unfold q_room, q_used in *. cbn in *.
  assert (Ht : length (take (Z.to_nat n) (q_fresh q)) = Z.to_nat n) by (rewrite length_take; lia).
  constructor; cbn; rewrite ?length_app, ?Ht, ?length_drop; try done; try lia.
  - destruct (Z.ltb_spec k sz); lia.
  - unfold q_room, q_used. cbn. rewrite length_app, Ht, length_drop. lia.
  - destruct (Z.ltb_spec k sz); lia.
  - rewrite slice_app, <- rr_stale0. f_equal. rewrite rr_fresh0 at 1. apply slice_take. lia.
  - rewrite rr_fresh0 at 1. rewrite slice_drop by lia. f_equal. lia.
Qed.

(** Dropping stale bytes moves the stale position. *)
Lemma rep_discard b s r w q n : ring_rep b s r w q → 0 <= n <= Z.of_nat (length (q_stale q)) →
  let k := s + n in
  ring_rep b (if k <? sz then k else k - sz) r w (mk_queue (drop (Z.to_nat n) (q_stale q)) (q_fresh q)).
Proof.
  intros [] Hn k. unfold q_room, q_used in *. cbn in *.
  assert (Hk : ∀ j m, slice b ((if k <? sz then k else k - sz) + j) m = slice b (k + j) m).
  { intros j m. destruct (k <? sz); [done|]. replace (k - sz + j) with (k + j - sz) by lia. apply slice_wrap. }
  constructor; cbn; rewrite ?length_drop; try done; try lia.
  - destruct (Z.ltb_spec k sz); lia.
  - unfold q_room, q_used. cbn. rewrite length_drop. lia.
  - destruct (Z.ltb_spec k sz); lia.
  - destruct (Z.ltb_spec k sz); lia.
  - specialize (Hk 0). rewrite !Z.add_0_r in Hk. rewrite Hk.
    transitivity (drop (Z.to_nat n) (slice b s (length (q_stale q)))); [by rewrite <- rr_stale0|].
    rewrite slice_drop by lia. f_equal. lia.
  - rewrite Hk. transitivity (slice b (s + Z.of_nat (length (q_stale q))) (length (q_fresh q))); [done|].
    f_equal. lia.
Qed.

(** Forgetting the stale bytes moves the stale position to the fresh one. *)
Lemma rep_forget b s r w q : ring_rep b s r w q → ring_rep b r r w (mk_queue [] (q_fresh q)).
Proof.
  intros H. pose proof (rep_fresh_r _ _ _ _ _ H) as Hf. destruct H.
  unfold q_room, q_used in *. cbn in *. constructor; cbn; try done; try lia.
  - unfold q_room, q_used. cbn. lia.
  - by rewrite Z.add_0_r.
Qed.
End Ring.

Arguments q_room sz q /.
