(* ===== verification/Fifo2.v ===== *)
(** lib/audio/fifo2.c: the byte queue between the stream threads and the
    decoder, with fresh and stale data.  [size_t] is 32 bits wide on the
    target; a failed [assert] ends the process ([None]).  What the pthread
    functions return, and what other threads do while a thread waits, are
    arguments. *)

From S2P Require Import Prelude Ring.

Record fifo2 := mk_fifo2 {
  lock : bool;
  base : list Z;
  size : Z;
  wptr : Z;
  rptr : Z;
  sptr : Z
}.

Definition set_lock v f := mk_fifo2 v (base f) (size f) (wptr f) (rptr f) (sptr f).
Definition set_base v f := mk_fifo2 (lock f) v (size f) (wptr f) (rptr f) (sptr f).
Definition set_wptr v f := mk_fifo2 (lock f) (base f) (size f) v (rptr f) (sptr f).
Definition set_rptr v f := mk_fifo2 (lock f) (base f) (size f) (wptr f) v (sptr f).
Definition set_sptr v f := mk_fifo2 (lock f) (base f) (size f) (wptr f) (rptr f) v.

(** [ASSERT_FIFO_LOCKED] before the rest of a function. *)
Definition locked {A} (f : fifo2) (k : option A) : option A := if lock f then k else None.

(** The pthread initialisations return their errors [errs] in order; [lock]
    keeps whatever the memory held. *)
Fixpoint first_error (errs : list Z) : option Z :=
  match errs with
  | [] => None
  | e :: errs' => if e <? 0 then Some e else first_error errs'
  end.

Definition fifo2_init (errs : list Z) (f : fifo2) (b : list Z) (sz : Z) : Z * fifo2 :=
  match first_error errs with
  | Some e => (e, f)
  | None => (0, mk_fifo2 (lock f) b sz 0 0 0)
  end.

Definition fifo2_free (f : fifo2) : fifo2 := mk_fifo2 (lock f) [] 0 0 0 0.

Definition fifo2_empty (f : fifo2) : option bool := locked f (Some (rptr f =? wptr f)).

Definition fifo2_bytes_used (f : fifo2) (stale : bool) : option Z :=
  locked f (Some (
    if stale then
      (if sptr f <=? wptr f then u32 (wptr f - sptr f) else u32 (u32 (wptr f - sptr f) + size f))
    else
      (if rptr f <=? wptr f then u32 (wptr f - rptr f) else u32 (u32 (wptr f - rptr f) + size f)))).

Definition fifo2_bytes_free (f : fifo2) : option Z :=
  locked f (Some (if wptr f <? sptr f then u32 (sptr f - wptr f - 1)
                  else u32 (u32 (sptr f - wptr f) + size f - 1))).

Definition fifo2_bytes_until_rptr_wrap (f : fifo2) : option Z := locked f (Some (u32 (size f - rptr f))).
Definition fifo2_bytes_until_wptr_wrap (f : fifo2) : option Z := locked f (Some (u32 (size f - wptr f))).

Definition fifo2_rptr_incby (f : fifo2) (incby : Z) : option fifo2 :=
  locked f (Some (if u32 (rptr f + incby) =? size f then set_rptr 0 f
                  else set_rptr (u32 (rptr f + incby)) f)).

Definition fifo2_wptr_incby (f : fifo2) (incby : Z) : option fifo2 :=
  locked f (Some (if u32 (wptr f + incby) =? size f then set_wptr 0 f
                  else set_wptr (u32 (wptr f + incby)) f)).

Definition fifo2_flush (f : fifo2) : option fifo2 :=
  locked f (Some (set_wptr 0 (set_rptr 0 (set_sptr 0 f)))).

Definition fifo2_bytes_to_ptr_wrap (f : fifo2) (ptr : Z) : Z := u32 (size f - ptr).

Definition fifo2_inc_ptr (f : fifo2) (ptr bytes : Z) : Z :=
  let ptr := u32 (ptr + bytes) in
  if size f <=? ptr then u32 (ptr - size f) else ptr.

(** The bytes stored at [buf], none for a null pointer. *)
Definition fifo2_copy_out (f : fifo2) (ptr : Z) (buf : bool) (n : Z) : list Z :=
  if negb buf then [] else
  let contb := fifo2_bytes_to_ptr_wrap f ptr in
  if n <=? contb then take (Z.to_nat n) (drop (Z.to_nat ptr) (base f))
  else take (Z.to_nat contb) (drop (Z.to_nat ptr) (base f)) ++ take (Z.to_nat (u32 (n - contb))) (base f).

Definition fifo2_enq (f : fifo2) (buf : list Z) : option (Z * fifo2) :=
  let n := Z.of_nat (length buf) in
  free ← fifo2_bytes_free f;
  if free <? n then Some (0, f) else
  contb ← fifo2_bytes_until_wptr_wrap f;
  if n <=? contb then
    let f := set_base (list_inserts (Z.to_nat (wptr f)) buf (base f)) f in
    f ← fifo2_wptr_incby f n;
    Some (n, f)
  else
    let f := set_base (list_inserts (Z.to_nat (wptr f)) (take (Z.to_nat contb) buf) (base f)) f in
    let f := set_base (list_inserts 0 (drop (Z.to_nat contb) buf) (base f)) f in
    f ← fifo2_wptr_incby f contb;
    f ← fifo2_wptr_incby f (u32 (n - contb));
    Some (n, f).

Definition fifo2_deq (f : fifo2) (buf : bool) (n : Z) (auto_discard : bool) : option (Z * list Z * fifo2) :=
  used ← fifo2_bytes_used f false;
  if used <? n then Some (0, [], f) else
  let out := fifo2_copy_out f (rptr f) buf n in
  let f := set_rptr (fifo2_inc_ptr f (rptr f) n) f in
  let f := if auto_discard then set_sptr (rptr f) f else f in
  Some (n, out, f).

Definition fifo2_read (f : fifo2) (buf : bool) (offset n : Z) (stale : bool) : option (Z * list Z) :=
  used ← fifo2_bytes_used f stale;
  if used <? u32 (n + offset) then Some (0, []) else
  let offset := fifo2_inc_ptr f (if stale then sptr f else rptr f) offset in
  Some (n, fifo2_copy_out f offset buf n).

Definition fifo2_discard (f : fifo2) (n : Z) : option (Z * fifo2) :=
  stale ← fifo2_bytes_used f true;
  fresh ← fifo2_bytes_used f false;
  let diff := u32 (stale - fresh) in
  if diff <=? n then Some (diff, set_sptr (rptr f) f)
  else Some (n, set_sptr (fifo2_inc_ptr f (sptr f) n) f).

(** [lock] is a bool: [lock++] makes it true, [lock--] negates it. *)
Definition fifo2_lock (r : Z) (f : fifo2) : Z * fifo2 := (r, set_lock true f).
Definition fifo2_unlock (r : Z) (f : fifo2) : option (Z * fifo2) :=
  locked f (Some (r, set_lock (negb (lock f)) f)).
Definition fifo2_signal (r : Z) (f : fifo2) : option Z := locked f (Some r).

Abbreviation EINTR := 4.

(** The absolute time [ms] milliseconds after [sec] and [usec]. *)
Definition fifo2_abstime (sec usec ms : Z) : Z * Z :=
  let tv_sec := sec + ms / 1000 in
  let tv_nsec := (usec + (ms mod 1000) * 1000) * 1000 in
  if 1000000000 <? tv_nsec then (tv_sec + 1, tv_nsec - 1000000000) else (tv_sec, tv_nsec).

(** [wait abstime f] is one pthread_cond_timedwait: its result and the fifo
    after the other threads ran; [fuel] bounds the interrupted waits. *)
Fixpoint timedwait (fuel : nat) (wait : Z * Z → fifo2 → Z * fifo2) (abstime : Z * Z) (f : fifo2)
    : option (Z * fifo2) :=
  match fuel with
  | O => None
  | S fuel => let '(r, f) := wait abstime f in
              if r =? EINTR then timedwait fuel wait abstime f else Some (r, f)
  end.

Definition fifo2_wait_timeout (fuel : nat) (wait : Z * Z → fifo2 → Z * fifo2) (sec usec ms : Z)
    (f : fifo2) : option (Z * fifo2) :=
  locked f (
    let f := set_lock (negb (lock f)) f in
    '(r, f) ← timedwait fuel wait (fifo2_abstime sec usec ms) f;
    Some (r, set_lock true f)).

(** ** Refinement of the abstract queue *)

Definition max_size : Z := 2 ^ 30.

Definition rep (f : fifo2) (q : queue) : Prop :=
  lock f = true ∧ 0 < size f <= max_size ∧ ring_rep (size f) (base f) (sptr f) (rptr f) (wptr f) q.

Lemma rep_intro f q : lock f = true → 0 < size f <= 2 ^ 30 →
  ring_rep (size f) (base f) (sptr f) (rptr f) (wptr f) q → rep f q.
Proof. done. Qed.

(** Opens a represented fifo's bounds. *)
Ltac rep_bounds H :=
  let Hl := fresh "Hlock" in let Hs := fresh "Hsz" in let Hr := fresh "Hrep" in
  destruct H as (Hl & Hs & Hr); unfold max_size in Hs;
  pose proof (rr_s _ _ _ _ _ _ Hr); pose proof (rr_r _ _ _ _ _ _ Hr); pose proof (rr_w _ _ _ _ _ _ Hr);
  pose proof (rr_len _ _ _ _ _ _ Hr); pose proof (rr_room _ _ _ _ _ _ Hr).

Ltac u32_lia := rewrite ?u32_small by (unfold is_u32; lia).

Lemma u32_back x sz : - sz < x → x < 0 → 0 <= x + sz < 2 ^ 32 → sz <= 2 ^ 30 → u32 (u32 x + sz) = x + sz.
Proof.
  intros H1 H2 H3 H4. unfold u32. rewrite Zplus_mod_idemp_l. apply Z.mod_small. lia.
Qed.

Lemma bytes_used_rep f q stale : rep f q → fifo2_bytes_used f stale = Some (q_used stale q).
Proof.
  intros H. rep_bounds H. unfold fifo2_bytes_used, locked. rewrite Hlock. f_equal.
  rewrite (rep_used _ _ _ _ _ _ stale Hrep). destruct stale.
  - destruct (Z.leb_spec (sptr f) (wptr f)); [u32_lia; lia|]. apply u32_back; lia.
  - destruct (Z.leb_spec (rptr f) (wptr f)); [u32_lia; lia|]. apply u32_back; lia.
Qed.

Lemma bytes_free_rep f q : rep f q → fifo2_bytes_free f = Some (q_room (size f) q).
Proof.
  intros H. rep_bounds H. unfold fifo2_bytes_free, locked. rewrite Hlock. f_equal.
  rewrite (rep_free _ _ _ _ _ _ Hrep).
  destruct (Z.ltb_spec (wptr f) (sptr f)); [u32_lia; lia|].
  unfold u32. rewrite <- Z.add_sub_assoc, Zplus_mod_idemp_l, Z.mod_small; lia.
Qed.

Lemma inc_ptr_rep f ptr n : 0 < size f <= 2 ^ 30 → 0 <= ptr < size f → 0 <= n <= size f →
  fifo2_inc_ptr f ptr n = if ptr + n <? size f then ptr + n else ptr + n - size f.
Proof.
  intros Hs Hp Hn. unfold fifo2_inc_ptr. u32_lia.
  destruct (Z.leb_spec (size f) (ptr + n)), (Z.ltb_spec (ptr + n) (size f)); try lia. by u32_lia.
Qed.

Lemma copy_out_slice f ptr n : 0 < size f <= 2 ^ 30 → Z.of_nat (length (base f)) = size f →
  0 <= ptr < size f → 0 <= n <= size f →
  fifo2_copy_out f ptr true n = slice (size f) (base f) ptr (Z.to_nat n).
Proof.
  intros Hs Hb Hp Hn. unfold fifo2_copy_out, fifo2_bytes_to_ptr_wrap. cbn [negb]. u32_lia.
  destruct (Z.leb_spec n (size f - ptr)) as [Hle|Hgt].
  - by rewrite slice_contig by lia.
  - replace (Z.to_nat n) with (Z.to_nat (size f - ptr) + Z.to_nat (n - (size f - ptr)))%nat by lia.
    rewrite slice_app. f_equal; [by rewrite slice_contig by lia|].
    rewrite Z2Nat.id by lia. replace (ptr + (size f - ptr)) with (size f) by lia.
    rewrite <- (slice_wrap (size f) ltac:(lia) _ (size f)), Z.sub_diag, slice_contig by lia. cbn. u32_lia. done.
Qed.

Lemma wptr_incby_eq f n : lock f = true → 0 <= wptr f + n < 2 ^ 32 →
  fifo2_wptr_incby f n = Some (set_wptr (if wptr f + n =? size f then 0 else wptr f + n) f).
Proof.
  intros Hl Hn. unfold fifo2_wptr_incby, locked. rewrite Hl. u32_lia. by destruct (_ =? _).
Qed.

Lemma enq_rep f q buf : rep f q → Z.of_nat (length buf) < 2 ^ 32 →
  ∃ f', fifo2_enq f buf = Some ((q_enq (size f) buf q).1, f') ∧ rep f' (q_enq (size f) buf q).2
    ∧ size f' = size f.
Proof.
  intros H Hn. pose proof (bytes_free_rep f q H) as Hfree. rep_bounds H.
  unfold fifo2_enq. rewrite Hfree. unfold q_enq. cbn [mbind option_bind].
  destruct (Z.ltb_spec (q_room (size f) q) (Z.of_nat (length buf))) as [Hbig|Hfit].
  { exists f. split; [done|]. split; [by apply rep_intro|done]. }
  assert (Hroom : q_room (size f) q < size f) by (unfold q_room, q_used; lia).
  pose proof (rep_enq (size f) ltac:(lia) _ _ _ _ _ buf Hrep Hfit) as Hrep'. cbn zeta in Hrep'.
  set (w' := if wptr f + Z.of_nat (length buf) <? size f then _ else _) in Hrep'.
  exists (set_wptr w' (set_base (put (size f) (base f) (wptr f) buf) f)).
  unfold fifo2_bytes_until_wptr_wrap, locked. rewrite Hlock. cbn [mbind option_bind]. u32_lia.
  split; [|split; [by apply rep_intro|done]].
  destruct (Z.leb_spec (Z.of_nat (length buf)) (size f - wptr f)) as [Hle|Hgt].
  - rewrite wptr_incby_eq by (cbn; try done; lia). cbn [mbind option_bind wptr set_base size].
    rewrite put_contig by lia. unfold w'.
    destruct (Z.eqb_spec (wptr f + Z.of_nat (length buf)) (size f)) as [He|He].
    + destruct (Z.ltb_spec (wptr f + Z.of_nat (length buf)) (size f)); [lia|].
      by replace (wptr f + Z.of_nat (length buf) - size f) with 0 by lia.
    + by destruct (Z.ltb_spec (wptr f + Z.of_nat (length buf)) (size f)); [|lia].
  - rewrite wptr_incby_eq by (cbn; try done; lia). cbn [mbind option_bind wptr set_base size].
    replace (wptr f + (size f - wptr f)) with (size f) by lia. rewrite Z.eqb_refl.
    rewrite wptr_incby_eq by (cbn; try done; u32_lia; lia). cbn [mbind option_bind wptr set_base size set_wptr].
    u32_lia.
    assert (Hput : list_inserts 0 (drop (Z.to_nat (size f - wptr f)) buf)
        (list_inserts (Z.to_nat (wptr f)) (take (Z.to_nat (size f - wptr f)) buf) (base f))
      = put (size f) (base f) (wptr f) buf).
    { rewrite <- (take_drop (Z.to_nat (size f - wptr f)) buf) at 3. rewrite put_app, length_take.
      rewrite (put_contig _ (base f)) by (rewrite ?length_take; lia).
      replace (wptr f + Z.of_nat (Z.to_nat (size f - wptr f) `min` length buf)) with (size f) by lia.
      rewrite <- (put_wrap (size f) ltac:(lia) _ (size f)), Z.sub_diag, put_contig; [done|lia|rewrite length_drop; lia]. }
    cbn [base set_base set_wptr]. rewrite Hput. unfold w'.
    destruct (Z.eqb_spec (0 + (Z.of_nat (length buf) - (size f - wptr f))) (size f)); [lia|].
    destruct (Z.ltb_spec (wptr f + Z.of_nat (length buf)) (size f)); [lia|].
    replace (0 + (Z.of_nat (length buf) - (size f - wptr f))) with (wptr f + Z.of_nat (length buf) - size f) by lia.
    reflexivity.
Qed.

Lemma deq_rep f q n discard : rep f q → 0 <= n < 2 ^ 32 →
  ∃ f', fifo2_deq f true n discard = Some ((q_deq n discard q).1, f') ∧ rep f' (q_deq n discard q).2
    ∧ size f' = size f.
Proof.
  intros H Hn. pose proof (bytes_used_rep f q false H) as Hused. rep_bounds H.
  unfold fifo2_deq. rewrite Hused. unfold q_deq. cbn [mbind option_bind].
  destruct (Z.ltb_spec (q_used false q) n) as [Hbig|Hfit].
  { exists f. split; [done|]. split; [by apply rep_intro|done]. }
  assert (Hlen : 0 <= n <= Z.of_nat (length (q_fresh q))) by (unfold q_used in Hfit; lia).
  assert (Hcap : Z.of_nat (length (q_fresh q)) < size f) by (unfold q_room, q_used in *; lia).
  rewrite copy_out_slice by lia. rewrite inc_ptr_rep by lia.
  pose proof (rep_deq (size f) ltac:(lia) _ _ _ _ _ n Hrep Hlen) as Hrep'. cbn zeta in Hrep'.
  set (r' := if rptr f + n <? size f then _ else _) in *.
  assert (Hout : slice (size f) (base f) (rptr f) (Z.to_nat n) = take (Z.to_nat n) (q_fresh q)).
  { rewrite (rep_fresh_r (size f) ltac:(lia) _ _ _ _ _ Hrep). symmetry. apply slice_take. lia. }
  rewrite Hout. destruct discard; eexists; (split; [reflexivity|]); (split; [|done]); apply rep_intro; try done.
  pose proof (rep_discard (size f) ltac:(lia) _ _ _ _ _ (Z.of_nat (length (q_stale q ++ take (Z.to_nat n) (q_fresh q))))
    Hrep') as Hd. cbn [q_stale q_fresh snd] in *. rewrite Nat2Z.id, drop_all in Hd.
  assert (Hs' : (let k := sptr f + Z.of_nat (length (q_stale q ++ take (Z.to_nat n) (q_fresh q))) in
    if k <? size f then k else k - size f) = r').
  { pose proof (rr_rs _ _ _ _ _ _ Hrep') as Hrs. pose proof (rr_r _ _ _ _ _ _ Hrep') as Hr.
    cbn [q_stale] in Hrs. cbv zeta in *. destruct (Z.ltb_spec (sptr f + Z.of_nat (length (q_stale q ++ take (Z.to_nat n) (q_fresh q)))) (size f)); lia. }
  cbv zeta in Hs', Hd. rewrite Hs' in Hd. apply Hd. lia.
Qed.

Lemma read_rep f q offset n stale : rep f q → 0 <= n → 0 <= offset → n + offset < 2 ^ 32 →
  fifo2_read f true offset n stale = Some (q_read offset n stale q).
Proof.
  intros H Hn Ho Hno. pose proof (bytes_used_rep f q stale H) as Hused. rep_bounds H.
  unfold fifo2_read. rewrite Hused. unfold q_read. cbn [mbind option_bind]. u32_lia.
  destruct (Z.ltb_spec (q_used stale q) (n + offset)) as [Hbig|Hfit]; [done|].
  assert (Hcap : q_used stale q < size f) by (unfold q_room, q_used in *; destruct stale; lia).
  set (p := if stale then sptr f else rptr f). assert (Hp : 0 <= p < size f) by (unfold p; destruct stale; lia).
  rewrite inc_ptr_rep by lia. rewrite copy_out_slice; [|lia|lia| |lia].
  2: { destruct (Z.ltb_spec (p + offset) (size f)); lia. }
  assert (Hb : q_bytes stale q = slice (size f) (base f) p (Z.to_nat (q_used stale q))).
  { unfold p, q_bytes, q_used. destruct stale.
    - change (q_stale q ++ q_fresh q) with (q_bytes true q). rewrite (rep_bytes_s _ _ _ _ _ _ Hrep). f_equal. lia.
    - rewrite Z.add_0_r, Nat2Z.id. apply (rep_fresh_r (size f) ltac:(lia) _ _ _ _ _ Hrep). }
  rewrite Hb, slice_drop, slice_take by lia. do 2 f_equal. rewrite Z2Nat.id by lia.
  destruct (p + offset <? size f); [done|]. apply slice_wrap. lia.
Qed.

Lemma discard_rep f q n : rep f q → 0 <= n < 2 ^ 32 →
  ∃ f', fifo2_discard f n = Some ((q_discard n q).1, f') ∧ rep f' (q_discard n q).2 ∧ size f' = size f.
Proof.
  intros H Hn. pose proof (bytes_used_rep f q true H) as Hu1. pose proof (bytes_used_rep f q false H) as Hu2.
  rep_bounds H. unfold fifo2_discard. rewrite Hu1, Hu2. unfold q_discard. cbn [mbind option_bind].
  assert (Hcap : Z.of_nat (length (q_stale q)) < size f) by (unfold q_room, q_used in *; lia).
  assert (Hdiff : u32 (q_used true q - q_used false q) = Z.of_nat (length (q_stale q)))
    by (unfold q_used; rewrite u32_small by (unfold is_u32; lia); lia).
  rewrite Hdiff. pose proof (rr_rs _ _ _ _ _ _ Hrep) as Hrs. cbv zeta in Hrs.
  destruct (Z.leb_spec (Z.of_nat (length (q_stale q))) n) as [Hle|Hgt].
  - eexists. split; [reflexivity|]. split; [|done]. apply rep_intro; try done.
    pose proof (rep_discard (size f) ltac:(lia) _ _ _ _ _ (Z.of_nat (length (q_stale q))) Hrep ltac:(lia)) as Hd.
    cbv zeta in Hd. rewrite Nat2Z.id, drop_all in Hd.
    replace (if sptr f + Z.of_nat (length (q_stale q)) <? size f then sptr f + Z.of_nat (length (q_stale q))
      else sptr f + Z.of_nat (length (q_stale q)) - size f) with (rptr f) in Hd; [done|].
    destruct (Z.ltb_spec (sptr f + Z.of_nat (length (q_stale q))) (size f)); lia.
  - rewrite inc_ptr_rep by lia. eexists. split; [reflexivity|]. split; [|done]. apply rep_intro; try done.
    apply (rep_discard (size f) ltac:(lia) _ _ _ _ _ n Hrep). lia.
Qed.

Lemma flush_rep f q : rep f q → ∃ f', fifo2_flush f = Some f' ∧ rep f' (mk_queue [] []) ∧ size f' = size f.
Proof.
  intros H. rep_bounds H. unfold fifo2_flush, locked. rewrite Hlock. eexists. split; [reflexivity|].
  split; [|done]. apply rep_intro; try done. apply rep_init; cbn; lia.
Qed.

(** ** Sequences of operations *)

Inductive op :=
  | OEnq (buf : list Z)
  | ODeq (n : Z) (discard : bool)
  | ORead (offset n : Z) (stale : bool)
  | ODiscard (n : Z)
  | OFlush
  | OUsed (stale : bool)
  | OFree.

(** Arguments a caller may pass. *)
Definition op_ok (o : op) : Prop :=
  match o with
  | OEnq buf => Z.of_nat (length buf) < 2 ^ 32
  | ODeq n _ | ODiscard n => 0 <= n < 2 ^ 32
  | ORead offset n _ => 0 <= n ∧ 0 <= offset ∧ n + offset < 2 ^ 32
  | _ => True
  end.

(** What an operation returns and the bytes it hands out. *)
Definition fifo2_op (f : fifo2) (o : op) : option (Z * list Z * fifo2) :=
  match o with
  | OEnq buf => '(r, f) ← fifo2_enq f buf; Some (r, [], f)
  | ODeq n discard => fifo2_deq f true n discard
  | ORead offset n stale => '(r, out) ← fifo2_read f true offset n stale; Some (r, out, f)
  | ODiscard n => '(r, f) ← fifo2_discard f n; Some (r, [], f)
  | OFlush => f ← fifo2_flush f; Some (0, [], f)
  | OUsed stale => n ← fifo2_bytes_used f stale; Some (n, [], f)
  | OFree => n ← fifo2_bytes_free f; Some (n, [], f)
  end.

Definition queue_op (sz : Z) (q : queue) (o : op) : Z * list Z * queue :=
  match o with
  | OEnq buf => let '(r, q) := q_enq sz buf q in (r, [], q)
  | ODeq n discard => q_deq n discard q
  | ORead offset n stale => (q_read offset n stale q, q)
  | ODiscard n => let '(r, q) := q_discard n q in (r, [], q)
  | OFlush => (0, [], mk_queue [] [])
  | OUsed stale => (q_used stale q, [], q)
  | OFree => (q_room sz q, [], q)
  end.

Fixpoint fifo2_run (f : fifo2) (os : list op) : option (list (Z * list Z)) :=
  match os with
  | [] => Some []
  | o :: os' => '(r, f) ← fifo2_op f o; rs ← fifo2_run f os'; Some (r :: rs)
  end.

Fixpoint queue_run (sz : Z) (q : queue) (os : list op) : list (Z * list Z) :=
  match os with
  | [] => []
  | o :: os' => let '(r, q) := queue_op sz q o in r :: queue_run sz q os'
  end.

Lemma op_rep f q o : rep f q → op_ok o →
  ∃ f', fifo2_op f o = Some ((queue_op (size f) q o).1, f') ∧ rep f' (queue_op (size f) q o).2
    ∧ size f' = size f.
Proof.
  intros H Ho. destruct o; cbn [fifo2_op queue_op op_ok] in *.
  - destruct (enq_rep f q buf H Ho) as (f' & -> & Hr & Hs). destruct (q_enq _ _ _). cbn in *. eauto.
  - by apply deq_rep.
  - destruct Ho as (? & ? & ?). rewrite (read_rep f q) by done. destruct (q_read _ _ _ _). cbn. eauto.
  - destruct (discard_rep f q n H Ho) as (f' & -> & Hr & Hs). destruct (q_discard _ _). cbn in *. eauto.
  - destruct (flush_rep f q H) as (f' & -> & Hr & Hs). cbn. eauto.
  - rewrite (bytes_used_rep f q) by done. cbn. eauto.
  - rewrite (bytes_free_rep f q) by done. cbn. eauto.
Qed.

Lemma run_rep f q os : rep f q → Forall op_ok os → fifo2_run f os = Some (queue_run (size f) q os).
Proof.
  intros H Hos. revert f q H. induction Hos as [|o os Ho Hos IH]; intros f q H; [done|].
  cbn [fifo2_run queue_run]. destruct (op_rep f q o H Ho) as (f' & -> & Hr & Hs).
  destruct (queue_op (size f) q o) as [r q']. cbn [fst snd mbind option_bind] in *.
  rewrite (IH f' q' Hr), Hs. done.
Qed.

(** C21.  A fifo2 initialised over a buffer and locked behaves, for every
    sequence of enqueues, dequeues, reads, discards and flushes, as a queue of
    stale and fresh bytes that holds one byte less than the buffer: same
    return values, same bytes out, in order, with no assertion failing and no
    index leaving the buffer. *)
Theorem fifo2_refines_queue f b os : 0 < Z.of_nat (length b) <= max_size → Forall op_ok os →
  let f1 := (fifo2_init [] f b (Z.of_nat (length b))).2 in
  let f2 := (fifo2_lock 0 f1).2 in
  fifo2_run f2 os = Some (queue_run (Z.of_nat (length b)) (mk_queue [] []) os).
Proof.
  intros Hb Hos f1 f2. change (Z.of_nat (length b)) with (size f2). apply run_rep; [|done].
  apply rep_intro; [done|exact Hb|]. apply rep_init; [apply Hb|done].
Qed.

Definition demo_fifo : fifo2 := mk_fifo2 false [] 0 0 0 0.
Definition demo_ops : list op :=
  [OEnq [1; 2; 3; 4; 5]; ODeq 4 false; OEnq [6; 7]; ODiscard 3; OEnq [6; 7]; ORead 1 3 true; ODeq 3 true; OFree].

Lemma fifo2_refines_queue_witness :
  let f2 := (fifo2_lock 0 (fifo2_init [] demo_fifo (replicate 7 0) 7).2).2 in
  fifo2_run f2 demo_ops = Some (queue_run 7 (mk_queue [] []) demo_ops)
  ∧ queue_run 7 (mk_queue [] []) demo_ops
    = [(5, []); (4, [1; 2; 3; 4]); (0, []); (3, []); (2, []); (3, [5; 6; 7]); (3, [5; 6; 7]); (6, [])].
Proof.
  split; [|vm_compute; reflexivity].
  apply (fifo2_refines_queue demo_fifo (replicate 7 0) demo_ops).
  - vm_compute. split; [reflexivity|discriminate].
  - unfold demo_ops. repeat (apply List.Forall_cons || apply List.Forall_nil); cbn; lia.
Defined.

(** ** Waiting *)

(** The deadline [fifo2_wait_timeout] computes is the asked number of
    milliseconds ahead, but its nanoseconds reach a full second exactly when
    the microseconds sum up to one: the test is [>] where pthreads needs
    [>=], so such a wait returns EINVAL at once. *)
Theorem fifo2_deadline sec usec ms : 0 <= usec < 1000000 → 0 <= ms →
  let '(s, ns) := fifo2_abstime sec usec ms in
  s * 1000000000 + ns = (sec * 1000 + ms) * 1000000 + usec * 1000 ∧ 0 <= ns <= 1000000000
  ∧ (ns = 1000000000 ↔ usec + (ms mod 1000) * 1000 = 1000000).
Proof.
  intros Hu Hm. unfold fifo2_abstime. pose proof (Z.div_mod ms 1000 ltac:(lia)).
  pose proof (Z.mod_pos_bound ms 1000 ltac:(lia)).
  destruct (Z.ltb_spec 1000000000 ((usec + ms mod 1000 * 1000) * 1000)); lia.
Qed.

Lemma fifo2_deadline_witness : fifo2_abstime 5 400000 600 = (5, 1000000000)
  ∧ (1000000000 = 1000000000 ↔ 400000 + (600 mod 1000) * 1000 = 1000000).
Proof.
  split; [reflexivity|].
  exact (proj2 (proj2 (fifo2_deadline 5 400000 600 ltac:(lia) ltac:(lia)))).
Defined.
