(* ===== verification/FifoLib.v ===== *)
(** lib/fifo/fifo.c: the byte queue of the other daemons, with optional
    locking and optional tracking of stale data.  Pointers into the buffer
    are offsets from its base.  Operation by operation it is shown to do what
    fifo2 does, and so to refine the same abstract queue. *)

From S2P Require Import Prelude Ring Fifo2.

Abbreviation FIFO_LOCK_SUPPORT := 1.
Abbreviation FIFO_PRIO_INHERIT := 2.
Abbreviation FIFO_TRACK_STALE := 4.

Record __fifo := mk___fifo {
  ff_base : list Z;
  ff_size : Z;
  ff_wptr : Z;
  ff_rptr : Z;
  ff_sptr : Z;
  ff_options : Z;
  ff_lock : bool
}.

Definition ff_set_wptr v f := mk___fifo (ff_base f) (ff_size f) v (ff_rptr f) (ff_sptr f) (ff_options f) (ff_lock f).
Definition ff_set_rptr v f := mk___fifo (ff_base f) (ff_size f) (ff_wptr f) v (ff_sptr f) (ff_options f) (ff_lock f).
Definition ff_set_sptr v f := mk___fifo (ff_base f) (ff_size f) (ff_wptr f) (ff_rptr f) v (ff_options f) (ff_lock f).
Definition ff_set_base v f := mk___fifo v (ff_size f) (ff_wptr f) (ff_rptr f) (ff_sptr f) (ff_options f) (ff_lock f).
Definition ff_set_lock v f := mk___fifo (ff_base f) (ff_size f) (ff_wptr f) (ff_rptr f) (ff_sptr f) (ff_options f) v.

(** [fifo->end], as an offset. *)
Definition ff_end (f : __fifo) : Z := ff_size f.

Definition FIFO_CHLOCK (f : __fifo) : bool := c_true (Z.land (ff_options f) FIFO_LOCK_SUPPORT).
Definition TRACKS_STALE (f : __fifo) : bool := c_true (Z.land (ff_options f) FIFO_TRACK_STALE).

Definition ASSERT___FIFO_LOCKED {A} (f : __fifo) (k : option A) : option A :=
  if FIFO_CHLOCK f then (if ff_lock f then k else None) else k.

(** [None] stands for a null pointer; the pthread calls return [errs]. *)
Definition __fifo_init (errs : list Z) (fifo : bool) (base : option (list Z)) (size options : Z)
    : Z * option __fifo :=
  match fifo, base with
  | true, Some b =>
      let f := mk___fifo b size 0 0 0 options false in
      if FIFO_CHLOCK f then
        match first_error errs with Some e => (e, Some f) | None => (0, Some f) end
      else (0, Some f)
  | _, _ => (-1, None)
  end.

Definition __fifo_free (f : __fifo) : __fifo := mk___fifo [] 0 0 0 0 0 false.

Definition __fifo_empty (f : __fifo) : option bool :=
  ASSERT___FIFO_LOCKED f (Some (ff_rptr f =? ff_wptr f)).

Definition __fifo_bytes_used (f : __fifo) (stale : bool) : option Z :=
  ASSERT___FIFO_LOCKED f (Some (
    if stale && TRACKS_STALE f then
      (if ff_sptr f <=? ff_wptr f then u32 (ff_wptr f - ff_sptr f)
       else u32 (ff_wptr f - ff_sptr f + ff_size f))
    else
      (if ff_rptr f <=? ff_wptr f then u32 (ff_wptr f - ff_rptr f)
       else u32 (ff_wptr f - ff_rptr f + ff_size f)))).

Definition __fifo_bytes_free (f : __fifo) : option Z :=
  ASSERT___FIFO_LOCKED f (Some (
    if ff_wptr f <? ff_sptr f then u32 (ff_sptr f - ff_wptr f - 1)
    else u32 (ff_sptr f - ff_wptr f + ff_size f - 1))).

Definition __fifo_reset (f : __fifo) : option __fifo :=
  ASSERT___FIFO_LOCKED f (Some (ff_set_wptr 0 (ff_set_rptr 0 (ff_set_sptr 0 f)))).

Definition __fifo_inc_ptr (f : __fifo) (ptr bytes : Z) : Z :=
  let ptr := ptr + bytes in if ff_end f <=? ptr then ptr - ff_size f else ptr.

Definition __fifo_copy_out (f : __fifo) (ptr n : Z) : list Z :=
  let contb := u32 (ff_end f - ptr) in
  if n <=? contb then take (Z.to_nat n) (drop (Z.to_nat ptr) (ff_base f))
  else take (Z.to_nat contb) (drop (Z.to_nat ptr) (ff_base f)) ++ take (Z.to_nat (u32 (n - contb))) (ff_base f).

Definition __fifo_enq (f : __fifo) (buf : list Z) : option (Z * __fifo) :=
  let n := Z.of_nat (length buf) in
  ASSERT___FIFO_LOCKED f (
    free ← __fifo_bytes_free f;
    if free <? n then Some (0, f) else
    let contb := u32 (ff_end f - ff_wptr f) in
    if n <=? contb then
      let f := ff_set_base (list_inserts (Z.to_nat (ff_wptr f)) buf (ff_base f)) f in
      Some (n, ff_set_wptr (if ff_wptr f + n =? ff_end f then 0 else ff_wptr f + n) f)
    else
      let f := ff_set_base (list_inserts (Z.to_nat (ff_wptr f)) (take (Z.to_nat contb) buf) (ff_base f)) f in
      let f := ff_set_base (list_inserts 0 (drop (Z.to_nat contb) buf) (ff_base f)) f in
      Some (n, ff_set_wptr (n - contb) f)).

Definition __fifo_deq (f : __fifo) (n : Z) (discard : bool) : option (Z * list Z * __fifo) :=
  ASSERT___FIFO_LOCKED f (
    used ← __fifo_bytes_used f false;
    if used <? n then Some (0, [], f) else
    let out := __fifo_copy_out f (ff_rptr f) n in
    let f := ff_set_rptr (__fifo_inc_ptr f (ff_rptr f) n) f in
    let f := if discard || negb (TRACKS_STALE f) then ff_set_sptr (ff_rptr f) f else f in
    Some (n, out, f)).

Definition __fifo_read (f : __fifo) (offset n : Z) (stale : bool) : option (Z * list Z) :=
  ASSERT___FIFO_LOCKED f (
    used ← __fifo_bytes_used f stale;
    if used <? u32 (n + offset) then Some (0, []) else
    let ptr := __fifo_inc_ptr f (if stale then ff_sptr f else ff_rptr f) offset in
    Some (n, __fifo_copy_out f ptr n)).

Definition __fifo_discard (f : __fifo) (n : Z) : option (Z * __fifo) :=
  ASSERT___FIFO_LOCKED f (
    stale ← __fifo_bytes_used f true;
    fresh ← __fifo_bytes_used f false;
    let diff := u32 (stale - fresh) in
    if diff <=? n then Some (diff, ff_set_sptr (ff_rptr f) f)
    else Some (n, ff_set_sptr (__fifo_inc_ptr f (ff_sptr f) n) f)).

Definition __fifo_lock (r : Z) (f : __fifo) : option (Z * __fifo) :=
  if FIFO_CHLOCK f then Some (r, ff_set_lock true f) else None.

Definition ASSERT___FIFO_CHLOCK_LOCKED {A} (f : __fifo) (k : option A) : option A :=
  if FIFO_CHLOCK f && ff_lock f then k else None.

Definition __fifo_unlock (r : Z) (f : __fifo) : option (Z * __fifo) :=
  ASSERT___FIFO_CHLOCK_LOCKED f (Some (r, ff_set_lock false f)).

Definition __fifo_signal (r : Z) (f : __fifo) : option Z := ASSERT___FIFO_CHLOCK_LOCKED f (Some r).

Definition __fifo_abstime (sec usec ms : Z) : Z * Z :=
  let tv_sec := sec + ms / 1000 in
  let tv_nsec := (usec + (ms mod 1000) * 1000) * 1000 in
  if 1000000000 <=? tv_nsec then (tv_sec + 1, tv_nsec - 1000000000) else (tv_sec, tv_nsec).

Fixpoint __fifo_timedwait (fuel : nat) (wait : Z * Z → __fifo → Z * __fifo) (abstime : Z * Z) (f : __fifo)
    : option (Z * __fifo) :=
  match fuel with
  | O => None
  | S fuel => let '(r, f) := wait abstime f in
              if r =? EINTR then __fifo_timedwait fuel wait abstime f else Some (r, f)
  end.

Definition __fifo_wait_timeout (fuel : nat) (wait : Z * Z → __fifo → Z * __fifo) (sec usec ms : Z)
    (f : __fifo) : option (Z * __fifo) :=
  ASSERT___FIFO_CHLOCK_LOCKED f (
    '(r, f) ← __fifo_timedwait fuel wait (__fifo_abstime sec usec ms) (ff_set_lock false f);
    Some (r, ff_set_lock true f)).

(** ** The same queue as fifo2 *)

(** The fifo2 with the same buffer and positions; without lock support the
    assertions are off. *)
Definition as_fifo2 (f : __fifo) : fifo2 :=
  mk_fifo2 (negb (FIFO_CHLOCK f) || ff_lock f) (ff_base f) (ff_size f) (ff_wptr f) (ff_rptr f) (ff_sptr f).

(** Holds a queue; untracked stale data is dropped at once. *)
Definition ff_rep (f : __fifo) (q : queue) : Prop :=
  rep (as_fifo2 f) q ∧ (TRACKS_STALE f = false → q_stale q = []).

Lemma asserts_pass {A} f q (k : option A) : ff_rep f q → ASSERT___FIFO_LOCKED f k = k.
Proof.
  intros [(Hl & _) _]. cbn in Hl. unfold ASSERT___FIFO_LOCKED. by destruct (FIFO_CHLOCK f), (ff_lock f).
Qed.

Lemma u32_inner x sz : u32 (u32 x + sz) = u32 (x + sz).
Proof. unfold u32. apply Zplus_mod_idemp_l. Qed.

Lemma ff_used_rep f q stale : ff_rep f q → __fifo_bytes_used f stale = Some (q_used stale q).
Proof.
  intros H. unfold __fifo_bytes_used. rewrite (asserts_pass f q) by done. destruct H as [Hr Hstale].
  pose proof (bytes_used_rep _ q (stale && TRACKS_STALE f) Hr) as Hu.
  unfold fifo2_bytes_used, locked in Hu. rewrite (proj1 Hr) in Hu.
  cbn [sptr rptr wptr size as_fifo2] in Hu. rewrite !u32_inner in Hu.
  rewrite Hu. f_equal. destruct stale; [|done]. cbn [andb]. destruct (TRACKS_STALE f); [done|].
  unfold q_used. by rewrite Hstale.
Qed.

Lemma ff_free_rep f q : ff_rep f q → __fifo_bytes_free f = Some (q_room (ff_size f) q).
Proof.
  intros H. unfold __fifo_bytes_free. rewrite (asserts_pass f q) by done. destruct H as [Hr _].
  pose proof (bytes_free_rep _ q Hr) as Hf. unfold fifo2_bytes_free, locked in Hf. rewrite (proj1 Hr) in Hf.
  cbn [sptr wptr size as_fifo2] in Hf. rewrite <- Z.add_sub_assoc, u32_inner, Z.add_sub_assoc in Hf. exact Hf.
Qed.

(** Same options, and the fifo2 of the result is the given one. *)
Definition becomes (f f' : __fifo) (g : fifo2) : Prop :=
  as_fifo2 f' = g ∧ ff_options f' = ff_options f.

Lemma becomes_rep f f' g q : becomes f f' g → rep g q → (TRACKS_STALE f = false → q_stale q = []) →
  ff_rep f' q ∧ ff_size f' = size g.
Proof.
  intros [<- Ho] Hr Hs. split; [|done]. split; [done|]. unfold TRACKS_STALE in *. by rewrite Ho.
Qed.

Lemma ff_inc_ptr f ptr n : 0 < ff_size f <= 2 ^ 30 → 0 <= ptr < ff_size f → 0 <= n <= ff_size f →
  __fifo_inc_ptr f ptr n = fifo2_inc_ptr (as_fifo2 f) ptr n.
Proof.
  intros Hs Hp Hn. rewrite inc_ptr_rep by (cbn; lia). unfold __fifo_inc_ptr, ff_end. cbn [size as_fifo2].
  destruct (Z.leb_spec (ff_size f) (ptr + n)), (Z.ltb_spec (ptr + n) (ff_size f)); lia.
Qed.

Lemma ff_copy_out f ptr n : __fifo_copy_out f ptr n = fifo2_copy_out (as_fifo2 f) ptr true n.
Proof. reflexivity. Qed.

Lemma ff_enq_same f q buf r g : ff_rep f q → Z.of_nat (length buf) < 2 ^ 32 →
  fifo2_enq (as_fifo2 f) buf = Some (r, g) →
  ∃ f', __fifo_enq f buf = Some (r, f') ∧ becomes f f' g.
Proof.
  intros H Hn He. pose proof (ff_free_rep f q H) as Hfree. unfold __fifo_enq.
  rewrite (asserts_pass f q) by done. rewrite Hfree. cbn [mbind option_bind].
  destruct H as [Hr Hst]. pose proof (bytes_free_rep _ _ Hr) as Hfree2. rep_bounds Hr.
  cbn [size wptr rptr sptr base lock as_fifo2] in *.
  unfold fifo2_enq in He. rewrite Hfree2 in He. cbn [mbind option_bind size as_fifo2] in He.
  destruct (Z.ltb_spec (q_room (ff_size f) q) (Z.of_nat (length buf))) as [_|Hfit];
    [injection He as <- <-; by exists f|].
  unfold fifo2_bytes_until_wptr_wrap, locked in He. cbn [lock size wptr as_fifo2] in He. rewrite Hlock in He.
  cbn [mbind option_bind] in He. unfold ff_end.
  rewrite (u32_small (ff_size f - ff_wptr f)) in * by (unfold is_u32; lia).
  destruct (Z.leb_spec (Z.of_nat (length buf)) (ff_size f - ff_wptr f)).
  - rewrite wptr_incby_eq in He by (cbn; try done; lia).
    cbn [mbind option_bind wptr size set_base as_fifo2] in He. injection He as <- <-. eexists. split; [reflexivity|done].
  - rewrite wptr_incby_eq in He by (cbn; try done; lia).
    cbn [mbind option_bind wptr size set_base as_fifo2] in He.
    replace (ff_wptr f + (ff_size f - ff_wptr f)) with (ff_size f) in He by lia. rewrite Z.eqb_refl in He.
    assert (Hroom : q_room (ff_size f) q < ff_size f) by (unfold q_room, q_used; lia).
    rewrite wptr_incby_eq in He by (cbn; try done; u32_lia; lia).
    cbn [mbind option_bind wptr size set_base set_wptr as_fifo2] in He. rewrite u32_small in He by (unfold is_u32; lia).
    rewrite Z.add_0_l in He.
    destruct (Z.eqb_spec (Z.of_nat (length buf) - (ff_size f - ff_wptr f)) (ff_size f)); [lia|].
    injection He as <- <-. eexists. split; [reflexivity|done].
Qed.

Lemma ff_deq_same f q n discard x g : ff_rep f q → 0 <= n < 2 ^ 32 →
  fifo2_deq (as_fifo2 f) true n (discard || negb (TRACKS_STALE f)) = Some (x, g) →
  ∃ f', __fifo_deq f n discard = Some (x, f') ∧ becomes f f' g.
Proof.
  intros H Hn He. pose proof (ff_used_rep f q false H) as Hused. unfold __fifo_deq.
  rewrite (asserts_pass f q) by done. rewrite Hused. cbn [mbind option_bind].
  destruct H as [Hr Hst]. pose proof (bytes_used_rep _ _ false Hr) as Hused2. rep_bounds Hr.
  unfold fifo2_deq in He. rewrite Hused2 in He. cbn [mbind option_bind] in He.
  destruct (Z.ltb_spec (q_used false q) n) as [_|Hfit]; [injection He as <- <-; by exists f|].
  cbn [size wptr rptr sptr base lock as_fifo2] in *.
  rewrite ff_inc_ptr by (unfold q_room, q_used in *; lia). rewrite ff_copy_out.
  injection He as <- <-. eexists. split; [reflexivity|].
  change (TRACKS_STALE (ff_set_rptr _ f)) with (TRACKS_STALE f). by destruct (discard || _).
Qed.

Lemma ff_read_same f q offset n stale : ff_rep f q → 0 <= n → 0 <= offset → n + offset < 2 ^ 32 →
  __fifo_read f offset n stale = Some (q_read offset n stale q).
Proof.
  intros H Hn Ho Hno. pose proof (ff_used_rep f q stale H) as Hused. unfold __fifo_read.
  rewrite (asserts_pass f q) by done. rewrite Hused. cbn [mbind option_bind].
  destruct H as [Hr Hst]. pose proof (read_rep _ q offset n stale Hr Hn Ho Hno) as Hread.
  pose proof (bytes_used_rep _ _ stale Hr) as Hused2. rep_bounds Hr.
  unfold fifo2_read in Hread. rewrite Hused2 in Hread. cbn [mbind option_bind] in Hread.
  rewrite u32_small in * by (unfold is_u32; lia).
  destruct (Z.ltb_spec (q_used stale q) (n + offset)) as [_|Hfit]; [done|].
  cbn [size wptr rptr sptr base lock as_fifo2] in *.
  assert (Hp : 0 <= (if stale then ff_sptr f else ff_rptr f) < ff_size f) by (destruct stale; lia).
  rewrite ff_inc_ptr by (try done; unfold q_room, q_used in *; destruct stale; lia). by rewrite ff_copy_out.
Qed.

Lemma ff_discard_same f q n r g : ff_rep f q → 0 <= n < 2 ^ 32 →
  fifo2_discard (as_fifo2 f) n = Some (r, g) →
  ∃ f', __fifo_discard f n = Some (r, f') ∧ becomes f f' g.
Proof.
  intros H Hn He. pose proof (ff_used_rep f q false H) as Hu1. pose proof (ff_used_rep f q true H) as Hu2.
  unfold __fifo_discard. rewrite (asserts_pass f q) by done. rewrite Hu1, Hu2. cbn [mbind option_bind].
  destruct H as [Hr Hst]. pose proof (bytes_used_rep _ _ false Hr) as Hu3.
  pose proof (bytes_used_rep _ _ true Hr) as Hu4. rep_bounds Hr.
  unfold fifo2_discard in He. rewrite Hu3, Hu4 in He. cbn [mbind option_bind] in He.
  cbn [size wptr rptr sptr base lock as_fifo2] in *.
  destruct (Z.leb_spec (u32 (q_used true q - q_used false q)) n) as [Hle|Hgt];
    [injection He as <- <-; eexists; split; [reflexivity|done]|].
  rewrite u32_small in Hgt by (unfold is_u32, q_room, q_used in *; lia).
  rewrite ff_inc_ptr by (unfold q_room, q_used in *; lia).
  injection He as <- <-. eexists. split; [reflexivity|done].
Qed.

(** ** Sequences of operations *)

Definition __fifo_op (f : __fifo) (o : op) : option (Z * list Z * __fifo) :=
  match o with
  | OEnq buf => '(r, f) ← __fifo_enq f buf; Some (r, [], f)
  | ODeq n discard => __fifo_deq f n discard
  | ORead offset n stale => '(r, out) ← __fifo_read f offset n stale; Some (r, out, f)
  | ODiscard n => '(r, f) ← __fifo_discard f n; Some (r, [], f)
  | OFlush => f ← __fifo_reset f; Some (0, [], f)
  | OUsed stale => n ← __fifo_bytes_used f stale; Some (n, [], f)
  | OFree => n ← __fifo_bytes_free f; Some (n, [], f)
  end.

Fixpoint __fifo_run (f : __fifo) (os : list op) : option (list (Z * list Z)) :=
  match os with
  | [] => Some []
  | o :: os' => '(r, f) ← __fifo_op f o; rs ← __fifo_run f os'; Some (r :: rs)
  end.

(** Without stale tracking every dequeue discards. *)
Definition tracked (track : bool) (o : op) : op :=
  match o with ODeq n discard => ODeq n (discard || negb track) | _ => o end.

Lemma untracked_stays track q o sz : (track = false → q_stale q = []) →
  track = false → q_stale (queue_op sz q (tracked track o)).2 = [].
Proof.
  intros Hq Ht. specialize (Hq Ht). subst track. destruct o; cbn; try done.
  - unfold q_enq. by destruct (_ <? _).
  - rewrite orb_true_r. unfold q_deq. by destruct (_ <? _).
  - unfold q_discard. rewrite Hq. destruct (_ <=? _); [done|]. apply drop_nil.
Qed.

Lemma ff_op_rep f q o : ff_rep f q → op_ok o →
  let x := queue_op (ff_size f) q (tracked (TRACKS_STALE f) o) in
  ∃ f', __fifo_op f o = Some (x.1, f') ∧ ff_rep f' x.2 ∧ ff_size f' = ff_size f
    ∧ ff_options f' = ff_options f.
Proof.
  intros H Ho x. pose proof H as [Hr Hst].
  pose proof (untracked_stays (TRACKS_STALE f) q o (ff_size f) Hst) as Hst'. fold x in Hst'.
  assert (Hok : op_ok (tracked (TRACKS_STALE f) o)) by (by destruct o).
  destruct (op_rep _ q _ Hr Hok) as (g & Hg & Hrg & Hsg). cbn [size as_fifo2] in Hg, Hrg, Hsg. fold x in Hg, Hrg.
  assert (Hfin : ∀ f', becomes f f' g → ff_rep f' x.2 ∧ ff_size f' = ff_size f ∧ ff_options f' = ff_options f).
  { intros f' Hb. destruct (becomes_rep f f' g x.2 Hb Hrg Hst') as [Hr' Hs']. split; [done|]. split; [congruence|].
    apply Hb. }
  destruct o; cbn [__fifo_op tracked fifo2_op op_ok] in *.
  - destruct (fifo2_enq (as_fifo2 f) buf) as [[r g']|] eqn:E; [|done]. cbn in Hg. injection Hg as Hx <-.
    destruct (ff_enq_same f q buf r g' H Ho E) as (f' & -> & Hb). exists f'. cbn. rewrite Hx. auto.
  - destruct (ff_deq_same f q n discard _ g H Ho Hg) as (f' & -> & Hb). exists f'. auto.
  - destruct Ho as (? & ? & ?). rewrite (ff_read_same f q) by done. exists f.
    unfold x. cbn [queue_op tracked]. destruct (q_read _ _ _ _). done.
  - destruct (fifo2_discard (as_fifo2 f) n) as [[r g']|] eqn:E; [|done]. cbn in Hg. injection Hg as Hx <-.
    destruct (ff_discard_same f q n r g' H Ho E) as (f' & -> & Hb). exists f'. cbn. rewrite Hx. auto.
  - unfold __fifo_reset. rewrite (asserts_pass f q) by done. eexists. split; [reflexivity|].
    apply Hfin. unfold fifo2_flush, locked in Hg. rewrite (proj1 Hr) in Hg. cbn in Hg. by injection Hg as <-.
  - rewrite (ff_used_rep f q) by done. eexists. split; [reflexivity|done].
  - rewrite (ff_free_rep f q) by done. eexists. split; [reflexivity|done].
Qed.

Lemma ff_run_rep f q os : ff_rep f q → Forall op_ok os →
  __fifo_run f os = Some (queue_run (ff_size f) q (tracked (TRACKS_STALE f) <$> os)).
Proof.
  intros H Hos. revert f q H. induction Hos as [|o os Ho Hos IH]; intros f q H; [done|].
  cbn [__fifo_run queue_run fmap list_fmap].
  destruct (ff_op_rep f q o H Ho) as (f' & -> & Hr & Hs & Hopt).
  destruct (queue_op _ q _) as [r q']. cbn [fst snd mbind option_bind] in *.
  rewrite (IH f' q' Hr), Hs. unfold TRACKS_STALE. by rewrite Hopt.
Qed.

(** C28.  A [__fifo], with any combination of the lock and stale options, is
    the same bounded queue as fifo2: every sequence of operations returns the
    results of the abstract queue, where without FIFO_TRACK_STALE a dequeue
    always discards. *)
Theorem __fifo_refines_queue b options os : 0 < Z.of_nat (length b) <= max_size → Forall op_ok os →
  ∃ f f', __fifo_init [] true (Some b) (Z.of_nat (length b)) options = (0, Some f)
    ∧ (if FIFO_CHLOCK f then __fifo_lock 0 f = Some (0, f') else f' = f)
    ∧ __fifo_run f' os = Some (queue_run (Z.of_nat (length b)) (mk_queue [] [])
        (tracked (c_true (Z.land options FIFO_TRACK_STALE)) <$> os)).
Proof.
  intros Hb Hos. set (f := mk___fifo b (Z.of_nat (length b)) 0 0 0 options false).
  exists f, (if FIFO_CHLOCK f then ff_set_lock true f else f).
  split; [unfold __fifo_init; fold f; by destruct (FIFO_CHLOCK f)|].
  split; [unfold __fifo_lock; by destruct (FIFO_CHLOCK f)|].
  set (f' := if FIFO_CHLOCK f then _ else _).
  assert (Hf' : ff_size f' = Z.of_nat (length b) ∧ ff_base f' = b ∧ ff_wptr f' = 0 ∧ ff_rptr f' = 0
    ∧ ff_sptr f' = 0 ∧ ff_options f' = options ∧ negb (FIFO_CHLOCK f') || ff_lock f' = true).
  { subst f'. destruct (FIFO_CHLOCK f) eqn:E; split_and!; try done.
    - cbn. by rewrite orb_true_r.
    - by rewrite E. }
  clearbody f'. destruct Hf' as (Hs & Hbase & Hw & Hr & Hsp & Ho & Hl).
  rewrite (ff_run_rep f' (mk_queue [] [])); [unfold TRACKS_STALE; by rewrite Hs, Ho| |done].
  split; [|done]. apply rep_intro; cbn; [done|rewrite Hs; exact Hb|]. rewrite Hs, Hbase, Hw, Hr, Hsp.
  apply rep_init; [apply Hb|done].
Qed.

Lemma __fifo_refines_queue_witness :
  ∃ f f', __fifo_init [] true (Some (replicate 7 0)) 7 1 = (0, Some f) ∧ __fifo_lock 0 f = Some (0, f')
    ∧ __fifo_run f' [OEnq [1; 2; 3; 4; 5]; ODeq 4 false; OFree] = Some [(5, []); (4, [1; 2; 3; 4]); (5, [])].
Proof.
  destruct (__fifo_refines_queue (replicate 7 0) 1 [OEnq [1; 2; 3; 4; 5]; ODeq 4 false; OFree])
    as (f & f' & H1 & H2 & H3);
    [vm_compute; split; [reflexivity|discriminate]
    |repeat (apply List.Forall_cons || apply List.Forall_nil); cbn; lia|].
  exists f, f'. split; [exact H1|]. injection H1 as <-. split; [exact H2|exact H3].
Defined.

(** The deadline of [__fifo_wait_timeout] is the asked number of
    milliseconds ahead and always a valid timespec. *)
Theorem __fifo_deadline sec usec ms : 0 <= usec < 1000000 → 0 <= ms →
  let '(s, ns) := __fifo_abstime sec usec ms in
  s * 1000000000 + ns = (sec * 1000 + ms) * 1000000 + usec * 1000 ∧ 0 <= ns < 1000000000.
Proof.
  intros Hu Hm. unfold __fifo_abstime. pose proof (Z.div_mod ms 1000 ltac:(lia)).
  pose proof (Z.mod_pos_bound ms 1000 ltac:(lia)).
  destruct (Z.leb_spec 1000000000 ((usec + ms mod 1000 * 1000) * 1000)); lia.
Qed.

Lemma __fifo_deadline_witness : __fifo_abstime 5 400000 600 = (6, 0) ∧ 0 <= 0 < 1000000000.
Proof.
  split; [reflexivity|]. exact (proj2 (__fifo_deadline 5 400000 600 ltac:(lia) ltac:(lia))).
Defined.
