(* ===== verification/AudioFifo.v ===== *)
(** lib/audio/fifo.c: the positions of a circular buffer that its client
    keeps, with the lock and the condition variable around them.  [size_t] is
    32 bits wide; a failed [assert] ends the process ([None]); the results of
    the pthread functions are arguments. *)

From S2P Require Import Prelude.

Record fifo := mk_fifo { f_lock : bool; f_rptr : Z; f_wptr : Z; f_size : Z }.

Definition f_set_lock v f := mk_fifo v (f_rptr f) (f_wptr f) (f_size f).
Definition f_set_rptr v f := mk_fifo (f_lock f) v (f_wptr f) (f_size f).
Definition f_set_wptr v f := mk_fifo (f_lock f) (f_rptr f) v (f_size f).

(** [ASSERT_FIFO_LOCKED] before the rest of a function. *)
Definition f_locked {A} (f : fifo) (k : option A) : option A := if f_lock f then k else None.

(** The first pthread initialisation to fail ends [fifo_init]; the lock flag
    keeps whatever the memory held. *)
Fixpoint fifo_init (errs : list Z) (f : fifo) (size : Z) : Z * fifo :=
  match errs with
  | e :: errs' => if e <? 0 then (e, f) else fifo_init errs' f size
  | [] => (0, mk_fifo (f_lock f) 0 0 size)
  end.

Definition fifo_free (f : fifo) : fifo := mk_fifo (f_lock f) 0 0 0.

Definition fifo_empty (f : fifo) : option bool := f_locked f (Some (f_rptr f =? f_wptr f)).

Definition fifo_bytes_used (f : fifo) : option Z :=
  f_locked f (Some (if f_rptr f <=? f_wptr f then u32 (f_wptr f - f_rptr f)
                    else u32 (u32 (f_wptr f - f_rptr f) + f_size f))).

Definition fifo_bytes_free (f : fifo) : option Z :=
  f_locked f (Some (if f_wptr f <? f_rptr f then u32 (f_rptr f - f_wptr f - 1)
                    else u32 (u32 (f_rptr f - f_wptr f) + f_size f - 1))).

Definition fifo_bytes_until_rptr_wrap (f : fifo) : option Z := f_locked f (Some (u32 (f_size f - f_rptr f))).
Definition fifo_bytes_until_wptr_wrap (f : fifo) : option Z := f_locked f (Some (u32 (f_size f - f_wptr f))).

Definition fifo_rptr_incby (f : fifo) (incby : Z) : option fifo :=
  f_locked f (Some (if u32 (f_rptr f + incby) =? f_size f then f_set_rptr 0 f
                    else f_set_rptr (u32 (f_rptr f + incby)) f)).

Definition fifo_wptr_incby (f : fifo) (incby : Z) : option fifo :=
  f_locked f (Some (if u32 (f_wptr f + incby) =? f_size f then f_set_wptr 0 f
                    else f_set_wptr (u32 (f_wptr f + incby)) f)).

(** The lock flag is a bool: [lock++] makes it true, [lock--] negates it. *)
Definition fifo_lock (r : Z) (f : fifo) : Z * fifo := (r, f_set_lock true f).
Definition fifo_unlock (r : Z) (f : fifo) : option (Z * fifo) :=
  f_locked f (Some (r, f_set_lock (negb (f_lock f)) f)).
Definition fifo_signal (r : Z) (f : fifo) : option Z := f_locked f (Some r).

Abbreviation EINTR := 4.
Abbreviation ETIMEDOUT := 110.

(** The absolute time [ms] milliseconds after [sec] and [usec]. *)
Definition fifo_abstime (sec usec ms : Z) : Z * Z :=
  let tv_sec := sec + ms / 1000 in
  let tv_nsec := (usec + (ms mod 1000) * 1000) * 1000 in
  if 1000000000 <=? tv_nsec then (tv_sec + 1, tv_nsec - 1000000000) else (tv_sec, tv_nsec).

Section Waiting.
(** What other threads may change besides the fifo. *)
Context {E : Type}.
(** One pthread_cond_timedwait: its result and the memory after the other
    threads ran. *)
Context (wait : Z * Z → fifo * E → Z * (fifo * E)).

(** [fuel] bounds the number of interrupted waits. *)
Fixpoint fifo_timedwait (fuel : nat) (abstime : Z * Z) (s : fifo * E) : option (Z * (fifo * E)) :=
  match fuel with
  | O => None
  | S fuel => let '(r, s) := wait abstime s in
              if r =? EINTR then fifo_timedwait fuel abstime s else Some (r, s)
  end.

Definition fifo_wait_timeout (fuel : nat) (sec usec ms : Z) (s : fifo * E) : option (Z * (fifo * E)) :=
  f_locked s.1 (
    let s := (f_set_lock (negb (f_lock s.1)) s.1, s.2) in
    '(r, (f, e)) ← fifo_timedwait fuel (fifo_abstime sec usec ms) s;
    Some (r, (f_set_lock true f, e))).
End Waiting.
