(* ===== verification/Mqueue.v ===== *)
(** lib/audio/mqueue.c: the queue of commands to the decoder thread.  A
    message is a 32-bit code followed by its arguments, copied into the
    circular buffer whose positions fifo.c keeps. *)

From S2P Require Import Prelude Endian Ring AudioFifo.

Record mqueue := mk_mqueue { mq_buffer : list Z; mq_fifo : fifo }.

Section Mqueue.
(** The processor's byte order. *)
Context (big : bool).

Definition mqueue_init (errs : list Z) (m : mqueue) (buffer : list Z) : mqueue :=
  mk_mqueue buffer (fifo_init errs (mq_fifo m) (Z.of_nat (length buffer))).2.

(** Each pass copies up to the end of the buffer; [fuel] bounds the passes. *)
Fixpoint mqueue_read_loop (fuel : nat) (m : mqueue) (n : Z) : option (list Z * mqueue) :=
  if n =? 0 then Some ([], m) else
  match fuel with
  | O => None
  | S fuel =>
      bytes_read ← fifo_bytes_until_rptr_wrap (mq_fifo m);
      let bytes_read := if n <? bytes_read then n else bytes_read in
      let b := take (Z.to_nat bytes_read) (drop (Z.to_nat (f_rptr (mq_fifo m))) (mq_buffer m)) in
      f ← fifo_rptr_incby (mq_fifo m) bytes_read;
      '(b', m) ← mqueue_read_loop fuel (mk_mqueue (mq_buffer m) f) (u32 (n - bytes_read));
      Some (b ++ b', m)
  end.

Definition mqueue_read_buf (m : mqueue) (n : nat) : option (list Z * mqueue) :=
  mqueue_read_loop n m (Z.of_nat n).

Fixpoint mqueue_write_loop (fuel : nat) (m : mqueue) (b : list Z) : option mqueue :=
  let n := Z.of_nat (length b) in
  if n =? 0 then Some m else
  match fuel with
  | O => None
  | S fuel =>
      bytes_write ← fifo_bytes_until_wptr_wrap (mq_fifo m);
      let bytes_write := if n <? bytes_write then n else bytes_write in
      let buffer := list_inserts (Z.to_nat (f_wptr (mq_fifo m))) (take (Z.to_nat bytes_write) b) (mq_buffer m) in
      f ← fifo_wptr_incby (mq_fifo m) bytes_write;
      mqueue_write_loop fuel (mk_mqueue buffer f) (drop (Z.to_nat bytes_write) b)
  end.

Definition mqueue_write_buf (m : mqueue) (b : list Z) : option mqueue := mqueue_write_loop (length b) m b.

Definition mqueue_read_u8 (m : mqueue) : option (Z * mqueue) :=
  '(b, m) ← mqueue_read_buf m 1; Some (native_val big b, m).
Definition mqueue_read_u16 (m : mqueue) : option (Z * mqueue) :=
  '(b, m) ← mqueue_read_buf m 2; Some (native_val big b, m).
Definition mqueue_read_u32 (m : mqueue) : option (Z * mqueue) :=
  '(b, m) ← mqueue_read_buf m 4; Some (native_val big b, m).
Definition mqueue_read_u64 (m : mqueue) : option (Z * mqueue) :=
  '(b, m) ← mqueue_read_buf m 8; Some (native_val big b, m).
Definition mqueue_read_array (m : mqueue) (len : nat) : option (list Z * mqueue) := mqueue_read_buf m len.

Definition mqueue_write_u8 (m : mqueue) (val : Z) : option mqueue := mqueue_write_buf m (native big 1 val).
Definition mqueue_write_u16 (m : mqueue) (val : Z) : option mqueue := mqueue_write_buf m (native big 2 val).
Definition mqueue_write_u32 (m : mqueue) (val : Z) : option mqueue := mqueue_write_buf m (native big 4 val).
Definition mqueue_write_u64 (m : mqueue) (val : Z) : option mqueue := mqueue_write_buf m (native big 8 val).
Definition mqueue_write_array (m : mqueue) (array : list Z) : option mqueue := mqueue_write_buf m array.

Definition mq_unlock (m : mqueue) : option mqueue :=
  '(_, f) ← fifo_unlock 0 (mq_fifo m); Some (mk_mqueue (mq_buffer m) f).

(** The code of the next message with the queue left locked, or 0 with the
    queue unlocked.  [locked] is what locking returns, [wait] what happens in
    a wait for a signal. *)
Definition mqueue_read_request (locked : Z) (wait : Z * Z → fifo * list Z → Z * (fifo * list Z))
    (fuel : nat) (sec usec : Z) (m : mqueue) (timeout : Z) : option (Z * mqueue) :=
  let '(r, f) := fifo_lock locked (mq_fifo m) in
  let m := mk_mqueue (mq_buffer m) f in
  if r =? -1 then Some (0, m) else
  used ← fifo_bytes_used (mq_fifo m);
  if c_true used then
    '(b, m) ← mqueue_read_buf m 4; Some (native_val big b, m)
  else if timeout =? 0 then
    m ← mq_unlock m; Some (0, m)
  else
    '(err, (f, buffer)) ← fifo_wait_timeout wait fuel sec usec timeout (mq_fifo m, mq_buffer m);
    let m := mk_mqueue buffer f in
    if err =? ETIMEDOUT then m ← mq_unlock m; Some (0, m)
    else if negb (err =? 0) then m ← mq_unlock m; Some (0, m)
    else
      used ← fifo_bytes_used (mq_fifo m);
      if c_true used then
        '(b, m) ← mqueue_read_buf m 4; Some (native_val big b, m)
      else m ← mq_unlock m; Some (0, m).

Definition mqueue_read_complete (m : mqueue) : option mqueue := mq_unlock m.

Definition mqueue_write_request (locked : Z) (m : mqueue) (code len : Z) : option (bool * mqueue) :=
  let '(r, f) := fifo_lock locked (mq_fifo m) in
  let m := mk_mqueue (mq_buffer m) f in
  if r =? -1 then Some (false, m) else
  free ← fifo_bytes_free (mq_fifo m);
  if free <? len then m ← mq_unlock m; Some (false, m) else
  m ← mqueue_write_buf m (native big 4 code);
  Some (true, m).

Definition mqueue_write_complete (m : mqueue) : option mqueue :=
  _ ← fifo_signal 0 (mq_fifo m);
  mq_unlock m.
End Mqueue.

(** ** The buffer holds a run of bytes *)

Definition mq_rep (m : mqueue) (l : list Z) : Prop :=
  0 < f_size (mq_fifo m) <= 2 ^ 30
  ∧ ring_rep (f_size (mq_fifo m)) (mq_buffer m) (f_rptr (mq_fifo m)) (f_rptr (mq_fifo m)) (f_wptr (mq_fifo m))
      (mk_queue [] l).

Definition mq_locked (m : mqueue) : bool := f_lock (mq_fifo m).
Definition mq_size (m : mqueue) : Z := f_size (mq_fifo m).

(** Same size, chosen lock, holding [l]. *)
Definition mq_next (m m' : mqueue) (lk : bool) (l : list Z) : Prop :=
  mq_rep m' l ∧ mq_locked m' = lk ∧ mq_size m' = mq_size m.

Ltac mq_bounds H :=
  let Hs := fresh "Hsz" in let Hr := fresh "Hrep" in
  destruct H as (Hs & Hr);
  pose proof (rr_r _ _ _ _ _ _ Hr); pose proof (rr_w _ _ _ _ _ _ Hr);
  pose proof (rr_len _ _ _ _ _ _ Hr); pose proof (rr_room _ _ _ _ _ _ Hr) as Hroom;
  unfold q_room, q_used in Hroom; cbn [q_stale q_fresh length] in Hroom.

Lemma used_rep m l : mq_locked m = true → mq_rep m l →
  fifo_bytes_used (mq_fifo m) = Some (Z.of_nat (length l)).
Proof.
  intros Hl H. mq_bounds H. unfold fifo_bytes_used, f_locked. unfold mq_locked in Hl. rewrite Hl. f_equal.
  pose proof (rep_used _ _ _ _ _ _ false Hrep) as Hu. unfold q_used in Hu. cbn in Hu. rewrite Z.add_0_r in Hu.
  rewrite Hu. destruct (Z.leb_spec (f_rptr (mq_fifo m)) (f_wptr (mq_fifo m))).
  - rewrite u32_small by (unfold is_u32; lia). lia.
  - unfold u32. rewrite Zplus_mod_idemp_l. apply Z.mod_small. lia.
Qed.

Lemma free_rep m l : mq_locked m = true → mq_rep m l →
  fifo_bytes_free (mq_fifo m) = Some (mq_size m - 1 - Z.of_nat (length l)).
Proof.
  intros Hl H. mq_bounds H. unfold fifo_bytes_free, f_locked. unfold mq_locked in Hl. rewrite Hl. f_equal.
  pose proof (rep_free _ _ _ _ _ _ Hrep) as Hu. unfold q_room, q_used in Hu. cbn in Hu. unfold mq_size.
  destruct (Z.ltb_spec (f_wptr (mq_fifo m)) (f_rptr (mq_fifo m))).
  - rewrite u32_small by (unfold is_u32; lia). lia.
  - unfold u32. rewrite <- Z.add_sub_assoc, Zplus_mod_idemp_l, Z.mod_small; lia.
Qed.

(** A pass that stays inside the buffer moves its position by [k]. *)
Lemma rptr_pass m k : mq_locked m = true → 0 <= f_rptr (mq_fifo m) → 0 <= k →
  f_rptr (mq_fifo m) + k <= mq_size m <= 2 ^ 30 →
  fifo_rptr_incby (mq_fifo m) k = Some (f_set_rptr (let p := f_rptr (mq_fifo m) + k in
    if p <? mq_size m then p else p - mq_size m) (mq_fifo m)).
Proof.
  intros Hl H0 Hk Hp. unfold fifo_rptr_incby, f_locked. unfold mq_locked, mq_size in *. rewrite Hl. f_equal.
  rewrite u32_small by (unfold is_u32; lia). cbv zeta.
  destruct (Z.eqb_spec (f_rptr (mq_fifo m) + k) (f_size (mq_fifo m))) as [E|E];
    destruct (Z.ltb_spec (f_rptr (mq_fifo m) + k) (f_size (mq_fifo m))); try lia; [|done].
  f_equal. lia.
Qed.

Lemma wptr_pass m k : mq_locked m = true → 0 <= f_wptr (mq_fifo m) → 0 <= k →
  f_wptr (mq_fifo m) + k <= mq_size m <= 2 ^ 30 →
  fifo_wptr_incby (mq_fifo m) k = Some (f_set_wptr (let p := f_wptr (mq_fifo m) + k in
    if p <? mq_size m then p else p - mq_size m) (mq_fifo m)).
Proof.
  intros Hl H0 Hk Hp. unfold fifo_wptr_incby, f_locked. unfold mq_locked, mq_size in *. rewrite Hl. f_equal.
  rewrite u32_small by (unfold is_u32; lia). cbv zeta.
  destruct (Z.eqb_spec (f_wptr (mq_fifo m) + k) (f_size (mq_fifo m))) as [E|E];
    destruct (Z.ltb_spec (f_wptr (mq_fifo m) + k) (f_size (mq_fifo m))); try lia; [|done].
  f_equal. lia.
Qed.

Lemma read_loop_rep fuel m b l : mq_locked m = true → mq_rep m (b ++ l) → (length b <= fuel)%nat →
  ∃ m', mqueue_read_loop fuel m (Z.of_nat (length b)) = Some (b, m') ∧ mq_next m m' true l.
Proof.
  revert m b. induction fuel as [|fuel IH]; intros m b Hl H Hf.
  { destruct b; [|cbn in Hf; lia]. exists m. done. }
  cbn [mqueue_read_loop]. destruct (Z.eqb_spec (Z.of_nat (length b)) 0) as [E|E].
  { destruct b; [|cbn in E; lia]. exists m. done. }
  pose proof H as H'. mq_bounds H'. rewrite length_app in Hroom.
  unfold fifo_bytes_until_rptr_wrap at 1, f_locked. unfold mq_locked in Hl. rewrite Hl. cbn [mbind option_bind].
  rewrite u32_small by (unfold is_u32; lia).
  set (k := if Z.of_nat (length b) <? _ then _ else _).
  assert (Hk : 0 < k <= Z.of_nat (length b) ∧ f_rptr (mq_fifo m) + k <= f_size (mq_fifo m)).
  { unfold k. destruct (Z.ltb_spec (Z.of_nat (length b)) (f_size (mq_fifo m) - f_rptr (mq_fifo m))); lia. }
  clearbody k. rewrite rptr_pass by (unfold mq_locked, mq_size; try done; lia). cbn [mbind option_bind].
  rewrite <- slice_contig with (sz := f_size (mq_fifo m)) by lia.
  pose proof (rep_deq (f_size (mq_fifo m)) ltac:(lia) _ _ _ _ _ k Hrep
    ltac:(cbn [q_fresh]; rewrite length_app; lia)) as Hd. apply rep_forget in Hd; [|lia].
  cbn [q_fresh] in Hd.
  assert (Hout : slice (f_size (mq_fifo m)) (mq_buffer m) (f_rptr (mq_fifo m)) (Z.to_nat k) = take (Z.to_nat k) b).
  { pose proof (rep_fresh_r (f_size (mq_fifo m)) ltac:(lia) _ _ _ _ _ Hrep) as Hfr. cbn [q_fresh] in Hfr.
    rewrite <- (slice_take _ _ _ (length (b ++ l))) by (rewrite length_app; lia).
    rewrite <- Hfr. apply take_app_le. lia. }
  rewrite Hout. rewrite drop_app_le in Hd by lia.
  set (m1 := mk_mqueue _ _).
  destruct (IH m1 (drop (Z.to_nat k) b)) as (m' & Hm' & Hn); [done|by split|rewrite length_drop; lia|].
  replace (u32 (Z.of_nat (length b) - k)) with (Z.of_nat (length (drop (Z.to_nat k) b)))
    by (rewrite length_drop, u32_small by (unfold is_u32; lia); lia).
  rewrite Hm'. cbn [mbind option_bind]. exists m'. rewrite take_drop. done.
Qed.

Lemma read_buf_rep m b l : mq_locked m = true → mq_rep m (b ++ l) →
  ∃ m', mqueue_read_buf m (length b) = Some (b, m') ∧ mq_next m m' true l.
Proof. intros. by apply read_loop_rep. Qed.

Lemma write_loop_rep fuel m l b : mq_locked m = true → mq_rep m l → (length b <= fuel)%nat →
  Z.of_nat (length l) + Z.of_nat (length b) < mq_size m →
  ∃ m', mqueue_write_loop fuel m b = Some m' ∧ mq_next m m' true (l ++ b).
Proof.
  revert m l b. induction fuel as [|fuel IH]; intros m l b Hl H Hf Hfit.
  { destruct b; [|cbn in Hf; lia]. exists m. rewrite app_nil_r. done. }
  cbn [mqueue_write_loop]. destruct (Z.eqb_spec (Z.of_nat (length b)) 0) as [E|E].
  { destruct b; [|cbn in E; lia]. exists m. rewrite app_nil_r. done. }
  pose proof H as H'. mq_bounds H'. unfold mq_size in Hfit.
  unfold fifo_bytes_until_wptr_wrap at 1, f_locked. unfold mq_locked in Hl. rewrite Hl. cbn [mbind option_bind].
  rewrite u32_small by (unfold is_u32; lia).
  set (k := if Z.of_nat (length b) <? _ then _ else _).
  assert (Hk : 0 < k <= Z.of_nat (length b) ∧ f_wptr (mq_fifo m) + k <= f_size (mq_fifo m)).
  { unfold k. destruct (Z.ltb_spec (Z.of_nat (length b)) (f_size (mq_fifo m) - f_wptr (mq_fifo m))); lia. }
  clearbody k. rewrite wptr_pass by (unfold mq_locked, mq_size; try done; lia). cbn [mbind option_bind].
  assert (Ht : Z.of_nat (length (take (Z.to_nat k) b)) = k) by (rewrite length_take; lia).
  rewrite <- (put_contig (f_size (mq_fifo m))) by lia.
  pose proof (rep_enq (f_size (mq_fifo m)) ltac:(lia) _ _ _ _ _ (take (Z.to_nat k) b) Hrep
    ltac:(unfold q_room, q_used; cbn [q_stale q_fresh length]; lia)) as Hd. rewrite Ht in Hd.
  cbn [q_stale q_fresh] in Hd. unfold mq_size. set (m1 := mk_mqueue _ _).
  destruct (IH m1 (l ++ take (Z.to_nat k) b) (drop (Z.to_nat k) b)) as (m' & Hm' & Hn);
    [done|by split|rewrite length_drop; lia|rewrite length_app, length_drop; cbn; lia|].
  exists m'. split; [done|]. by rewrite <- app_assoc, take_drop in Hn.
Qed.

Lemma write_buf_rep m l b : mq_locked m = true → mq_rep m l →
  Z.of_nat (length l) + Z.of_nat (length b) < mq_size m →
  ∃ m', mqueue_write_buf m b = Some m' ∧ mq_next m m' true (l ++ b).
Proof. intros. by apply write_loop_rep. Qed.

Lemma unlock_rep m l : mq_locked m = true → mq_rep m l →
  ∃ m', mq_unlock m = Some m' ∧ mq_next m m' false l.
Proof.
  intros Hl H. unfold mq_unlock, fifo_unlock, f_locked. unfold mq_locked in Hl. rewrite Hl.
  eexists. split; [reflexivity|]. done.
Qed.

Lemma mq_next_trans m m' m'' lk lk' l l' : mq_next m m' lk l → mq_next m' m'' lk' l' → mq_next m m'' lk' l'.
Proof. intros (_ & _ & H) (? & ? & ?). split_and!; try done. congruence. Qed.

(** ** Messages *)

Inductive field :=
  | F8 (v : Z)
  | F16 (v : Z)
  | F32 (v : Z)
  | F64 (v : Z)
  | FArray (l : list Z).

Inductive kind := K8 | K16 | K32 | K64 | KArray (len : nat).

Definition field_kind (f : field) : kind :=
  match f with F8 _ => K8 | F16 _ => K16 | F32 _ => K32 | F64 _ => K64 | FArray l => KArray (length l) end.

Definition field_ok (f : field) : Prop :=
  match f with
  | F8 v => is_u8 v
  | F16 v => is_u16 v
  | F32 v => is_u32 v
  | F64 v => 0 <= v < 2 ^ 64
  | FArray l => bytes l
  end.

Definition field_len (f : field) : Z :=
  match f with F8 _ => 1 | F16 _ => 2 | F32 _ => 4 | F64 _ => 8 | FArray l => Z.of_nat (length l) end.

Record msg := mk_msg { code : Z; args : list field }.

(** The length a caller asks room for. *)
Definition msg_len (x : msg) : Z := 4 + foldr Z.add 0 (field_len <$> args x).

Section Messages.
Context (big : bool).

Definition write_field (m : mqueue) (f : field) : option mqueue :=
  match f with
  | F8 v => mqueue_write_u8 big m v
  | F16 v => mqueue_write_u16 big m v
  | F32 v => mqueue_write_u32 big m v
  | F64 v => mqueue_write_u64 big m v
  | FArray l => mqueue_write_array m l
  end.

Definition read_field (m : mqueue) (k : kind) : option (field * mqueue) :=
  match k with
  | K8 => '(v, m) ← mqueue_read_u8 big m; Some (F8 v, m)
  | K16 => '(v, m) ← mqueue_read_u16 big m; Some (F16 v, m)
  | K32 => '(v, m) ← mqueue_read_u32 big m; Some (F32 v, m)
  | K64 => '(v, m) ← mqueue_read_u64 big m; Some (F64 v, m)
  | KArray len => '(l, m) ← mqueue_read_array m len; Some (FArray l, m)
  end.

Fixpoint write_fields (m : mqueue) (fs : list field) : option mqueue :=
  match fs with
  | [] => Some m
  | f :: fs' => m ← write_field m f; write_fields m fs'
  end.

Fixpoint read_fields (m : mqueue) (ks : list kind) : option (list field * mqueue) :=
  match ks with
  | [] => Some ([], m)
  | k :: ks' => '(f, m) ← read_field m k; '(fs, m) ← read_fields m ks'; Some (f :: fs, m)
  end.

(** A client that asks room for [len] bytes. *)
Definition mq_send_as (len : Z) (m : mqueue) (x : msg) : option (bool * mqueue) :=
  '(ok, m) ← mqueue_write_request big 0 m (code x) len;
  if ok : bool then
    m ← write_fields m (args x);
    m ← mqueue_write_complete m;
    Some (true, m)
  else Some (false, m).

(** A client that asks room for the whole message. *)
Definition mq_send (m : mqueue) (x : msg) : option (bool * mqueue) := mq_send_as (msg_len x) m x.

(** Other threads sending while the decoder waits. *)
Fixpoint mq_sends (m : mqueue) (xs : list msg) : mqueue :=
  match xs with
  | [] => m
  | x :: xs' => match mq_send m x with Some (_, m) => mq_sends m xs' | None => m end
  end.

Definition others (woken : Z) (xs : list msg) (_ : Z * Z) (s : fifo * list Z) : Z * (fifo * list Z) :=
  let m := mq_sends (mk_mqueue s.2 s.1) xs in (woken, (mq_fifo m, mq_buffer m)).

(** The decoder thread: [handler] gives the arguments each code takes. *)
Context (handler : Z → list kind).

Definition mq_recv (m : mqueue) (timeout woken : Z) (xs : list msg) : option (option msg * mqueue) :=
  '(c, m) ← mqueue_read_request big 0 (others woken xs) 1 0 0 m timeout;
  if c =? 0 then Some (None, m) else
  '(fs, m) ← read_fields m (handler c);
  m ← mqueue_read_complete m;
  Some (Some (mk_msg c fs), m).

Inductive mq_op :=
  | Send (x : msg)
  | Recv (timeout woken : Z) (arrivals : list msg).

Definition mq_step (m : mqueue) (o : mq_op) : option (option msg * bool * mqueue) :=
  match o with
  | Send x => '(ok, m) ← mq_send m x; Some (None, ok, m)
  | Recv t w xs => '(x, m) ← mq_recv m t w xs; Some (x, true, m)
  end.

Fixpoint mq_run (m : mqueue) (os : list mq_op) : option (list (option msg * bool)) :=
  match os with
  | [] => Some []
  | o :: os' => '(r, m) ← mq_step m o; rs ← mq_run m os'; Some (r :: rs)
  end.
End Messages.

(** ** The abstract queue of messages *)

Definition msgs_len (q : list msg) : Z := foldr Z.add 0 (msg_len <$> q).

Definition a_send (cap : Z) (q : list msg) (x : msg) : bool * list msg :=
  if msgs_len q + msg_len x <=? cap then (true, q ++ [x]) else (false, q).

Definition a_sends (cap : Z) (q : list msg) (xs : list msg) : list msg :=
  fold_left (λ q x, (a_send cap q x).2) xs q.

Definition a_pop (q : list msg) : option msg * list msg :=
  match q with x :: q' => (Some x, q') | [] => (None, []) end.

Definition a_recv (cap : Z) (q : list msg) (timeout woken : Z) (xs : list msg) : option msg * list msg :=
  match q with
  | x :: q' => (Some x, q')
  | [] => if timeout =? 0 then (None, [])
          else if woken =? 0 then a_pop (a_sends cap [] xs) else (None, a_sends cap [] xs)
  end.

Fixpoint a_run (cap : Z) (q : list msg) (os : list mq_op) : list (option msg * bool) :=
  match os with
  | [] => []
  | Send x :: os' => let '(ok, q) := a_send cap q x in (None, ok) :: a_run cap q os'
  | Recv t w xs :: os' => let '(x, q) := a_recv cap q t w xs in (x, true) :: a_run cap q os'
  end.

(** Codes are non-zero 32-bit integers whose handler takes the arguments. *)
Definition msg_ok (handler : Z → list kind) (x : msg) : Prop :=
  0 < code x < 2 ^ 32 ∧ Forall field_ok (args x) ∧ handler (code x) = field_kind <$> args x.

Definition mq_op_ok (handler : Z → list kind) (o : mq_op) : Prop :=
  match o with
  | Send x => msg_ok handler x
  | Recv _ woken xs => woken ≠ EINTR ∧ Forall (msg_ok handler) xs
  end.

Section Encoding.
Context (big : bool).

Definition field_bytes (f : field) : list Z :=
  match f with
  | F8 v => native big 1 v
  | F16 v => native big 2 v
  | F32 v => native big 4 v
  | F64 v => native big 8 v
  | FArray l => l
  end.

Definition msg_bytes (x : msg) : list Z := native big 4 (code x) ++ (args x ≫= field_bytes).

Lemma length_field f : Z.of_nat (length (field_bytes f)) = field_len f.
Proof. destruct f; cbn [field_bytes field_len]; rewrite ?length_native; done. Qed.

Lemma length_fields fs : Z.of_nat (length (fs ≫= field_bytes)) = foldr Z.add 0 (field_len <$> fs).
Proof.
  induction fs as [|f fs IH]; [done|].
  rewrite bind_cons, fmap_cons, length_app. cbn [foldr]. rewrite <- length_field. lia.
Qed.

Lemma length_msg x : Z.of_nat (length (msg_bytes x)) = msg_len x.
Proof. unfold msg_bytes, msg_len. rewrite length_app, length_native, <- length_fields. lia. Qed.

Lemma length_msgs q : Z.of_nat (length (q ≫= msg_bytes)) = msgs_len q.
Proof.
  induction q as [|x q IH]; [done|]. unfold msgs_len in *.
  rewrite bind_cons, fmap_cons, length_app. cbn [foldr]. rewrite <- length_msg. lia.
Qed.

Lemma write_field_rep m l f : mq_locked m = true → mq_rep m l → Z.of_nat (length l) + field_len f < mq_size m →
  ∃ m', write_field big m f = Some m' ∧ mq_next m m' true (l ++ field_bytes f).
Proof. rewrite <- length_field. destruct f; apply write_buf_rep. Qed.

Lemma write_fields_rep m l fs : mq_locked m = true → mq_rep m l →
  Z.of_nat (length l) + foldr Z.add 0 (field_len <$> fs) < mq_size m →
  ∃ m', write_fields big m fs = Some m' ∧ mq_next m m' true (l ++ (fs ≫= field_bytes)).
Proof.
  revert m l. induction fs as [|f fs IH]; intros m l Hl H Hfit.
  { exists m. cbn. rewrite app_nil_r. done. }
  rewrite fmap_cons in Hfit. rewrite bind_cons. cbn [write_fields foldr] in *.
  pose proof (length_fields fs) as Hlen.
  destruct (write_field_rep m l f Hl H) as (m1 & -> & Hn1); [lia|]. cbn [mbind option_bind].
  pose proof Hn1 as (Hr1 & Hl1 & Hs1).
  destruct (IH m1 _ Hl1 Hr1) as (m2 & -> & Hn2); [rewrite length_app, Hs1, Nat2Z.inj_add, length_field; lia|].
  exists m2. split; [done|]. rewrite <- app_assoc in Hn2. by apply (mq_next_trans _ _ _ _ _ _ _ Hn1).
Qed.

Lemma read_u_rep m w v l : mq_locked m = true → mq_rep m (native big w v ++ l) →
  ∃ m', mqueue_read_buf m w = Some (native big w v, m') ∧ mq_next m m' true l.
Proof.
  intros Hl H. destruct (read_buf_rep m _ l Hl H) as (m' & Hm & Hn). rewrite length_native in Hm. eauto.
Qed.

Lemma read_field_rep m l f : mq_locked m = true → field_ok f → mq_rep m (field_bytes f ++ l) →
  ∃ m', read_field big m (field_kind f) = Some (f, m') ∧ mq_next m m' true l.
Proof.
  intros Hl Hf H. destruct f as [v|v|v|v|a]; cbn [field_bytes field_ok] in *.
  5: { destruct (read_buf_rep m a l Hl H) as (m' & Hm & Hn). exists m'. cbn [read_field field_kind]. unfold mqueue_read_array. by rewrite Hm. }
  all: destruct (read_u_rep m _ v l Hl H) as (m' & Hm & Hn); exists m'; split; [|done];
    cbn [read_field field_kind]; unfold mqueue_read_u8, mqueue_read_u16, mqueue_read_u32, mqueue_read_u64; rewrite Hm; cbn [mbind option_bind];
    rewrite native_val_native; [done|]; unfold is_u8, is_u16, is_u32 in Hf; cbn; lia.
Qed.

Lemma read_fields_rep m l fs : mq_locked m = true → Forall field_ok fs → mq_rep m ((fs ≫= field_bytes) ++ l) →
  ∃ m', read_fields big m (field_kind <$> fs) = Some (fs, m') ∧ mq_next m m' true l.
Proof.
  intros Hl Hfs. revert m Hl. induction Hfs as [|f fs Hf Hfs IH]; intros m Hl H; [by exists m|].
  rewrite bind_cons, <- app_assoc in H. rewrite fmap_cons. cbn [read_fields].
  destruct (read_field_rep m _ f Hl Hf H) as (m1 & -> & Hn1). cbn [mbind option_bind].
  destruct Hn1 as (Hr1 & Hl1 & Hs1). destruct (IH m1 Hl1 Hr1) as (m2 & Hm2 & (? & ? & Hs2)).
  rewrite Hm2. exists m2. split; [done|]. split_and!; try done. congruence.
Qed.

(** ** The clients against the abstract queue *)

(** Unlocked and holding the messages [q]. *)
Definition mq_holds (m : mqueue) (q : list msg) : Prop := mq_rep m (q ≫= msg_bytes).

Lemma lock_rep m l : mq_rep m l →
  mq_rep (mk_mqueue (mq_buffer m) (f_set_lock true (mq_fifo m))) l.
Proof. done. Qed.

Lemma send_rep m q x : mq_holds m q →
  ∃ m', mq_send big m x = Some ((a_send (mq_size m - 1) q x).1, m')
    ∧ mq_holds m' (a_send (mq_size m - 1) q x).2 ∧ mq_locked m' = false ∧ mq_size m' = mq_size m.
Proof.
  intros H. unfold mq_holds in H. set (m0 := mk_mqueue (mq_buffer m) (f_set_lock true (mq_fifo m))).
  assert (H0 : mq_rep m0 (q ≫= msg_bytes)) by done.
  unfold mq_send, mq_send_as, mqueue_write_request, fifo_lock. cbv beta iota. change (0 =? -1) with false. cbv beta iota.
  fold m0. rewrite (free_rep m0 _ eq_refl H0). cbn [mbind option_bind]. rewrite length_msgs.
  change (mq_size m0) with (mq_size m). unfold a_send.
  pose proof (length_fields (args x)). pose proof (length_msgs q).
  destruct (Z.ltb_spec (mq_size m - 1 - msgs_len q) (msg_len x)) as [Hb|Hb];
    destruct (Z.leb_spec (msgs_len q + msg_len x) (mq_size m - 1)); try lia.
  { destruct (unlock_rep m0 _ eq_refl H0) as (m' & -> & (? & ? & ?)). exists m'. done. }
  destruct (write_buf_rep m0 _ (native big 4 (code x)) eq_refl H0) as (m1 & -> & (Hr1 & Hl1 & Hs1)).
  { rewrite length_native. change (mq_size m0) with (mq_size m). unfold msg_len in *. lia. }
  cbn [mbind option_bind].
  destruct (write_fields_rep m1 _ (args x) Hl1 Hr1) as (m2 & -> & (Hr2 & Hl2 & Hs2)).
  { rewrite length_app, length_native, Hs1. change (mq_size m0) with (mq_size m). unfold msg_len in *. lia. }
  cbn [mbind option_bind]. unfold mqueue_write_complete, fifo_signal, f_locked.
  unfold mq_locked in Hl2. rewrite Hl2. cbn [mbind option_bind].
  destruct (unlock_rep m2 _ Hl2 Hr2) as (m3 & -> & (Hr3 & Hl3 & Hs3)). exists m3.
  split_and!; [done| |done|by rewrite Hs3, Hs2, Hs1]. unfold mq_holds. cbn [snd]. rewrite bind_app. cbn [mbind list_bind].
  rewrite app_nil_r. unfold msg_bytes at 2. by rewrite app_assoc.
Qed.

Lemma sends_rep xs m q : mq_holds m q → mq_locked m = false →
  let m' := mq_sends big m xs in
  mq_holds m' (a_sends (mq_size m - 1) q xs) ∧ mq_locked m' = false ∧ mq_size m' = mq_size m.
Proof.
  revert m q. induction xs as [|x xs IH]; intros m q H Hl; [done|]. cbn [mq_sends a_sends fold_left].
  destruct (send_rep m q x H) as (m1 & -> & H1 & Hl1 & Hs1).
  destruct (IH m1 _ H1 Hl1) as (Ha & Hb & Hc). rewrite Hs1 in Ha, Hc. done.
Qed.

Lemma pop_rep m q handler : mq_locked m = true → mq_holds m q → Forall (msg_ok handler) q →
  match q with
  | [] => True
  | x :: q' => ∃ m1 m2 m3, mqueue_read_buf m 4 = Some (native big 4 (code x), m1)
      ∧ read_fields big m1 (handler (code x)) = Some (args x, m2) ∧ mqueue_read_complete m2 = Some m3
      ∧ mq_holds m3 q' ∧ mq_locked m3 = false ∧ mq_size m3 = mq_size m
  end.
Proof.
  intros Hl H Hq. destruct q as [|x q]; [done|]. unfold mq_holds in H. rewrite bind_cons in H.
  inversion Hq as [|? ? (Hc & Ha & Hh) Hq']; subst. unfold msg_bytes at 1 in H. rewrite <- app_assoc in H.
  destruct (read_u_rep m _ _ _ Hl H) as (m1 & Hm1 & (Hr1 & Hl1 & Hs1)).
  destruct (read_fields_rep m1 _ (args x) Hl1 Ha Hr1) as (m2 & Hm2 & (Hr2 & Hl2 & Hs2)).
  destruct (unlock_rep m2 _ Hl2 Hr2) as (m3 & Hm3 & (Hr3 & Hl3 & Hs3)).
  exists m1, m2, m3. rewrite Hh. split_and!; try done. by rewrite Hs3, Hs2.
Qed.

Lemma msgs_nonempty x q : c_true (msgs_len (x :: q)) = true.
Proof.
  rewrite <- length_msgs, bind_cons, length_app. unfold msg_bytes. rewrite length_app, length_native.
  unfold c_true. destruct (Z.eqb_spec (Z.of_nat (4 + length (args x ≫= field_bytes) + length (q ≫= msg_bytes))) 0); [lia|done].
Qed.

Lemma a_sends_ok handler cap xs q : Forall (msg_ok handler) q → Forall (msg_ok handler) xs →
  Forall (msg_ok handler) (a_sends cap q xs).
Proof.
  intros Hq Hxs. revert q Hq. induction Hxs as [|x xs Hx Hxs IH]; intros q Hq; [done|].
  cbn [a_sends fold_left]. apply IH. unfold a_send. destruct (_ <=? _); [|done]. cbn.
  apply Forall_app. auto.
Qed.

(** What the decoder does once the queue is locked and not empty. *)
Lemma recv_tail m q x handler : mq_locked m = true → mq_holds m (x :: q) → Forall (msg_ok handler) (x :: q) →
  ∃ m', ('(c, m) ← ('(b, m) ← mqueue_read_buf m 4; Some (native_val big b, m));
         if c =? 0 then Some (None, m) else
         '(fs, m) ← read_fields big m (handler c);
         m ← mqueue_read_complete m;
         Some (Some (mk_msg c fs), m)) = Some (Some x, m')
    ∧ mq_holds m' q ∧ mq_locked m' = false ∧ mq_size m' = mq_size m.
Proof.
  intros Hl H Hq. destruct (pop_rep m (x :: q) handler Hl H Hq) as (m1 & m2 & m3 & H1 & H2 & H3 & H4).
  inversion Hq as [|? ? (Hc & _) _]; subst. exists m3. split; [|done].
  rewrite H1. cbn [mbind option_bind]. rewrite native_val_native by (cbn; lia).
  destruct (Z.eqb_spec (code x) 0); [lia|]. rewrite H2. cbn [mbind option_bind]. rewrite H3. by destruct x.
Qed.

Lemma recv_rep m q handler t w xs : mq_holds m q → mq_locked m = false → Forall (msg_ok handler) q →
  w ≠ EINTR → Forall (msg_ok handler) xs →
  ∃ m', mq_recv big handler m t w xs = Some ((a_recv (mq_size m - 1) q t w xs).1, m')
    ∧ mq_holds m' (a_recv (mq_size m - 1) q t w xs).2 ∧ mq_locked m' = false ∧ mq_size m' = mq_size m.
Proof.
  intros H Hl Hq Hw Hxs. set (m0 := mk_mqueue (mq_buffer m) (f_set_lock true (mq_fifo m))).
  assert (H0 : mq_holds m0 q) by done.
  unfold mq_recv, mqueue_read_request, fifo_lock. cbv beta iota. change (0 =? -1) with false. cbv beta iota.
  fold m0. rewrite (used_rep m0 _ eq_refl H0). cbn [mbind option_bind]. rewrite length_msgs.
  destruct q as [|x q]; cbn [a_recv].
  2: { rewrite msgs_nonempty. exact (recv_tail m0 q x handler eq_refl H0 Hq). }
  change (c_true (msgs_len [])) with false. cbv beta iota. destruct (t =? 0).
  { destruct (unlock_rep m0 _ eq_refl H0) as (m' & -> & (? & ? & ?)). exists m'. done. }
  unfold fifo_wait_timeout, fifo_timedwait, others. cbn [fst snd mq_fifo mq_buffer f_locked f_lock f_set_lock m0 negb].
  set (m1 := mk_mqueue (mq_buffer m) _).
  destruct (sends_rep xs m1 [] H0 eq_refl) as (Ha & Hb & Hc). change (mq_size m1) with (mq_size m) in *.
  unfold m1 in *. cbn [f_locked f_lock f_set_lock] in *.
  destruct (Z.eqb_spec w EINTR) as [|_]; [done|]. cbn [mbind option_bind].
  set (m2 := mq_sends big _ xs) in *. set (m3 := mk_mqueue (mq_buffer m2) (f_set_lock true (mq_fifo m2))).
  assert (H3 : mq_holds m3 (a_sends (mq_size m - 1) [] xs)) by done.
  pose proof (a_sends_ok handler (mq_size m - 1) xs [] (Forall_nil_2 _) Hxs) as Hok.
  assert (Hun : ∃ m', mq_unlock m3 = Some m' ∧ mq_holds m' (a_sends (mq_size m - 1) [] xs)
    ∧ mq_locked m' = false ∧ mq_size m' = mq_size m).
  { destruct (unlock_rep m3 _ eq_refl H3) as (m' & ? & (? & ? & Hs)). exists m'. by rewrite Hs. }
  fold m3.
  destruct (Z.eqb_spec w ETIMEDOUT) as [->|_].
  { destruct Hun as (m' & -> & ?). by exists m'. }
  destruct (Z.eqb_spec w 0) as [->|_]; cbn [negb].
  2: { destruct Hun as (m' & -> & ?). by exists m'. }
  change (f_set_lock true (mq_fifo m2)) with (mq_fifo m3).
  rewrite (used_rep m3 _ eq_refl H3). cbn [mbind option_bind]. rewrite length_msgs.
  destruct (a_sends (mq_size m - 1) [] xs) as [|x q].
  - destruct Hun as (m' & -> & ?). by exists m'.
  - rewrite msgs_nonempty. destruct (recv_tail m3 q x handler eq_refl H3 Hok) as (m' & Hm & Ha' & Hb' & Hc').
    exists m'. split; [exact Hm|]. split; [done|]. split; [done|]. by rewrite Hc'.
Qed.

Lemma mq_run_rep handler os m q : mq_holds m q → mq_locked m = false → Forall (msg_ok handler) q →
  Forall (mq_op_ok handler) os →
  mq_run big handler m os = Some (a_run (mq_size m - 1) q os).
Proof.
  intros H Hl Hq Hos. revert m q H Hl Hq. induction Hos as [|o os Ho Hos IH]; intros m q H Hl Hq; [done|].
  destruct o as [x|t w xs]; cbn [mq_run mq_step a_run].
  - destruct (send_rep m q x H) as (m' & -> & H' & Hl' & Hs'). cbn [mbind option_bind].
    rewrite (IH m' _ H' Hl'), Hs'; [by destruct (a_send _ q x)|].
    unfold a_send. destruct (_ <=? _); [|done]. cbn. apply Forall_app. auto.
  - destruct Ho as [Hw Hxs]. destruct (recv_rep m q handler t w xs H Hl Hq Hw Hxs) as (m' & -> & H' & Hl' & Hs').
    cbn [mbind option_bind]. rewrite (IH m' _ H' Hl'), Hs'; [by destruct (a_recv _ q t w xs)|].
    destruct q as [|x q]; [|by inversion Hq]. cbn. destruct (t =? 0); [done|].
    pose proof (a_sends_ok handler (mq_size m - 1) xs [] (Forall_nil_2 _) Hxs) as Hok.
    destruct (w =? 0); [|done]. unfold a_pop. destruct (a_sends _ [] xs); [done|by inversion Hok].
Qed.
End Encoding.

(** C23.  A message queue whose clients ask room for whole messages is a
    bounded first-in first-out queue of messages: for every sequence of sends,
    receives and waits (with other threads sending meanwhile), a send is
    refused exactly when the message does not fit, and each receive hands the
    decoder the code and the argument values of the oldest message. *)
Theorem mqueue_refines_messages big handler m b os : 0 < Z.of_nat (length b) <= 2 ^ 30 →
  f_lock (mq_fifo m) = false → Forall (mq_op_ok handler) os →
  mq_run big handler (mqueue_init [] m b) os = Some (a_run (Z.of_nat (length b) - 1) [] os).
Proof.
  intros Hb Hl Hos. rewrite (mq_run_rep big handler os _ []); [done| |done|done|done].
  split; [done|]. apply rep_init; cbn; [lia|done].
Qed.

(** A handler table and a run that wraps around a 32-byte buffer. *)
Definition demo_handler (c : Z) : list kind := if c =? 1 then [K32] else if c =? 2 then [K8; K64] else [KArray 3].
Definition demo_mqueue : mqueue := mk_mqueue [] (mk_fifo false 0 0 0).
Definition demo_msgs : list mq_op :=
  [Send (mk_msg 1 [F32 70000]); Send (mk_msg 2 [F8 9; F64 123456789012]); Send (mk_msg 3 [FArray [7; 8; 9]]);
   Recv 0 0 []; Send (mk_msg 3 [FArray [7; 8; 9]]); Recv 0 0 []; Recv 0 0 []; Recv 5 ETIMEDOUT [];
   Recv 5 0 [mk_msg 1 [F32 5]]].

Lemma mqueue_refines_messages_witness :
  mq_run true demo_handler (mqueue_init [] demo_mqueue (replicate 26 0)) demo_msgs
  = Some [(None, true); (None, true); (None, false); (Some (mk_msg 1 [F32 70000]), true); (None, true);
          (Some (mk_msg 2 [F8 9; F64 123456789012]), true); (Some (mk_msg 3 [FArray [7; 8; 9]]), true);
          (None, true); (Some (mk_msg 1 [F32 5]), true)].
Proof.
  apply (mqueue_refines_messages true demo_handler demo_mqueue (replicate 26 0) demo_msgs).
  - vm_compute. split; [reflexivity|discriminate].
  - reflexivity.
  - unfold demo_msgs. repeat (apply List.Forall_cons || apply List.Forall_nil); cbn; unfold msg_ok; cbn;
      unfold_ints; repeat (split || apply List.Forall_cons || apply List.Forall_nil); cbn; try lia; try done.
Defined.

(** ** Requests for less room than the message takes *)

(** After writing [n] bytes, room or not. *)
Definition moved (m m' : mqueue) (n : Z) : Prop :=
  mq_locked m' = true ∧ mq_size m' = mq_size m ∧ length (mq_buffer m') = length (mq_buffer m)
  ∧ f_rptr (mq_fifo m') = f_rptr (mq_fifo m)
  ∧ f_wptr (mq_fifo m') = (f_wptr (mq_fifo m) + n) mod mq_size m.

Definition mq_sane (m : mqueue) : Prop := 0 <= f_wptr (mq_fifo m) < mq_size m ∧ mq_size m <= 2 ^ 30.

Lemma moved_sane m m' n : mq_sane m → moved m m' n → mq_sane m'.
Proof.
  unfold mq_sane. intros H (_ & -> & _ & _ & ->).
  pose proof (Z.mod_pos_bound (f_wptr (mq_fifo m) + n) (mq_size m) ltac:(lia)). lia.
Qed.

Lemma moved_trans m m' m'' n k : mq_sane m → moved m m' n → moved m' m'' k → moved m m'' (n + k).
Proof.
  intros H (_ & Hs & Hb & Hr & Hw) (Hl & Hs' & Hb' & Hr' & Hw'). unfold mq_sane in H.
  unfold moved. split_and!; try congruence. rewrite Hw', Hw, Hs, Zplus_mod_idemp_l. f_equal. lia.
Qed.

Lemma moved_refl m : mq_locked m = true → mq_sane m → moved m m 0.
Proof. unfold mq_sane. intros. unfold moved. rewrite Z.add_0_r, Z.mod_small by lia. done. Qed.

Lemma write_loop_moves fuel m b : mq_locked m = true → mq_sane m → (length b <= fuel)%nat →
  ∃ m', mqueue_write_loop fuel m b = Some m' ∧ moved m m' (Z.of_nat (length b)).
Proof.
  revert m b. induction fuel as [|fuel IH]; intros m b Hl H Hf.
  { destruct b; [|cbn in Hf; lia]. exists m. split; [done|]. by apply moved_refl. }
  cbn [mqueue_write_loop]. destruct (Z.eqb_spec (Z.of_nat (length b)) 0) as [E|E].
  { rewrite E. exists m. split; [done|]. by apply moved_refl. }
  pose proof H as H'. unfold mq_sane in H'.
  unfold fifo_bytes_until_wptr_wrap at 1, f_locked. unfold mq_locked in Hl. rewrite Hl. cbn [mbind option_bind].
  fold (mq_size m). rewrite u32_small by (unfold is_u32; lia). set (k := if Z.of_nat (length b) <? _ then _ else _).
  assert (Hk : 0 < k <= Z.of_nat (length b) ∧ f_wptr (mq_fifo m) + k <= mq_size m)
    by (unfold k; destruct (Z.ltb_spec (Z.of_nat (length b)) (mq_size m - f_wptr (mq_fifo m))); lia).
  clearbody k. rewrite wptr_pass by (try done; lia). cbn [mbind option_bind]. set (m1 := mk_mqueue _ _).
  assert (Hm1 : moved m m1 k).
  { unfold moved. split_and!; try done; [cbn; by rewrite length_inserts|]. unfold m1. cbn.
    destruct (Z.ltb_spec (f_wptr (mq_fifo m) + k) (mq_size m)); [by rewrite Z.mod_small by lia|].
    replace (f_wptr (mq_fifo m) + k) with (mq_size m) by lia. rewrite Z.mod_same by lia. lia. }
  destruct (IH m1 (drop (Z.to_nat k) b)) as (m' & Hm' & Hmv);
    [apply Hm1|by apply (moved_sane m m1 k)|rewrite length_drop; lia|].
  exists m'. split; [done|]. replace (Z.of_nat (length b)) with (k + Z.of_nat (length (drop (Z.to_nat k) b)))
    by (rewrite length_drop; lia). by apply (moved_trans m m1).
Qed.

Lemma write_fields_moves big m fs : mq_locked m = true → mq_sane m →
  ∃ m', write_fields big m fs = Some m' ∧ moved m m' (foldr Z.add 0 (field_len <$> fs)).
Proof.
  revert m. induction fs as [|f fs IH]; intros m Hl H; [exists m; split; [done|by apply moved_refl]|].
  rewrite fmap_cons. cbn [write_fields foldr].
  assert (Hf : ∃ m', write_field big m f = Some m' ∧ moved m m' (field_len f))
    by (rewrite <- (length_field big f); destruct f; by apply write_loop_moves).
  destruct Hf as (m1 & -> & Hm1). cbn [mbind option_bind].
  destruct (IH m1) as (m2 & -> & Hm2); [apply Hm1|by apply (moved_sane m m1 (field_len f))|].
  exists m2. split; [done|]. by apply (moved_trans m m1).
Qed.

(** C36.  The check in [mqueue_write_request] is only as good as the length
    its caller gives.  A client that asks for less room than its message takes
    can be granted the request, and when the message reaches exactly around
    the buffer the queue ends empty: the client is told that its message was
    queued, but it and every message queued before it are lost. *)
Theorem mqueue_short_request big m q x len : mq_holds big m q →
  0 <= len <= mq_size m - 1 - msgs_len q → msgs_len q + msg_len x = mq_size m →
  ∃ m', mq_send_as big len m x = Some (true, m') ∧ mq_holds big m' [] ∧ mq_locked m' = false.
Proof.
  intros H Hlen Hfull. pose proof H as H'. mq_bounds H'.
  pose proof (length_msgs big q) as Hq. rewrite Hq in Hroom.
  set (m0 := mk_mqueue (mq_buffer m) (f_set_lock true (mq_fifo m))).
  assert (Hm0 : mq_sane m0) by (unfold mq_sane, mq_size in *; cbn; lia).
  unfold mq_send_as, mqueue_write_request, fifo_lock. cbv beta iota. change (0 =? -1) with false. cbv beta iota.
  fold m0. rewrite (free_rep m0 (q ≫= msg_bytes big) eq_refl H). cbn [mbind option_bind]. rewrite Hq.
  change (mq_size m0) with (mq_size m).
  destruct (Z.ltb_spec (mq_size m - 1 - msgs_len q) len); [lia|].
  destruct (write_loop_moves (length (native big 4 (code x))) m0 (native big 4 (code x)) eq_refl Hm0 ltac:(lia))
    as (m1 & Hm1 & Hmv1). unfold mqueue_write_buf. rewrite Hm1. cbn [mbind option_bind]. rewrite length_native in Hmv1.
  destruct (write_fields_moves big m1 (args x)) as (m2 & -> & Hmv2);
    [apply Hmv1|by apply (moved_sane m0 m1 4)|].
  pose proof (moved_trans m0 m1 m2 _ _ Hm0 Hmv1 Hmv2) as (Hl2 & Hs2 & Hb2 & Hr2 & Hw2).
  change (Z.of_nat 4 + foldr Z.add 0 (field_len <$> args x)) with (msg_len x) in Hw2.
  cbn [mbind option_bind]. unfold mqueue_write_complete, fifo_signal, mq_unlock, fifo_unlock, f_locked.
  unfold mq_locked in Hl2. rewrite Hl2. cbn [mbind option_bind]. eexists. split; [reflexivity|]. split; [|done].
  unfold mq_holds, mq_rep. unfold mq_size in *. cbn [mq_fifo mq_buffer f_set_lock f_size f_rptr f_wptr m0] in *.
  assert (Hw : f_wptr (mq_fifo m2) = f_rptr (mq_fifo m)).
  { rewrite Hw2. pose proof (rr_ws _ _ _ _ _ _ Hrep) as Hws. cbn in Hws. rewrite Hq in Hws.
    rewrite <- (Z.mod_small (f_rptr (mq_fifo m)) (f_size (mq_fifo m))) by lia.
    destruct Hws as [-> | ->]; [replace (_ + 0 + _ + _) with (f_rptr (mq_fifo m) + 1 * f_size (mq_fifo m)) by lia;
      by rewrite Z.mod_add by lia|f_equal; lia]. }
  rewrite Hs2, Hr2, Hw. split; [done|]. constructor; cbn; try lia; try done.
  - unfold q_room, q_used. cbn. lia.
Qed.

(** The callers pass the length of the arguments, or 0, without the code: a
    32-byte queue holding three messages, then a pause that asks for four bytes. *)
Definition full_ops : list msg := [mk_msg 1 [F32 1]; mk_msg 1 [F32 2]; mk_msg 1 [F32 3]].
Definition full_mqueue : mqueue := mq_sends true (mqueue_init [] demo_mqueue (replicate 32 0)) full_ops.

Lemma mqueue_short_request_witness :
  mq_holds true full_mqueue full_ops
  ∧ ∃ m', mq_send_as true 4 full_mqueue (mk_msg 1 [F32 4]) = Some (true, m')
    ∧ mq_holds true m' [] ∧ mq_locked m' = false.
Proof.
  assert (H : mq_holds true full_mqueue full_ops).
  { apply (sends_rep true full_ops (mqueue_init [] demo_mqueue (replicate 32 0)) []); [|reflexivity].
    split; [vm_compute; split; [reflexivity|discriminate]|]. apply rep_init; vm_compute; reflexivity. }
  split; [exact H|].
  apply (mqueue_short_request true full_mqueue full_ops (mk_msg 1 [F32 4]) 4 H); [|reflexivity].
  vm_compute. split; discriminate.
Defined.
