(* ===== verification/Streambuf.v ===== *)
(** lib/audio/streambuf.c: the buffer between the network and the decoder.
    Audio data and inline commands share one fifo2; a ring of nine counters
    says how much data precedes each command, once for the bytes not yet read
    and once for the bytes not yet discarded (the state a second device is
    synchronised from).  A failed [assert], an [exit] and an access outside an
    array are [None]. *)

From S2P Require Import Prelude Endian Ring Fifo2.

Abbreviation MAX_STREAM_CMDS := 8.

Record streambuf := mk_streambuf {
  slot_cnt : list Z;
  cmd_cnt : Z;
  eslot : Z;
  dslot : Z;
  sfifo : fifo2;
  streaming : bool;
  allow_auto_discard : bool;
  allow_discard : bool;
  allow_writes : bool;
  bytes_received : Z;
  discard_data_on_thaw : Z;
  discard_cmd_on_thaw : Z;
  cmd_cnt_stale : Z;
  sslot : Z;
  slot_cnt_stale : list Z;
  state_sync : list Z
}.

(** The fields each group of assignments writes. *)
Definition set_sfifo v s := mk_streambuf (slot_cnt s) (cmd_cnt s) (eslot s) (dslot s) v (streaming s)
  (allow_auto_discard s) (allow_discard s) (allow_writes s) (bytes_received s) (discard_data_on_thaw s)
  (discard_cmd_on_thaw s) (cmd_cnt_stale s) (sslot s) (slot_cnt_stale s) (state_sync s).
Definition set_streaming v s := mk_streambuf (slot_cnt s) (cmd_cnt s) (eslot s) (dslot s) (sfifo s) v
  (allow_auto_discard s) (allow_discard s) (allow_writes s) (bytes_received s) (discard_data_on_thaw s)
  (discard_cmd_on_thaw s) (cmd_cnt_stale s) (sslot s) (slot_cnt_stale s) (state_sync s).
Definition set_received v s := mk_streambuf (slot_cnt s) (cmd_cnt s) (eslot s) (dslot s) (sfifo s) (streaming s)
  (allow_auto_discard s) (allow_discard s) (allow_writes s) v (discard_data_on_thaw s)
  (discard_cmd_on_thaw s) (cmd_cnt_stale s) (sslot s) (slot_cnt_stale s) (state_sync s).
Definition set_allow ad d w s := mk_streambuf (slot_cnt s) (cmd_cnt s) (eslot s) (dslot s) (sfifo s) (streaming s)
  ad d w (bytes_received s) (discard_data_on_thaw s)
  (discard_cmd_on_thaw s) (cmd_cnt_stale s) (sslot s) (slot_cnt_stale s) (state_sync s).
Definition set_on_thaw d c s := mk_streambuf (slot_cnt s) (cmd_cnt s) (eslot s) (dslot s) (sfifo s) (streaming s)
  (allow_auto_discard s) (allow_discard s) (allow_writes s) (bytes_received s) d
  c (cmd_cnt_stale s) (sslot s) (slot_cnt_stale s) (state_sync s).
(** The counters of unread data: slots, commands, first slot. *)
Definition set_fresh sl c d s := mk_streambuf sl c (eslot s) d (sfifo s) (streaming s)
  (allow_auto_discard s) (allow_discard s) (allow_writes s) (bytes_received s) (discard_data_on_thaw s)
  (discard_cmd_on_thaw s) (cmd_cnt_stale s) (sslot s) (slot_cnt_stale s) (state_sync s).
(** The counters of undiscarded data. *)
Definition set_stale sl c b s := mk_streambuf (slot_cnt s) (cmd_cnt s) (eslot s) (dslot s) (sfifo s) (streaming s)
  (allow_auto_discard s) (allow_discard s) (allow_writes s) (bytes_received s) (discard_data_on_thaw s)
  (discard_cmd_on_thaw s) c b sl (state_sync s).
Definition set_eslot v s := mk_streambuf (slot_cnt s) (cmd_cnt s) v (dslot s) (sfifo s) (streaming s)
  (allow_auto_discard s) (allow_discard s) (allow_writes s) (bytes_received s) (discard_data_on_thaw s)
  (discard_cmd_on_thaw s) (cmd_cnt_stale s) (sslot s) (slot_cnt_stale s) (state_sync s).
Definition set_sync v s := mk_streambuf (slot_cnt s) (cmd_cnt s) (eslot s) (dslot s) (sfifo s) (streaming s)
  (allow_auto_discard s) (allow_discard s) (allow_writes s) (bytes_received s) (discard_data_on_thaw s)
  (discard_cmd_on_thaw s) (cmd_cnt_stale s) (sslot s) (slot_cnt_stale s) v.

(** [a[i]] and [a[i] = v] of a C array. *)
Definition aget (a : list Z) (i : Z) : option Z := a !! Z.to_nat i.
Definition aset (a : list Z) (i v : Z) : option (list Z) :=
  if (Z.to_nat i <? length a)%nat then Some (<[Z.to_nat i := v]> a) else None.

Definition next_slot (i : Z) : Z := if i =? MAX_STREAM_CMDS then 0 else u32 (i + 1).

(** [fifo2_lock] and [fifo2_unlock] around a body. *)
Definition sb_lock (s : streambuf) : streambuf := set_sfifo (fifo2_lock 0 (sfifo s)).2 s.
Definition sb_unlock (s : streambuf) : option streambuf :=
  '(_, f) ← fifo2_unlock 0 (sfifo s); Some (set_sfifo f s).

Section Streambuf.
(** The size of the buffer, a macro. *)
Context (STREAMBUF_SIZE : Z).
(** The processor's byte order. *)
Context (big : bool).

(** The static variables at start-up; [streambuf_data] is zeroed memory. *)
Definition streambuf_static : streambuf :=
  mk_streambuf (replicate 9 0) 0 0 0 (mk_fifo2 false [] 0 0 0 0) false false true true 0 0 0 0 0
    (replicate 9 0) (replicate 4 0).

Definition streambuf_init (s : streambuf) : streambuf :=
  set_sfifo (fifo2_init [] (sfifo s) (replicate (Z.to_nat STREAMBUF_SIZE) 0) STREAMBUF_SIZE).2 s.

Definition streambuf_get_size : Z := STREAMBUF_SIZE.

Definition streambuf_get_freebytes (s : streambuf) : option (Z * streambuf) :=
  let s := sb_lock s in
  n ← (if allow_writes s then fifo2_bytes_free (sfifo s) else Some 0);
  s ← sb_unlock s;
  Some (n, s).

Definition streambuf_get_usedbytes (s : streambuf) : option (Z * streambuf) :=
  let s := sb_lock s in
  n ← fifo2_bytes_used (sfifo s) false;
  s ← sb_unlock s;
  Some (n, s).

Definition streambuf_fast_usedbytes (s : streambuf) : option Z :=
  locked (sfifo s) (fifo2_bytes_used (sfifo s) false).

Definition streambuf_get_data_usedbytes (s : streambuf) : option (Z * streambuf) :=
  let s := sb_lock s in
  size ← aget (slot_cnt s) (dslot s);
  s ← sb_unlock s;
  Some (size, s).

Definition streambuf_would_wait_for (s : streambuf) (n : Z) : option (bool * streambuf) :=
  if negb (streaming s) then Some (false, s) else
  '(used, s) ← streambuf_get_data_usedbytes s;
  Some (used <? n, s).

(** Size, used bytes, low and high half of the bytes received. *)
Definition streambuf_get_status (s : streambuf) : option (Z * Z * Z * Z * streambuf) :=
  let s := sb_lock s in
  used ← (if allow_writes s then fifo2_bytes_used (sfifo s) true else Some STREAMBUF_SIZE);
  let bytesL := Z.land (bytes_received s) 0xFFFFFFFF in
  let bytesH := u32 (Z.shiftr (bytes_received s) 32) in
  s ← sb_unlock s;
  Some (STREAMBUF_SIZE, used, bytesL, bytesH, s).

Definition streambuf_flush (s : streambuf) : option streambuf :=
  let s := sb_lock s in
  f ← fifo2_flush (sfifo s);
  let s := set_sfifo f s in
  let s := set_allow false true (allow_writes s) s in
  let s := set_on_thaw 0 0 s in
  let s := set_fresh (replicate 9 0) 0 0 s in
  let s := set_stale (replicate 9 0) 0 0 s in
  let s := set_eslot 0 s in
  sb_unlock s.

Definition streambuf_set_streaming (s : streambuf) (is_streaming : bool) : streambuf :=
  set_streaming is_streaming s.
Definition streambuf_is_streaming (s : streambuf) : bool := streaming s.

(** The inner loop: steps over empty slots up to the last one; at most a
    turn of the ring, given by [fuel]. *)
Fixpoint skip_empty (fuel : nat) (s : streambuf) : option streambuf :=
  cnt ← aget (slot_cnt_stale s) (sslot s);
  if negb (sslot s =? eslot s) && (cnt =? 0) then
    match fuel with
    | O => None
    | S fuel => skip_empty fuel (set_stale (slot_cnt_stale s) (u32 (cmd_cnt_stale s - 1)) (next_slot (sslot s)) s)
    end
  else Some s.

(** The do-while loop; [fuel] bounds its passes. *)
Fixpoint dec_loop (fuel : nat) (s : streambuf) (bytes_left : Z) : option streambuf :=
  match fuel with
  | O => None
  | S fuel =>
      cnt ← aget (slot_cnt_stale s) (sslot s);
      if cnt <=? bytes_left then
        let bytes_left := u32 (bytes_left - cnt) in
        sl ← aset (slot_cnt_stale s) (sslot s) 0;
        s ← skip_empty 9 (set_stale sl (cmd_cnt_stale s) (sslot s) s);
        if bytes_left =? 0 then Some s else dec_loop fuel s bytes_left
      else
        sl ← aset (slot_cnt_stale s) (sslot s) (u32 (cnt - bytes_left));
        Some (set_stale sl (cmd_cnt_stale s) (sslot s) s)
  end.

Definition streambuf_dec_cnt_stale (s : streambuf) (size : Z) : option streambuf :=
  locked (sfifo s) (dec_loop 10 s size).

Definition streambuf_data_enq (s : streambuf) (buf : list Z) : option (bool * streambuf) :=
  let size := Z.of_nat (length buf) in
  let s := sb_lock s in
  let s := set_streaming true s in
  let s := set_received (u64 (bytes_received s + size)) s in
  n ← aget (slot_cnt s) (eslot s);
  sl ← aset (slot_cnt s) (eslot s) (u32 (n + size));
  let s := set_fresh sl (cmd_cnt s) (dslot s) s in
  n ← aget (slot_cnt_stale s) (eslot s);
  sl ← aset (slot_cnt_stale s) (eslot s) (u32 (n + size));
  let s := set_stale sl (cmd_cnt_stale s) (sslot s) s in
  '(_, f) ← fifo2_enq (sfifo s) buf;
  let s := set_sfifo f s in
  s ← sb_unlock s;
  Some (true, s).

Definition streambuf_feed (s : streambuf) (buf : list Z) : option streambuf :=
  if negb (allow_writes s) then None else
  '(_, s) ← streambuf_data_enq s buf;
  Some s.

(** The number of bytes read, the bytes and the streaming flag. *)
Definition streambuf_data_deq (s : streambuf) (min max : Z) : option (Z * list Z * bool * streambuf) :=
  let s := sb_lock s in
  size ← aget (slot_cnt s) (dslot s);
  let size := if size <? min then 0 else size in
  let size := if max <? size then max else size in
  let str := streaming s in
  '(out, s) ← (if c_true size then
                 '(_, out, f) ← fifo2_deq (sfifo s) true size (allow_auto_discard s);
                 let s := set_sfifo f s in
                 n ← aget (slot_cnt s) (dslot s);
                 sl ← aset (slot_cnt s) (dslot s) (u32 (n - size));
                 Some (out, set_fresh sl (cmd_cnt s) (dslot s) s)
               else Some ([], s));
  _ ← fifo2_signal 0 (sfifo s);
  s ← sb_unlock s;
  Some (size, out, str, s).

Definition streambuf_read (s : streambuf) (min max : Z) : option (Z * list Z * bool * streambuf) :=
  streambuf_data_deq s min max.

Definition streambuf_cmd_ready (s : streambuf) : option (Z * streambuf) :=
  let s := sb_lock s in
  n ← aget (slot_cnt s) (dslot s);
  code ← (if c_true (cmd_cnt s) && (n =? 0) then
            '(r, b) ← fifo2_read (sfifo s) true 0 4 false;
            Some (if c_true r then native_val big b else 0)
          else Some 0);
  s ← sb_unlock s;
  Some (code, s).

(** A command that cannot be queued ends the process. *)
Definition streambuf_cmd_enq (s : streambuf) (buf : list Z) : option (bool * streambuf) :=
  let s := sb_lock s in
  free ← fifo2_bytes_free (sfifo s);
  '(ret, s) ← (if negb (cmd_cnt_stale s =? MAX_STREAM_CMDS) && (Z.of_nat (length buf) <? free) then
                 '(_, f) ← fifo2_enq (sfifo s) buf;
                 let s := set_sfifo f s in
                 let s := set_eslot (next_slot (eslot s)) s in
                 let s := set_fresh (slot_cnt s) (u32 (cmd_cnt s + 1)) (dslot s) s in
                 let s := set_stale (slot_cnt_stale s) (u32 (cmd_cnt_stale s + 1)) (sslot s) s in
                 Some (true, s)
               else Some (false, s));
  s ← sb_unlock s;
  if negb ret then None else Some (ret, s).

Definition streambuf_cmd_deq (s : streambuf) (size : Z) : option (Z * list Z * streambuf) :=
  let s := sb_lock s in
  n ← aget (slot_cnt s) (dslot s);
  '(deqed, out, s) ← (if c_true (cmd_cnt s) && (n =? 0) then
      '(deqed, out, f) ← fifo2_deq (sfifo s) true size (allow_auto_discard s);
      let s := set_sfifo f s in
      Some (deqed, out, if c_true deqed
                        then set_fresh (slot_cnt s) (u32 (cmd_cnt s - 1)) (next_slot (dslot s)) s else s)
    else Some (0, [], s));
  s ← sb_unlock s;
  Some (deqed, out, s).

Definition streambuf_discard (s : streambuf) (size : Z) (data : bool) : option (Z * streambuf) :=
  let s := sb_lock s in
  '(discarded, s) ← (if allow_discard s then
      '(discarded, f) ← fifo2_discard (sfifo s) size;
      let s := set_sfifo f s in
      s ← streambuf_dec_cnt_stale s (if data : bool then discarded else 0);
      Some (discarded, s)
    else
      stale ← fifo2_bytes_used (sfifo s) true;
      fresh ← fifo2_bytes_used (sfifo s) false;
      let discarded := u32 (stale - fresh - discard_data_on_thaw s - discard_cmd_on_thaw s) in
      let discarded := if discarded <? size then discarded else size in
      Some (discarded,
            if data then set_on_thaw (u32 (discard_data_on_thaw s + discarded)) (discard_cmd_on_thaw s) s
            else set_on_thaw (discard_data_on_thaw s) (u32 (discard_cmd_on_thaw s + discarded)) s));
  s ← sb_unlock s;
  Some (discarded, s).

(** Stale, fresh and free bytes, then the three positions. *)
Definition streambuf_fifo_debug (s : streambuf) : option (Z * Z * Z * Z * Z * Z * streambuf) :=
  let s := sb_lock s in
  stale ← fifo2_bytes_used (sfifo s) true;
  fresh ← fifo2_bytes_used (sfifo s) false;
  free ← fifo2_bytes_free (sfifo s);
  let sp := sptr (sfifo s) in let rp := rptr (sfifo s) in let wp := wptr (sfifo s) in
  s ← sb_unlock s;
  Some (stale, fresh, free, sp, rp, wp, s).

(** Freeze and thaw. *)
Definition streambuf_lock_state (s : streambuf) (lock : bool) : option streambuf :=
  let s := sb_lock s in
  s ← (if lock then
         let s := set_allow false false false s in
         used ← fifo2_bytes_used (sfifo s) true;
         Some (set_sync [cmd_cnt_stale s; eslot s; sslot s; used] s)
       else
         let s := set_allow false true true s in
         s ← streambuf_dec_cnt_stale s (discard_data_on_thaw s);
         '(_, f) ← fifo2_discard (sfifo s) (u32 (discard_data_on_thaw s + discard_cmd_on_thaw s));
         Some (set_on_thaw 0 0 (set_sfifo f s)));
  sb_unlock s.

Definition streambuf_restore_state (s : streambuf) : option streambuf :=
  let s := sb_lock s in
  s0 ← state_sync s !! 0%nat;
  s1 ← state_sync s !! 1%nat;
  s2 ← state_sync s !! 2%nat;
  let s := set_fresh (slot_cnt_stale s) s0 s2 s in
  let s := set_stale (slot_cnt_stale s) s0 s2 s in
  let s := set_eslot s1 s in
  sb_unlock s.

(** The number of bytes stored and the bytes; none if they do not fit. *)
Definition streambuf_sync_read_state (s : streambuf) (size : Z) : option (Z * list Z * streambuf) :=
  let ret := 4 * 9 + 4 * 4 in
  let s := sb_lock s in
  let '(ret, out) := if ret <=? size then (ret, words big (slot_cnt_stale s) ++ words big (state_sync s))
                     else (0, []) in
  s ← sb_unlock s;
  Some (ret, out, s).

Definition streambuf_sync_read_data (s : streambuf) (offset size : Z) : option (Z * list Z * streambuf) :=
  let s := sb_lock s in
  bytes_read ← fifo2_bytes_used (sfifo s) true;
  let size := if bytes_read <? u32 (size + offset) then u32 (bytes_read - offset) else size in
  '(bytes_read, out) ← (if c_true size then fifo2_read (sfifo s) true offset size true else Some (0, []));
  s ← sb_unlock s;
  Some (bytes_read, out, s).

Definition streambuf_sync_write_state (s : streambuf) (buf : list Z) : option (Z * streambuf) :=
  s ← streambuf_flush s;
  let s := sb_lock s in
  let '(ret, s) :=
    if Z.of_nat (length buf) =? 4 * 9 + 4 * 4 then
      let s := set_stale (words_val big 9 buf) (cmd_cnt_stale s) (sslot s) s in
      let s := set_sync (words_val big 4 (drop (4 * 9) buf)) s in
      (state_sync s !!! 3%nat, s)
    else (0, s) in
  s ← sb_unlock s;
  Some (ret, s).

Definition streambuf_sync_write_data (s : streambuf) (buf : list Z) : option (Z * streambuf) :=
  let s := sb_lock s in
  '(size, f) ← fifo2_enq (sfifo s) buf;
  let s := set_sfifo f s in
  s ← sb_unlock s;
  Some (size, s).

Definition streambuf_is_copyright : bool := false.
Definition streambuf_is_icy : bool := false.
End Streambuf.
