(* ===== verification/StreambufSpec.v ===== *)
(** What the stream buffer promises: a stream of data with inline commands at
    fixed places in it, and the proof that the counters and the fifo of
    streambuf.c implement it. *)

From S2P Require Import Prelude Endian Ring Fifo2 Streambuf.

(** ** The ring of counters *)

(** The nine slots hold the counters [cs] from slot [start], then zeros. *)
Definition counters (sl : list Z) (start : Z) (cs : list Z) : Prop :=
  length sl = 9%nat ∧ 0 <= start < 9 ∧ (1 <= length cs <= 9)%nat
  ∧ ∀ i : nat, (i < 9)%nat → sl !!! Z.to_nat ((start + Z.of_nat i) mod 9) = nth i cs 0.

(** The slot of the last counter. *)
Definition last_slot (start : Z) (cs : list Z) : Z := (start + Z.of_nat (length cs) - 1) mod 9.

Lemma slot_bound z : (Z.to_nat (z mod 9) < 9)%nat.
Proof. pose proof (Z.mod_pos_bound z 9 ltac:(lia)). lia. Qed.

Lemma aget_mod sl z : length sl = 9%nat → aget sl (z mod 9) = Some (sl !!! Z.to_nat (z mod 9)).
Proof.
  intros Hl. unfold aget. apply list_lookup_lookup_total_lt. rewrite Hl. apply slot_bound.
Qed.

Lemma aset_mod sl z v : length sl = 9%nat → aset sl (z mod 9) v = Some (<[Z.to_nat (z mod 9) := v]> sl).
Proof.
  intros Hl. unfold aset. rewrite Hl. destruct (Nat.ltb_spec (Z.to_nat (z mod 9)) 9); [done|].
  pose proof (slot_bound z). lia.
Qed.

(** Writing the counter at place [j]. *)
Lemma counters_insert sl start cs j v : counters sl start cs → (j < length cs)%nat →
  counters (<[Z.to_nat ((start + Z.of_nat j) mod 9) := v]> sl) start (<[j := v]> cs).
Proof.
  intros (Hl & Hs & Hc & Hi) Hj. unfold counters. rewrite !length_insert. split_and!; try done; try lia.
  intros i Hlt. destruct (decide (i = j)) as [->|Hne].
  - rewrite list_lookup_total_insert_eq by (rewrite Hl; apply slot_bound).
    rewrite nth_lookup, list_lookup_insert_eq by done. done.
  - rewrite list_lookup_total_insert_ne.
    + rewrite Hi by done. rewrite !nth_lookup, list_lookup_insert_ne by done. done.
    + destruct (decide (i < j)%nat); [apply not_eq_sym|]; apply cell_ne; lia.
Qed.

Lemma counters_head sl start c cs : counters sl start (c :: cs) → aget sl start = Some c.
Proof.
  intros (Hl & Hs & Hc & Hi). specialize (Hi 0%nat ltac:(lia)). cbn in Hi. rewrite Z.add_0_r in Hi.
  rewrite <- (Z.mod_small start 9) by lia. rewrite aget_mod by done. by rewrite Hi.
Qed.

Lemma counters_set_head sl start c cs v : counters sl start (c :: cs) →
  ∃ sl', aset sl start v = Some sl' ∧ counters sl' start (v :: cs).
Proof.
  intros H. pose proof H as (Hl & Hs & _). eexists.
  split; [|exact (counters_insert sl start (c :: cs) 0 v H ltac:(cbn; lia))].
  cbn. rewrite Z.add_0_r, <- aset_mod by done. f_equal. by rewrite Z.mod_small.
Qed.

Lemma counters_last sl start cs c : counters sl start (cs ++ [c]) → aget sl (last_slot start (cs ++ [c])) = Some c.
Proof.
  intros (Hl & Hs & Hc & Hi). unfold last_slot. rewrite length_app in *. cbn in *.
  rewrite aget_mod by done. specialize (Hi (length cs) ltac:(lia)).
  replace (start + Z.of_nat (length cs + 1) - 1) with (start + Z.of_nat (length cs)) by lia.
  rewrite Hi, nth_middle. done.
Qed.

Lemma counters_set_last sl start cs c v : counters sl start (cs ++ [c]) →
  ∃ sl', aset sl (last_slot start (cs ++ [c])) v = Some sl' ∧ counters sl' start (cs ++ [v]).
Proof.
  intros H. pose proof H as (Hl & Hs & _). unfold last_slot. eexists. split; [by apply aset_mod|].
  pose proof (counters_insert sl start _ (length cs) v H ltac:(rewrite length_app; cbn; lia)) as Hins.
  rewrite insert_app_r_alt, Nat.sub_diag in Hins by lia. rewrite length_app. cbn [length list_insert] in *.
  replace (start + Z.of_nat (length cs + 1) - 1) with (start + Z.of_nat (length cs)) by lia. done.
Qed.

Lemma nth_app_zero (cs : list Z) i : nth i (cs ++ [0]) 0 = nth i cs 0.
Proof. revert i. induction cs as [|c cs IH]; intros [|i]; cbn; try done. by destruct i. Qed.

Lemma counters_push sl start cs : counters sl start cs → (length cs <= 8)%nat → counters sl start (cs ++ [0]).
Proof.
  intros (Hl & Hs & Hc & Hi) Hlen. unfold counters. rewrite length_app. cbn [length]. split_and!; try done; try lia.
  intros i Hlt. rewrite Hi by done. by rewrite nth_app_zero.
Qed.

Lemma next_slot_mod start : 0 <= start < 9 → next_slot start = (start + 1) mod 9.
Proof.
  intros Hs. unfold next_slot. destruct (Z.eqb_spec start MAX_STREAM_CMDS) as [->|]; [done|].
  rewrite u32_small by (unfold is_u32; lia). by rewrite Z.mod_small by lia.
Qed.

Lemma counters_pop sl start cs : counters sl start (0 :: cs) → cs ≠ [] → counters sl (next_slot start) cs.
Proof.
  intros (Hl & Hs & Hc & Hi) Hne. rewrite next_slot_mod by done. cbn in Hc.
  assert (length cs ≠ 0%nat) by (by destruct cs).
  pose proof (Z.mod_pos_bound (start + 1) 9 ltac:(lia)). split_and!; try done; try lia.
  intros i Hlt. rewrite Zplus_mod_idemp_l. destruct (decide (i = 8)%nat) as [->|].
  - replace (start + 1 + Z.of_nat 8) with (start + Z.of_nat 0 + 1 * 9) by lia. rewrite Z.mod_add, Hi by lia. cbn.
    symmetry. apply nth_overflow. lia.
  - replace (start + 1 + Z.of_nat i) with (start + Z.of_nat (S i)) by lia. by rewrite Hi by lia.
Qed.

Lemma last_slot_pop start c cs : 0 <= start < 9 → cs ≠ [] → last_slot (next_slot start) cs = last_slot start (c :: cs).
Proof.
  intros Hs Hne. rewrite next_slot_mod by done. unfold last_slot. cbn [length].
  replace ((start + 1) mod 9 + Z.of_nat (length cs) - 1) with ((start + 1) mod 9 + (Z.of_nat (length cs) - 1)) by lia.
  rewrite Zplus_mod_idemp_l. f_equal. lia.
Qed.

Lemma last_slot_push start cs c : cs ≠ [] → last_slot start (cs ++ [c]) = next_slot (last_slot start cs).
Proof.
  intros Hne. rewrite next_slot_mod by (unfold last_slot; apply Z.mod_pos_bound; lia). unfold last_slot.
  rewrite Zplus_mod_idemp_l, length_app. cbn [length]. f_equal. lia.
Qed.

Lemma last_slot_ne start c cs : (length cs <= 8)%nat → cs ≠ [] → 0 <= start < 9 → start ≠ last_slot start (c :: cs).
Proof.
  intros Hl Hne Hs. unfold last_slot. cbn [length]. assert (length cs ≠ 0%nat) by (by destruct cs).
  intros He. replace (start + Z.of_nat (S (length cs)) - 1) with (start + Z.of_nat (length cs)) in He by lia.
  pose proof (Z.div_mod (start + Z.of_nat (length cs)) 9 ltac:(lia)). lia.
Qed.

(** ** Discarding from the front of the counters *)

Definition total (cs : list Z) : Z := foldr Z.add 0 cs.

(** Takes [n] bytes off the counters, dropping those that reach zero except
    the last. *)
Fixpoint consume (n : Z) (cs : list Z) : list Z :=
  match cs with
  | [] => []
  | [c] => [c - n]
  | c :: cs' => if c <=? n then consume (n - c) cs' else (c - n) :: cs'
  end.

Lemma total_nonneg cs : Forall (Z.le 0) cs → 0 <= total cs.
Proof. unfold total. induction 1; cbn; lia. Qed.

Lemma total_app cs cs' : total (cs ++ cs') = total cs + total cs'.
Proof. unfold total. induction cs; cbn; lia. Qed.

Lemma consume_cons n c cs : cs ≠ [] → consume n (c :: cs) = if c <=? n then consume (n - c) cs else (c - n) :: cs.
Proof. by destruct cs. Qed.

Lemma total_consume n cs : cs ≠ [] → total (consume n cs) = total cs - n.
Proof.
  revert n. induction cs as [|c cs IH]; intros n Hne; [done|]. destruct (decide (cs = [])) as [->|Hcs].
  - unfold total. cbn. lia.
  - rewrite consume_cons by done. destruct (c <=? n); [rewrite IH by done|]; unfold total; cbn; lia.
Qed.

Lemma consume_ok n cs : Forall (Z.le 0) cs → 0 <= n <= total cs → cs ≠ [] →
  Forall (Z.le 0) (consume n cs) ∧ consume n cs ≠ [] ∧ (length (consume n cs) <= length cs)%nat.
Proof.
  intros Hcs. revert n. induction Hcs as [|c cs Hc Hcs IH]; intros n Hn Hne; [done|].
  destruct (decide (cs = [])) as [->|Hne'].
  - unfold total in Hn. cbn in *. split; [|split; [done|lia]]. constructor; [lia|done].
  - rewrite consume_cons by done. change (total (c :: cs)) with (c + total cs) in Hn.
    destruct (Z.leb_spec c n).
    + destruct (IH (n - c)) as (? & ? & ?); [lia|done|]. split; [done|]. split; [done|]. cbn. lia.
    + split; [constructor; [lia|done]|]. split; [done|]. cbn. lia.
Qed.

Lemma consume_strip n cs : Forall (Z.le 0) cs → 0 <= n → cs ≠ [] → consume n (consume 0 cs) = consume n cs.
Proof.
  intros Hcs Hn. induction Hcs as [|c cs Hc Hcs IH]; intros Hne; [done|].
  destruct (decide (cs = [])) as [->|Hne']; [cbn; f_equal; lia|].
  rewrite !(consume_cons _ c) by done. destruct (Z.leb_spec c 0).
  - replace c with 0 by lia. rewrite Z.sub_0_r, IH by done. destruct (Z.leb_spec 0 n); [|lia]. by rewrite Z.sub_0_r.
  - rewrite Z.sub_0_r, consume_cons by done. done.
Qed.

(** The undiscarded side of the buffer's counters. *)
Definition stale_rep (s : streambuf) (cs : list Z) : Prop :=
  counters (slot_cnt_stale s) (sslot s) cs ∧ cmd_cnt_stale s = Z.of_nat (length cs) - 1
  ∧ eslot s = last_slot (sslot s) cs.

(** [s'] is [s] up to that side. *)
Definition only_stale (s s' : streambuf) : Prop :=
  s' = set_stale (slot_cnt_stale s') (cmd_cnt_stale s') (sslot s') s.

Lemma only_stale_trans s s' s'' : only_stale s s' → only_stale s' s'' → only_stale s s''.
Proof. unfold only_stale. intros H1 H2. rewrite H2, H1. destruct s; done. Qed.

Lemma only_stale_refl s : only_stale s s.
Proof. by destruct s. Qed.

Lemma only_stale_set s sl c b : only_stale s (set_stale sl c b s).
Proof. by destruct s. Qed.

#[local] Hint Resolve only_stale_refl only_stale_set : beep.

Lemma skip_empty_rep fuel s cs : stale_rep s cs → Forall (Z.le 0) cs → (length cs <= fuel)%nat →
  ∃ s', skip_empty fuel s = Some s' ∧ stale_rep s' (consume 0 cs) ∧ only_stale s s'.
Proof.
  revert s cs. induction fuel as [|fuel IH]; intros s cs H Hpos Hf; pose proof H as (Hc & Hn & He).
  { destruct Hc as (_ & _ & Hc & _). lia. }
  destruct cs as [|c cs]; [destruct Hc as (_ & _ & Hc & _); cbn in Hc; lia|].
  cbn [skip_empty]. rewrite (counters_head _ _ _ _ Hc). cbn [mbind option_bind].
  pose proof Hc as (_ & Hsl & Hlen & _). cbn in Hlen, Hf, Hn. inversion Hpos as [|? ? Hc0 Hpos']; subst.
  destruct (decide (cs = [])) as [->|Hne].
  { assert (Heq : sslot s = eslot s) by (rewrite He; unfold last_slot; cbn [length];
      replace (sslot s + Z.of_nat 1 - 1) with (sslot s) by lia; by rewrite Z.mod_small by lia).
    rewrite Heq, Z.eqb_refl. cbn [negb andb]. exists s. cbn [consume]. rewrite Z.sub_0_r. auto with beep. }
  rewrite consume_cons by done. rewrite He.
  destruct (Z.eqb_spec (sslot s) (last_slot (sslot s) (c :: cs))) as [Habs|_].
  { exfalso. revert Habs. apply last_slot_ne; [lia|done|done]. }
  cbn [negb andb]. destruct (Z.eqb_spec c 0) as [->|Hnz].
  - destruct (IH (set_stale (slot_cnt_stale s) (u32 (cmd_cnt_stale s - 1)) (next_slot (sslot s)) s) cs)
      as (s' & -> & Hr & Ho); [|done|lia|exists s'; split; [done|split; [done|eapply only_stale_trans; eauto with beep]]].
    split_and!; cbn.
    + by apply counters_pop.
    + assert (length cs ≠ 0%nat) by (by destruct cs). rewrite u32_small by (unfold is_u32; lia). lia.
    + rewrite He. by rewrite <- (last_slot_pop _ 0) by done.
  - exists s. destruct (Z.leb_spec c 0); [lia|]. rewrite Z.sub_0_r. auto with beep.
Qed.

Lemma dec_loop_rep fuel s cs n : stale_rep s cs → Forall (Z.le 0) cs → (length cs <= fuel)%nat →
  0 <= n <= total cs → total cs < 2 ^ 32 →
  ∃ s', dec_loop fuel s n = Some s' ∧ stale_rep s' (consume n cs) ∧ only_stale s s'.
Proof.
  revert s cs n. induction fuel as [|fuel IH]; intros s cs n H Hpos Hf Hn Ht; pose proof H as (Hc & Hl & He).
  { destruct Hc as (_ & _ & Hc & _). lia. }
  destruct cs as [|c cs]; [destruct Hc as (_ & _ & Hc & _); cbn in Hc; lia|].
  cbn [dec_loop]. rewrite (counters_head _ _ _ _ Hc). cbn [mbind option_bind].
  inversion Hpos as [|? ? Hc0 Hpos']; subst. change (total (c :: cs)) with (c + total cs) in *.
  pose proof (total_nonneg cs Hpos'). cbn in Hf.
  destruct (Z.leb_spec c n) as [Hle|Hgt].
  - destruct (counters_set_head _ _ _ _ 0 Hc) as (sl & -> & Hsl). cbn [mbind option_bind].
    rewrite u32_small by (unfold is_u32; lia).
    destruct (skip_empty_rep 9 (set_stale sl (cmd_cnt_stale s) (sslot s) s) (0 :: cs)) as (s1 & -> & Hr1 & Ho1);
      [done|by constructor|destruct Hc as (_ & _ & Hc & _); cbn in *; lia|]. cbn [mbind option_bind].
    assert (Ho : only_stale s s1) by (eapply only_stale_trans; eauto with beep).
    destruct (decide (cs = [])) as [->|Hne].
    { unfold total in *. cbn in Hr1, Hn. replace n with c by lia. rewrite Z.sub_diag. cbn. rewrite Z.sub_diag. eauto. }
    rewrite consume_cons in Hr1 |- * by done. cbn [Z.leb Z.compare] in Hr1. rewrite Z.sub_0_r in Hr1.
    destruct (Z.leb_spec c n); [|lia]. destruct (Z.eqb_spec (n - c) 0) as [Hz|Hz]; [rewrite Hz; eauto|].
    destruct (consume_ok 0 cs Hpos' ltac:(lia) Hne) as (Hpos1 & Hne1 & Hlen1).
    pose proof (total_consume 0 cs Hne) as Ht1.
    destruct (IH s1 (consume 0 cs) (n - c) Hr1 Hpos1) as (s2 & -> & Hr2 & Ho2); [lia|lia|lia|].
    rewrite consume_strip in Hr2 by (done || lia). exists s2. split; [done|]. split; [done|].
    by eapply only_stale_trans.
  - rewrite u32_small by (unfold is_u32; lia).
    destruct (counters_set_head _ _ _ _ (c - n) Hc) as (sl & -> & Hsl). cbn [mbind option_bind].
    eexists. split; [reflexivity|]. split; [|apply only_stale_set].
    destruct (decide (cs = [])) as [->|Hne]; [done|]. rewrite consume_cons by done.
    destruct (Z.leb_spec c n); [lia|]. done.
Qed.
