(* ===== verification/StreambufRefines.v ===== *)
(** The abstract stream of data with inline commands, and the theorem that
    streambuf.c implements it for every run of its operations. *)

From S2P Require Import Prelude Endian Ring Fifo2 Streambuf StreambufSpec.

(** ** The abstract stream *)

(** Unread data up to the next command, then each command with the data after
    it; bytes read and not yet discarded, and those of them discarded during a
    freeze; the data per slot that has not been discarded. *)
Record stream := mk_stream {
  st_head : list Z;
  st_tail : list (list Z * list Z);
  st_data : Z;
  st_cmd : Z;
  st_thaw_data : Z;
  st_thaw_cmd : Z;
  st_kept : list Z;
  st_streaming : bool;
  st_may_discard : bool;
  st_may_write : bool;
  st_received : Z
}.

Definition stream_init : stream := mk_stream [] [] 0 0 0 0 [0] false true true 0.

Definition st_pieces (t : list (list Z * list Z)) : list Z := t ≫= λ p, p.1 ++ p.2.
Definition st_bytes (a : stream) : list Z := st_head a ++ st_pieces (st_tail a).
Definition piece_counts (h : list Z) (t : list (list Z * list Z)) : list Z :=
  Z.of_nat (length h) :: ((λ p, Z.of_nat (length p.2)) <$> t).
Definition st_counts (a : stream) : list Z := piece_counts (st_head a) (st_tail a).
Definition st_read (a : stream) : Z := st_data a + st_cmd a + st_thaw_data a + st_thaw_cmd a.
Definition st_used (a : stream) : Z := Z.of_nat (length (st_bytes a)) + st_read a.

(** Data goes after the last command. *)
Fixpoint append (h : list Z) (t : list (list Z * list Z)) (buf : list Z) : list Z * list (list Z * list Z) :=
  match t with
  | [] => (h ++ buf, [])
  | (c, d) :: t' => let '(d', t'') := append d t' buf in (h, (c, d') :: t'')
  end.

Fixpoint bump (n : Z) (cs : list Z) : list Z :=
  match cs with
  | [] => []
  | [c] => [c + n]
  | c :: cs' => c :: bump n cs'
  end.

Definition a_append (a : stream) (buf : list Z) : stream :=
  let '(h, t) := append (st_head a) (st_tail a) buf in
  let n := Z.of_nat (length buf) in
  mk_stream h t (st_data a) (st_cmd a) (st_thaw_data a) (st_thaw_cmd a) (bump n (st_kept a))
    true (st_may_discard a) (st_may_write a) (u64 (st_received a + n)).

Definition a_cmd (a : stream) (buf : list Z) : stream :=
  mk_stream (st_head a) (st_tail a ++ [(buf, [])]) (st_data a) (st_cmd a) (st_thaw_data a) (st_thaw_cmd a)
    (st_kept a ++ [0]) (st_streaming a) (st_may_discard a) (st_may_write a) (st_received a).

Definition a_read (a : stream) (n : Z) : stream :=
  mk_stream (drop (Z.to_nat n) (st_head a)) (st_tail a) (st_data a + n) (st_cmd a) (st_thaw_data a) (st_thaw_cmd a)
    (st_kept a) (st_streaming a) (st_may_discard a) (st_may_write a) (st_received a).

Definition a_take_cmd (a : stream) (c d : list Z) (t : list (list Z * list Z)) : stream :=
  mk_stream d t (st_data a) (st_cmd a + Z.of_nat (length c)) (st_thaw_data a) (st_thaw_cmd a)
    (st_kept a) (st_streaming a) (st_may_discard a) (st_may_write a) (st_received a).

Definition a_discard (a : stream) (n : Z) (data : bool) : stream :=
  let d := if data then n else 0 in
  let c := if data then 0 else n in
  if st_may_discard a then
    mk_stream (st_head a) (st_tail a) (st_data a - d) (st_cmd a - c) (st_thaw_data a) (st_thaw_cmd a)
      (consume d (st_kept a)) (st_streaming a) (st_may_discard a) (st_may_write a) (st_received a)
  else
    mk_stream (st_head a) (st_tail a) (st_data a - d) (st_cmd a - c) (st_thaw_data a + d) (st_thaw_cmd a + c)
      (st_kept a) (st_streaming a) (st_may_discard a) (st_may_write a) (st_received a).

Definition a_freeze (a : stream) : stream :=
  mk_stream (st_head a) (st_tail a) (st_data a) (st_cmd a) (st_thaw_data a) (st_thaw_cmd a)
    (st_kept a) (st_streaming a) false false (st_received a).

Definition a_thaw (a : stream) : stream :=
  mk_stream (st_head a) (st_tail a) (st_data a) (st_cmd a) 0 0
    (consume (st_thaw_data a) (st_kept a)) (st_streaming a) true true (st_received a).

Definition a_flush (a : stream) : stream :=
  mk_stream [] [] 0 0 0 0 [0] (st_streaming a) true (st_may_write a) (st_received a).

Definition a_set_streaming (a : stream) (b : bool) : stream :=
  mk_stream (st_head a) (st_tail a) (st_data a) (st_cmd a) (st_thaw_data a) (st_thaw_cmd a)
    (st_kept a) b (st_may_discard a) (st_may_write a) (st_received a).

Lemma bump_snoc n cs c : bump n (cs ++ [c]) = cs ++ [c + n].
Proof. induction cs as [|d cs IH]; [done|]. cbn [app bump]. rewrite IH. by destruct cs. Qed.

Lemma bump_ok n cs : cs ≠ [] → Forall (Z.le 0) cs → 0 <= n →
  total (bump n cs) = total cs + n ∧ length (bump n cs) = length cs ∧ Forall (Z.le 0) (bump n cs).
Proof.
  intros Hne Hcs Hn. destruct (exists_last Hne) as (l & c & ->). rewrite bump_snoc, !total_app, !length_app.
  apply Forall_app in Hcs as [Hl Hc]. inversion Hc; subst. unfold total. cbn. split; [lia|]. split; [done|].
  apply Forall_app. split; [done|]. constructor; [lia|done].
Qed.

Lemma append_ok t h buf : let '(h', t') := append h t buf in
  h' ++ st_pieces t' = (h ++ st_pieces t) ++ buf
  ∧ piece_counts h' t' = bump (Z.of_nat (length buf)) (piece_counts h t)
  ∧ t'.*1 = t.*1.
Proof.
  revert h. induction t as [|[c d] t IH]; intros h; cbn [append].
  - unfold piece_counts, st_pieces. cbn. rewrite !app_nil_r, length_app. split_and!; [done| |done]. f_equal. lia.
  - specialize (IH d). destruct (append d t buf) as [d' t']. destruct IH as (H1 & H2 & H3).
    unfold st_pieces in *. rewrite !bind_cons. cbn [fst snd]. rewrite <- !app_assoc in *. rewrite H1.
    split; [done|]. split; [|rewrite !fmap_cons, H3; done].
    unfold piece_counts in *. rewrite !fmap_cons. cbn [snd]. rewrite H2. done.
Qed.

Lemma counters_bump sl start cs n : counters sl start cs → Forall (Z.le 0) cs → 0 <= n → total cs + n < 2 ^ 32 →
  ∃ c sl', aget sl (last_slot start cs) = Some c ∧ aset sl (last_slot start cs) (u32 (c + n)) = Some sl'
    ∧ counters sl' start (bump n cs).
Proof.
  intros H Hpos Hn Ht. assert (Hne : cs ≠ []) by (intros ->; destruct H as (_ & _ & H & _); cbn in H; lia).
  destruct (exists_last Hne) as (l & c & ->). rewrite total_app in Ht. apply Forall_app in Hpos as [Hl Hc].
  inversion Hc; subst. pose proof (total_nonneg l Hl). unfold total in Ht. cbn in Ht. unfold total in *.
  destruct (counters_set_last sl start l c (c + n) H) as (sl' & Hs & Hc').
  exists c, sl'. rewrite u32_small by (unfold is_u32; lia). rewrite bump_snoc.
  split; [by apply counters_last|done].
Qed.

(** ** The relation *)

Section Refinement.
Context (SZ : Z).
Hypothesis SZ_ok : 0 < SZ <= max_size.

Record sb_inner (s : streambuf) (a : stream) : Prop := {
  i_fifo : ∃ stale, Z.of_nat (length stale) = st_read a ∧ rep (sfifo s) (mk_queue stale (st_bytes a));
  i_size : size (sfifo s) = SZ;
  i_counters : counters (slot_cnt s) (dslot s) (st_counts a);
  i_cmd_cnt : cmd_cnt s = Z.of_nat (length (st_tail a));
  i_eslot : eslot s = last_slot (dslot s) (st_counts a);
  i_stale : stale_rep s (st_kept a);
  i_kept : Forall (Z.le 0) (st_kept a);
  i_total : total (st_kept a) = st_data a + st_thaw_data a + total (st_counts a);
  i_pos : 0 <= st_data a ∧ 0 <= st_cmd a ∧ 0 <= st_thaw_data a ∧ 0 <= st_thaw_cmd a;
  i_cmds : Forall (λ p, (4 <= length p.1)%nat) (st_tail a);
  i_flags : streaming s = st_streaming a ∧ allow_auto_discard s = false ∧ allow_discard s = st_may_discard a
    ∧ allow_writes s = st_may_write a ∧ bytes_received s = st_received a
    ∧ discard_data_on_thaw s = st_thaw_data a ∧ discard_cmd_on_thaw s = st_thaw_cmd a
}.

(** Between two calls the fifo is unlocked. *)
Definition sb_rep (s : streambuf) (a : stream) : Prop := lock (sfifo s) = false ∧ sb_inner (sb_lock s) a.

Lemma inner_unlock s a : sb_inner s a → ∃ s', sb_unlock s = Some s' ∧ sb_rep s' a.
Proof.
  intros H. pose proof H as [(stale & Hst & Hr) ?? ? ? ? ? ? ? ? ?]. unfold sb_unlock, fifo2_unlock, locked.
  destruct Hr as (Hl & Hr). rewrite Hl. cbn [mbind option_bind negb]. eexists. split; [reflexivity|].
  split; [done|]. constructor; try done. exists stale. split; [done|]. destruct Hr. by apply rep_intro.
Qed.

Lemma total_piece_counts h t : total (piece_counts h t) + total ((λ p, Z.of_nat (length p.1)) <$> t)
  = Z.of_nat (length (h ++ st_pieces t)).
Proof.
  unfold piece_counts, st_pieces, total. rewrite length_app. cbn [foldr]. rewrite <- Z.add_assoc, Nat2Z.inj_add. f_equal.
  induction t as [|[c d] t IH]; [done|]. rewrite !fmap_cons, bind_cons. cbn [foldr fst snd].
  rewrite !length_app. lia.
Qed.

Lemma counts_pos h t : Forall (Z.le 0) (piece_counts h t).
Proof. unfold piece_counts. constructor; [lia|]. apply Forall_fmap, Forall_true. intros; cbn; lia. Qed.

(** The sizes everything is bounded by. *)
Lemma inner_bounds s a : sb_inner s a →
  st_used a < SZ ∧ 0 <= total (st_counts a) <= Z.of_nat (length (st_bytes a)) ∧ SZ <= 2 ^ 30
  ∧ total (st_kept a) <= st_used a ∧ st_kept a ≠ [].
Proof.
  intros [(stale & Hst & Hr) Hsz ? ? ? Hsr ? Ht Hp ? ?]. destruct Hr as (_ & _ & Hr).
  pose proof (rr_room _ _ _ _ _ _ Hr) as Hroom. unfold q_room, q_used in Hroom. cbn [q_stale q_fresh] in Hroom.
  pose proof (total_piece_counts (st_head a) (st_tail a)) as Htot.
  pose proof (total_nonneg _ (counts_pos (st_head a) (st_tail a))).
  assert (0 <= total ((λ p : list Z * list Z, Z.of_nat (length p.1)) <$> st_tail a)).
  { apply total_nonneg, Forall_fmap, Forall_true. intros; cbn; lia. }
  fold (st_counts a) in *. fold (st_bytes a) in *. unfold st_used, max_size, st_read in *. rewrite Hsz in *.
  split_and!; try lia. destruct Hsr as ((_ & _ & Hl & _) & _). intros He. rewrite He in Hl. cbn in Hl. lia.
Qed.

Lemma inner_free s a : sb_inner s a → fifo2_bytes_free (sfifo s) = Some (SZ - 1 - st_used a).
Proof.
  intros [(stale & Hst & Hr) Hsz ? ? ? ? ? ? ? ? ?]. rewrite (bytes_free_rep _ _ Hr). f_equal.
  unfold q_room, q_used, st_used. cbn. rewrite Hsz. lia.
Qed.

Lemma inner_used s a stale : sb_inner s a → fifo2_bytes_used (sfifo s) stale
  = Some (if stale then st_used a else Z.of_nat (length (st_bytes a))).
Proof.
  intros [(st & Hst & Hr) Hsz ? ? ? ? ? ? ? ? ?]. rewrite (bytes_used_rep _ _ stale Hr). f_equal.
  unfold q_used, st_used. cbn. destruct stale; lia.
Qed.

(** Changes of the fifo alone. *)
Lemma inner_enq s a buf : sb_inner s a → Z.of_nat (length buf) <= SZ - 1 - st_used a →
  ∃ stale f, fifo2_enq (sfifo s) buf = Some (Z.of_nat (length buf), f) ∧ size f = SZ
    ∧ Z.of_nat (length stale) = st_read a ∧ rep f (mk_queue stale (st_bytes a ++ buf)).
Proof.
  intros H Hn. pose proof (inner_bounds s a H) as (? & ? & ? & ? & ?). destruct H as [(stale & Hst & Hr) Hsz ? ? ? ? ? ? ? ? ?].
  destruct (enq_rep (sfifo s) _ buf Hr ltac:(unfold st_used, st_read in *; lia)) as (f & Hf & Hrf & Hsf).
  exists stale, f. revert Hf Hrf. unfold q_enq.
  destruct (Z.ltb_spec (q_room (size (sfifo s)) (mk_queue stale (st_bytes a))) (Z.of_nat (length buf))) as [Hb|_].
  { unfold q_room, q_used in Hb. cbn in Hb. unfold st_used in Hn. lia. }
  intros Hf Hrf. split_and!; try done. congruence.
Qed.

Lemma inner_deq s a b l : sb_inner s a → st_bytes a = b ++ l →
  ∃ stale f, fifo2_deq (sfifo s) true (Z.of_nat (length b)) false = Some (Z.of_nat (length b), b, f) ∧ size f = SZ
    ∧ Z.of_nat (length stale) = st_read a + Z.of_nat (length b) ∧ rep f (mk_queue stale l).
Proof.
  intros H Hb. pose proof (inner_bounds s a H) as (? & ? & ? & ? & ?). destruct H as [(stale & Hst & Hr) Hsz ? ? ? ? ? ? ? ? ?].
  rewrite Hb in Hr. pose proof (total_nonneg _ i_kept0). unfold st_used, st_read in *. rewrite Hb, length_app in *.
  destruct (deq_rep (sfifo s) _ (Z.of_nat (length b)) false Hr ltac:(lia)) as (f & Hf & Hrf & Hsf).
  revert Hf Hrf. unfold q_deq.
  destruct (Z.ltb_spec (q_used false (mk_queue stale (b ++ l))) (Z.of_nat (length b))) as [Hu|_].
  { unfold q_used in Hu. cbn in Hu. rewrite length_app in Hu. lia. }
  cbn [q_fresh q_stale fst snd]. rewrite Nat2Z.id, take_app_length, drop_app_length. intros Hf Hrf.
  exists (stale ++ b), f. split_and!; try done; [congruence|]. rewrite length_app. lia.
Qed.

Lemma inner_discard s a n : sb_inner s a → 0 <= n <= st_read a →
  ∃ stale f, fifo2_discard (sfifo s) n = Some (n, f) ∧ size f = SZ
    ∧ Z.of_nat (length stale) = st_read a - n ∧ rep f (mk_queue stale (st_bytes a)).
Proof.
  intros H Hn. pose proof (inner_bounds s a H) as (? & ? & ? & ? & ?). destruct H as [(stale & Hst & Hr) Hsz ? ? ? ? ? ? ? ? ?].
  pose proof (total_nonneg _ i_kept0). unfold st_used in *.
  destruct (discard_rep (sfifo s) _ n Hr ltac:(lia)) as (f & Hf & Hrf & Hsf). revert Hf Hrf. unfold q_discard. cbn [q_stale q_fresh].
  exists (drop (Z.to_nat n) stale), f. rewrite length_drop. revert Hf Hrf.
  destruct (Z.leb_spec (Z.of_nat (length stale)) n).
  - intros Hf Hrf. rewrite drop_ge by lia. cbn [fst snd] in *. split_and!; [rewrite Hf; do 2 f_equal; lia|congruence|lia|done].
  - intros Hf Hrf. cbn [fst snd] in *. split_and!; [done|congruence|lia|done].
Qed.

(** ** Each operation against the abstract stream *)

(** Evaluates field accesses only. *)
Ltac fields :=
  cbn [slot_cnt cmd_cnt eslot dslot sfifo streaming allow_auto_discard allow_discard allow_writes bytes_received
    discard_data_on_thaw discard_cmd_on_thaw cmd_cnt_stale sslot slot_cnt_stale state_sync
    set_sfifo set_streaming set_received set_allow set_on_thaw set_fresh set_stale set_eslot set_sync
    st_head st_tail st_data st_cmd st_thaw_data st_thaw_cmd st_kept st_streaming st_may_discard st_may_write
    st_received fst snd mbind option_bind] in *.

(** Starts an operation: the locked state as a variable. *)
Ltac start op s :=
  let s1 := fresh "s1" in unfold op; set (s1 := sb_lock s) in *; clearbody s1; clear s; rename s1 into s; cbv zeta.

(** Reduces the end of an operation to the relation of the locked state. *)
Ltac unlock :=
  match goal with
  | |- ∃ s', _ ∧ sb_rep s' ?a =>
      match goal with
      | |- context [sb_unlock ?s] =>
          let Hi := fresh "Hi" in let Hu := fresh "Hu" in let Hr := fresh "Hr" in
          assert (Hi : sb_inner s a); [try done|destruct (inner_unlock s a Hi) as (? & Hu & Hr); rewrite Hu;
            eexists; split; [reflexivity|exact Hr]]
      end
  end.

Lemma last_slot_length start cs cs' : length cs = length cs' → last_slot start cs = last_slot start cs'.
Proof. unfold last_slot. by intros ->. Qed.

Lemma data_enq_ok s a buf : sb_rep s a → Z.of_nat (length buf) <= SZ - 1 - st_used a →
  ∃ s', streambuf_data_enq s buf = Some (true, s') ∧ sb_rep s' (a_append a buf).
Proof.
  intros [_ H] Hn. start streambuf_data_enq s. pose proof (inner_bounds _ a H) as (Hu & Hc & Hsz & Hk & Hne).
  pose proof (inner_enq _ a buf H Hn) as (stale & f & Hf & Hsf & Hst & Hrf). pose proof H as [].
  pose proof (append_ok (st_tail a) (st_head a) buf) as Hap. unfold a_append.
  destruct (append (st_head a) (st_tail a) buf) as [h t]. destruct Hap as (Hb & Hcs & Hcm).
  destruct (counters_bump _ _ _ (Z.of_nat (length buf)) i_counters0 (counts_pos _ _) ltac:(lia))
    as (c & sl & Hg & Hs & Hsl); [unfold st_used, st_read in *; lia|].
  destruct i_stale0 as (Hcst & Hncst & Hest).
  destruct (counters_bump _ _ _ (Z.of_nat (length buf)) Hcst i_kept0 ltac:(lia))
    as (c' & sl' & Hg' & Hs' & Hsl'); [unfold st_used, st_read in *; lia|].
  rewrite <- i_eslot0 in Hg, Hs. rewrite <- Hest in Hg', Hs'.
  destruct (bump_ok (Z.of_nat (length buf)) _ Hne i_kept0 ltac:(lia)) as (Htk & Hlk & Hpk).
  destruct (bump_ok (Z.of_nat (length buf)) (st_counts a) ltac:(done) (counts_pos _ _) ltac:(lia)) as (Htc & Hlc & Hpc).
  fields. rewrite Hg. fields. rewrite Hs. fields. rewrite Hg'. fields.
  rewrite Hs'. fields. rewrite Hf. fields.
  unlock.
  constructor; fields.
  - exists stale. unfold st_bytes, st_read in *. fields. rewrite Hb. done.
  - done.
  - unfold st_counts. fields. rewrite Hcs. done.
  - rewrite <- (length_fmap fst), Hcm, length_fmap. done.
  - rewrite i_eslot0. apply last_slot_length. unfold st_counts. fields. rewrite Hcs. symmetry. exact Hlc.
  - split; [done|]. fields. split; [rewrite Hlk; done|]. rewrite Hest. by apply last_slot_length.
  - done.
  - rewrite Htk, i_total0. unfold st_counts at 2. fields. rewrite Hcs. change (piece_counts (st_head a) (st_tail a)) with (st_counts a). rewrite Htc. lia.
  - done.
  - apply Forall_fmap with (f := fst) (P := λ l, (4 <= length l)%nat). rewrite Hcm. by apply Forall_fmap.
  - destruct i_flags0 as (? & ? & ? & ? & Hrec & ? & ?). fields. split_and!; try done. by rewrite Hrec.
Qed.

Lemma piece_counts_snoc h t c : piece_counts h (t ++ [(c, [])]) = piece_counts h t ++ [0].
Proof. unfold piece_counts. rewrite fmap_app. done. Qed.

Lemma total_snoc_zero cs : total (cs ++ [0]) = total cs.
Proof. rewrite total_app. unfold total. cbn. lia. Qed.

(** A command is queued while fewer than eight are kept and there is more room
    than it takes; otherwise the process exits. *)
Lemma cmd_enq_ok s a buf : sb_rep s a → (4 <= length buf)%nat → (length (st_tail a) < 8)%nat →
  if (length (st_kept a) =? 9)%nat || (SZ - 1 - st_used a <=? Z.of_nat (length buf))
  then streambuf_cmd_enq s buf = None
  else ∃ s', streambuf_cmd_enq s buf = Some (true, s') ∧ sb_rep s' (a_cmd a buf).
Proof.
  intros [_ H] Hlen Hcmds. start streambuf_cmd_enq s. pose proof (inner_bounds _ a H) as (Hu & Hc & Hsz & Hk & Hne). pose proof H as [].
  pose proof (inner_free _ a H) as Hfree. pose proof i_stale0 as (Hcst & Hncst & Hest).
  pose proof Hcst as (_ & _ & Hkl & _).
  assert (Hfull : (cmd_cnt_stale s =? MAX_STREAM_CMDS) = (length (st_kept a) =? 9)%nat).
  { rewrite Hncst. destruct (Z.eqb_spec (Z.of_nat (length (st_kept a)) - 1) 8), (Nat.eqb_spec (length (st_kept a)) 9); lia. }
  rewrite Hfree. fields. rewrite Hfull.
  destruct (length (st_kept a) =? 9)%nat eqn:Hk9; cbn [orb negb andb].
  { fields. by destruct (inner_unlock _ a H) as (? & -> & _). }
  destruct (Z.leb_spec (SZ - 1 - st_used a) (Z.of_nat (length buf)));
    destruct (Z.ltb_spec (Z.of_nat (length buf)) (SZ - 1 - st_used a)); try lia.
  { fields. by destruct (inner_unlock _ a H) as (? & -> & _). }
  destruct (inner_enq _ a buf H ltac:(lia)) as (stale & f & Hf & Hsf & Hst & Hrf). fields. rewrite Hf. fields.
  cbn [negb]. unlock. apply Nat.eqb_neq in Hk9. constructor; fields.
  - exists stale. split; [done|]. unfold st_bytes, st_pieces, a_cmd. fields. rewrite bind_app. cbn [mbind list_bind].
    rewrite !app_nil_r, app_assoc. done.
  - done.
  - unfold st_counts, a_cmd. fields. rewrite piece_counts_snoc. apply counters_push; [done|].
    cbn. rewrite length_fmap. lia.
  - rewrite i_cmd_cnt0. unfold a_cmd. fields. rewrite length_app. cbn [length].
    rewrite u32_small by (unfold is_u32; lia). lia.
  - unfold st_counts, a_cmd. fields. rewrite piece_counts_snoc, last_slot_push, i_eslot0 by done. done.
  - unfold a_cmd. fields. unfold stale_rep. fields. split; [apply counters_push; [done|lia]|]. split.
    + rewrite Hncst, length_app. cbn [length]. rewrite u32_small by (unfold is_u32; lia). lia.
    + rewrite last_slot_push, Hest by done. done.
  - apply Forall_app. split; [done|]. by repeat constructor.
  - unfold st_counts, a_cmd. fields. rewrite piece_counts_snoc, !total_snoc_zero. done.
  - done.
  - apply Forall_app. split; [done|]. by repeat constructor.
  - done.
Qed.

(** The size [streambuf_data_deq] settles on. *)
Definition deq_size (have min max : Z) : Z :=
  let size := if have <? min then 0 else have in
  if max <? size then max else size.

Lemma deq_size_bound have min max : 0 <= have → 0 <= max → 0 <= deq_size have min max <= have.
Proof. intros. unfold deq_size. destruct (_ <? min); destruct (Z.ltb_spec max (if true then 0 else have)) || idtac; repeat case_match; bool_prop; lia. Qed.

Lemma data_deq_ok s a min max : sb_rep s a → 0 <= max →
  let n := deq_size (Z.of_nat (length (st_head a))) min max in
  ∃ s', streambuf_data_deq s min max = Some (n, take (Z.to_nat n) (st_head a), st_streaming a, s')
    ∧ sb_rep s' (a_read a n).
Proof.
  intros [_ H] Hmax n. start streambuf_data_deq s. pose proof (inner_bounds _ a H) as (Hu & Hc & Hsz & Hk & Hne). pose proof H as [].
  assert (Hn : 0 <= n <= Z.of_nat (length (st_head a))) by (apply deq_size_bound; lia).
  pose proof (counters_head _ _ _ _ i_counters0) as Hhead. fields. rewrite Hhead. fields.
  fold (deq_size (Z.of_nat (length (st_head a))) min max). fold n.
  assert (Hhl : Z.of_nat (length (st_head a)) <= Z.of_nat (length (st_bytes a)))
    by (unfold st_bytes; rewrite length_app; lia).
  unfold c_true. destruct (Z.eqb_spec n 0) as [Hz|Hz]; cbn [negb]; fields.
  - destruct i_fifo0 as (stale & Hst & Hr). pose proof Hr as (Hl & _). unfold fifo2_signal, locked. fields. rewrite Hl. fields.
    destruct i_flags0 as (-> & Hfl). rewrite Hz. cbn [take]. unlock. unfold a_read. rewrite Z.add_0_r, drop_0. by destruct a.
  - set (b := take (Z.to_nat n) (st_head a)).
    assert (Hb : Z.of_nat (length b) = n) by (unfold b; rewrite length_take; lia).
    destruct (inner_deq _ a b (drop (Z.to_nat n) (st_head a) ++ st_pieces (st_tail a)) H) as (stale & f & Hf & Hsf & Hst & Hrf).
    { unfold st_bytes, b. rewrite app_assoc, take_drop. done. }
    rewrite Hb in Hf. pose proof i_flags0 as (-> & -> & _). rewrite Hf. fields. rewrite ?Hhead. fields.
    rewrite u32_small by (unfold is_u32, st_used, st_read in *; lia).
    destruct (counters_set_head _ _ _ _ (Z.of_nat (length (st_head a)) - n) i_counters0) as (sl & Hsl & Hcs).
    fields. rewrite Hsl. fields. pose proof Hrf as (Hl & _). unfold fifo2_signal, locked. rewrite Hl. fields.
    assert (Hcnt : st_counts (a_read a n)
      = (Z.of_nat (length (st_head a)) - n) :: ((λ p, Z.of_nat (length p.2)) <$> st_tail a)).
    { unfold st_counts, piece_counts, a_read. fields. rewrite length_drop. f_equal. lia. }
    unlock. constructor; fields.
    + exists stale. split; [|done]. rewrite Hst. unfold st_read, a_read. fields. lia.
    + done.
    + rewrite Hcnt. done.
    + done.
    + rewrite i_eslot0, Hcnt. by apply last_slot_length.
    + done.
    + done.
    + rewrite Hcnt. unfold a_read. fields. rewrite i_total0. unfold total, st_counts, piece_counts. cbn [foldr]. lia.
    + unfold a_read. fields. lia.
    + done.
    + done.
Qed.

(** The next thing to read is a command. *)
Definition ready (a : stream) : option (list Z * list Z * list (list Z * list Z)) :=
  match st_head a, st_tail a with
  | [], (c, d) :: t => Some (c, d, t)
  | _, _ => None
  end.

Lemma ready_test s a : sb_inner s a → ∃ n, aget (slot_cnt s) (dslot s) = Some n
  ∧ c_true (cmd_cnt s) && (n =? 0) = bool_decide (is_Some (ready a)).
Proof.
  intros []. pose proof (counters_head _ _ _ _ i_counters0) as Hhead. eexists. split; [exact Hhead|].
  rewrite i_cmd_cnt0. unfold c_true, ready. destruct (st_head a), (st_tail a) as [|[c d] t]; cbn [length]; try done.
Qed.

Lemma ready_bytes a c d t : ready a = Some (c, d, t) →
  st_head a = [] ∧ st_tail a = (c, d) :: t ∧ st_bytes a = c ++ d ++ st_pieces t.
Proof.
  unfold ready, st_bytes, st_pieces. destruct (st_head a), (st_tail a) as [|[c' d'] t']; try done.
  intros [= -> -> ->]. rewrite bind_cons. cbn [fst snd app]. by rewrite <- app_assoc.
Qed.

Lemma cmd_ready_ok big s a : sb_rep s a →
  ∃ s', streambuf_cmd_ready big s = Some (from_option (λ x, native_val big (take 4 x.1.1)) 0 (ready a), s') ∧ sb_rep s' a.
Proof.
  intros [_ H]. start streambuf_cmd_ready s. destruct (ready_test s a H) as (n & -> & Htest). fields. rewrite Htest.
  case_bool_decide as Hr; [|destruct (ready a) eqn:E; [exfalso; apply Hr; eauto|]; fields; cbn [from_option]; unlock].
  destruct Hr as [[[c d] t] Hr]. rewrite Hr. destruct (ready_bytes a c d t Hr) as (Hh & Ht & Hb).
  pose proof (inner_bounds _ a H) as (Hu & Hc & Hsz & Hk & Hne). pose proof H as [].
  assert (Hc4 : (4 <= length c)%nat) by (rewrite Ht in i_cmds0; by inversion i_cmds0).
  destruct i_fifo0 as (stale & Hst & Hrf). rewrite (read_rep _ _ 0 4 false Hrf) by lia. unfold q_read.
  unfold q_used, q_bytes. cbn [q_fresh q_stale]. rewrite Hb.
  destruct (Z.ltb_spec (Z.of_nat (length (c ++ d ++ st_pieces t)) + 0) (4 + 0)) as [Hlt|_].
  { rewrite length_app in Hlt. lia. }
  fields. cbn [from_option]. change (c_true 4) with true. cbv beta iota. fields.
  change (Z.to_nat 0) with 0%nat. change (Z.to_nat 4) with 4%nat. rewrite drop_0, take_app_le by lia. unlock.
Qed.

Lemma cmd_deq_ok s a n : sb_rep s a → (∀ c d t, ready a = Some (c, d, t) → n = Z.of_nat (length c)) →
  ∃ s', streambuf_cmd_deq s n = Some (match ready a with Some (c, _, _) => (n, c) | None => (0, []) end, s')
    ∧ sb_rep s' (match ready a with Some (c, d, t) => a_take_cmd a c d t | None => a end).
Proof.
  intros [_ H] Hn. start streambuf_cmd_deq s. destruct (ready_test s a H) as (k & -> & Htest). fields. rewrite Htest.
  case_bool_decide as Hr; [|destruct (ready a) eqn:E; [exfalso; apply Hr; eauto|]; fields; unlock].
  destruct Hr as [[[c d] t] Hr]. rewrite Hr. specialize (Hn c d t Hr). subst n.
  destruct (ready_bytes a c d t Hr) as (Hh & Ht & Hb).
  pose proof (inner_bounds _ a H) as (Hu & Hc & Hsz & Hk & Hne). pose proof H as [].
  assert (Hc4 : (4 <= length c)%nat) by (rewrite Ht in i_cmds0; by inversion i_cmds0).
  destruct (inner_deq s a c _ H Hb) as (stale & f & Hf & Hsf & Hst & Hrf).
  pose proof i_flags0 as (_ & -> & _). rewrite Hf. fields. unfold c_true.
  destruct (Z.eqb_spec (Z.of_nat (length c)) 0); [lia|]. cbn [negb].
  assert (Hcnt : st_counts a = 0 :: st_counts (a_take_cmd a c d t)).
  { unfold st_counts, piece_counts, a_take_cmd. fields. rewrite Hh, Ht. done. }
  rewrite Ht in *. unlock. constructor; fields.
  - exists stale. split; [|done]. rewrite Hst. unfold st_read, a_take_cmd. fields. lia.
  - done.
  - rewrite Hcnt in i_counters0. by apply counters_pop.
  - rewrite i_cmd_cnt0. unfold a_take_cmd. fields. cbn [length].
    destruct i_counters0 as (_ & _ & Hl & _). rewrite Hcnt in Hl. cbn in Hl. rewrite length_fmap in Hl.
    rewrite u32_small by (unfold is_u32; lia). lia.
  - rewrite i_eslot0, Hcnt. symmetry. apply last_slot_pop; [apply i_counters0|done].
  - done.
  - done.
  - etrans; [exact i_total0|]. rewrite Hcnt. unfold total at 1. cbn [foldr]. by rewrite Z.add_0_l.
  - unfold a_take_cmd. fields. lia.
  - by inversion i_cmds0.
  - done.
Qed.

Lemma dec_stale_ok s cs n : lock (sfifo s) = true → stale_rep s cs → Forall (Z.le 0) cs →
  0 <= n <= total cs → total cs < 2 ^ 32 →
  ∃ sl c b, streambuf_dec_cnt_stale s n = Some (set_stale sl c b s) ∧ stale_rep (set_stale sl c b s) (consume n cs).
Proof.
  intros Hl H Hpos Hn Ht. unfold streambuf_dec_cnt_stale, locked. rewrite Hl.
  destruct (dec_loop_rep 10 s cs n H Hpos) as (s' & Hd & Hr & Ho); [|done|done|].
  { destruct H as ((_ & _ & Hlen & _) & _). lia. }
  exists (slot_cnt_stale s'), (cmd_cnt_stale s'), (sslot s'). rewrite Hd. unfold only_stale in Ho.
  rewrite <- Ho. done.
Qed.

Lemma discard_ok s a n (data : bool) : sb_rep s a → 0 <= n <= (if data then st_data a else st_cmd a) →
  ∃ s', streambuf_discard s n data = Some (n, s') ∧ sb_rep s' (a_discard a n data).
Proof.
  intros [_ H] Hn. start streambuf_discard s. pose proof (inner_bounds _ a H) as (Hu & Hc & Hsz & Hk & Hne). pose proof H as [].
  pose proof i_flags0 as (_ & _ & Had & _ & _ & Htd & Htc). unfold a_discard. rewrite Had.
  assert (Hnr : 0 <= n <= st_read a) by (unfold st_read; destruct data; lia).
  destruct (st_may_discard a) eqn:Em.
  - destruct (inner_discard s a n H Hnr) as (stale & f & Hf & Hsf & Hst & Hrf). rewrite Hf. fields.
    set (d := if data then n else 0). assert (Hd : 0 <= d <= total (st_kept a)).
    { unfold d. rewrite i_total0. destruct data; lia. }
    destruct (dec_stale_ok (set_sfifo f s) (st_kept a) d (proj1 Hrf) i_stale0 i_kept0 Hd)
      as (sl & c & b & -> & Hr'); [unfold st_used, st_read in *; lia|]. fields.
    destruct (consume_ok d (st_kept a) i_kept0 Hd Hne) as (Hpos' & Hne' & Hlen').
    pose proof (total_consume d (st_kept a) Hne) as Htot. unlock. constructor; fields; try done.
    + exists stale. split; [|done]. rewrite Hst. unfold st_read. fields. unfold d. destruct data; lia.
    + rewrite Htot, i_total0. unfold st_counts. fields. lia.
    + unfold d. destruct data; lia.
  - rewrite !(inner_used s a) by done. fields.
    assert (Hfree : st_used a - Z.of_nat (length (st_bytes a)) - discard_data_on_thaw s - discard_cmd_on_thaw s
      = st_data a + st_cmd a) by (rewrite Htd, Htc; unfold st_used, st_read; lia).
    rewrite Hfree, u32_small by (unfold is_u32, st_used, st_read in *; lia).
    replace (if st_data a + st_cmd a <? n then st_data a + st_cmd a else n) with n
      by (destruct (Z.ltb_spec (st_data a + st_cmd a) n), data; lia).
    assert (Hb1 : u32 (discard_data_on_thaw s + n) = st_thaw_data a + n)
      by (rewrite Htd; apply u32_small; unfold is_u32, st_used, st_read in *; lia).
    assert (Hb2 : u32 (discard_cmd_on_thaw s + n) = st_thaw_cmd a + n)
      by (rewrite Htc; apply u32_small; unfold is_u32, st_used, st_read in *; lia).
    destruct i_fifo0 as (stale & Hst & Hrf). rewrite Hb1, Hb2, Htd, Htc.
    destruct data; unlock; (constructor; fields; rewrite ?Z.add_0_r, ?Z.sub_0_r in *; try done; try lia;
      [exists stale; split; [|done]; rewrite Hst; unfold st_read; fields; lia|..];
      try (rewrite i_total0; unfold st_counts; fields; lia)).
    all: destruct i_flags0 as (? & ? & ? & ? & ? & ? & ?); by split_and!.
Qed.

Lemma freeze_ok s a : sb_rep s a → ∃ s', streambuf_lock_state s true = Some s' ∧ sb_rep s' (a_freeze a).
Proof.
  intros [_ H]. start streambuf_lock_state s. fields. rewrite (inner_used s a) by done. fields.
  destruct H. unlock. constructor; fields; try done. destruct i_flags0 as (? & ? & ? & ? & ? & ? & ?). by split_and!.
Qed.

Lemma thaw_ok s a : sb_rep s a → ∃ s', streambuf_lock_state s false = Some s' ∧ sb_rep s' (a_thaw a).
Proof.
  intros [_ H]. start streambuf_lock_state s. pose proof (inner_bounds _ a H) as (Hu & Hc & Hsz & Hk & Hne). pose proof H as [].
  pose proof i_flags0 as (? & ? & Had & ? & ? & Htd & Htc).
  assert (Hd : 0 <= st_thaw_data a <= total (st_kept a)) by lia.
  destruct i_fifo0 as (st & Hst0 & Hr0).
  destruct (dec_stale_ok (set_allow false true true s) (st_kept a) (st_thaw_data a) (proj1 Hr0) i_stale0 i_kept0 Hd)
    as (sl & c & b & Hdec & Hr'); [unfold st_used, st_read in *; lia|]. fields. rewrite Htd, Hdec. fields. rewrite Htd, Htc.
  rewrite u32_small by (unfold is_u32, st_used, st_read in *; lia).
  destruct (inner_discard s a (st_thaw_data a + st_thaw_cmd a) H ltac:(unfold st_read; lia))
    as (stale & f & Hf & Hsf & Hst & Hrf). rewrite Hf. fields.
  destruct (consume_ok (st_thaw_data a) (st_kept a) i_kept0 Hd Hne) as (Hpos' & Hne' & Hlen').
  pose proof (total_consume (st_thaw_data a) (st_kept a) Hne) as Htot. unlock. constructor; fields; try done.
  - exists stale. split; [|done]. rewrite Hst. unfold st_read, a_thaw. fields. lia.
  - unfold a_thaw, st_counts in *. fields. rewrite Htot, i_total0. lia.
  - unfold a_thaw. fields. lia.
Qed.

Lemma flush_ok s a : sb_rep s a → ∃ s', streambuf_flush s = Some s' ∧ sb_rep s' (a_flush a).
Proof.
  intros [_ H]. start streambuf_flush s. destruct H. destruct i_fifo0 as (stale & Hst & Hr).
  destruct (flush_rep _ _ Hr) as (f & -> & Hrf & Hsf). fields.
  assert (Hz : counters (replicate 9 0) 0 [0]).
  { unfold counters. split_and!; try done; cbn; try lia. intros i Hi.
    do 9 (destruct i as [|i]; [reflexivity|]). lia. }
  destruct i_flags0 as (? & ? & ? & ? & ? & ? & ?). unlock. constructor; fields; try done.
  - exists []. done.
  - congruence.
  - by repeat constructor.
Qed.

Lemma freebytes_ok s a : sb_rep s a →
  ∃ s', streambuf_get_freebytes s = Some (if st_may_write a then SZ - 1 - st_used a else 0, s') ∧ sb_rep s' a.
Proof.
  intros [_ H]. start streambuf_get_freebytes s. pose proof H as []. destruct i_flags0 as (_ & _ & _ & -> & _).
  destruct (st_may_write a); [rewrite (inner_free _ a H)|]; fields; unlock.
Qed.

Lemma usedbytes_ok s a : sb_rep s a →
  ∃ s', streambuf_get_usedbytes s = Some (Z.of_nat (length (st_bytes a)), s') ∧ sb_rep s' a.
Proof.
  intros [_ H]. start streambuf_get_usedbytes s. rewrite (inner_used _ a) by done. fields. unlock.
Qed.

Lemma data_usedbytes_ok s a : sb_rep s a →
  ∃ s', streambuf_get_data_usedbytes s = Some (Z.of_nat (length (st_head a)), s') ∧ sb_rep s' a.
Proof.
  intros [_ H]. start streambuf_get_data_usedbytes s. pose proof H as [].
  rewrite (counters_head _ _ _ _ i_counters0). fields. unlock.
Qed.

Lemma would_wait_ok s a n : sb_rep s a →
  ∃ s', streambuf_would_wait_for s n = Some (st_streaming a && (Z.of_nat (length (st_head a)) <? n), s') ∧ sb_rep s' a.
Proof.
  intros H. unfold streambuf_would_wait_for. pose proof H as [_ []]. destruct i_flags0 as (Hs & _). cbn in Hs. rewrite Hs.
  destruct (st_streaming a); cbn [negb andb]; [|by exists s].
  destruct (data_usedbytes_ok s a H) as (s' & -> & Hr). by exists s'.
Qed.

Lemma status_ok s a : sb_rep s a →
  ∃ s', streambuf_get_status SZ s
    = Some (SZ, if st_may_write a then st_used a else SZ, Z.land (st_received a) 0xFFFFFFFF,
            u32 (Z.shiftr (st_received a) 32), s') ∧ sb_rep s' a.
Proof.
  intros [_ H]. start streambuf_get_status s. pose proof H as [].
  destruct i_flags0 as (_ & _ & _ & -> & -> & _). destruct (st_may_write a); [rewrite (inner_used s a) by done|]; fields; unlock.
Qed.

Lemma set_streaming_ok s a b : sb_rep s a → sb_rep (streambuf_set_streaming s b) (a_set_streaming a b).
Proof.
  intros [Hl H]. split; [done|]. destruct H. constructor; try done.
  destruct i_flags0 as (? & ? & ? & ? & ? & ? & ?). by split_and!.
Qed.

Lemma init_ok : sb_rep (streambuf_init SZ streambuf_static) stream_init.
Proof.
  split; [done|]. unfold streambuf_init, sb_lock, streambuf_static. constructor; fields; try done.
  - exists []. split; [done|]. apply rep_intro; [done|exact SZ_ok|].
    cbn [size base sptr rptr wptr fifo2_init first_error fifo2_lock set_lock fst snd].
    apply rep_init; rewrite ?length_replicate; lia.
  - unfold counters. split_and!; try done; cbn; try lia. intros i Hi. do 9 (destruct i as [|i]; [reflexivity|]). lia.
  - split; [|done]. unfold counters. split_and!; try done; cbn; try lia. intros i Hi.
    do 9 (destruct i as [|i]; [reflexivity|]). lia.
  - by repeat constructor.
Qed.
End Refinement.

(** ** Runs *)

Inductive sb_op :=
  | DataEnq (buf : list Z)
  | Feed (buf : list Z)
  | DataDeq (min max : Z)
  | CmdReady
  | CmdEnq (buf : list Z)
  | CmdDeq (n : Z)
  | Discard (n : Z) (data : bool)
  | LockState (freeze : bool)
  | Flush
  | SetStreaming (b : bool)
  | FreeBytes
  | UsedBytes
  | DataUsedBytes
  | WouldWaitFor (n : Z)
  | Status.

(** The numbers and the bytes a call hands out. *)
Abbreviation result := (list Z * list Z)%type.

Section Runs.
Context (SZ : Z) (big : bool).

Definition sb_step (s : streambuf) (o : sb_op) : option (result * streambuf) :=
  match o with
  | DataEnq buf => '(b, s) ← streambuf_data_enq s buf; Some (([c_bool b], []), s)
  | Feed buf => s ← streambuf_feed s buf; Some (([], []), s)
  | DataDeq min max => '(n, out, str, s) ← streambuf_data_deq s min max; Some (([n; c_bool str], out), s)
  | CmdReady => '(code, s) ← streambuf_cmd_ready big s; Some (([code], []), s)
  | CmdEnq buf => '(b, s) ← streambuf_cmd_enq s buf; Some (([c_bool b], []), s)
  | CmdDeq n => '(r, out, s) ← streambuf_cmd_deq s n; Some (([r], out), s)
  | Discard n data => '(r, s) ← streambuf_discard s n data; Some (([r], []), s)
  | LockState b => s ← streambuf_lock_state s b; Some (([], []), s)
  | Flush => s ← streambuf_flush s; Some (([], []), s)
  | SetStreaming b => Some (([], []), streambuf_set_streaming s b)
  | FreeBytes => '(n, s) ← streambuf_get_freebytes s; Some (([n], []), s)
  | UsedBytes => '(n, s) ← streambuf_get_usedbytes s; Some (([n], []), s)
  | DataUsedBytes => '(n, s) ← streambuf_get_data_usedbytes s; Some (([n], []), s)
  | WouldWaitFor n => '(b, s) ← streambuf_would_wait_for s n; Some (([c_bool b], []), s)
  | Status => '(a, b, c, d, s) ← streambuf_get_status SZ s; Some (([a; b; c; d], []), s)
  end.

(** The same calls on the abstract stream. *)
Definition a_step (a : stream) (o : sb_op) : option (result * stream) :=
  match o with
  | DataEnq buf => Some (([1], []), a_append a buf)
  | Feed buf => if st_may_write a then Some (([], []), a_append a buf) else None
  | DataDeq min max =>
      let n := deq_size (Z.of_nat (length (st_head a))) min max in
      Some (([n; c_bool (st_streaming a)], take (Z.to_nat n) (st_head a)), a_read a n)
  | CmdReady => Some (([from_option (λ x, native_val big (take 4 x.1.1)) 0 (ready a)], []), a)
  | CmdEnq buf =>
      if (length (st_kept a) =? 9)%nat || (SZ - 1 - st_used a <=? Z.of_nat (length buf)) then None
      else Some (([1], []), a_cmd a buf)
  | CmdDeq n =>
      match ready a with
      | Some (c, d, t) => Some (([n], c), a_take_cmd a c d t)
      | None => Some (([0], []), a)
      end
  | Discard n data => Some (([n], []), a_discard a n data)
  | LockState b => Some (([], []), if b : bool then a_freeze a else a_thaw a)
  | Flush => Some (([], []), a_flush a)
  | SetStreaming b => Some (([], []), a_set_streaming a b)
  | FreeBytes => Some (([if st_may_write a then SZ - 1 - st_used a else 0], []), a)
  | UsedBytes => Some (([Z.of_nat (length (st_bytes a))], []), a)
  | DataUsedBytes => Some (([Z.of_nat (length (st_head a))], []), a)
  | WouldWaitFor n => Some (([c_bool (st_streaming a && (Z.of_nat (length (st_head a)) <? n))], []), a)
  | Status => Some (([SZ; if st_may_write a then st_used a else SZ; Z.land (st_received a) 0xFFFFFFFF;
                      u32 (Z.shiftr (st_received a) 32)], []), a)
  end.

(** What the clients keep to: data only where it fits, commands of at least a
    code with fewer than eight waiting, a command read at its own length,
    discards of what was read. *)
Definition legal_op (a : stream) (o : sb_op) : bool :=
  match o with
  | DataEnq buf | Feed buf => Z.of_nat (length buf) <=? SZ - 1 - st_used a
  | DataDeq _ max => 0 <=? max
  | CmdEnq buf => (4 <=? length buf)%nat && (length (st_tail a) <? 8)%nat
  | CmdDeq n => match ready a with Some (c, _, _) => n =? Z.of_nat (length c) | None => true end
  | Discard n data => (0 <=? n) && (n <=? if data : bool then st_data a else st_cmd a)
  | _ => true
  end.

Fixpoint legal (a : stream) (os : list sb_op) : bool :=
  match os with
  | [] => true
  | o :: os' => legal_op a o && match a_step a o with Some (_, a) => legal a os' | None => true end
  end.

Fixpoint sb_run (s : streambuf) (os : list sb_op) : option (list result) :=
  match os with
  | [] => Some []
  | o :: os' => '(r, s) ← sb_step s o; rs ← sb_run s os'; Some (r :: rs)
  end.

Fixpoint a_run (a : stream) (os : list sb_op) : option (list result) :=
  match os with
  | [] => Some []
  | o :: os' => '(r, a) ← a_step a o; rs ← a_run a os'; Some (r :: rs)
  end.

Lemma step_ok s a o : 0 < SZ <= max_size → sb_rep SZ s a → legal_op a o = true →
  match a_step a o with
  | Some (r, a') => ∃ s', sb_step s o = Some (r, s') ∧ sb_rep SZ s' a'
  | None => sb_step s o = None
  end.
Proof.
  intros Hsz H Hop. destruct o; cbn [legal_op a_step sb_step] in *; try apply Z.leb_le in Hop.
  - destruct (data_enq_ok SZ Hsz s a buf H Hop) as (s' & -> & Hr). by exists s'.
  - unfold streambuf_feed. pose proof H as [_ []]. destruct i_flags0 as (_ & _ & _ & Haw & _). cbn in Haw. rewrite Haw.
    destruct (st_may_write a); [|done]. cbn [negb]. destruct (data_enq_ok SZ Hsz s a buf H Hop) as (s' & -> & Hr). by exists s'.
  - destruct (data_deq_ok SZ Hsz s a min max H Hop) as (s' & -> & Hr). by exists s'.
  - destruct (cmd_ready_ok SZ Hsz big s a H) as (s' & -> & Hr). by exists s'.
  - apply andb_true_iff in Hop as [H1 H2]. apply Nat.leb_le in H1. apply Nat.ltb_lt in H2.
    pose proof (cmd_enq_ok SZ Hsz s a buf H H1 H2) as Hc.
    destruct ((length (st_kept a) =? 9)%nat || (SZ - 1 - st_used a <=? Z.of_nat (length buf))); [by rewrite Hc|].
    destruct Hc as (s' & -> & Hr). by exists s'.
  - destruct (cmd_deq_ok SZ Hsz s a n H) as (s' & Hd & Hr).
    { intros c d t Hc. rewrite Hc in Hop. by apply Z.eqb_eq. }
    rewrite Hd. destruct (ready a) as [[[c d] t]|]; by exists s'.
  - bool_prop. destruct (discard_ok SZ Hsz s a n data H ltac:(lia)) as (s' & -> & Hr). by exists s'.
  - destruct freeze; [destruct (freeze_ok SZ s a H) as (s' & -> & Hr)|destruct (thaw_ok SZ Hsz s a H) as (s' & -> & Hr)];
      by exists s'.
  - destruct (flush_ok SZ s a H) as (s' & -> & Hr). by exists s'.
  - eexists. split; [done|]. by apply set_streaming_ok.
  - destruct (freebytes_ok SZ s a H) as (s' & -> & Hr). by exists s'.
  - destruct (usedbytes_ok SZ s a H) as (s' & -> & Hr). by exists s'.
  - destruct (data_usedbytes_ok SZ s a H) as (s' & -> & Hr). by exists s'.
  - destruct (would_wait_ok SZ s a n H) as (s' & -> & Hr). by exists s'.
  - destruct (status_ok SZ s a H) as (s' & -> & Hr). by exists s'.
Qed.

Lemma run_ok os s a : 0 < SZ <= max_size → sb_rep SZ s a → legal a os = true → sb_run s os = a_run a os.
Proof.
  intros Hsz. revert s a. induction os as [|o os IH]; intros s a H Hl; [done|]. cbn [legal sb_run a_run] in *.
  apply andb_true_iff in Hl as [Hop Hl]. pose proof (step_ok s a o Hsz H Hop) as Hs.
  destruct (a_step a o) as [[r a']|]; [|by rewrite Hs].
  destruct Hs as (s' & -> & Hr). cbn [mbind option_bind]. by rewrite (IH s' a' Hr Hl).
Qed.
End Runs.

(** C10.  The stream buffer keeps data and inline commands in stream order:
    for every run of its operations by clients that keep to their contract,
    including freezes and thaws, every call returns what the abstract stream
    returns.  Data comes out byte for byte and never past a command, a command
    comes out whole and only once the data before it has been read, discards
    never lose count, the loop over the stale counters ends, and the process
    exits exactly where the stream has no room for a command. *)
Theorem streambuf_refines_stream SZ big os : 0 < SZ <= max_size → legal SZ big stream_init os = true →
  sb_run SZ big (streambuf_init SZ streambuf_static) os = a_run SZ big stream_init os.
Proof. intros Hsz Hl. apply run_ok; [done|by apply init_ok|done]. Qed.

(** Two tracks with their commands, a freeze with discards, a thaw. *)
Definition demo_stream : list sb_op :=
  [CmdEnq [0; 0; 0; 1]; DataEnq [1; 2; 3; 4; 5]; CmdEnq [0; 0; 0; 2; 9]; DataEnq [6; 7];
   DataDeq 0 10; CmdReady; CmdDeq 4; Discard 4 false; DataDeq 0 3; DataDeq 3 10; DataDeq 0 10;
   LockState true; Discard 5 true; FreeBytes; CmdReady; CmdDeq 5; Discard 5 false; DataDeq 0 10; LockState false;
   FreeBytes; Status].

Lemma streambuf_refines_stream_witness :
  sb_run 32 true (streambuf_init 32 streambuf_static) demo_stream
  = Some [([1], []); ([1], []); ([1], []); ([1], []);
          ([0; 1], []); ([1], []); ([4], [0; 0; 0; 1]); ([4], []); ([3; 1], [1; 2; 3]); ([0; 1], []); ([2; 1], [4; 5]);
          ([], []); ([5], []); ([0], []); ([2], []); ([5], [0; 0; 0; 2; 9]); ([5], []); ([2; 1], [6; 7]); ([], []);
          ([29], []); ([32; 2; 7; 0], [])].
Proof.
  assert (H := streambuf_refines_stream 32 true demo_stream ltac:(vm_compute; split; [reflexivity|discriminate]) eq_refl).
  rewrite H. vm_compute. reflexivity.
Defined.

(** ** Reaching states *)

(** The state after a run, and the stream it stands for. *)
Fixpoint sb_exec (SZ : Z) (big : bool) (s : streambuf) (os : list sb_op) : option streambuf :=
  match os with
  | [] => Some s
  | o :: os' => '(_, s) ← sb_step SZ big s o; sb_exec SZ big s os'
  end.

Fixpoint a_exec (SZ : Z) (big : bool) (a : stream) (os : list sb_op) : option stream :=
  match os with
  | [] => Some a
  | o :: os' => '(_, a) ← a_step SZ big a o; a_exec SZ big a os'
  end.

Lemma exec_rep SZ big os s a a' : 0 < SZ <= max_size → sb_rep SZ s a → legal SZ big a os = true →
  a_exec SZ big a os = Some a' → ∃ s', sb_exec SZ big s os = Some s' ∧ sb_rep SZ s' a'.
Proof.
  intros Hsz. revert s a. induction os as [|o os IH]; intros s a H Hl He; cbn [legal sb_exec a_exec] in *.
  - injection He as <-. eauto.
  - apply andb_true_iff in Hl as [Hop Hl]. pose proof (step_ok SZ big s a o Hsz H Hop) as Hs.
    destruct (a_step SZ big a o) as [[r a1]|]; [|done]. destruct Hs as (s1 & -> & Hr). by eapply IH.
Qed.

(** ** More than eight commands *)

Section Crowd.
Context (SZ : Z).
Hypothesis SZ_ok : 0 < SZ <= max_size.

Lemma queue_enq f q buf : rep f q → size f = SZ → Z.of_nat (length buf) <= q_room SZ q →
  ∃ f', fifo2_enq f buf = Some (Z.of_nat (length buf), f') ∧ size f' = SZ ∧ rep f' (mk_queue (q_stale q) (q_fresh q ++ buf)).
Proof.
  intros Hr Hsz Hn. assert (q_room SZ q < SZ) by (unfold q_room, q_used; lia). unfold max_size in SZ_ok.
  destruct (enq_rep f q buf Hr ltac:(lia)) as (f' & Hf & Hrf & Hsf). exists f'. revert Hf Hrf. unfold q_enq. rewrite Hsz.
  destruct (_ <? _) eqn:E; bool_prop; [lia|]. cbn [fst snd]. intros Hf Hrf. split; [done|]. split; [congruence|done].
Qed.

Lemma queue_deq f q n : rep f q → 0 <= n <= Z.of_nat (length (q_fresh q)) →
  ∃ f', fifo2_deq f true n false = Some (n, take (Z.to_nat n) (q_fresh q), f') ∧ lock f' = true.
Proof.
  intros Hr Hn. pose proof Hr as (_ & Hs & Hrr). pose proof (rr_room _ _ _ _ _ _ Hrr) as Hroom. unfold q_room, q_used, max_size in *.
  destruct (deq_rep f q n false Hr ltac:(lia)) as (f' & Hf & Hrf & _). exists f'. revert Hf Hrf. unfold q_deq, q_used.
  destruct (_ <? _) eqn:E; bool_prop; [lia|]. cbn [fst snd]. intros Hf Hrf. split; [done|apply Hrf].
Qed.

(** With eight commands waiting the slot after the last is the first one. *)
Lemma ninth_slot s a : sb_inner SZ s a → length (st_tail a) = 8%nat → next_slot (eslot s) = dslot s ∧ 0 <= dslot s < 9.
Proof.
  intros [] Ht. destruct i_counters0 as (_ & Hd & _). split; [|done].
  rewrite i_eslot0, next_slot_mod by (unfold last_slot; apply Z.mod_pos_bound; lia). unfold last_slot, st_counts, piece_counts.
  cbn [length]. rewrite length_fmap, Ht, Zplus_mod_idemp_l. replace (dslot s + Z.of_nat 9 - 1 + 1) with (dslot s + 1 * 9) by lia.
  rewrite Z.mod_add, Z.mod_small by lia. done.
Qed.
(** Unlocked, the write slot being the read slot, which counts [cnt] bytes. *)
Record crowded (s : streambuf) (cnt : Z) (q : queue) : Prop := {
  cr_lock : lock (sfifo s) = false;
  cr_size : size (sfifo s) = SZ;
  cr_rep : rep (sfifo (sb_lock s)) q;
  cr_slot : 0 <= dslot s < 9 ∧ eslot s = dslot s;
  cr_cnt : length (slot_cnt s) = 9%nat ∧ aget (slot_cnt s) (dslot s) = Some cnt;
  cr_stale : length (slot_cnt_stale s) = 9%nat;
  cr_auto : allow_auto_discard s = false
}.

Lemma unlocked s : lock (sfifo s) = true → sb_unlock s = Some (set_sfifo (set_lock false (sfifo s)) s).
Proof. intros H. unfold sb_unlock, fifo2_unlock, locked. by rewrite H. Qed.

Lemma crowd_cmd s a c : sb_rep SZ s a → length (st_tail a) = 8%nat → length (st_kept a) ≠ 9%nat →
  Z.of_nat (length c) < SZ - 1 - st_used a →
  ∃ s1 stale, streambuf_cmd_enq s c = Some (true, s1) ∧ Z.of_nat (length stale) = st_read a
    ∧ crowded s1 (Z.of_nat (length (st_head a))) (mk_queue stale (st_bytes a ++ c)).
Proof.
  intros [_ H] Ht Hk Hroom. pose proof (ninth_slot s a) as Hslot. specialize (ninth_slot _ a H Ht) as [Hnext Hds].
  pose proof (inner_free SZ _ a H) as Hfree. pose proof H as []. pose proof i_stale0 as ((Hsl9 & _) & Hncst & _).
  pose proof i_counters0 as (Hc9 & _). pose proof (counters_head _ _ _ _ i_counters0) as Hcnt. destruct i_fifo0 as (stale & Hst & Hr).
  unfold streambuf_cmd_enq. clear Hslot. set (s0 := sb_lock s) in *. clearbody s0. clear s. cbv zeta. rewrite Hfree. cbn [mbind option_bind].
  assert (Hfull : (cmd_cnt_stale s0 =? MAX_STREAM_CMDS) = false) by (rewrite Hncst; apply Z.eqb_neq; lia). rewrite Hfull.
  assert (Hlt : (Z.of_nat (length c) <? SZ - 1 - st_used a) = true) by (apply Z.ltb_lt; lia). rewrite Hlt. cbn [negb andb].
  destruct (queue_enq _ _ c Hr i_size0) as (f1 & Hf1 & Hs1 & Hr1); [unfold q_room, q_used, st_used in *; cbn; lia|].
  rewrite Hf1. cbn [mbind option_bind]. rewrite unlocked by apply Hr1. cbn [mbind option_bind negb].
  eexists _, stale. split; [reflexivity|]. split; [done|].
  destruct Hr1 as (_ & Hz1 & Hr1). destruct i_flags0 as (_ & Ha & _). by split.
Qed.

Lemma crowd_data s cnt q d : crowded s cnt q → 0 <= cnt → Z.of_nat (length d) <= q_room SZ q → cnt <= Z.of_nat (length (q_fresh q)) →
  ∃ s1, streambuf_data_enq s d = Some (true, s1) ∧ streaming s1 = true
    ∧ crowded s1 (cnt + Z.of_nat (length d)) (mk_queue (q_stale q) (q_fresh q ++ d)).
Proof.
  intros [Hl Hsz Hr [Hds He] [Hc9 Hcnt] Hs9 Ha] H0 Hroom Hle.
  assert (Hsmall : cnt + Z.of_nat (length d) < 2 ^ 32) by (unfold q_room, q_used, max_size in *; lia).
  destruct (queue_enq _ _ d Hr Hsz Hroom) as (f1 & Hf1 & Hs1 & Hr1). rewrite <- (Z.mod_small (dslot s) 9) in Hcnt by lia.
  unfold streambuf_data_enq. cbv zeta. cbn [slot_cnt eslot set_received set_streaming sb_lock set_sfifo].
  rewrite He, <- (Z.mod_small (dslot s) 9), Hcnt by lia. cbn [mbind option_bind]. rewrite aset_mod by done. cbn [mbind option_bind].
  cbn [slot_cnt_stale eslot set_fresh set_received set_streaming sb_lock set_sfifo]. rewrite He, <- (Z.mod_small (dslot s) 9) by lia.
  rewrite aget_mod by done. cbn [mbind option_bind]. rewrite aset_mod by done. cbn [mbind option_bind].
  match goal with |- context [fifo2_enq (sfifo ?x) d] => change (sfifo x) with (sfifo (sb_lock s)) end. rewrite Hf1. cbn [mbind option_bind].
  rewrite unlocked by apply Hr1. cbn [mbind option_bind]. eexists. split; [reflexivity|]. split; [done|].
  rewrite !(Z.mod_small (dslot s) 9) by lia. rewrite (u32_small (cnt + _)) by (unfold is_u32; lia).
  destruct Hr1 as (_ & Hz1 & Hr1). split; try done; cbn [slot_cnt slot_cnt_stale dslot set_sfifo set_stale set_fresh]; rewrite ?length_insert; try done.
  split; [done|]. unfold aget. apply list_lookup_insert_eq. lia.
Qed.

Lemma crowd_read s cnt q max : crowded s cnt q → 0 <= cnt <= Z.of_nat (length (q_fresh q)) → 0 <= max →
  let n := Z.min max cnt in
  ∃ s1, streambuf_data_deq s 0 max = Some (n, take (Z.to_nat n) (q_fresh q), streaming s, s1).
Proof.
  intros [Hl Hsz Hr [Hds He] [Hc9 Hcnt] Hs9 Ha] Hn Hmax n. unfold streambuf_data_deq. cbv zeta.
  change (slot_cnt (sb_lock s)) with (slot_cnt s). change (dslot (sb_lock s)) with (dslot s). rewrite Hcnt. cbn [mbind option_bind].
  rewrite (proj2 (Z.ltb_ge cnt 0)) by lia. assert (Hsize : (if max <? cnt then max else cnt) = n) by (unfold n; destruct (_ <? _) eqn:E; bool_prop; lia).
  rewrite Hsize. change (allow_auto_discard (sb_lock s)) with (allow_auto_discard s). rewrite Ha. unfold c_true.
  destruct (_ =? 0) eqn:E; bool_prop; cbn [negb].
  - cbn [mbind option_bind]. unfold fifo2_signal, locked. destruct Hr as (Hl1 & _). rewrite Hl1. cbn [mbind option_bind].
    rewrite unlocked by done. cbn [mbind option_bind]. rewrite E. by eexists.
  - destruct (queue_deq _ q n Hr ltac:(lia)) as (f1 & Hf1 & Hl1). rewrite Hf1. cbn [mbind option_bind].
    cbn [slot_cnt dslot set_sfifo sb_lock]. rewrite Hcnt. cbn [mbind option_bind].
    rewrite <- (Z.mod_small (dslot s) 9), aset_mod by (done || lia). cbn [mbind option_bind sfifo set_fresh set_sfifo].
    unfold fifo2_signal, locked. rewrite Hl1. cbn [mbind option_bind]. rewrite unlocked by done. cbn [mbind option_bind]. by eexists.
Qed.
End Crowd.

(** C39.  The limit of eight commands is tested on the stale count alone, which
    drops commands that were not read yet.  In every buffer in which eight
    commands wait and fewer are counted, one more is accepted; data sent after
    it is counted in front of all nine, and the decoder is then handed, as
    audio, as many bytes of the waiting commands as the data had, where the
    stream ends at its first command. *)
Theorem streambuf_crowded SZ s a c d max : 0 < SZ <= max_size → sb_rep SZ s a →
  length (st_tail a) = 8%nat → length (st_kept a) ≠ 9%nat →
  d ≠ [] → Z.of_nat (length c) + Z.of_nat (length d) <= SZ - 1 - st_used a → 0 <= max →
  let n := Z.min max (Z.of_nat (length (st_head a)) + Z.of_nat (length d)) in
  ∃ s1 s2 s3, streambuf_cmd_enq s c = Some (true, s1) ∧ streambuf_data_enq s1 d = Some (true, s2)
    ∧ streambuf_data_deq s2 0 max = Some (n, take (Z.to_nat n) (st_head a ++ st_pieces (st_tail a) ++ c ++ d), true, s3).
Proof.
  intros Hsz Hs Ht Hk Hd Hroom Hmax n. assert (0 < Z.of_nat (length d)) by (destruct d; [done|cbn; lia]).
  destruct (crowd_cmd SZ Hsz s a c Hs Ht Hk ltac:(lia)) as (s1 & stale & H1 & Hst & C1).
  assert (Hh : Z.of_nat (length (st_head a)) <= Z.of_nat (length (st_bytes a ++ c))) by (unfold st_bytes; rewrite !length_app; lia).
  destruct (crowd_data SZ Hsz s1 _ _ d C1 ltac:(lia)) as (s2 & H2 & Hstr & C2); [|exact Hh|].
  { unfold q_room, q_used, st_used in *. cbn. rewrite length_app. lia. }
  destruct (crowd_read SZ s2 _ _ max C2) as (s3 & H3); [cbn [q_fresh] in *; rewrite length_app; lia|done|].
  exists s1, s2, s3. split; [done|]. split; [done|]. rewrite H3, Hstr. cbn [q_fresh]. unfold st_bytes. by rewrite <- !app_assoc.
Qed.

(** Two commands behind some data; discarding the data takes them off the
    stale counters although they have not been read; then six more. *)
Definition crowd : list sb_op :=
  [DataEnq [50; 51]; CmdEnq [1; 0; 0; 1]; CmdEnq [2; 0; 0; 2]; DataDeq 0 2; Discard 2 true] ++ replicate 6 (CmdEnq [3; 0; 0; 3]).

Definition crowded_stream : stream := default stream_init (a_exec 64 true stream_init crowd).

(** The byte of data is handed out as the first byte of the first command. *)
Lemma streambuf_crowded_witness :
  ∃ s s1 s2 s3, sb_rep 64 s crowded_stream ∧ streambuf_cmd_enq s [3; 0; 0; 3] = Some (true, s1)
    ∧ streambuf_data_enq s1 [99] = Some (true, s2) ∧ streambuf_data_deq s2 0 16 = Some (1, [1], true, s3).
Proof.
  assert (Hsz : 0 < 64 <= max_size) by (vm_compute; split; [reflexivity|discriminate]).
  destruct (exec_rep 64 true crowd _ _ crowded_stream Hsz (init_ok 64 Hsz) eq_refl eq_refl) as (s & _ & Hs). exists s.
  destruct (streambuf_crowded 64 s _ [3; 0; 0; 3] [99] 16 Hsz Hs eq_refl) as (s1 & s2 & s3 & H1 & H2 & H3);
    [discriminate|discriminate|vm_compute; discriminate|lia|].
  exists s1, s2, s3. split; [exact Hs|]. split; [exact H1|]. split; [exact H2|]. exact H3.
Defined.
