(* ===== verification/AudioSync.v ===== *)
(** lib/audio/audio.c, the hand-over of a playing stream to another device:
    the sender freezes its stream buffer and sends, packet by packet, the
    audio position, the stale counters and every undiscarded byte; the
    receiver stores them and takes them over when playing resumes.  The
    locks of the decode thread are left out: each function runs under them. *)

From S2P Require Import Prelude Endian Ring Fifo2 Streambuf StreambufSpec StreambufRefines.

Inductive sync_state :=
  | SYNC_IDLE
  | SYNC_READY_SYNC_TO
  | SYNC_SEND_AUDIO_STATE
  | SYNC_SEND_SB_STATE
  | SYNC_SEND_SB_DATA
  | SYNC_SEND_DONE
  | SYNC_SEND_ERROR
  | SYNC_READY_SYNC_WAIT
  | SYNC_RECV_AUDIO_STATE
  | SYNC_RECV_SB_STATE
  | SYNC_RECV_SB_DATA
  | SYNC_RECV_DONE
  | SYNC_RECV_ERROR.

(** The globals of audio.c and the function-local statics of the two state
    machines. *)
Record audio := mk_audio {
  a_sb : streambuf;
  a_sync : sync_state;
  send_offset : Z;
  recv_offset : Z;
  recv_data_len : Z;
  current_track_jiffies : Z;
  sync_discarded_samples : Z;
  current_track_discarded_samples : Z;
  restore_state_on_resume : bool
}.

Definition set_sb v a := mk_audio v (a_sync a) (send_offset a) (recv_offset a) (recv_data_len a)
  (current_track_jiffies a) (sync_discarded_samples a) (current_track_discarded_samples a) (restore_state_on_resume a).
Definition set_sync_state v a := mk_audio (a_sb a) v (send_offset a) (recv_offset a) (recv_data_len a)
  (current_track_jiffies a) (sync_discarded_samples a) (current_track_discarded_samples a) (restore_state_on_resume a).
Definition set_send_offset v a := mk_audio (a_sb a) (a_sync a) v (recv_offset a) (recv_data_len a)
  (current_track_jiffies a) (sync_discarded_samples a) (current_track_discarded_samples a) (restore_state_on_resume a).
Definition set_recv o n a := mk_audio (a_sb a) (a_sync a) (send_offset a) o n
  (current_track_jiffies a) (sync_discarded_samples a) (current_track_discarded_samples a) (restore_state_on_resume a).
Definition set_position j d a := mk_audio (a_sb a) (a_sync a) (send_offset a) (recv_offset a) (recv_data_len a)
  j d (current_track_discarded_samples a) (restore_state_on_resume a).
Definition set_discarded v a := mk_audio (a_sb a) (a_sync a) (send_offset a) (recv_offset a) (recv_data_len a)
  (current_track_jiffies a) (sync_discarded_samples a) v (restore_state_on_resume a).
Definition set_restore v a := mk_audio (a_sb a) (a_sync a) (send_offset a) (recv_offset a) (recv_data_len a)
  (current_track_jiffies a) (sync_discarded_samples a) (current_track_discarded_samples a) v.

Section Sync.
Context (big : bool).

(** The bytes stored, none when the buffer is too small. *)
Definition audio_sync_state_read (a : audio) (size : Z) : list Z :=
  if 8 + 8 <=? size then native big 8 (current_track_jiffies a) ++ native big 8 (sync_discarded_samples a) else [].

Definition audio_sync_state_write (a : audio) (buf : list Z) : Z * audio :=
  if Z.of_nat (length buf) =? 8 + 8 then
    (8 + 8, set_position (native_val big (take 8 buf)) (native_val big (drop 8 buf)) a)
  else (0, a).

(** [decoder_samples] is what the decoder says it discarded. *)
Definition audio_prepare_sync_to (decoder_samples : Z) (a : audio) (start : bool) : option audio :=
  sb ← streambuf_lock_state (a_sb a) start;
  let a := set_sb sb a in
  Some (if start then
          set_sync_state SYNC_READY_SYNC_TO
            (set_position (current_track_jiffies a) (u64 (current_track_discarded_samples a + (decoder_samples + 1152))) a)
        else set_sync_state SYNC_IDLE (set_position (current_track_jiffies a) 0 a)).

Definition send_audio_state (a : audio) (len : Z) : Z * list Z * audio :=
  let out := audio_sync_state_read a len in
  (if Z.of_nat (length out) =? 0 then -1 else 1, out, set_sync_state SYNC_SEND_SB_STATE a).

(** The result (1 again, 0 done, -1 error) and the packet. *)
Definition audio_sync_state_send (a : audio) (len : Z) : option (Z * list Z * audio) :=
  if len =? 0 then Some (-1, [], a) else
  match a_sync a with
  | SYNC_READY_SYNC_TO =>
      Some (send_audio_state (set_send_offset 0 (set_sync_state SYNC_SEND_AUDIO_STATE a)) len)
  | SYNC_SEND_AUDIO_STATE => Some (send_audio_state a len)
  | SYNC_SEND_SB_STATE =>
      '(size, out, sb) ← streambuf_sync_read_state big (a_sb a) len;
      Some (if size =? 0 then -1 else 1, out, set_sync_state SYNC_SEND_SB_DATA (set_sb sb a))
  | SYNC_SEND_SB_DATA =>
      '(size, out, sb) ← streambuf_sync_read_data (a_sb a) (send_offset a) len;
      let a := set_send_offset (u32 (send_offset a + size)) (set_sb sb a) in
      if size =? len then Some (1, out, a)
      else Some (0, out, set_sync_state SYNC_SEND_DONE a)
  | _ => Some (-1, [], a)
  end.

Definition audio_prepare_sync_wait (a : audio) (start : bool) : option audio :=
  sb ← streambuf_lock_state (a_sb a) start;
  Some (set_sync_state (if start then SYNC_READY_SYNC_WAIT else SYNC_IDLE) (set_sb sb a)).

Definition recv_audio_state (a : audio) (buf : list Z) : Z * audio :=
  let '(size, a) := audio_sync_state_write a buf in
  (if size =? 0 then -1 else 1, set_sync_state SYNC_RECV_SB_STATE a).

Definition audio_sync_state_recv (a : audio) (buf : list Z) : option (Z * audio) :=
  let len := Z.of_nat (length buf) in
  if len =? 0 then Some (-1, a) else
  match a_sync a with
  | SYNC_READY_SYNC_WAIT => Some (recv_audio_state (set_recv 0 0 (set_sync_state SYNC_RECV_AUDIO_STATE a)) buf)
  | SYNC_RECV_AUDIO_STATE => Some (recv_audio_state a buf)
  | SYNC_RECV_SB_STATE =>
      '(n, sb) ← streambuf_sync_write_state big (a_sb a) buf;
      let a := set_recv (recv_offset a) n (set_sb sb a) in
      Some (if n =? 0 then -1 else 1, set_sync_state SYNC_RECV_SB_DATA (set_restore true a))
  | SYNC_RECV_SB_DATA =>
      '(n, sb) ← streambuf_sync_write_data (a_sb a) buf;
      let a := set_sb sb a in
      if n =? 0 then Some (-1, a) else
      let a := set_recv (u32 (recv_offset a + len)) (recv_data_len a) a in
      if u32 (recv_data_len a - recv_offset a) =? 0 then Some (0, set_sync_state SYNC_RECV_DONE a)
      else Some (1, a)
  | _ => Some (-1, a)
  end.

(** What the resume command does with the state received: the start time and
    the stream buffer of the other device are taken over. *)
Definition resume_restore (a : audio) (start_jiffies : Z) : option (Z * audio) :=
  if restore_state_on_resume a then
    let sync_jiffies := u64 (current_track_jiffies a + u64 (sync_discarded_samples a * 1000) / 44100) in
    let a := set_discarded (sync_discarded_samples a) a in
    let a := set_position (current_track_jiffies a) 0 a in
    sb ← streambuf_restore_state (a_sb a);
    Some (sync_jiffies, set_restore false (set_sb sb a))
  else Some (start_jiffies, set_discarded 0 (set_position start_jiffies (sync_discarded_samples a) a)).

(** Calls with buffers of these sizes, each packet passed on as it is; an empty
    one is not sent. *)
Fixpoint transfer (sizes : list Z) (a b : audio) : option (audio * audio) :=
  match sizes with
  | [] => Some (a, b)
  | len :: sizes' =>
      '(_, pkt, a) ← audio_sync_state_send a len;
      b ← match pkt with [] => Some b | _ => '(_, b) ← audio_sync_state_recv b pkt; Some b end;
      transfer sizes' a b
  end.
End Sync.

(** ** The stream buffer's part *)

Lemma lock_unlock s : lock (sfifo s) = false → sb_unlock (sb_lock s) = Some s.
Proof. destruct s as [? ? ? ? [lk ? ? ? ? ?]]. cbn. by intros ->. Qed.

(** Every byte kept, read or not. *)
Definition undiscarded (s : streambuf) : list Z :=
  from_option (λ n, from_option snd [] (fifo2_read (sfifo (sb_lock s)) true 0 n true)) []
    (fifo2_bytes_used (sfifo (sb_lock s)) true).

Section Transfer.
Context (SZ : Z).
Hypothesis SZ_ok : 0 < SZ <= max_size.
Context (big : bool).

Lemma freeze_saves s a : sb_rep SZ s a → streambuf_lock_state s true
  = Some (set_sync [cmd_cnt_stale s; eslot s; sslot s; st_used a] (set_allow false false false s)).
Proof.
  intros [Hl H]. unfold streambuf_lock_state. cbv zeta.
  change (sfifo (set_allow false false false (sb_lock s))) with (sfifo (sb_lock s)). rewrite (inner_used SZ (sb_lock s) a true H). cbn [mbind option_bind].
  apply (lock_unlock (set_sync [cmd_cnt_stale s; eslot s; sslot s; st_used a] (set_allow false false false s)) Hl).
Qed.

(** A fifo that is unlocked and holds [q]. *)
Definition holds (f : fifo2) (q : queue) : Prop := lock f = false ∧ size f = SZ ∧ rep (set_lock true f) q.

Lemma sb_holds s a : sb_rep SZ s a → ∃ stale, holds (sfifo s) (mk_queue stale (st_bytes a))
  ∧ Z.of_nat (length stale) = st_read a.
Proof. intros [Hl []]. destruct i_fifo as (stale & Hst & Hr). exists stale. done. Qed.

Lemma holds_bytes s q : holds (sfifo s) q → undiscarded s = q_bytes true q.
Proof.
  intros (Hl & Hsz & Hr). unfold undiscarded. cbn [sfifo sb_lock set_sfifo fifo2_lock fst snd].
  rewrite (bytes_used_rep _ _ true Hr). cbn [from_option].
  assert (Hu : 0 <= q_used true q < 2 ^ 32).
  { destruct Hr as (_ & Hs & Hr). pose proof (rr_room _ _ _ _ _ _ Hr) as Hroom. unfold q_room in Hroom.
    unfold max_size in *. cbn [size set_lock] in *. unfold q_used in *. lia. }
  rewrite (read_rep _ _ 0 (q_used true q) true Hr) by lia. cbn [from_option]. unfold q_read.
  destruct (Z.ltb_spec (q_used true q) (q_used true q + 0)); [lia|]. cbn [snd]. rewrite drop_0. apply take_ge.
  unfold q_bytes, q_used. rewrite length_app. lia.
Qed.

Lemma holds_fit f q : holds f q → Z.of_nat (length (q_bytes true q)) < SZ.
Proof.
  intros (Hl & Hsz & (_ & _ & Hr)). pose proof (rr_room _ _ _ _ _ _ Hr) as Hroom. unfold q_room, q_used in Hroom.
  cbn [size set_lock] in Hroom. rewrite Hsz in Hroom. unfold q_bytes. rewrite length_app. lia.
Qed.

(** A read of the kept bytes changes nothing. *)
Lemma sync_read_data_ok s q off len : holds (sfifo s) q → 0 <= off <= Z.of_nat (length (q_bytes true q)) →
  0 < len < 2 ^ 31 →
  let n := Z.min len (Z.of_nat (length (q_bytes true q)) - off) in
  streambuf_sync_read_data s off len = Some (n, take (Z.to_nat n) (drop (Z.to_nat off) (q_bytes true q)), s).
Proof.
  intros H Hoff Hlen n. pose proof (holds_fit _ _ H) as Hfit. destruct H as (Hl & Hsz & Hr).
  assert (Hu : q_used true q = Z.of_nat (length (q_bytes true q))) by (unfold q_used, q_bytes; rewrite length_app; lia).
  unfold max_size in SZ_ok. unfold streambuf_sync_read_data.
  assert (Hr' : rep (sfifo (sb_lock s)) q) by done.
  rewrite (bytes_used_rep _ _ true Hr'). cbn [mbind option_bind]. rewrite Hu, !u32_small by (unfold is_u32; lia).
  replace (if Z.of_nat (length (q_bytes true q)) <? len + off then _ else len) with n
    by (unfold n; destruct (Z.ltb_spec (Z.of_nat (length (q_bytes true q))) (len + off)); lia).
  unfold c_true. destruct (Z.eqb_spec n 0) as [Hz|Hz]; cbn [negb].
  - cbn [mbind option_bind]. rewrite (lock_unlock s Hl), Hz. done.
  - rewrite (read_rep _ _ off n true Hr') by lia. unfold q_read. rewrite Hu.
    destruct (Z.ltb_spec (Z.of_nat (length (q_bytes true q))) (n + off)); [lia|].
    cbn [mbind option_bind]. rewrite (lock_unlock s Hl). done.
Qed.

Lemma sync_read_state_ok s len : lock (sfifo s) = false → 52 <= len →
  streambuf_sync_read_state big s len = Some (52, words big (slot_cnt_stale s) ++ words big (state_sync s), s).
Proof.
  intros Hl Hlen. unfold streambuf_sync_read_state. change (4 * 9 + 4 * 4) with 52.
  destruct (Z.leb_spec 52 len); [|lia]. by rewrite (lock_unlock s Hl).
Qed.

(** The receiver: the state it had, with the fifo holding what arrived. *)
Definition receiving (s0 s : streambuf) (got : list Z) : Prop :=
  ∃ f, s = set_sfifo f s0 ∧ holds f (mk_queue [] got).

Lemma sync_write_data_ok s0 s got buf : receiving s0 s got →
  Z.of_nat (length got) + Z.of_nat (length buf) < SZ →
  ∃ s', streambuf_sync_write_data s buf = Some (Z.of_nat (length buf), s') ∧ receiving s0 s' (got ++ buf).
Proof.
  intros (f & -> & (Hl & Hsz & Hr)) Hfit. unfold max_size in SZ_ok.
  destruct (enq_rep (set_lock true f) _ buf Hr ltac:(lia)) as (g & Hg & Hrg & Hsg).
  unfold q_enq in Hg, Hrg.
  destruct (Z.ltb_spec (q_room (size (set_lock true f)) (mk_queue [] got)) (Z.of_nat (length buf))) as [Hb|_].
  { unfold q_room, q_used in Hb. cbn in Hb. lia. }
  cbn [fst snd q_stale q_fresh] in Hg, Hrg.
  unfold streambuf_sync_write_data, sb_lock. cbn [sfifo set_sfifo fifo2_lock fst snd]. rewrite Hg.
  cbn [mbind option_bind]. unfold sb_unlock, fifo2_unlock, locked. cbn [sfifo set_sfifo].
  pose proof Hrg as (Hlg & Hsz' & Hrr). rewrite Hlg. cbn [mbind option_bind negb].
  eexists. split; [reflexivity|]. exists (set_lock false g). split; [done|]. split; [done|].
  split; [cbn in *; congruence|]. by apply rep_intro.
Qed.

(** What the receiver is after the last byte. *)
Definition received (b : audio) (s : streambuf) (n : Z) : audio :=
  set_sync_state SYNC_RECV_DONE (set_recv n n (set_sb s b)).

(** One data packet. *)
Lemma recv_data_ok b s0 got buf n : receiving s0 (a_sb b) got → a_sync b = SYNC_RECV_SB_DATA →
  recv_offset b = Z.of_nat (length got) → recv_data_len b = n → buf ≠ [] →
  Z.of_nat (length got) + Z.of_nat (length buf) <= n → n < SZ →
  ∃ s', receiving s0 s' (got ++ buf)
    ∧ audio_sync_state_recv big b buf
      = Some (if Z.of_nat (length (got ++ buf)) =? n then (0, received b s' n)
              else (1, set_recv (Z.of_nat (length (got ++ buf))) n (set_sb s' b))).
Proof.
  intros Hr Hst Hoff Hn Hne Hle Hsz. unfold max_size in SZ_ok.
  assert (Hlen : Z.of_nat (length buf) ≠ 0) by (destruct buf; [done|cbn; lia]).
  destruct (sync_write_data_ok s0 (a_sb b) got buf Hr ltac:(lia)) as (s' & Hw & Hr').
  exists s'. split; [done|]. unfold audio_sync_state_recv. destruct (Z.eqb_spec (Z.of_nat (length buf)) 0); [done|].
  rewrite Hst, Hw. cbn [mbind option_bind]. destruct (Z.eqb_spec (Z.of_nat (length buf)) 0); [done|].
  cbn [recv_offset recv_data_len set_recv set_sb]. rewrite Hoff, Hn, length_app, Nat2Z.inj_add.
  rewrite (u32_small (_ + _)) by (unfold is_u32; lia). rewrite u32_small by (unfold is_u32; lia).
  destruct (Z.eqb_spec (n - (Z.of_nat (length got) + Z.of_nat (length buf))) 0);
    destruct (Z.eqb_spec (Z.of_nat (length got) + Z.of_nat (length buf)) n) as [E|E]; try lia; [|done].
  rewrite E. done.
Qed.

Lemma send_data_ok a q off len : holds (sfifo (a_sb a)) q → a_sync a = SYNC_SEND_SB_DATA → send_offset a = off →
  0 <= off <= Z.of_nat (length (q_bytes true q)) → 0 < len < 2 ^ 31 →
  let n := Z.min len (Z.of_nat (length (q_bytes true q)) - off) in
  let a' := set_send_offset (off + n) a in
  audio_sync_state_send big a len
    = Some (if n =? len then 1 else 0, take (Z.to_nat n) (drop (Z.to_nat off) (q_bytes true q)),
            if n =? len then a' else set_sync_state SYNC_SEND_DONE a').
Proof.
  intros H Hst Hoff Hr Hlen n a'. pose proof (holds_fit _ _ H) as Hfit. unfold max_size in SZ_ok.
  unfold audio_sync_state_send. destruct (Z.eqb_spec len 0); [lia|]. rewrite Hst, Hoff.
  rewrite (sync_read_data_ok (a_sb a) q off len H Hr Hlen). fold n. cbn [mbind option_bind].
  cbn [send_offset set_sb]. rewrite ?Hoff, u32_small by (unfold is_u32; lia).
  unfold a'. destruct a; destruct (_ =? _); done.
Qed.

(** The sender has given everything. *)
Definition sent_all (a : audio) (q : queue) : Prop :=
  a_sync a = SYNC_SEND_DONE ∨
  (holds (sfifo (a_sb a)) q ∧ a_sync a = SYNC_SEND_SB_DATA ∧ send_offset a = Z.of_nat (length (q_bytes true q))).

Definition sizes_ok (ns : list Z) : Prop := Forall (λ n, 0 < n < 2 ^ 31) ns.

Lemma transfer_done ns a b q : sizes_ok ns → sent_all a q → ∃ a', transfer big ns a b = Some (a', b).
Proof.
  intros Hns. revert a. induction Hns as [|n ns Hn Hns IH]; intros a Ha; cbn [transfer]; [by exists a|].
  destruct Ha as [Ha|(Hh & Ha & Ho)].
  - assert (Hs : audio_sync_state_send big a n = Some (-1, [], a)).
    { unfold audio_sync_state_send. rewrite Ha. destruct (_ =? 0); done. }
    rewrite Hs. cbn [mbind option_bind]. apply IH. by left.
  - rewrite (send_data_ok a q _ n Hh Ha Ho ltac:(lia) Hn). rewrite Z.sub_diag, Z.min_r by lia.
    cbv beta in Hn. destruct (_ =? n) eqn:E; bool_prop; [lia|]. cbn [mbind option_bind Z.to_nat take]. apply IH. by left.
Qed.

Lemma transfer_data ns q s0 : let U := q_bytes true q in U ≠ [] → sizes_ok ns → ∀ a b off,
  holds (sfifo (a_sb a)) q → a_sync a = SYNC_SEND_SB_DATA → send_offset a = off →
  receiving s0 (a_sb b) (take (Z.to_nat off) U) → a_sync b = SYNC_RECV_SB_DATA → recv_offset b = off →
  recv_data_len b = Z.of_nat (length U) → 0 <= off < Z.of_nat (length U) → Z.of_nat (length U) <= off + total ns →
  ∃ a' s', transfer big ns a b = Some (a', received b s' (Z.of_nat (length U))) ∧ receiving s0 s' U.
Proof.
  intros U HU Hns. induction Hns as [|len ns Hlen Hns IH]; intros a b off H Ha Hao Hb Hbs Hbo Hbn Hoff Htot;
    [change (total []) with 0 in Htot; lia|]. change (total (len :: ns)) with (len + total ns) in Htot.
  cbn [transfer]. rewrite (send_data_ok a q off len H Ha Hao ltac:(fold U; lia) Hlen). fold U.
  set (n := Z.min len (Z.of_nat (length U) - off)). cbv zeta. cbn [mbind option_bind].
  set (pkt := take (Z.to_nat n) (drop (Z.to_nat off) U)).
  pose proof (holds_fit _ _ H) as Hfit. fold U in Hfit.
  assert (Hpkt : Z.of_nat (length pkt) = n) by (unfold pkt; rewrite length_take, length_drop; lia).
  assert (Hne : pkt ≠ []) by (intros E; rewrite E in Hpkt; cbn in Hpkt; lia).
  assert (Hgot : Z.of_nat (length (take (Z.to_nat off) U)) = off) by (rewrite length_take; lia).
  destruct (recv_data_ok b s0 (take (Z.to_nat off) U) pkt (Z.of_nat (length U)) Hb Hbs) as (s' & Hr' & Hrecv);
    try done; try lia.
  assert (Happ : take (Z.to_nat off) U ++ pkt = take (Z.to_nat (off + n)) U).
  { unfold pkt. rewrite Z2Nat.inj_add by lia. by rewrite take_add. }
  rewrite Happ in *. assert (Hgot' : Z.of_nat (length (take (Z.to_nat (off + n)) U)) = off + n) by (rewrite length_take; lia).
  rewrite Hgot' in Hrecv. destruct pkt as [|x pkt'] eqn:Epkt; [done|]. rewrite <- Epkt in *. clear Epkt x pkt'.
  rewrite Hrecv. cbn [mbind option_bind].
  destruct (Z.eqb_spec (off + n) (Z.of_nat (length U))) as [Hend|Hend].
  - rewrite take_ge in Hr' by lia. cbn [mbind option_bind].
    match goal with |- context [transfer big ns ?x ?y] => destruct (transfer_done ns x y q Hns) as (a' & Hd) end.
    { destruct (Z.eqb_spec n len) as [Hfull|Hpart]; [right|by left]. split; [done|]. split; [done|]. fold U. rewrite <- Hend. done. }
    exists a', s'. by rewrite Hd.
  - assert (Hfull : n = len) by lia. rewrite Hfull, Z.eqb_refl in *. cbn [mbind option_bind].
    destruct (IH (set_send_offset (off + len) a) (set_recv (off + len) (Z.of_nat (length U)) (set_sb s' b)) (off + len))
      as (a' & s'' & Hs & Hr''); try done; try lia.
    exists a', s''. split; [|done]. rewrite Hs. done.
Qed.

(** ** The state packets *)

Lemma nth_le_total cs j : Forall (Z.le 0) cs → 0 <= nth j cs 0 <= total cs.
Proof.
  intros H. revert j. induction H as [|c cs Hc Hcs IH]; intros j; [destruct j; unfold total; cbn; lia|].
  pose proof (total_nonneg cs Hcs). unfold total in *. destruct j as [|j]; cbn; [lia|]. specialize (IH j). lia.
Qed.

Lemma counters_u32 sl start cs : counters sl start cs → Forall (Z.le 0) cs → total cs < 2 ^ 32 → Forall is_u32 sl.
Proof.
  intros (Hl & Hs & Hc & Hi) Hpos Ht. apply Forall_lookup. intros i x Hx.
  pose proof (lookup_lt_Some _ _ _ Hx) as Hlt. rewrite Hl in Hlt.
  pose proof (Z.mod_pos_bound (Z.of_nat i - start) 9 ltac:(lia)) as Hj.
  specialize (Hi (Z.to_nat ((Z.of_nat i - start) mod 9)) ltac:(lia)). rewrite Z2Nat.id in Hi by lia.
  rewrite Zplus_mod_idemp_r in Hi. replace (start + (Z.of_nat i - start)) with (Z.of_nat i) in Hi by lia.
  rewrite Z.mod_small, Nat2Z.id, (list_lookup_total_correct _ _ _ Hx) in Hi by lia. subst x.
  pose proof (nth_le_total cs (Z.to_nat ((Z.of_nat i - start) mod 9)) Hpos). unfold is_u32. lia.
Qed.

Lemma write_state_ok s b X Y : sb_rep SZ s b → length X = 9%nat → length Y = 4%nat →
  Forall is_u32 X → Forall is_u32 Y →
  ∃ s1, sb_rep SZ s1 (a_flush b)
    ∧ streambuf_sync_write_state big s (words big X ++ words big Y)
      = Some (Y !!! 3%nat, set_sync Y (set_stale X (cmd_cnt_stale s1) (sslot s1) s1)).
Proof.
  intros H HX HY UX UY. destruct (flush_ok SZ s b H) as (s1 & Hf & Hr1). exists s1. split; [done|].
  unfold streambuf_sync_write_state. rewrite Hf. cbn [mbind option_bind].
  rewrite length_app, !length_words, HX, HY. cbn [Nat.mul Nat.add Z.of_nat Z.eqb].
  change (Z.of_nat 52 =? 4 * 9 + 4 * 4) with true. cbv beta iota zeta.
  assert (HwX : words_val big 9 (words big X ++ words big Y) = X) by (rewrite <- HX; by apply words_val_words).
  assert (HwY : words_val big 4 (drop 36 (words big X ++ words big Y)) = Y).
  { rewrite drop_app_length' by (rewrite length_words, HX; done). rewrite <- HY at 1.
    rewrite <- (app_nil_r (words big Y)). by apply words_val_words. }
  change (4 * 9)%nat with 36%nat. rewrite HwX, HwY.
  pose proof Hr1 as [Hl _].
  exact (f_equal (λ o, s ← o; Some (Y !!! 3%nat, s))
    (lock_unlock (set_sync Y (set_stale X (cmd_cnt_stale s1) (sslot s1) s1)) Hl)).
Qed.

(** What a restore makes of the saved words. *)
Definition restored (X : list Z) (n e d : Z) (s : streambuf) : streambuf := set_eslot e (set_stale X n d (set_fresh X n d s)).

Lemma restore_value s n e d u : state_sync s = [n; e; d; u] → lock (sfifo s) = false →
  streambuf_restore_state s = Some (restored (slot_cnt_stale s) n e d s).
Proof.
  intros Hy Hl. unfold streambuf_restore_state. cbv zeta. change (state_sync (sb_lock s)) with (state_sync s). rewrite Hy.
  cbn [lookup list_lookup mbind option_bind]. exact (lock_unlock (restored (slot_cnt_stale s) n e d s) Hl).
Qed.

Lemma restore_rep s1 b f X c1 c2 Y h t e d : sb_rep SZ s1 (a_flush b) → holds f (mk_queue [] (h ++ st_pieces t)) →
  counters X d (piece_counts h t) → e = last_slot d (piece_counts h t) → Forall (λ p, (4 <= length p.1)%nat) t →
  sb_rep SZ (restored X (Z.of_nat (length t)) e d (set_sfifo f (set_sync Y (set_stale X c1 c2 s1))))
    (mk_stream h t 0 0 0 0 (piece_counts h t) (st_streaming b) true (st_may_write b) (st_received b)).
Proof.
  intros [_ H] (Hl & Hsz & Hr) Hc He Ht. split; [exact Hl|]. destruct H. constructor; try done.
  - exists []. split; [done|]. exact Hr.
  - split; [exact Hc|]. split; [|exact He]. cbn. rewrite length_fmap. lia.
  - apply counts_pos.
Qed.

Lemma transfer_step len ns a b a' b' r r' pkt : audio_sync_state_send big a len = Some (r, pkt, a') → pkt ≠ [] →
  audio_sync_state_recv big b pkt = Some (r', b') →
  transfer big (len :: ns) a b = transfer big ns a' b'.
Proof. intros Hs Hne Hr. cbn [transfer]. rewrite Hs. cbn. destruct pkt; [done|]. by rewrite Hr. Qed.

Lemma send_audio_ok a len : a_sync a = SYNC_READY_SYNC_TO → 16 <= len →
  audio_sync_state_send big a len
  = Some (1, native big 8 (current_track_jiffies a) ++ native big 8 (sync_discarded_samples a),
          set_sync_state SYNC_SEND_SB_STATE (set_send_offset 0 a)).
Proof.
  intros Hst Hlen. unfold audio_sync_state_send. destruct (Z.eqb_spec len 0); [lia|]. rewrite Hst.
  unfold send_audio_state, audio_sync_state_read. destruct (Z.leb_spec (8 + 8) len); [|lia].
  rewrite length_app, !length_native. done.
Qed.

Lemma recv_audio_ok b j d : a_sync b = SYNC_READY_SYNC_WAIT → 0 <= j < 2 ^ 64 → 0 <= d < 2 ^ 64 →
  audio_sync_state_recv big b (native big 8 j ++ native big 8 d)
  = Some (1, set_sync_state SYNC_RECV_SB_STATE (set_position j d (set_recv 0 0 b))).
Proof.
  intros Hst Hj Hd. unfold audio_sync_state_recv. rewrite length_app, !length_native, Hst. cbn [Nat.add Z.of_nat Z.eqb].
  unfold recv_audio_state, audio_sync_state_write. rewrite length_app, !length_native.
  change (Z.of_nat (8 + 8) =? 8 + 8) with true. cbv beta iota.
  rewrite take_app_length', drop_app_length' by (by rewrite length_native).
  rewrite !native_val_native by (cbn; lia). done.
Qed.

Lemma send_sb_ok a len : a_sync a = SYNC_SEND_SB_STATE → lock (sfifo (a_sb a)) = false → 52 <= len →
  audio_sync_state_send big a len
  = Some (1, words big (slot_cnt_stale (a_sb a)) ++ words big (state_sync (a_sb a)), set_sync_state SYNC_SEND_SB_DATA a).
Proof.
  intros Hst Hl Hlen. unfold audio_sync_state_send. destruct (Z.eqb_spec len 0); [lia|]. rewrite Hst.
  rewrite sync_read_state_ok by done. by destruct a.
Qed.

Lemma recv_sb_ok b sb X Y : a_sync b = SYNC_RECV_SB_STATE → sb_rep SZ (a_sb b) sb → length X = 9%nat →
  length Y = 4%nat → Forall is_u32 X → Forall is_u32 Y →
  ∃ s1, sb_rep SZ s1 (a_flush sb)
    ∧ let s0 := set_sync Y (set_stale X (cmd_cnt_stale s1) (sslot s1) s1) in
      audio_sync_state_recv big b (words big X ++ words big Y)
      = Some (if Y !!! 3%nat =? 0 then -1 else 1,
          set_sync_state SYNC_RECV_SB_DATA (set_restore true (set_recv (recv_offset b) (Y !!! 3%nat) (set_sb s0 b)))).
Proof.
  intros Hst Hb HX HY UX UY. destruct (write_state_ok (a_sb b) sb X Y Hb HX HY UX UY) as (s1 & Hr1 & Hw).
  exists s1. split; [done|]. cbv zeta. unfold audio_sync_state_recv.
  rewrite length_app, !length_words, HX, HY, Hst, Hw. cbn [Nat.add Nat.mul Z.of_nat Z.eqb mbind option_bind]. done.
Qed.

(** The words saved by a freeze. *)
Definition saved (s : streambuf) (used : Z) : list Z := [cmd_cnt_stale s; eslot s; sslot s; used].

Lemma saved_u32 s a : sb_rep SZ s a → Forall is_u32 (slot_cnt_stale s) ∧ Forall is_u32 (saved s (st_used a))
  ∧ length (slot_cnt_stale s) = 9%nat.
Proof.
  intros [Hl H]. destruct (inner_bounds SZ SZ_ok _ _ H) as (HuS & Hct & HSZ & Hk & Hne). destruct H.
  destruct i_stale as (Hcs & Hn & He). pose proof Hcs as (H9 & Hsl & Hkl & _). cbn in Hcs, Hn, He, H9, Hsl.
  split; [eapply counters_u32; [exact Hcs|done|lia]|]. split; [|done].
  unfold saved. rewrite Hn, He. pose proof (Z.mod_pos_bound (sslot s + Z.of_nat (length (st_kept a)) - 1) 9 ltac:(lia)).
  pose proof (total_nonneg _ i_kept).
  repeat (apply List.Forall_cons || apply List.Forall_nil); unfold is_u32, last_slot; lia.
Qed.
End Transfer.

(** The receiver [b] has taken over the kept bytes, the counters and the slots
    of the stream buffer [s]. *)
Record taken_over (s b : streambuf) : Prop := {
  to_bytes : undiscarded b = undiscarded s;
  to_fresh : slot_cnt b = slot_cnt_stale s ∧ cmd_cnt b = cmd_cnt_stale s ∧ dslot b = sslot s;
  to_stale : slot_cnt_stale b = slot_cnt_stale s ∧ cmd_cnt_stale b = cmd_cnt_stale s ∧ sslot b = sslot s;
  to_eslot : eslot b = eslot s
}.

Lemma transfer_taken SZ big a b sa sb n1 n2 ns D J : 0 < SZ <= max_size →
  let U := undiscarded (a_sb a) in
  let sA := set_sync (saved (a_sb a) (st_used sa)) (set_allow false false false (a_sb a)) in
  let a1 := set_sync_state SYNC_READY_SYNC_TO (set_position J D (set_sb sA a)) in
  sb_rep SZ (a_sb a) sa → sb_rep SZ (a_sb b) sb → a_sync b = SYNC_READY_SYNC_WAIT → 0 <= J < 2 ^ 64 → 0 <= D < 2 ^ 64 →
  16 <= n1 → 52 <= n2 → sizes_ok ns → Z.of_nat (length U) <= total ns →
  ∃ a' b' s1 f, transfer big (n1 :: n2 :: ns) a1 b = Some (a', b') ∧
    sb_rep SZ s1 (a_flush sb) ∧ holds SZ f (mk_queue [] U) ∧
    a_sb b' = set_sfifo f (set_sync (saved (a_sb a) (st_used sa)) (set_stale (slot_cnt_stale (a_sb a)) (cmd_cnt_stale s1) (sslot s1) s1)) ∧
    a_sync b' = (if decide (U = []) then SYNC_RECV_SB_DATA else SYNC_RECV_DONE) ∧
    restore_state_on_resume b' = true ∧ current_track_jiffies b' = J ∧ sync_discarded_samples b' = D.
Proof.
  intros HSZ U sA a1 Ha Hb Hsb HJ HD Hn1 Hn2 Hns Htot.
  destruct (sb_holds SZ _ _ Ha) as (stale & Hh & Hst). pose proof (holds_bytes SZ _ _ Hh) as Hub. fold U in Hub.
  assert (Hused : st_used sa = Z.of_nat (length U))
    by (rewrite Hub; unfold q_bytes, st_used; cbn [q_stale q_fresh]; rewrite length_app; lia).
  destruct (saved_u32 SZ HSZ _ _ Ha) as (UX & UY & HX).
  rewrite (transfer_step big n1 (n2 :: ns) a1 b (set_sync_state SYNC_SEND_SB_STATE (set_send_offset 0 a1))
    (set_sync_state SYNC_RECV_SB_STATE (set_position J D (set_recv 0 0 b))) 1 1 (native big 8 J ++ native big 8 D));
    [|by apply send_audio_ok|by intros E; apply (f_equal length) in E; rewrite length_app, !length_native in E|by apply recv_audio_ok].
  set (a2 := set_sync_state SYNC_SEND_SB_STATE _). set (b2 := set_sync_state SYNC_RECV_SB_STATE _).
  destruct (recv_sb_ok SZ big b2 sb (slot_cnt_stale (a_sb a)) (saved (a_sb a) (st_used sa))) as (s1 & Hr1 & Hrecv); try done.
  cbv zeta in Hrecv. set (s0 := set_sync _ (set_stale _ _ _ s1)) in Hrecv.
  assert (Hpkt : words big (slot_cnt_stale (a_sb a2)) ++ words big (state_sync (a_sb a2)) ≠ []).
  { change (slot_cnt_stale (a_sb a2)) with (slot_cnt_stale (a_sb a)). intros E. apply (f_equal length) in E. by rewrite length_app, !length_words, HX in E. }
  rewrite (transfer_step big n2 ns a2 b2 (set_sync_state SYNC_SEND_SB_DATA a2) _ _ _ _
    (send_sb_ok big a2 n2 eq_refl (proj1 Ha) Hn2) Hpkt Hrecv).
  set (a3 := set_sync_state SYNC_SEND_SB_DATA a2). set (b3 := set_sync_state SYNC_RECV_SB_DATA _).
  assert (Hrec0 : receiving SZ s0 (a_sb b3) []).
  { destruct Hr1 as [Hl1 [(st1 & Hst1 & Hq1) Hsz1 ? ? ? ? ? ? ? ? ?]].
    exists (sfifo s1). split; [by destruct s1|]. split; [done|]. split; [done|]. destruct st1; [exact Hq1|cbn in Hst1; discriminate]. }
  destruct (decide (U = [])) as [HU|HU].
  - destruct (transfer_done SZ HSZ big ns a3 b3 (mk_queue stale (st_bytes sa)) Hns) as (a' & Ht).
    { right. split; [exact Hh|]. split; [done|]. rewrite <- Hub, HU. done. }
    destruct Hrec0 as (f & Hf & Hq). exists a', b3, s1, f.
    split; [exact Ht|]. split; [exact Hr1|]. split; [by rewrite HU|]. split; [exact Hf|]. done.
  - destruct (transfer_data SZ HSZ big ns (mk_queue stale (st_bytes sa)) s0) with (a := a3) (b := b3) (off := 0)
      as (a' & s' & Ht & f & Hf & Hq); rewrite <- ?Hub; try done.
    { destruct U; [done|]. cbn [length]. lia. }
    rewrite <- Hub in Ht, Hq. exists a', (received b3 s' (Z.of_nat (length U))), s1, f. split; [done|]. split; [done|]. split; [done|].
    split; [exact Hf|]. done.
Qed.

(** C18.  Handing a stream over is exact.  The sender freezes its buffer and
    the receiver is told to wait; then, for calls of audio_sync_state_send with
    buffers of any sizes (the two state packets fit, the others have a byte at
    least and room for the kept bytes together) whose packets are passed on to
    audio_sync_state_recv, the receiver that resumes holds exactly the kept
    bytes of the sender, with its stale counters and slots as its own, and
    takes over its position; whatever it held before is gone.  So when those
    counters describe the kept bytes, as data and commands, the receiver has
    that stream from its first kept byte; they do not once data was discarded
    up to a command that was not read.  A stream without kept bytes leaves the
    receiver waiting for data.  Nothing else touches the two buffers meanwhile. *)
Theorem hand_over_exact SZ big a b sa sb n1 n2 ns ds sj : 0 < SZ <= max_size →
  sb_rep SZ (a_sb a) sa → sb_rep SZ (a_sb b) sb → 0 <= current_track_jiffies a < 2 ^ 64 →
  16 <= n1 → 52 <= n2 → sizes_ok ns → Z.of_nat (length (undiscarded (a_sb a))) <= total ns →
  let D := u64 (current_track_discarded_samples a + (ds + 1152)) in
  ∃ a1 b1 a2 b2 b3, audio_prepare_sync_to ds a true = Some a1 ∧ audio_prepare_sync_wait b true = Some b1 ∧
    transfer big (n1 :: n2 :: ns) a1 b1 = Some (a2, b2) ∧
    resume_restore b2 sj = Some (u64 (current_track_jiffies a + u64 (D * 1000) / 44100), b3) ∧
    taken_over (a_sb a) (a_sb b3) ∧
    (∀ h t, undiscarded (a_sb a) = h ++ st_pieces t → st_kept sa = piece_counts h t → Forall (λ p, (4 <= length p.1)%nat) t →
       sb_rep SZ (a_sb b3) (mk_stream h t 0 0 0 0 (piece_counts h t) (st_streaming sb) true false (st_received sb))) ∧
    current_track_discarded_samples b3 = D ∧ current_track_jiffies b3 = current_track_jiffies a ∧
    a_sync b3 = (if decide (undiscarded (a_sb a) = []) then SYNC_RECV_SB_DATA else SYNC_RECV_DONE).
Proof.
  intros HSZ Ha Hb Hj Hn1 Hn2 Hns Htot D. assert (HD : 0 <= D < 2 ^ 64) by (apply Z.mod_pos_bound; lia).
  destruct (freeze_ok SZ (a_sb b) sb Hb) as (fb & Hfb & Hrfb).
  destruct (transfer_taken SZ big a (set_sync_state SYNC_READY_SYNC_WAIT (set_sb fb b)) sa (a_freeze sb) n1 n2 ns D (current_track_jiffies a))
    as (a2 & b2 & s1 & f & Ht & Hr1 & Hf & Hsb2 & Hsy & Hre & HJ & HD2); try done.
  eexists _, _, a2, b2, _. unfold audio_prepare_sync_to, audio_prepare_sync_wait. rewrite (freeze_saves SZ _ _ Ha), Hfb.
  cbn [mbind option_bind]. split; [reflexivity|]. split; [reflexivity|]. split; [exact Ht|].
  unfold resume_restore. rewrite Hre. cbv zeta. cbn [a_sb set_position set_discarded]. rewrite Hsb2.
  rewrite (restore_value _ (cmd_cnt_stale (a_sb a)) (eslot (a_sb a)) (sslot (a_sb a)) (st_used sa)) by (done || apply Hf).
  cbn [mbind option_bind]. rewrite HJ, HD2. split; [reflexivity|].
  split; [|split; [|by cbn; rewrite ?HJ, ?HD2]].
  - split; try done. by rewrite (holds_bytes SZ _ (mk_queue [] (undiscarded (a_sb a)))).
  - intros h t HU Hkept Hcmds. pose proof Ha as [_ []]. destruct i_stale as (Hcs & Hn & He). cbn in Hcs, Hn, He. rewrite Hkept in *.
    assert (Hlt : cmd_cnt_stale (a_sb a) = Z.of_nat (length t)) by (rewrite Hn; cbn; rewrite length_fmap; lia). rewrite Hlt.
    apply (restore_rep SZ s1 (a_freeze sb)); try done. by rewrite <- HU.
Qed.

(** A sender in the middle of a track, with a command and the next track
    behind it, and a receiver with other data. *)
Definition sender_ops : list sb_op :=
  [DataEnq [1; 2; 3; 4; 5; 6; 7]; CmdEnq [0; 0; 0; 2; 9]; DataEnq [8; 9]; DataDeq 0 4; Discard 2 true].
Definition sender : audio :=
  mk_audio (default streambuf_static (sb_exec 64 true (streambuf_init 64 streambuf_static) sender_ops))
    SYNC_IDLE 7 0 0 1000 0 44100 false.
Definition receiver : audio :=
  mk_audio (default streambuf_static (sb_exec 64 true (streambuf_init 64 streambuf_static) [DataEnq [77; 78]]))
    SYNC_IDLE 0 5 5 0 0 0 false.
Definition sent_stream : stream :=
  mk_stream [5; 6; 7] [([0; 0; 0; 2; 9], [8; 9])] 2 0 0 0 [5; 2] true true true 9.

Lemma hand_over_exact_witness :
  ∃ a1 b1 a2 b2 b3, audio_prepare_sync_to 0 sender true = Some a1 ∧ audio_prepare_sync_wait receiver true = Some b1 ∧
    transfer true [16; 60; 5; 1; 100; 7] a1 b1 = Some (a2, b2) ∧ resume_restore b2 0 = Some (2026, b3) ∧
    sb_rep 64 (a_sb b3) (mk_stream [3; 4; 5; 6; 7] [([0; 0; 0; 2; 9], [8; 9])] 0 0 0 0 [5; 2] true true false 2) ∧
    current_track_discarded_samples b3 = 45252 ∧ a_sync b3 = SYNC_RECV_DONE.
Proof.
  assert (Hsz : 0 < 64 <= max_size) by (vm_compute; split; [reflexivity|discriminate]).
  assert (Ha : sb_rep 64 (a_sb sender) sent_stream).
  { destruct (exec_rep 64 true sender_ops _ _ sent_stream Hsz (init_ok 64 Hsz) eq_refl eq_refl) as (s & Hs & Hr).
    unfold sender. cbn [a_sb]. rewrite Hs. exact Hr. }
  assert (Hb : sb_rep 64 (a_sb receiver) (a_append stream_init [77; 78])).
  { destruct (exec_rep 64 true [DataEnq [77; 78]] _ _ (a_append stream_init [77; 78]) Hsz (init_ok 64 Hsz) eq_refl eq_refl)
      as (s & Hs & Hr). unfold receiver. cbn [a_sb]. rewrite Hs. exact Hr. }
  destruct (hand_over_exact 64 true sender receiver sent_stream (a_append stream_init [77; 78]) 16 60 [5; 1; 100; 7] 0 0 Hsz Ha Hb)
    as (a1 & b1 & a2 & b2 & b3 & H1 & H2 & H3 & H4 & _ & H5 & H6 & _ & H7); [cbn; lia|lia|lia|repeat constructor|vm_compute; discriminate|].
  exists a1, b1, a2, b2, b3. split; [exact H1|]. split; [exact H2|]. split; [exact H3|]. split; [exact H4|].
  split; [|split; [exact H6|exact H7]]. apply (H5 [3; 4; 5; 6; 7] [([0; 0; 0; 2; 9], [8; 9])]); [vm_compute; reflexivity|reflexivity|repeat constructor].
Defined.
