(* ===== verification/DecodeOutput.v ===== *)
(** lib/audio/decode/decode_output.c: decoded samples on their way to the sound
    card, with track gain, polarity, channel selection, cross fade and fade in,
    on the fixed-point arithmetic of lib/audio/fixed_math.h.  The output buffer
    is the array of its 32-bit samples; the positions of fifo.c count bytes.
    The upload of samples for tests (SQUEEZEPLAY_UPLOAD) is off. *)

From S2P Require Import Prelude AudioFifo.

(** ** Fixed point (fixed_math.h) *)

Abbreviation FIXED_ONE := 0x10000.

Definition fixed_mul (x y : Z) : Z := s32 (Z.shiftr (x * y) 16).
(** Division by zero has no result. *)
Definition fixed_div (x y : Z) : option Z :=
  if y =? 0 then None else Some (s32 (Z.shiftr (Z.quot (Z.shiftl x 32) y) 16)).
Definition int32_to_fixed (x : Z) : Z := s32 (Z.shiftl x 16).

(** ** The state *)

Abbreviation SAMPLE_MAX := 0x7fffffff.
Abbreviation SAMPLE_MIN := (-0x80000000).
Abbreviation TRANSITION_NONE := 0x0.
Abbreviation TRANSITION_CROSSFADE := 0x1.
Abbreviation TRANSITION_FADE_IN := 0x2.
Abbreviation TRANSITION_FADE_OUT := 0x4.
Abbreviation TRANSITION_IMMEDIATE := 0x8.
Abbreviation TRANSITION_STEPS_PER_SECOND := 10.
Abbreviation TRANSITION_MINIMUM_SECONDS := 1.
Abbreviation TRANSITION_MAXIMUM_SECONDS := 10.
Abbreviation POLARITY_INVERSION_LEFT := 0x1.
Abbreviation POLARITY_INVERSION_RIGHT := 0x2.
Abbreviation OUTPUT_CHANNEL_LEFT := 0x4.
Abbreviation DECODE_STATE_RUNNING := 0x1.

(** A transition under way. *)
Record fade := mk_fade {
  crossfade_started : bool;
  crossfade_ptr : Z;
  transition_gain : Z;
  transition_gain_step : Z;
  transition_sample_step : Z;
  transition_samples_in_step : Z
}.

Record volume := mk_volume {
  track_gain : Z;
  track_clip_range : Z * Z;
  track_inversion : Z * Z;
  output_channels : Z
}.

(** The part of struct decode_audio about the current track and its end. *)
Record track := mk_track {
  check_start_point : bool;
  track_start_point : Z;
  track_copyright : bool;
  track_sample_rate : Z;
  written_track_samples : Z;
  sync_timestamp : Z;
  samples_until_fade : Z;
  samples_to_fade : Z;
  transition_sample_rate : Z
}.

Inductive backend_call := Start | Pause | Resume | Stop.

Record output := mk_output {
  o_fifo : fifo;
  o_buf : list Z;
  o_track : track;
  o_fade : fade;
  o_volume : volume;
  decode_transition_type : Z;
  decode_transition_period : Z;
  decode_first_buffer : bool;
  o_state : Z;
  o_max_rate : Z;
  o_calls : list backend_call
}.

Definition set_fifo v o := mk_output v (o_buf o) (o_track o) (o_fade o) (o_volume o) (decode_transition_type o)
  (decode_transition_period o) (decode_first_buffer o) (o_state o) (o_max_rate o) (o_calls o).
Definition set_buf v o := mk_output (o_fifo o) v (o_track o) (o_fade o) (o_volume o) (decode_transition_type o)
  (decode_transition_period o) (decode_first_buffer o) (o_state o) (o_max_rate o) (o_calls o).
Definition set_track v o := mk_output (o_fifo o) (o_buf o) v (o_fade o) (o_volume o) (decode_transition_type o)
  (decode_transition_period o) (decode_first_buffer o) (o_state o) (o_max_rate o) (o_calls o).
Definition set_fade v o := mk_output (o_fifo o) (o_buf o) (o_track o) v (o_volume o) (decode_transition_type o)
  (decode_transition_period o) (decode_first_buffer o) (o_state o) (o_max_rate o) (o_calls o).
Definition set_volume v o := mk_output (o_fifo o) (o_buf o) (o_track o) (o_fade o) v (decode_transition_type o)
  (decode_transition_period o) (decode_first_buffer o) (o_state o) (o_max_rate o) (o_calls o).
Definition set_type ty p o := mk_output (o_fifo o) (o_buf o) (o_track o) (o_fade o) (o_volume o) ty p
  (decode_first_buffer o) (o_state o) (o_max_rate o) (o_calls o).
Definition set_first v o := mk_output (o_fifo o) (o_buf o) (o_track o) (o_fade o) (o_volume o) (decode_transition_type o)
  (decode_transition_period o) v (o_state o) (o_max_rate o) (o_calls o).
Definition call c o := mk_output (o_fifo o) (o_buf o) (o_track o) (o_fade o) (o_volume o) (decode_transition_type o)
  (decode_transition_period o) (decode_first_buffer o) (o_state o) (o_max_rate o) (o_calls o ++ [c]).
Definition set_wptr v o := set_fifo (f_set_wptr v (o_fifo o)) o.
Definition set_start_point v o := let t := o_track o in
  set_track (mk_track (check_start_point t) v (track_copyright t) (track_sample_rate t) (written_track_samples t)
    (sync_timestamp t) (samples_until_fade t) (samples_to_fade t) (transition_sample_rate t)) o.
Definition set_crossfade b fd := mk_fade b (crossfade_ptr fd) (transition_gain fd) (transition_gain_step fd)
  (transition_sample_step fd) (transition_samples_in_step fd).
Definition set_gain_step v fd := mk_fade (crossfade_started fd) (crossfade_ptr fd) (transition_gain fd) v
  (transition_sample_step fd) (transition_samples_in_step fd).
Definition set_steps g n fd := mk_fade (crossfade_started fd) (crossfade_ptr fd) g (transition_gain_step fd)
  (transition_sample_step fd) n.

(** ** Begin, end, flush *)

Definition decode_output_begin (o : output) : option output := f_locked (o_fifo o) (Some (call Start o)).

Definition decode_output_end (o : output) : option output :=
  f_locked (o_fifo o) (
    let o := set_fifo (f_set_wptr 0 (f_set_rptr 0 (o_fifo o))) o in
    let o := call Stop o in
    let o := set_fade (set_gain_step 0 (set_crossfade false (o_fade o))) o in
    let t := o_track o in
    Some (set_track (mk_track (check_start_point t) (track_start_point t) (track_copyright t) (track_sample_rate t) 0 0
                       (samples_until_fade t) (samples_to_fade t) (transition_sample_rate t)) o)).

Definition decode_output_flush (o : output) : option output :=
  f_locked (o_fifo o) (
    if check_start_point (o_track o) then Some (set_wptr (track_start_point (o_track o)) o)
    else Some (call Stop (set_fifo (f_set_rptr (f_wptr (o_fifo o)) (o_fifo o)) o))).

(** ** Gain *)

(** The quotient in double precision, truncated, is the exact truncated
    quotient: numerator and denominator are exact, and a quotient that is no
    integer is further from one than its rounding error. *)
Definition volume_get_clip_range (gain : Z) : Z * Z :=
  if FIXED_ONE <? gain then (Z.quot (SAMPLE_MAX * FIXED_ONE) gain, Z.quot (SAMPLE_MIN * FIXED_ONE) gain)
  else (SAMPLE_MAX, SAMPLE_MIN).

Definition volume_mul (sample gain : Z) (clip_range : Z * Z) : Z :=
  if clip_range.1 <? sample then SAMPLE_MAX
  else if sample <? clip_range.2 then SAMPLE_MIN
  else fixed_mul gain sample.

(** Left and right samples alternate. *)
Fixpoint apply_gain (v : volume) (buffer : list Z) : list Z :=
  match buffer with
  | l :: r :: buffer' =>
      s32 ((track_inversion v).1 * volume_mul l (track_gain v) (track_clip_range v))
      :: s32 ((track_inversion v).2 * volume_mul r (track_gain v) (track_clip_range v))
      :: apply_gain v buffer'
  | _ => buffer
  end.

Definition decode_apply_track_gain (v : volume) (buffer : list Z) : list Z :=
  if (track_gain v =? FIXED_ONE) && ((track_inversion v).1 =? 1) && ((track_inversion v).2 =? 1)
  then buffer else apply_gain v buffer.

Fixpoint copy_channel (left : bool) (buffer : list Z) : list Z :=
  match buffer with
  | l :: r :: buffer' => (if left then [l; l] else [r; r]) ++ copy_channel left buffer'
  | _ => buffer
  end.

Definition select_channel (v : volume) (buffer : list Z) : list Z :=
  if c_true (output_channels v)
  then copy_channel (c_true (Z.land (output_channels v) OUTPUT_CHANNEL_LEFT)) buffer
  else buffer.

Definition decode_output_set_track_gain (replay_gain : Z) (o : output) : output :=
  let g := if c_true replay_gain then s32 replay_gain else FIXED_ONE in
  let v := o_volume o in
  set_volume (mk_volume g (volume_get_clip_range g) (track_inversion v) (output_channels v)) o.

Definition decode_set_track_polarity_inversion (inversion : Z) (o : output) : output :=
  let v := o_volume o in
  set_volume (mk_volume (track_gain v) (track_clip_range v)
    (if c_true (Z.land inversion POLARITY_INVERSION_LEFT) then -1 else 1,
     if c_true (Z.land inversion POLARITY_INVERSION_RIGHT) then -1 else 1) (output_channels v)) o.

Definition decode_set_output_channels (channels : Z) (o : output) : output :=
  let v := o_volume o in
  set_volume (mk_volume (track_gain v) (track_clip_range v) (track_inversion v) channels) o.

(** ** Transitions *)

(** SAMPLES_TO_BYTES and BYTES_TO_SAMPLES: a frame is two samples of four bytes. *)
Definition samples_to_bytes (n : Z) : Z := u32 (2 * n * 4).
Definition bytes_to_samples (n : Z) : Z := n / 8.

(** The loop shortens the interval until enough audio is left; [fuel] bounds
    its passes. *)
Fixpoint shrink_interval (fuel : nat) (bytes_used sample_step_bytes interval_step nbytes interval : Z) : option (Z * Z) :=
  if bytes_used <? u32 (nbytes + sample_step_bytes) then
    match fuel with
    | O => None
    | S fuel => shrink_interval fuel bytes_used sample_step_bytes interval_step (u32 (nbytes - sample_step_bytes)) (s32 (interval - interval_step))
    end
  else Some (interval, nbytes).

(** The interval, 0 for none, with the number of bytes it takes. *)
Definition determine_transition_interval (fuel : nat) (o : output) (sample_rate transition_period : Z) : option (Z * Z) :=
  f_locked (o_fifo o) (
    if negb (sample_rate =? track_sample_rate (o_track o)) then Some (0, 0) else
    bytes_used ← fifo_bytes_used (o_fifo o);
    let nbytes := samples_to_bytes (u32 (TRANSITION_MINIMUM_SECONDS * sample_rate)) in
    if bytes_used <? nbytes then Some (0, nbytes) else
    let nbytes := samples_to_bytes (u32 (transition_period * sample_rate)) in
    let sample_step_bytes := samples_to_bytes (sample_rate / TRANSITION_STEPS_PER_SECOND) in
    let interval := int32_to_fixed (s32 transition_period) in
    interval_step ← fixed_div FIXED_ONE TRANSITION_STEPS_PER_SECOND;
    shrink_interval fuel bytes_used sample_step_bytes interval_step nbytes interval).

Definition decode_transition_bytes_remaining (o : output) (ptr : Z) : option Z :=
  f_locked (o_fifo o) (
    let wptr := f_wptr (o_fifo o) in
    Some (if wptr <=? ptr then u32 (ptr - wptr) else u32 (wptr - ptr + f_size (o_fifo o)))).

(** A byte position as the index of a sample; samples are aligned. *)
Definition sample_index (p : Z) : option nat := if p mod 4 =? 0 then Some (Z.to_nat (p / 4)) else None.

(** Storing samples; past the end of the buffer is not ours. *)
Definition store_samples (buf : list Z) (i : nat) (l : list Z) : option (list Z) :=
  if (i + length l <=? length buf)%nat then Some (list_inserts i l buf) else None.

(** One sample of a transition, over the one in the buffer. *)
Definition mix (cross : bool) (in_gain old new : Z) : Z :=
  if cross then s32 (fixed_mul (s32 (FIXED_ONE - in_gain)) old + fixed_mul in_gain new) else fixed_mul in_gain new.

(** [while (transition_samples_in_step >= transition_sample_step)]. *)
Fixpoint advance_gain (fuel : nat) (fd : fade) : option fade :=
  if transition_sample_step fd <=? transition_samples_in_step fd then
    match fuel with
    | O => None
    | S fuel => advance_gain fuel (set_steps (s32 (transition_gain fd + transition_gain_step fd))
                                     (u32 (transition_samples_in_step fd - transition_sample_step fd)) fd)
    end
  else Some fd.

(** [fuel] bounds the passes of the loop over the [nbytes]. *)
Fixpoint decode_transition_copy_bytes (fuel : nat) (o : output) (buffer : list Z) (nbytes : Z) : option output :=
  if nbytes =? 0 then Some o else
  match fuel with
  | O => None
  | S fuel =>
      let fd := o_fade o in
      let bytes_read := samples_to_bytes (u32 (transition_sample_step fd - transition_samples_in_step fd)) in
      let bytes_read := if nbytes <? bytes_read then nbytes else bytes_read in
      let nsamples := bytes_to_samples bytes_read in
      i ← sample_index (f_wptr (o_fifo o));
      let n := Z.to_nat (nsamples * 2) in
      let olds := take n (drop i (o_buf o)) in
      buf ← store_samples (o_buf o) i (zip_with (mix (crossfade_started fd) (transition_gain fd)) olds (take n buffer));
      f ← fifo_wptr_incby (o_fifo o) bytes_read;
      let fd := set_steps (transition_gain fd) (u32 (transition_samples_in_step fd + nsamples)) fd in
      fd ← advance_gain (S (Z.to_nat (transition_samples_in_step fd))) fd;
      decode_transition_copy_bytes fuel (set_fade fd (set_buf buf (set_fifo f o))) (drop n buffer) (u32 (nbytes - bytes_read))
  end.

(** ** Output *)

(** TRANSITION_IMMEDIATE drops what the previous track has in the buffer
    beyond the period of the transition. *)
Definition immediate_skip (o : output) : option output :=
  let f := o_fifo o in
  let wanted := samples_to_bytes (u32 (decode_transition_period o * track_sample_rate (o_track o))) in
  used ← fifo_bytes_used f;
  if wanted <? used then
    let skip := u32 (used - wanted) in
    let w := if f_wptr f <? skip then u32 (f_wptr f + f_size f) else f_wptr f in
    Some (set_wptr (u32 (w - skip)) o)
  else Some o.

(** The cross fade ends where the previous track does, and starts as many
    bytes before as its interval takes. *)
Definition enter_crossfade (fuel : nat) (o : output) (sample_rate : Z) : option output :=
  '(interval, crossfadeBytes) ← determine_transition_interval fuel o sample_rate (decode_transition_period o);
  if c_true interval then
    let ptr := f_wptr (o_fifo o) in
    let w := if ptr <? crossfadeBytes then u32 (ptr + f_size (o_fifo o)) else ptr in
    let o := set_wptr (u32 (w - crossfadeBytes)) o in
    gain_step ← fixed_div FIXED_ONE (fixed_mul interval (int32_to_fixed TRANSITION_STEPS_PER_SECOND));
    let fd := mk_fade true ptr 0 gain_step (u32 (Z.quot sample_rate TRANSITION_STEPS_PER_SECOND)) 0 in
    Some (set_start_point (f_wptr (o_fifo o)) (set_fade fd o))
  else Some o.

Definition start_crossfade (fuel : nat) (o : output) (sample_rate : Z) : option output :=
  o ← (if c_true (Z.land (decode_transition_type o) TRANSITION_IMMEDIATE) then immediate_skip o else Some o);
  enter_crossfade fuel o sample_rate.

Definition start_fade_in (o : output) (sample_rate : Z) : option output :=
  gain_step ← fixed_div FIXED_ONE (int32_to_fixed (s32 (u32 (decode_transition_period o * TRANSITION_STEPS_PER_SECOND))));
  let fd := o_fade o in
  Some (set_fade (mk_fade (crossfade_started fd) (crossfade_ptr fd) 0 gain_step
                    (u32 (Z.quot sample_rate TRANSITION_STEPS_PER_SECOND)) 0) o).

(** The first buffer of a track. *)
Definition first_buffer (fuel : nat) (o : output) (sample_rate : Z) (copyright : bool) : option output :=
  let o := set_fade (set_crossfade false (o_fade o)) o in
  let o := set_start_point (f_wptr (o_fifo o)) o in
  o ← (if c_true (Z.land (decode_transition_type o) TRANSITION_CROSSFADE) then start_crossfade fuel o sample_rate
       else if c_true (Z.land (decode_transition_type o) TRANSITION_FADE_IN) then start_fade_in o sample_rate
       else Some o);
  let t := o_track o in
  Some (set_first false (set_track (mk_track true (track_start_point t) copyright (u32 sample_rate)
    (written_track_samples t) (sync_timestamp t) (samples_until_fade t) (samples_to_fade t) (transition_sample_rate t)) o)).

(** One pass of the loop over the bytes to write: the bytes written and the
    state after them. *)
Definition output_pass (o : output) (buffer : list Z) (bytes_out : Z) : option (Z * output) :=
  wrap ← fifo_bytes_until_wptr_wrap (o_fifo o);
  wrap ← (if crossfade_started (o_fade o) then
            bytes_remaining ← decode_transition_bytes_remaining o (crossfade_ptr (o_fade o));
            Some (if bytes_remaining <? wrap then bytes_remaining else wrap)
          else Some wrap);
  let bytes_write := if wrap <? bytes_out then wrap else bytes_out in
  if c_true (transition_gain_step (o_fade o)) then
    o ← decode_transition_copy_bytes (Z.to_nat bytes_write) o buffer bytes_write;
    Some (bytes_write,
          if (crossfade_started (o_fade o) && (f_wptr (o_fifo o) =? crossfade_ptr (o_fade o)))
             || (FIXED_ONE <=? transition_gain (o_fade o))
          then set_fade (set_crossfade false (set_gain_step 0 (o_fade o))) o else o)
  else
    i ← sample_index (f_wptr (o_fifo o));
    buf ← store_samples (o_buf o) i (take (Z.to_nat (bytes_write / 4)) buffer);
    f ← fifo_wptr_incby (o_fifo o) bytes_write;
    Some (bytes_write, set_buf buf (set_fifo f o)).

(** The loop; [fuel] bounds its passes. *)
Fixpoint output_loop (fuel : nat) (o : output) (buffer : list Z) (bytes_out : Z) : option output :=
  if bytes_out =? 0 then Some o else
  match fuel with
  | O => None
  | S fuel =>
      '(bytes_write, o) ← output_pass o buffer bytes_out;
      output_loop fuel o (drop (Z.to_nat (bytes_write / 4)) buffer) (u32 (bytes_out - bytes_write))
  end.

Definition unlock (o : output) : option output := '(_, f) ← fifo_unlock 0 (o_fifo o); Some (set_fifo f o).

(** [buffer] holds the samples of [nsamples] frames; [copyright] is what
    streambuf_is_copyright returns. *)
Definition decode_output_samples (fuel : nat) (o : output) (buffer : list Z) (sample_rate : Z) (copyright : bool) : option output :=
  let nsamples := Z.of_nat (length buffer) / 2 in
  if nsamples =? 0 then Some o else
  let o := set_fifo (fifo_lock 0 (o_fifo o)).2 o in
  o ← (if decode_first_buffer o then first_buffer fuel o sample_rate copyright else Some o);
  let buffer := select_channel (o_volume o) buffer in
  let buffer := decode_apply_track_gain (o_volume o) buffer in
  o ← output_loop fuel o buffer (samples_to_bytes nsamples);
  unlock o.

Definition decode_output_can_write (o : output) (buffer_size : Z) : option (bool * output) :=
  let o := set_fifo (fifo_lock 0 (o_fifo o)).2 o in
  freebytes ← fifo_bytes_free (o_fifo o);
  o ← unlock o;
  Some (buffer_size <=? freebytes, o).

Definition decode_output_samplerate (o : output) : option (Z * output) :=
  let o := set_fifo (fifo_lock 0 (o_fifo o)).2 o in
  o' ← unlock o; Some (track_sample_rate (o_track o), o').

Definition decode_output_max_rate (o : output) : option (Z * output) :=
  let o := set_fifo (fifo_lock 0 (o_fifo o)).2 o in
  o' ← unlock o; Some (o_max_rate o, o').

Definition decode_output_song_ended (o : output) : option output :=
  f_locked (o_fifo o) (
    if c_true (Z.land (decode_transition_type o) TRANSITION_FADE_OUT) && c_true (decode_transition_period o)
       && c_true (Z.land (o_state o) DECODE_STATE_RUNNING) then
      let t := o_track o in
      let rate := track_sample_rate t in
      Some (set_track (mk_track (check_start_point t) (track_start_point t) (track_copyright t) rate (written_track_samples t)
              (sync_timestamp t) (u32 (rate * u32 (TRANSITION_MAXIMUM_SECONDS - decode_transition_period o)))
              (u32 (rate * decode_transition_period o)) rate) o)
    else Some o).

(** [type] is a character. *)
Definition decode_output_set_transition (type period : Z) (o : output) : output :=
  if period =? 0 then set_type TRANSITION_NONE (decode_transition_period o) o else
  let k := u32 (type - 48) in
  if k =? 0 then set_type TRANSITION_NONE period o
  else if k =? 1 then set_type TRANSITION_CROSSFADE period o
  else if k =? 2 then set_type TRANSITION_FADE_IN period o
  else if k =? 3 then set_type TRANSITION_FADE_OUT period o
  else if k =? 4 then set_type (Z.lor TRANSITION_FADE_IN TRANSITION_FADE_OUT) (Z.shiftr period 1) o
  else if k =? 5 then set_type (Z.lor TRANSITION_CROSSFADE TRANSITION_IMMEDIATE) period o
  else set_type (decode_transition_type o) period o.
