(* ===== verification/DecodeOutputFade.v ===== *)
(** The copy of decode_output.c during a transition is the mix of every frame
    with the gain of that frame, however the copy is cut into steps. *)

From S2P Require Import Prelude Ring AudioFifo DecodeOutput.

(** [lia] with divisions by constants. *)
Ltac dlia := Z.to_euclidean_division_equations; lia.

(** ** Positions and transitions in range *)

(** A byte position at the start of a frame of the buffer. *)
Definition pos_ok (size p : Z) : Prop := 0 <= p < size ∧ p mod 8 = 0.

Record buf_ok (o : output) : Prop := {
  ok_length : f_size (o_fifo o) = 4 * Z.of_nat (length (o_buf o));
  ok_size : 0 < f_size (o_fifo o) < 2 ^ 31 ∧ f_size (o_fifo o) mod 8 = 0;
  ok_wptr : pos_ok (f_size (o_fifo o)) (f_wptr (o_fifo o));
  ok_rptr : pos_ok (f_size (o_fifo o)) (f_rptr (o_fifo o));
  ok_start : pos_ok (f_size (o_fifo o)) (track_start_point (o_track o))
}.

(** The steps of the gain: at least a frame each, and never a whole one
    waiting. *)
Definition steps_ok (fd : fade) : Prop :=
  0 < transition_sample_step fd < 2 ^ 28 ∧ 0 <= transition_samples_in_step fd < transition_sample_step fd.

(** ** The reference *)

(** A frame later. *)
Definition tick (fd : fade) : fade :=
  let n := transition_samples_in_step fd + 1 in
  if n =? transition_sample_step fd then set_steps (s32 (transition_gain fd + transition_gain_step fd)) 0 fd
  else set_steps (transition_gain fd) n fd.

Fixpoint ticks (n : nat) (fd : fade) : fade :=
  match n with O => fd | S n => ticks n (tick fd) end.

(** The frames of [news] over those of [olds], each with the gain of its time. *)
Fixpoint faded (fd : fade) (olds news : list Z) : list Z :=
  match olds, news with
  | ol :: or :: olds', l :: r :: news' =>
      mix (crossfade_started fd) (transition_gain fd) ol l
      :: mix (crossfade_started fd) (transition_gain fd) or r
      :: faded (tick fd) olds' news'
  | _, _ => []
  end.

Lemma tick_crossfade fd : crossfade_started (tick fd) = crossfade_started fd.
Proof. unfold tick. by destruct (_ =? _). Qed.

Lemma tick_ptr fd : crossfade_ptr (tick fd) = crossfade_ptr fd.
Proof. unfold tick. by destruct (_ =? _). Qed.

Lemma tick_gain_step fd : transition_gain_step (tick fd) = transition_gain_step fd.
Proof. unfold tick. by destruct (_ =? _). Qed.

Lemma tick_sample_step fd : transition_sample_step (tick fd) = transition_sample_step fd.
Proof. unfold tick. by destruct (_ =? _). Qed.

Lemma tick_steps fd : steps_ok fd → steps_ok (tick fd).
Proof. unfold steps_ok, tick. intros H. destruct (_ =? _) eqn:E; bool_prop; cbn; lia. Qed.

Lemma ticks_keep n fd : crossfade_started (ticks n fd) = crossfade_started fd ∧ crossfade_ptr (ticks n fd) = crossfade_ptr fd ∧
  transition_gain_step (ticks n fd) = transition_gain_step fd ∧ transition_sample_step (ticks n fd) = transition_sample_step fd.
Proof.
  revert fd. induction n as [|n IH]; intros fd; cbn [ticks]; [done|].
  destruct (IH (tick fd)) as (H1 & H2 & H3 & H4). rewrite H1, H2, H3, H4.
  by rewrite tick_crossfade, tick_ptr, tick_gain_step, tick_sample_step.
Qed.

Lemma ticks_steps n fd : steps_ok fd → steps_ok (ticks n fd).
Proof. revert fd. induction n; intros fd H; cbn [ticks]; auto using tick_steps. Qed.

Lemma ticks_add n k fd : ticks (n + k) fd = ticks k (ticks n fd).
Proof. revert fd. induction n as [|n IH]; intros fd; cbn [ticks Nat.add]; [done|apply IH]. Qed.

(** Within a step only the count of frames moves; its last frame starts the
    next step. *)
Lemma ticks_inner n fd : transition_samples_in_step fd + Z.of_nat n < transition_sample_step fd →
  ticks n fd = set_steps (transition_gain fd) (transition_samples_in_step fd + Z.of_nat n) fd.
Proof.
  revert fd. induction n as [|n IH]; intros fd H; cbn [ticks].
  - rewrite Z.add_0_r. by destruct fd.
  - unfold tick. destruct (_ =? _) eqn:E; bool_prop; [lia|]. rewrite IH by (cbn; lia).
    unfold set_steps. cbn. f_equal. lia.
Qed.

Lemma ticks_full n fd : (0 < n)%nat → transition_samples_in_step fd + Z.of_nat n = transition_sample_step fd →
  ticks n fd = set_steps (s32 (transition_gain fd + transition_gain_step fd)) 0 fd.
Proof.
  intros Hn H. destruct n as [|n]; [lia|]. replace (S n) with (n + 1)%nat by lia.
  rewrite ticks_add, (ticks_inner n) by lia. cbn [ticks]. unfold tick. cbn.
  destruct (_ =? _) eqn:E; bool_prop; [done|lia].
Qed.

Lemma faded_app n fd olds1 olds2 news1 news2 : length olds1 = (2 * n)%nat → length news1 = (2 * n)%nat →
  faded fd (olds1 ++ olds2) (news1 ++ news2) = faded fd olds1 news1 ++ faded (ticks n fd) olds2 news2.
Proof.
  revert fd olds1 news1. induction n as [|n IH]; intros fd olds1 news1 H1 H2.
  - by destruct olds1, news1.
  - destruct olds1 as [|a [|b olds1]], news1 as [|c [|d news1]]; cbn in H1, H2; try lia.
    cbn [faded app ticks]. rewrite IH by lia. done.
Qed.

Lemma length_faded n fd olds news : length olds = (2 * n)%nat → length news = (2 * n)%nat →
  length (faded fd olds news) = (2 * n)%nat.
Proof.
  revert fd olds news. induction n as [|n IH]; intros fd olds news H1 H2.
  - by destruct olds, news.
  - destruct olds as [|a [|b olds]], news as [|c [|d news]]; cbn in H1, H2; try lia.
    cbn [faded length]. rewrite IH by lia. lia.
Qed.

(** The loops of the code mix a run inside one step with one gain. *)
Lemma faded_step n fd olds news : length olds = (2 * n)%nat → length news = (2 * n)%nat →
  transition_samples_in_step fd + Z.of_nat n <= transition_sample_step fd →
  faded fd olds news = zip_with (mix (crossfade_started fd) (transition_gain fd)) olds news.
Proof.
  revert fd olds news. induction n as [|n IH]; intros fd olds news H1 H2 H.
  - by destruct olds, news.
  - destruct olds as [|a [|b olds]], news as [|c [|d news]]; cbn in H1, H2; try lia.
    cbn [faded zip_with]. do 2 f_equal. destruct n as [|n].
    + by destruct olds, news.
    + rewrite IH; [by unfold tick; destruct (_ =? _) eqn:E; bool_prop; [lia|]|lia|lia|].
      unfold tick. destruct (_ =? _) eqn:E; bool_prop; cbn; lia.
Qed.

(** ** The code follows the reference *)

Lemma advance_gain_ticks fuel k fd : (0 < k)%nat → steps_ok fd →
  transition_samples_in_step fd + Z.of_nat k <= transition_sample_step fd →
  advance_gain (S fuel) (set_steps (transition_gain fd) (transition_samples_in_step fd + Z.of_nat k) fd) = Some (ticks k fd).
Proof.
  intros Hk [Hs Hi] H.
  assert (Hlow : ∀ f g, advance_gain f (set_steps g 0 fd) = Some (set_steps g 0 fd)).
  { intros f g. destruct f; cbn [advance_gain]; cbn; destruct (_ <=? _) eqn:E; bool_prop; (lia || done). }
  cbn [advance_gain transition_sample_step transition_samples_in_step transition_gain transition_gain_step set_steps].
  destruct (_ <=? _) eqn:E; bool_prop.
  - rewrite ticks_full by lia. rewrite <- (Hlow fuel). unfold set_steps. cbn. do 2 f_equal.
    rewrite u32_small by (unfold is_u32; lia). lia.
  - by rewrite ticks_inner by lia.
Qed.

(** A write that stays before the end of the buffer. *)
Definition written (o : output) (out : list Z) : output :=
  let f := o_fifo o in
  let n := Z.of_nat (length out) in
  set_wptr ((f_wptr f + 4 * n) mod f_size f)
    (set_buf (put (f_size f / 4) (o_buf o) (f_wptr f / 4) out) o).

Lemma wptr_incby f n : f_lock f = true → 0 <= f_wptr f < f_size f → f_size f < 2 ^ 31 → 0 <= n <= f_size f - f_wptr f →
  fifo_wptr_incby f n = Some (f_set_wptr ((f_wptr f + n) mod f_size f) f).
Proof.
  intros Hl Hw Hs Hn. unfold fifo_wptr_incby, f_locked. rewrite Hl, u32_small by (unfold is_u32; lia).
  destruct (_ =? _) eqn:E; bool_prop; [|by rewrite Z.mod_small by lia].
  by rewrite E, Z.mod_same by lia.
Qed.

Lemma store_put o out : buf_ok o → 4 * Z.of_nat (length out) <= f_size (o_fifo o) - f_wptr (o_fifo o) →
  store_samples (o_buf o) (Z.to_nat (f_wptr (o_fifo o) / 4)) out
  = Some (put (f_size (o_fifo o) / 4) (o_buf o) (f_wptr (o_fifo o) / 4) out).
Proof.
  intros [Hl [Hs _] [Hw _] _ _] H. unfold store_samples. destruct (Nat.leb_spec (Z.to_nat (f_wptr (o_fifo o) / 4) + length out) (length (o_buf o))); [|dlia].
  f_equal. symmetry. apply put_contig; dlia.
Qed.

Lemma index_wptr o : buf_ok o → sample_index (f_wptr (o_fifo o)) = Some (Z.to_nat (f_wptr (o_fifo o) / 4)).
Proof. intros [_ _ [_ Hm] _ _]. unfold sample_index. destruct (_ =? _) eqn:E; bool_prop; [done|dlia]. Qed.

Lemma length_written o out : length (o_buf (written o out)) = length (o_buf o).
Proof. apply length_put. Qed.

Lemma written_ok o out : buf_ok o → (length out mod 2 = 0)%nat → buf_ok (written o out).
Proof.
  intros [Hl [Hs Hm] [Hw Hwm] Hr Hst] He. split; cbn; try done.
  - by rewrite length_put.
  - split; [apply Z.mod_pos_bound; lia|].
    rewrite (Z.div_mod (f_size (o_fifo o)) 8), Hm, Z.add_0_r by lia.
    rewrite Z.rem_mul_r by dlia. rewrite (Z.mul_comm 8 (_ mod _)), Z.mod_add, Z.mod_mod by lia.
    assert (Z.of_nat (length out) mod 2 = 0) by (change 2 with (Z.of_nat 2); rewrite <- Nat2Z.inj_mod; lia). dlia.
Qed.

Lemma written_app o out1 out2 : buf_ok o → 
  written (written o out1) out2 = written o (out1 ++ out2).
Proof.
  intros [Hl [Hs Hm] [Hw Hwm] _ _]. unfold written. cbn. rewrite length_app, put_app. unfold set_wptr, set_buf, set_fifo, f_set_wptr. cbn. f_equal.
  - f_equal. rewrite Zplus_mod_idemp_l. f_equal. lia.
  - set (sz := f_size (o_fifo o)) in *. set (w := f_wptr (o_fifo o)) in *. set (n := Z.of_nat (length out1)).
    assert (Hq : (w + 4 * n) mod sz / 4 = (w / 4 + n) mod (sz / 4)).
    { assert (Hz : sz = 4 * (sz / 4)) by dlia. rewrite Hz at 1. rewrite Z.rem_mul_r by dlia.
      replace (w + 4 * n) with (4 * (w / 4 + n)) by dlia. rewrite Z.mul_comm, Z.mod_mul, Z.div_mul by lia.
      rewrite Z.add_0_l, Z.mul_comm, Z.div_mul by lia. done. }
    rewrite Hq. apply put_mod. dlia.
Qed.

Lemma drop_put sz b i l : 0 < sz → 0 <= i → i + Z.of_nat (length l) <= sz →
  drop (Z.to_nat i + length l) (put sz b i l) = drop (Z.to_nat i + length l) b.
Proof.
  intros Hz H0 H. rewrite put_contig by done. apply list_eq. intros j. rewrite !lookup_drop.
  apply list_lookup_inserts_ge. lia.
Qed.

(** What is in the buffer where the next [n] samples go. *)
Definition under (o : output) (n : nat) : list Z := take n (drop (Z.to_nat (f_wptr (o_fifo o) / 4)) (o_buf o)).

Lemma length_under o n : buf_ok o → 4 * Z.of_nat n <= f_size (o_fifo o) - f_wptr (o_fifo o) → length (under o n) = n.
Proof. intros [Hl [Hs _] [Hw _] _ _] H. unfold under. rewrite length_take, length_drop. dlia. Qed.

Lemma under_split o out n : buf_ok o → 4 * Z.of_nat (length out + n) <= f_size (o_fifo o) - f_wptr (o_fifo o) → (0 < n)%nat →
  under o (length out + n) = under o (length out) ++ under (written o out) n.
Proof.
  intros Hok H Hn. unfold under. rewrite take_add, drop_drop. do 2 f_equal. cbn.
  destruct Hok as [Hl [Hs Hm] [Hw Hwm] _ _].
  rewrite Z.mod_small by lia.
  replace (Z.to_nat ((f_wptr (o_fifo o) + 4 * Z.of_nat (length out)) / 4)) with (Z.to_nat (f_wptr (o_fifo o) / 4) + length out)%nat by dlia.
  symmetry. apply drop_put; dlia.
Qed.

(** One pass of the loop. *)
Lemma copy_pass fuel o buffer m k : f_lock (o_fifo o) = true → buf_ok o → steps_ok (o_fade o) →
  Z.of_nat (8 * m) <= f_size (o_fifo o) - f_wptr (o_fifo o) → (2 * m <= length buffer)%nat → (0 < m)%nat →
  k = Nat.min m (Z.to_nat (transition_sample_step (o_fade o) - transition_samples_in_step (o_fade o))) →
  decode_transition_copy_bytes (S fuel) o buffer (Z.of_nat (8 * m))
  = decode_transition_copy_bytes fuel
      (set_fade (ticks k (o_fade o)) (written o (faded (o_fade o) (under o (2 * k)) (take (2 * k) buffer))))
      (drop (2 * k) buffer) (Z.of_nat (8 * (m - k))).
Proof.
  intros Hlock Hok Hst Hroom Hlen Hm Hk. pose proof Hst as [Hs Hi]. destruct (ok_size _ Hok) as [Hz _].
  destruct (ok_wptr _ Hok) as [Hw _]. cbn [decode_transition_copy_bytes].
  destruct (Z.of_nat (8 * m) =? 0) eqn:E0; bool_prop; [lia|].
  set (br := if _ <? _ then _ else _).
  assert (Hbr : br = Z.of_nat (8 * k)).
  { unfold br, samples_to_bytes. rewrite !u32_small by (unfold is_u32; rewrite ?u32_small by (unfold is_u32; lia); lia).
    clear br. destruct (_ <? _) eqn:E; bool_prop; rewrite Hk; lia. }
  assert (Hk' : (0 < k <= m)%nat ∧ Z.of_nat k <= transition_sample_step (o_fade o) - transition_samples_in_step (o_fade o))
    by (rewrite Hk; lia).
  rewrite Hbr. clearbody br. clear Hk Hbr. unfold bytes_to_samples. rewrite index_wptr by done. cbn [mbind option_bind].
  replace (Z.of_nat (8 * k) / 8) with (Z.of_nat k) by dlia.
  replace (Z.to_nat (Z.of_nat k * 2)) with (2 * k)%nat by lia.
  fold (under o (2 * k)).
  assert (Hu : length (under o (2 * k)) = (2 * k)%nat) by (apply length_under; [done|lia]).
  assert (Ht : length (take (2 * k) buffer) = (2 * k)%nat) by (rewrite length_take; lia).
  rewrite <- (faded_step k) by lia. pose proof (length_faded k (o_fade o) _ _ Hu Ht) as Hf.
  rewrite store_put by (done || lia). cbn [mbind option_bind]. rewrite wptr_incby by (done || lia).
  cbn [mbind option_bind transition_gain transition_samples_in_step set_steps].
  rewrite !u32_small by (unfold is_u32; lia). rewrite advance_gain_ticks by (done || lia).
  cbn [mbind option_bind].
  unfold written. rewrite Hf. unfold set_wptr.
  replace (4 * Z.of_nat (2 * k)) with (Z.of_nat (8 * k)) by lia.
  f_equal. lia.
Qed.

Lemma written_fade fd o out : written (set_fade fd o) out = set_fade fd (written o out).
Proof. done. Qed.

Lemma set_fade_ok fd o : buf_ok o → buf_ok (set_fade fd o).
Proof. by intros []. Qed.

(** The result of the copy: the next frames of the transition in place. *)
Definition fade_write (o : output) (m : nat) (buffer : list Z) : output :=
  set_fade (ticks m (o_fade o)) (written o (faded (o_fade o) (under o (2 * m)) (take (2 * m) buffer))).

Lemma written_nil o : buf_ok o → written o [] = o.
Proof.
  intros [_ _ [Hw _] _ _]. unfold written. cbn [length put]. rewrite Z.add_0_r, Z.mod_small by done.
  by destruct o as [[] ?].
Qed.

Lemma fade_write_0 o buffer : buf_ok o → fade_write o 0 buffer = o.
Proof. intros H. unfold fade_write. cbn [ticks Nat.mul take faded under]. rewrite written_nil by done. by destruct o. Qed.

Lemma fade_write_add o k n buffer : buf_ok o → (0 < n)%nat →
  Z.of_nat (8 * (k + n)) <= f_size (o_fifo o) - f_wptr (o_fifo o) → (2 * (k + n) <= length buffer)%nat →
  fade_write (fade_write o k buffer) n (drop (2 * k) buffer) = fade_write o (k + n) buffer.
Proof.
  intros Hok Hn Hroom Hlen. unfold fade_write. cbn [o_fade set_fade].
  assert (Hu : length (under o (2 * k)) = (2 * k)%nat) by (apply length_under; [done|lia]).
  assert (Ht : length (take (2 * k) buffer) = (2 * k)%nat) by (rewrite length_take; lia).
  pose proof (length_faded k (o_fade o) _ _ Hu Ht) as Hl.
  rewrite written_fade, ticks_add. rewrite written_app by done.
  match goal with |- set_fade ?a (set_fade ?b ?w) = _ => change (set_fade a (set_fade b w)) with (set_fade a w) end.
  f_equal. f_equal.
  replace (2 * (k + n))%nat with (2 * k + 2 * n)%nat by lia.
  pose proof (under_split o (faded (o_fade o) (under o (2 * k)) (take (2 * k) buffer)) (2 * n) Hok) as Hs.
  rewrite Hl in Hs. rewrite take_add, Hs by lia. by rewrite (faded_app k).
Qed.

Lemma fade_write_ok o m buffer : buf_ok o → Z.of_nat (8 * m) <= f_size (o_fifo o) - f_wptr (o_fifo o) →
  (2 * m <= length buffer)%nat → buf_ok (fade_write o m buffer).
Proof.
  intros Hok Hroom Hlen. apply set_fade_ok, written_ok; [done|].
  rewrite (length_faded m); [rewrite Nat.mul_comm; by apply Nat.Div0.mod_mul|apply length_under; [done|lia]|rewrite length_take; lia].
Qed.

Lemma fade_write_wptr o m buffer : buf_ok o → Z.of_nat (8 * m) <= f_size (o_fifo o) - f_wptr (o_fifo o) →
  (2 * m <= length buffer)%nat →
  f_wptr (o_fifo (fade_write o m buffer)) = (f_wptr (o_fifo o) + Z.of_nat (8 * m)) mod f_size (o_fifo o).
Proof.
  intros Hok Hroom Hlen. change (f_wptr (o_fifo (fade_write o m buffer))) with
    ((f_wptr (o_fifo o) + 4 * Z.of_nat (length (faded (o_fade o) (under o (2 * m)) (take (2 * m) buffer)))) mod f_size (o_fifo o)).
  rewrite (length_faded m); [do 2 f_equal; lia|apply length_under; [done|lia]|rewrite length_take; lia].
Qed.

Lemma copy_spec fuel o buffer m : f_lock (o_fifo o) = true → buf_ok o → steps_ok (o_fade o) →
  Z.of_nat (8 * m) <= f_size (o_fifo o) - f_wptr (o_fifo o) → (2 * m <= length buffer)%nat → (m <= fuel)%nat →
  decode_transition_copy_bytes fuel o buffer (Z.of_nat (8 * m)) = Some (fade_write o m buffer).
Proof.
  revert o buffer m. induction fuel as [|fuel IH]; intros o buffer m Hlock Hok Hst Hroom Hlen Hf.
  - replace m with 0%nat by lia. by rewrite fade_write_0.
  - destruct m as [|m']; [by rewrite fade_write_0|]. set (m := S m') in *.
    set (k := Nat.min m (Z.to_nat (transition_sample_step (o_fade o) - transition_samples_in_step (o_fade o)))).
    assert (Hk : (0 < k <= m)%nat) by (destruct Hst; unfold k; lia).
    rewrite (copy_pass fuel o buffer m k) by (done || lia). fold k.
    destruct (decide (k = m)) as [->|Hne]; [by rewrite Nat.sub_diag; destruct fuel|].
    fold (fade_write o k buffer). rewrite IH.
    + rewrite fade_write_add by (done || lia). do 2 f_equal. lia.
    + done.
    + apply fade_write_ok; (done || lia).
    + by apply ticks_steps.
    + rewrite fade_write_wptr by (done || lia). destruct (ok_wptr _ Hok). rewrite Z.mod_small by lia.
      change (f_size (o_fifo (fade_write o k buffer))) with (f_size (o_fifo o)). lia.
    + rewrite length_drop. lia.
    + lia.
Qed.

(** C20.  The copy during a transition: it returns, and every frame is in the
    buffer mixed with the gain of its own time, as if the frames were handled
    one by one, although the code works a gain step at a time; the write
    position moves past them and the gain stands where the frames leave it. *)
Theorem transition_copy_frames o buffer nbytes : f_lock (o_fifo o) = true → buf_ok o → steps_ok (o_fade o) →
  nbytes mod 8 = 0 → 0 <= nbytes <= f_size (o_fifo o) - f_wptr (o_fifo o) → nbytes <= 4 * Z.of_nat (length buffer) →
  decode_transition_copy_bytes (Z.to_nat nbytes) o buffer nbytes = Some (fade_write o (Z.to_nat (nbytes / 8)) buffer).
Proof.
  intros Hlock Hok Hst Hm Hn Hb. replace nbytes with (Z.of_nat (8 * Z.to_nat (nbytes / 8))) at 2 by dlia.
  apply copy_spec; (done || dlia).
Qed.

(** Eight frames of room; five frames over three of a step. *)
Definition demo_fade : output :=
  mk_output (mk_fifo true 0 16 64) (replicate 16 1000)
    (mk_track true 16 false 44100 0 0 0 0 0) (mk_fade true 56 0x8000 0x4000 3 1)
    (mk_volume FIXED_ONE (SAMPLE_MAX, SAMPLE_MIN) (1, 1) 0) TRANSITION_CROSSFADE 1 false 0 48000 [].

Lemma transition_copy_frames_witness :
  decode_transition_copy_bytes 40 demo_fade [0; 4; 8; 12; 16; 20; 24; 28; 32; 36] 40
  = Some (fade_write demo_fade 5 [0; 4; 8; 12; 16; 20; 24; 28; 32; 36]).
Proof.
  apply (transition_copy_frames demo_fade [0; 4; 8; 12; 16; 20; 24; 28; 32; 36] 40); done.
Defined.

Example demo_fade_buf : o_buf (fade_write demo_fade 5 [0; 4; 8; 12; 16; 20; 24; 28; 32; 36])
  = [1000; 1000; 1000; 1000; 500; 502; 504; 506; 262; 265; 268; 271; 274; 277; 1000; 1000].
Proof. vm_compute. reflexivity. Qed.
