(* ===== verification/DecodeOutputProps.v ===== *)
(** decode_output_samples returns, keeps its positions and its transition in
    range, and writes the frames it is given in a row. *)

From S2P Require Import Prelude Ring AudioFifo DecodeOutput DecodeOutputFade.

(** ** The invariant *)

(** A cross fade has an end ahead of the write position, and a gain step. *)
Record fade_ok (o : output) : Prop := {
  ok_steps : transition_gain_step (o_fade o) ≠ 0 → steps_ok (o_fade o);
  ok_crossfade : crossfade_started (o_fade o) = true →
    transition_gain_step (o_fade o) ≠ 0 ∧ pos_ok (f_size (o_fifo o)) (crossfade_ptr (o_fade o)) ∧
    crossfade_ptr (o_fade o) ≠ f_wptr (o_fifo o) ∧ crossfade_ptr (o_fade o) ≠ track_start_point (o_track o)
}.

Definition out_ok (o : output) : Prop := buf_ok o ∧ fade_ok o.

(** ** The loop *)

(** The bytes one pass may write. *)
Definition pass_limit (o : output) : Z :=
  let f := o_fifo o in
  let wrap := f_size f - f_wptr f in
  if crossfade_started (o_fade o) && (f_wptr f <=? crossfade_ptr (o_fade o)) then crossfade_ptr (o_fade o) - f_wptr f else wrap.

(** What a pass leaves: a run of samples written, maybe the transition over. *)
Definition ran (o : output) (buffer : list Z) (m : nat) (o' : output) : Prop :=
  ∃ out fd, length out = (2 * m)%nat ∧ o' = set_fade fd (written o out) ∧ out_ok o' ∧
    (transition_gain_step (o_fade o) = 0 → out = take (2 * m) buffer ∧ fd = o_fade o).

Lemma pass_limit_ok o : out_ok o → ∃ k, (0 < k)%nat ∧ pass_limit o = Z.of_nat (8 * k) ∧
  Z.of_nat (8 * k) <= f_size (o_fifo o) - f_wptr (o_fifo o).
Proof.
  intros [[Hl [Hs Hm] [Hw Hwm] _ _] [_ Hc]]. exists (Z.to_nat (pass_limit o / 8)). unfold pass_limit.
  destruct (crossfade_started (o_fade o) && _) eqn:E; bool_prop; [|dlia].
  destruct Hc as (_ & [Hp Hpm] & Hne & _); [done|]. dlia.
Qed.

Lemma fade_pass_ok o buffer m : out_ok o → transition_gain_step (o_fade o) ≠ 0 → (0 < m)%nat →
  Z.of_nat (8 * m) <= pass_limit o → (2 * m <= length buffer)%nat →
  let o1 := fade_write o m buffer in
  out_ok (if (crossfade_started (o_fade o1) && (f_wptr (o_fifo o1) =? crossfade_ptr (o_fade o1)))
             || (FIXED_ONE <=? transition_gain (o_fade o1))
          then set_fade (set_crossfade false (set_gain_step 0 (o_fade o1))) o1 else o1).
Proof.
  intros Hok Hg Hm Hlim Hlen o1. destruct (pass_limit_ok _ Hok) as (k & _ & Hk1 & Hk2). destruct Hok as [Hb [Hst Hc]].
  assert (Hb1 : buf_ok o1) by (apply fade_write_ok; (done || lia)).
  destruct (ticks_keep m (o_fade o)) as (K1 & K2 & K3 & _).
  destruct (_ || _) eqn:E; [by split; [apply set_fade_ok|split; cbn]|].
  split; [done|]. split; [intros _; by apply ticks_steps, Hst|].
  unfold o1 in *. intros Hx. cbn [fade_write set_fade o_fade] in Hx. rewrite K1 in Hx.
  destruct (Hc Hx) as (H1 & H2 & H3 & H4).
  apply orb_false_iff in E as [E _]. cbn [fade_write set_fade o_fade] in E. rewrite K1, K2, Hx in E. bool_prop.
  cbn [fade_write set_fade o_fade]. rewrite K2, K3. split_and!; try done.
  intros Heq. destruct E as [E|E]; [done|]. apply Z.eqb_neq in E. congruence.
Qed.

Lemma plain_pass_ok o out : out_ok o → transition_gain_step (o_fade o) = 0 → (length out mod 2 = 0)%nat → out_ok (written o out).
Proof.
  intros [Hb [Hst Hc]] Hg He. split; [by apply written_ok|]. split; [done|].
  intros Hx. by destruct (Hc Hx).
Qed.

Lemma even_length k : ((2 * k) mod 2 = 0)%nat.
Proof. rewrite Nat.mul_comm. by apply Nat.Div0.mod_mul. Qed.

(** The limit the code computes; the distance to an end of the cross fade
    behind the write position is more than the rest of the buffer. *)
Lemma pass_limit_code o : f_lock (o_fifo o) = true → out_ok o →
  (wrap ← fifo_bytes_until_wptr_wrap (o_fifo o);
   if crossfade_started (o_fade o) then
     bytes_remaining ← decode_transition_bytes_remaining o (crossfade_ptr (o_fade o));
     Some (if bytes_remaining <? wrap then bytes_remaining else wrap)
   else Some wrap) = Some (pass_limit o).
Proof.
  intros Hlock [[Hl [Hs _] [Hw _] _ _] [_ Hc]]. unfold fifo_bytes_until_wptr_wrap, decode_transition_bytes_remaining, f_locked, pass_limit.
  rewrite Hlock. cbn [mbind option_bind]. rewrite (u32_small (f_size (o_fifo o) - f_wptr (o_fifo o))) by (unfold is_u32; lia).
  destruct (crossfade_started (o_fade o)) eqn:Ec; [|done]. destruct Hc as (_ & [Hp _] & Hne & _); [done|].
  cbn [andb]. destruct (_ <=? _) eqn:E; bool_prop; cbn [mbind option_bind]; rewrite u32_small by (unfold is_u32; lia);
    destruct (_ <? _) eqn:E2; bool_prop; f_equal; lia.
Qed.

Lemma pass_spec o buffer M : f_lock (o_fifo o) = true → out_ok o → (0 < M)%nat → length buffer = (2 * M)%nat →
  ∃ m o', (0 < m <= M)%nat ∧ output_pass o buffer (Z.of_nat (8 * M)) = Some (Z.of_nat (8 * m), o') ∧ ran o buffer m o'.
Proof.
  intros Hlock Hok HM Hlen. destruct (pass_limit_ok o Hok) as (k & Hk0 & Hk & Hroom).
  pose proof (pass_limit_code o Hlock Hok) as Hcode.
  pose proof (Nat.min_spec M k) as Hmin. set (m := Nat.min M k) in *. clearbody m.
  assert (Hbw : (if pass_limit o <? Z.of_nat (8 * M) then pass_limit o else Z.of_nat (8 * M)) = Z.of_nat (8 * m))
    by (rewrite Hk; destruct (_ <? _) eqn:E; bool_prop; lia).
  unfold output_pass. destruct (fifo_bytes_until_wptr_wrap (o_fifo o)) as [wrap|]; [|done].
  cbn [mbind option_bind] in *. rewrite Hcode. cbn [mbind option_bind]. rewrite Hbw. unfold c_true.
  pose proof Hok as [Hb [Hst _]].
  destruct (transition_gain_step (o_fade o) =? 0) eqn:Eg; bool_prop; cbn [negb].
  - rewrite index_wptr by done. cbn [mbind option_bind].
    replace (Z.to_nat (Z.of_nat (8 * m) / 4)) with (2 * m)%nat by dlia.
    assert (Ht : length (take (2 * m) buffer) = (2 * m)%nat) by (rewrite length_take; lia).
    rewrite store_put by (done || lia). cbn [mbind option_bind].
    destruct (ok_size _ Hb) as [Hz _], (ok_wptr _ Hb) as [Hw _]. rewrite wptr_incby by (done || lia). cbn [mbind option_bind].
    eexists m, _. split; [lia|]. split; [done|]. exists (take (2 * m) buffer), (o_fade o). split_and!; [done| | |done].
    + unfold written. rewrite Ht. replace (4 * Z.of_nat (2 * m)) with (Z.of_nat (8 * m)) by lia. by destruct o.
    + pose proof (plain_pass_ok o (take (2 * m) buffer) Hok Eg) as H. rewrite Ht in H. specialize (H (even_length m)).
      unfold written in H. rewrite Ht in H. by replace (4 * Z.of_nat (2 * m)) with (Z.of_nat (8 * m)) in H by lia.
  - rewrite copy_spec by (done || lia || auto). cbn [mbind option_bind]. eexists m, _. split; [lia|]. split; [done|].
    pose proof (fade_pass_ok o buffer m Hok Eg) as H. specialize (H ltac:(lia) ltac:(lia) ltac:(lia)). cbv zeta in H.
    assert (Hl : length (faded (o_fade o) (under o (2 * m)) (take (2 * m) buffer)) = (2 * m)%nat)
      by (apply length_faded; [apply length_under; [done|lia]|rewrite length_take; lia]).
    destruct (_ || _); eexists _, _; split_and!; (exact Hl || exact H || done).
Qed.

Lemma ran_0 o buffer : out_ok o → ran o buffer 0 o.
Proof.
  intros Hok. exists [], (o_fade o). rewrite written_nil by apply Hok. split_and!; try done. by destruct o.
Qed.

Lemma ran_app o o1 o2 buffer m n : buf_ok o → (2 * m <= length buffer)%nat →
  ran o buffer m o1 → ran o1 (drop (2 * m) buffer) n o2 → ran o buffer (m + n) o2.
Proof.
  intros Hok Hlen (out1 & fd1 & L1 & -> & _ & P1) (out2 & fd2 & L2 & -> & Hok2 & P2). exists (out1 ++ out2), fd2. split_and!.
  - rewrite length_app. lia.
  - by rewrite written_fade, written_app.
  - done.
  - intros Hg. destruct (P1 Hg) as [-> ->]. destruct (P2 Hg) as [-> ->]. split; [|done].
    by rewrite Nat.mul_add_distr_l, take_add.
Qed.

Lemma loop_spec fuel o buffer M : f_lock (o_fifo o) = true → out_ok o → length buffer = (2 * M)%nat →
  Z.of_nat (8 * M) < 2 ^ 32 → (M <= fuel)%nat →
  ∃ o', output_loop fuel o buffer (Z.of_nat (8 * M)) = Some o' ∧ ran o buffer M o'.
Proof.
  revert o buffer M. induction fuel as [|fuel IH]; intros o buffer M Hlock Hok Hlen Hsm Hf.
  - replace M with 0%nat by lia. eauto using ran_0.
  - destruct M as [|M']; [eauto using ran_0|]. set (M := S M') in *.
    destruct (pass_spec o buffer M) as (m & o1 & Hm & Hp & Hr); [done..|lia|done|].
    cbn [output_loop]. destruct (Z.of_nat (8 * M) =? 0) eqn:E; bool_prop; [lia|]. rewrite Hp. cbn [mbind option_bind].
    replace (Z.to_nat (Z.of_nat (8 * m) / 4)) with (2 * m)%nat by dlia.
    rewrite u32_small by (unfold is_u32; lia). replace (Z.of_nat (8 * M) - Z.of_nat (8 * m)) with (Z.of_nat (8 * (M - m))) by lia.
    pose proof Hr as (out & fd & _ & Ho1 & Hok1 & _).
    destruct (IH o1 (drop (2 * m) buffer) (M - m)%nat) as (o2 & H2 & Hr2); [by subst o1|done|rewrite length_drop; lia|lia|lia|].
    exists o2. split; [done|]. replace M with (m + (M - m))%nat by lia. apply (ran_app o o1); [apply Hok|lia|done|done].
Qed.
