(* ===== verification/DecodeOutputStart.v ===== *)
(** The first buffer of a track: the length of a cross fade, the gain steps of
    a transition, and the positions it starts and ends at. *)

From S2P Require Import Prelude Ring AudioFifo DecodeOutput DecodeOutputFade DecodeOutputProps.

Lemma s32_small z : -2147483648 <= z < 2147483648 → s32 z = z.
Proof. intros H. unfold s32. rewrite Z.mod_small by lia. lia. Qed.

Lemma u32_s32 z : u32 (s32 z) = u32 z.
Proof. unfold u32, s32. rewrite Zminus_mod_idemp_l. f_equal. lia. Qed.

Lemma u32_add_l a b : u32 (u32 a + b) = u32 (a + b).
Proof. unfold u32. apply Zplus_mod_idemp_l. Qed.

Lemma s32_u32 z : s32 (u32 z) = s32 z.
Proof. unfold u32, s32. by rewrite Zplus_mod_idemp_l. Qed.

(** ** The length of a cross fade *)

(** The number of passes of the loop, and with it the bytes that are left. *)
Lemma shrink_spec fuel used step istep nbytes interval : 0 < step → 2 * step <= used < 2 ^ 31 →
  0 < nbytes < 2 ^ 31 → nbytes < Z.of_nat fuel →
  ∃ k, 0 <= k ∧ k * step < nbytes ∧ nbytes - k * step + step <= used ∧ (0 < k → used < nbytes - k * step + 2 * step) ∧
    ∃ i, u32 i = u32 (interval - k * istep) ∧ (k = 0 → i = interval) ∧
    shrink_interval fuel used step istep nbytes interval = Some (i, nbytes - k * step).
Proof.
  intros Hs Hu. revert nbytes interval. induction fuel as [|fuel IH]; intros nbytes interval Hn Hf; [lia|].
  cbn [shrink_interval]. rewrite u32_small by (unfold is_u32; lia). destruct (_ <? _) eqn:E; bool_prop.
  - rewrite u32_small by (unfold is_u32; lia). destruct (IH (nbytes - step) (s32 (interval - istep))) as (k & K0 & K1 & K2 & K3 & i & I1 & I2 & I3); [lia..|].
    exists (k + 1). split_and!; try lia. exists i. split_and!; [|lia|rewrite I3; do 2 f_equal; lia].
    rewrite I1. unfold u32. rewrite <- Zminus_mod_idemp_l. fold (u32 (s32 (interval - istep))). rewrite u32_s32.
    unfold u32. rewrite Zminus_mod_idemp_l. f_equal. lia.
  - exists 0. split_and!; try lia. exists interval. split_and!; [f_equal; lia|done|do 2 f_equal; lia].
Qed.

(** 65536 tenths: the divisor of the step is not a fixed-point number. *)
Lemma interval_step_value : fixed_div FIXED_ONE TRANSITION_STEPS_PER_SECOND = Some 429496729.
Proof. reflexivity. Qed.

Lemma fixed_mul_ten i : fixed_mul i (int32_to_fixed TRANSITION_STEPS_PER_SECOND) = s32 (i * 10).
Proof.
  unfold fixed_mul. change (int32_to_fixed TRANSITION_STEPS_PER_SECOND) with (10 * 2 ^ 16).
  rewrite Z.mul_assoc, Z.shiftr_div_pow2, Z.div_mul by lia. done.
Qed.

(** The rate and period of a transition are within the bounds of the code's
    arithmetic: ten steps a second, and the whole buffer of frames counted in
    less than 31 bits. *)
Definition rate_ok (rate period : Z) : Prop := 10 <= rate ∧ 1 <= period <= 3000 ∧ 8 * (period * rate) + 8 * rate < 2 ^ 31.

Lemma gain_step_pos x : 0 < x < 2 ^ 31 → fixed_div FIXED_ONE x = Some (s32 (2 ^ 32 / x)).
Proof.
  intros Hx. unfold fixed_div. destruct (_ =? _) eqn:E; bool_prop; [lia|]. do 2 f_equal.
  rewrite Z.shiftr_div_pow2, Z.shiftl_mul_pow2, Z.quot_div_nonneg by lia.
  rewrite Z.div_div by lia. rewrite (Z.mul_comm x). rewrite <- Z.div_div by lia. f_equal.
Qed.

Lemma bytes_used_ok o : f_lock (o_fifo o) = true → buf_ok o →
  ∃ u, fifo_bytes_used (o_fifo o) = Some u ∧ 0 <= u < f_size (o_fifo o) ∧ u mod 8 = 0.
Proof.
  intros Hlock [_ [Hs Hm] [Hw Hwm] [Hr Hrm] _]. unfold fifo_bytes_used, f_locked. rewrite Hlock.
  destruct (_ <=? _) eqn:E; bool_prop; eexists; split; try done.
  - rewrite u32_small by (unfold is_u32; lia). split; [lia|dlia].
  - rewrite u32_add_l, u32_small by (unfold is_u32; lia). split; [lia|dlia].
Qed.

(** The cross fade that [k] passes of the loop leave. *)
Record interval_is (rate period used k i nbytes : Z) : Prop := {
  i_nbytes : nbytes = 8 * (period * rate - k * (rate / 10));
  i_k : 0 <= k <= 19 * period;
  i_fits : 0 < nbytes ∧ nbytes + 8 * (rate / 10) <= used;
  i_longest : 0 < k → used < nbytes + 16 * (rate / 10);
  i_value : s32 (i * 10) = 655360 * period + 6 * k
}.

Lemma interval_spec fuel o rate period used : f_lock (o_fifo o) = true → rate_ok rate period →
  fifo_bytes_used (o_fifo o) = Some used → 8 * rate <= used < 2 ^ 31 → rate = track_sample_rate (o_track o) →
  8 * (period * rate) < Z.of_nat fuel →
  ∃ k i nbytes, determine_transition_interval fuel o rate period = Some (i, nbytes) ∧ interval_is rate period used k i nbytes.
Proof.
  intros Hlock (Hr & Hp & Hb) Hused Hu Ht Hf. unfold determine_transition_interval, f_locked. rewrite Hlock, <- Ht, Z.eqb_refl, Hused.
  cbn [negb mbind option_bind]. unfold samples_to_bytes.
  rewrite !(u32_small (2 * _ * 4)) by (unfold is_u32; rewrite ?u32_small by (unfold is_u32; nia); dlia).
  rewrite !u32_small by (unfold is_u32; nia). destruct (_ <? _) eqn:E; bool_prop; [lia|].
  rewrite interval_step_value. cbn [mbind option_bind].
  assert (Hq : 1 <= rate / 10 ∧ 10 * (rate / 10) <= rate <= 19 * (rate / 10)) by dlia.
  set (q := rate / TRANSITION_STEPS_PER_SECOND) in *.
  destruct (shrink_spec fuel used (2 * q * 4) 429496729 (2 * (period * rate) * 4) (int32_to_fixed (s32 period)))
    as (k & K0 & K1 & K2 & K3 & i & I1 & _ & I3); [lia..|nia|lia|].
  assert (Hk : k <= 19 * period) by nia.
  exists k, i, (2 * (period * rate) * 4 - k * (2 * q * 4)). split; [done|]. split; [lia|lia|lia|lia|].
  rewrite s32_small in I1 by lia. unfold int32_to_fixed in I1. rewrite s32_small, Z.shiftl_mul_pow2 in I1 by (rewrite ?Z.shiftl_mul_pow2; lia).
  rewrite <- (s32_small (655360 * period + 6 * k)) by lia. rewrite <- s32_u32, <- (s32_u32 (655360 * period + _)). f_equal.
  replace (655360 * period + 6 * k) with ((period * 2 ^ 16 - k * 429496729) * 10 + k * 2 ^ 32) by lia.
  unfold u32 in *. change 4294967296 with (2 ^ 32) in *. rewrite Z.mod_add by lia.
  rewrite <- Zmult_mod_idemp_l, I1, Zmult_mod_idemp_l. done.
Qed.

(** ** Starting a transition *)

(** Moving the write position back. *)
Lemma back_pos size w n : 0 < size < 2 ^ 31 → size mod 8 = 0 → pos_ok size w → 0 <= n < size → n mod 8 = 0 →
  let w' := u32 ((if w <? n then u32 (w + size) else w) - n) in
  pos_ok size w' ∧ (0 < n → w' ≠ w).
Proof.
  intros Hs Hm [Hw Hwm] Hn Hnm. unfold pos_ok. cbv zeta.
  destruct (_ <? _) eqn:E; bool_prop; rewrite !u32_small by (unfold is_u32; rewrite ?u32_small by (unfold is_u32; lia); lia);
    (split; [split; [lia|dlia]|lia]).
Qed.

Lemma set_wptr_ok w o : buf_ok o → pos_ok (f_size (o_fifo o)) w → buf_ok (set_wptr w o).
Proof. by intros []. Qed.

Lemma set_start_ok w o : buf_ok o → pos_ok (f_size (o_fifo o)) w → buf_ok (set_start_point w o).
Proof. by intros []. Qed.

Lemma samples_to_bytes_mod n : samples_to_bytes n mod 8 = 0.
Proof. unfold samples_to_bytes, u32. dlia. Qed.

Lemma gain_step_range x : 655360 <= x < 2 ^ 31 → ∃ g, fixed_div FIXED_ONE x = Some g ∧ g = 2 ^ 32 / x ∧ 0 < g <= 6553.
Proof.
  intros Hx. exists (2 ^ 32 / x). rewrite gain_step_pos by lia.
  assert (Hg : 0 < 2 ^ 32 / x <= 6553).
  { split; [apply Z.div_str_pos; lia|]. change 6553 with (2 ^ 32 / 655360). apply Z.div_le_compat_l; lia. }
  split_and!; try lia. by rewrite s32_small by lia.
Qed.

Lemma sample_step_ok rate period b p g gs : rate_ok rate period →
  steps_ok (mk_fade b p g gs (u32 (Z.quot rate TRANSITION_STEPS_PER_SECOND)) 0).
Proof.
  intros (H1 & H2 & H3). assert (rate < 2 ^ 28) by nia. unfold steps_ok. cbn -[Z.pow].
  rewrite Z.quot_div_nonneg by lia. rewrite u32_small by (unfold is_u32; dlia). dlia.
Qed.

(** TRANSITION_IMMEDIATE: less of the previous track stays. *)
Lemma immediate_ok o : f_lock (o_fifo o) = true → buf_ok o →
  ∃ w, immediate_skip o = Some (set_wptr w o) ∧ pos_ok (f_size (o_fifo o)) w.
Proof.
  intros Hlock Hok. destruct (bytes_used_ok o Hlock Hok) as (used & Hu & Hur & Hum). unfold immediate_skip. rewrite Hu.
  pose proof (samples_to_bytes_mod (u32 (decode_transition_period o * track_sample_rate (o_track o)))) as Hwm.
  assert (Hw0 : 0 <= samples_to_bytes (u32 (decode_transition_period o * track_sample_rate (o_track o)))) by apply u32_range.
  set (wanted := samples_to_bytes _) in *. clearbody wanted. cbn [mbind option_bind].
  destruct (ok_size _ Hok) as [Hs Hm].
  destruct (_ <? _) eqn:E; bool_prop.
  - eexists. split; [done|]. rewrite (u32_small (used - wanted)) by (unfold is_u32; lia).
    apply back_pos; try done; [apply (ok_wptr _ Hok)|lia|dlia].
  - exists (f_wptr (o_fifo o)). split; [|apply (ok_wptr _ Hok)]. by destruct o as [[] ?].
Qed.

(** No cross fade is under way, whatever fade may be left. *)
Definition no_crossfade (o : output) : Prop :=
  crossfade_started (o_fade o) = false ∧ (transition_gain_step (o_fade o) ≠ 0 → steps_ok (o_fade o)).

Lemma no_crossfade_ok o : buf_ok o → no_crossfade o → out_ok o.
Proof. intros Hb [Hx Hst]. split; [done|]. split; [done|]. by rewrite Hx. Qed.

(** A cross fade of [k] tenths less than the period asked for, up to the
    position the track before it ended at. *)
Definition crossfade (o : output) (rate period k nbytes : Z) (o' : output) : Prop :=
  ∃ g w, w = (f_wptr (o_fifo o) - nbytes) mod f_size (o_fifo o) ∧
    g = 2 ^ 32 / (655360 * period + 6 * k) ∧ 0 < g <= 6553 ∧
    o' = set_start_point w (set_fade (mk_fade true (f_wptr (o_fifo o)) 0 g (rate / 10) 0) (set_wptr w o)).

Lemma back_mod size w n : 0 < size < 2 ^ 31 → 0 <= w < size → 0 <= n < size →
  u32 ((if w <? n then u32 (w + size) else w) - n) = (w - n) mod size.
Proof.
  intros Hs Hw Hn. destruct (_ <? _) eqn:E; bool_prop.
  - rewrite !u32_small by (unfold is_u32; rewrite ?u32_small by (unfold is_u32; lia); lia).
    replace (w + size - n) with (w - n + 1 * size) by lia. rewrite <- (Z.mod_add (w - n) 1) by lia.
    by rewrite Z.mod_small by lia.
  - by rewrite u32_small, Z.mod_small by (unfold is_u32; lia).
Qed.

Lemma crossfade_starts fuel o rate period used : f_lock (o_fifo o) = true → buf_ok o →
  period = decode_transition_period o → rate_ok rate period →
  fifo_bytes_used (o_fifo o) = Some used → 8 * rate <= used → rate = track_sample_rate (o_track o) →
  8 * (period * rate) < Z.of_nat fuel →
  ∃ k i nbytes o', interval_is rate period used k i nbytes ∧ enter_crossfade fuel o rate = Some o' ∧ crossfade o rate period k nbytes o'.
Proof.
  intros Hlock Hok Hper Hrate Hused Hu Ht Hf. destruct (bytes_used_ok o Hlock Hok) as (u & Hu' & Hur & _).
  rewrite Hused in Hu'. injection Hu' as <-. destruct (ok_size _ Hok) as [Hs _], (ok_wptr _ Hok) as [Hw _].
  destruct (interval_spec fuel o rate period used) as (k & i & nb & Hd & Hi); [done..|lia|done|done|].
  pose proof Hi as [In Ik [If1 If2] _ Iv]. pose proof Hrate as (Hr1 & Hr2 & Hr3).
  unfold enter_crossfade. rewrite <- Hper, Hd. cbn [mbind option_bind].
  assert (Hi0 : c_true i = true).
  { unfold c_true. destruct (i =? 0) eqn:E; [|done]. bool_prop. subst i. rewrite Z.mul_0_l in Iv. change (s32 0) with 0 in Iv. lia. }
  rewrite Hi0, fixed_mul_ten, Iv. destruct (gain_step_range (655360 * period + 6 * k)) as (g & Hg & Hg' & Hgr); [lia|].
  rewrite Hg. cbv zeta. cbn [mbind option_bind]. eexists k, i, nb, _. split; [done|]. split; [done|].
  assert (Hq : 1 <= rate / 10 ∧ rate / 10 <= rate) by dlia.
  rewrite back_mod by lia. rewrite Z.quot_div_nonneg, u32_small by (unfold is_u32; nia).
  eexists g, _. split_and!; [reflexivity|exact Hg'|lia|lia|done].
Qed.

Lemma mod_pos size p : 0 < size → size mod 8 = 0 → p mod 8 = 0 → pos_ok size (p mod size).
Proof.
  intros Hs Hm Hp. split; [apply Z.mod_pos_bound; lia|].
  rewrite (Z.div_mod size 8), Hm, Z.add_0_r by lia. rewrite Z.rem_mul_r by dlia.
  by rewrite (Z.mul_comm 8 (_ mod _)), Z.mod_add, Z.mod_mod by lia.
Qed.

Lemma crossfade_out_ok o o' rate period used k i nbytes : buf_ok o → rate_ok rate period → used < f_size (o_fifo o) →
  interval_is rate period used k i nbytes → crossfade o rate period k nbytes o' → out_ok o'.
Proof.
  intros Hok Hrate Hu [In Ik [If1 If2] _ _] (g & w & Hw & _ & Hg & ->).
  destruct (ok_size _ Hok) as [Hs Hm], (ok_wptr _ Hok) as [Hwp Hwm]. pose proof Hrate as (Hr1 & Hr2 & Hr3).
  assert (Hq : 1 <= rate / 10 ∧ rate / 10 <= rate ∧ rate < 2 ^ 28) by (split_and!; [dlia..|nia]).
  assert (Hpos : pos_ok (f_size (o_fifo o)) w) by (rewrite Hw; apply mod_pos; [lia|done|dlia]).
  assert (Hne : f_wptr (o_fifo o) ≠ w).
  { rewrite Hw. intros He. destruct (Z.lt_ge_cases (f_wptr (o_fifo o)) nbytes).
    - rewrite <- (Z.mod_add _ 1), Z.mod_small in He by lia. lia.
    - rewrite Z.mod_small in He; lia. }
  split; [apply set_start_ok, Hpos; by apply set_fade_ok, set_wptr_ok|]. split.
  - intros _. unfold steps_ok. cbn -[Z.pow]. lia.
  - intros _. cbn -[Z.pow]. split_and!; (lia || done || apply Hok).
Qed.

Lemma enter_crossfade_ok fuel o rate : f_lock (o_fifo o) = true → buf_ok o → no_crossfade o →
  rate_ok rate (decode_transition_period o) → 8 * (decode_transition_period o * rate) < Z.of_nat fuel →
  ∃ o', enter_crossfade fuel o rate = Some o' ∧ out_ok o' ∧ f_lock (o_fifo o') = true.
Proof.
  intros Hlock Hok Hno Hrate Hf. destruct (bytes_used_ok o Hlock Hok) as (used & Hu & Hur & _). destruct (ok_size _ Hok) as [Hs _].
  pose proof Hrate as (Hr1 & Hr2 & Hr3).
  destruct (decide (rate = track_sample_rate (o_track o) ∧ 8 * rate <= used)) as [[Ht Hlong]|Hnot].
  - destruct (crossfade_starts fuel o rate _ used Hlock Hok eq_refl Hrate Hu Hlong Ht Hf) as (k & i & nb & o' & Hi & He & Hc).
    exists o'. split_and!; [done|by eapply crossfade_out_ok; try done; lia|]. by destruct Hc as (g & w & _ & _ & _ & ->).
  - exists o. split_and!; [|by apply no_crossfade_ok|done].
    unfold enter_crossfade, determine_transition_interval, f_locked. rewrite Hlock, Hu. cbn [mbind option_bind].
    destruct (rate =? track_sample_rate (o_track o)) eqn:E; [|done]. bool_prop. cbn [negb]. unfold samples_to_bytes.
    rewrite (u32_small (TRANSITION_MINIMUM_SECONDS * rate)) by (unfold is_u32; nia).
    rewrite (u32_small (2 * (TRANSITION_MINIMUM_SECONDS * rate) * 4)) by (unfold is_u32; nia).
    destruct (used <? _) eqn:E2; [done|]. bool_prop. destruct Hnot. split; [done|lia].
Qed.

Lemma start_crossfade_ok fuel o rate : f_lock (o_fifo o) = true → buf_ok o → no_crossfade o →
  rate_ok rate (decode_transition_period o) → 8 * (decode_transition_period o * rate) < Z.of_nat fuel →
  ∃ o', start_crossfade fuel o rate = Some o' ∧ out_ok o' ∧ f_lock (o_fifo o') = true.
Proof.
  intros Hlock Hok Hno Hrate Hf. unfold start_crossfade. destruct (c_true _).
  - destruct (immediate_ok o Hlock Hok) as (w & Hi & Hw). rewrite Hi. cbn [mbind option_bind].
    by apply enter_crossfade_ok; try done; apply set_wptr_ok.
  - by apply enter_crossfade_ok.
Qed.

(** The divisor of a fade in's gain step is the period in tenths as a 16.16
    number of 32 bits: zero for every multiple of 32768. *)
Lemma fade_in_divisor p : (int32_to_fixed (s32 (u32 (p * TRANSITION_STEPS_PER_SECOND))) =? 0) = (p mod 32768 =? 0).
Proof.
  unfold int32_to_fixed. rewrite s32_u32, Z.shiftl_mul_pow2 by lia. unfold s32. apply eq_true_iff_eq. rewrite !Z.eqb_eq.
  Z.to_euclidean_division_equations. lia.
Qed.

Lemma start_fade_in_spec o rate : crossfade_started (o_fade o) = false → 0 <= rate < 2 ^ 28 →
  start_fade_in o rate = None ∧ decode_transition_period o mod 32768 = 0 ∨
  decode_transition_period o mod 32768 ≠ 0 ∧
    ∃ g, start_fade_in o rate = Some (set_fade (mk_fade false (crossfade_ptr (o_fade o)) 0 g (rate / 10) 0) o).
Proof.
  intros Hx Hr. unfold start_fade_in, fixed_div. rewrite fade_in_divisor, Hx.
  destruct (_ =? 0) eqn:E; bool_prop; [by left|right]. split; [done|]. eexists. cbn [mbind option_bind].
  by rewrite (Z.quot_div_nonneg rate), (u32_small (rate / _)) by (unfold is_u32; dlia || lia).
Qed.

(** ** Whole buffers *)

(** A first buffer that cross fades has a rate and a period in bounds. *)
Definition transition_ok (o : output) (rate : Z) : Prop :=
  decode_first_buffer o = true → c_true (Z.land (decode_transition_type o) TRANSITION_CROSSFADE) = true →
  rate_ok rate (decode_transition_period o).

(** A first buffer whose fade in has a gain step with divisor zero. *)
Definition divides_by_zero (o : output) : bool :=
  decode_first_buffer o && negb (c_true (Z.land (decode_transition_type o) TRANSITION_CROSSFADE)) &&
  c_true (Z.land (decode_transition_type o) TRANSITION_FADE_IN) && (decode_transition_period o mod 32768 =? 0).

Lemma first_buffer_ok fuel o rate copyright : f_lock (o_fifo o) = true → out_ok o → decode_first_buffer o = true →
  10 <= rate < 2 ^ 28 → transition_ok o rate → 8 * (decode_transition_period o * rate) < Z.of_nat fuel →
  if divides_by_zero o then first_buffer fuel o rate copyright = None
  else ∃ o', first_buffer fuel o rate copyright = Some o' ∧ out_ok o' ∧ f_lock (o_fifo o') = true.
Proof.
  intros Hlock [Hok [Hst Hc]] Hfirst Hrate Htr Hf. unfold first_buffer, divides_by_zero. rewrite Hfirst. specialize (Htr Hfirst).
  set (o1 := set_start_point _ _).
  assert (Hb1 : buf_ok o1) by (apply set_start_ok; [by apply set_fade_ok|apply Hok]).
  assert (Hno : no_crossfade o1) by (split; [done|exact Hst]).
  assert (Hend : ∀ o2, out_ok o2 → f_lock (o_fifo o2) = true →
    ∃ o', (let t := o_track o2 in Some (set_first false (set_track (mk_track true (track_start_point t) copyright (u32 rate)
    (written_track_samples t) (sync_timestamp t) (samples_until_fade t) (samples_to_fade t) (transition_sample_rate t)) o2))) = Some o'
      ∧ out_ok o' ∧ f_lock (o_fifo o') = true).
  { intros o2 [[B1 B2 B3 B4 B5] [S1 S2]] Hl. eexists. split; [done|]. split; [|done]. split; split; done. }
  change (decode_transition_type o1) with (decode_transition_type o) in *.
  destruct (c_true (Z.land _ TRANSITION_CROSSFADE)) eqn:E1; [|destruct (c_true (Z.land _ TRANSITION_FADE_IN)) eqn:E2]; cbn [negb andb].
  - destruct (start_crossfade_ok fuel o1 rate Hlock Hb1 Hno (Htr eq_refl) Hf) as (o2 & -> & H2 & L2). cbn [mbind option_bind]. by apply Hend.
  - change (decode_transition_period o) with (decode_transition_period o1).
    destruct (start_fade_in_spec o1 rate) as [[-> ->]|[Hp (g & ->)]]; [done|lia|done|]. apply Z.eqb_neq in Hp as ->. cbn [mbind option_bind].
    apply Hend; [|done]. apply no_crossfade_ok; [by apply set_fade_ok|]. split; [done|]. intros _. unfold steps_ok. cbn -[Z.pow]. dlia.
  - cbn [mbind option_bind]. apply Hend; [by apply no_crossfade_ok|done].
Qed.

Lemma length_apply_gain v buffer : length (apply_gain v buffer) = length buffer.
Proof.
  induction buffer as [[|x [|y buffer]] IH] using (well_founded_induction (well_founded_ltof _ length)); [done..|].
  cbn. by rewrite IH by (unfold ltof; cbn; lia).
Qed.

Lemma length_copy_channel left buffer : length (copy_channel left buffer) = length buffer.
Proof.
  induction buffer as [[|x [|y buffer]] IH] using (well_founded_induction (well_founded_ltof _ length)); [done..|].
  cbn. rewrite length_app, IH by (unfold ltof; cbn; lia). by destruct left.
Qed.

(** The samples with the channel and the gain of the track. *)
Definition processed (v : volume) (buffer : list Z) : list Z := decode_apply_track_gain v (select_channel v buffer).

Lemma length_processed v buffer : length (processed v buffer) = length buffer.
Proof.
  unfold processed, decode_apply_track_gain, select_channel.
  destruct (_ && _), (c_true _); rewrite ?length_apply_gain, ?length_copy_channel; done.
Qed.

Definition locked (o : output) : output := set_fifo (f_set_lock true (o_fifo o)) o.
Definition unlocked (o : output) : output := set_fifo (f_set_lock false (o_fifo o)) o.

Lemma locked_ok o : out_ok o → out_ok (locked o).
Proof. intros [[] []]. split; split; done. Qed.

Lemma unlocked_ok o : out_ok o → out_ok (unlocked o).
Proof. intros [[] []]. split; split; done. Qed.

(** After the first buffer's work, the loop runs over the processed samples. *)
Lemma samples_spec fuel o o1 buffer rate copyright M : length buffer = (2 * M)%nat → (0 < M)%nat → Z.of_nat (8 * M) < 2 ^ 32 →
  (M <= fuel)%nat → (if decode_first_buffer o then first_buffer fuel (locked o) rate copyright else Some (locked o)) = Some o1 →
  out_ok o1 → f_lock (o_fifo o1) = true →
  ∃ o2, decode_output_samples fuel o buffer rate copyright = Some (unlocked o2) ∧ ran o1 (processed (o_volume o1) buffer) M o2.
Proof.
  intros Hlen HM Hsm Hf Ho1 Hok Hlock. unfold decode_output_samples. rewrite Hlen.
  replace (Z.of_nat (2 * M) / 2) with (Z.of_nat M) by dlia.
  destruct (_ =? _) eqn:E; bool_prop; [lia|]. fold (locked o). change (decode_first_buffer (locked o)) with (decode_first_buffer o).
  cbn [fifo_lock snd]. fold (locked o). change (decode_first_buffer (locked o)) with (decode_first_buffer o).
  rewrite Ho1. cbn [mbind option_bind]. fold (processed (o_volume o1) buffer).
  unfold samples_to_bytes. rewrite u32_small by (unfold is_u32; lia). replace (2 * Z.of_nat M * 4) with (Z.of_nat (8 * M)) by lia.
  destruct (loop_spec fuel o1 (processed (o_volume o1) buffer) M) as (o2 & Hl & Hr); [done|done|by rewrite length_processed|done|done|].
  rewrite Hl. cbn [mbind option_bind]. exists o2. split; [|done].
  destruct Hr as (out & fd & _ & -> & _). unfold unlock, fifo_unlock, f_locked. cbn. by rewrite Hlock.
Qed.

(** ** Transitions that end wrong *)

(** A cross fade that was shortened still has the gain step of the full
    period: the tenths it lasts do not add up to full gain. *)
Lemma short_crossfade_gain o rate period k nbytes o' : 1 <= period → 0 < k < 10 * period → crossfade o rate period k nbytes o' →
  (10 * period - k) * transition_gain_step (o_fade o') * (10 * period) < FIXED_ONE * (10 * period).
Proof.
  intros Hp Hk (g & w & _ & Hg & Hr & ->). cbn -[Z.mul]. 
  assert (Hle : g * (655360 * period) <= 2 ^ 32).
  { assert (H : g * (655360 * period + 6 * k) <= 2 ^ 32) by (rewrite Hg, Z.mul_comm; apply Z.mul_div_le; lia). nia. }
  nia.
Qed.

(** The end of a fade in is only looked for after a whole run of frames: past
    it the gain exceeds one and full-scale samples wrap around. *)
Example fade_in_overshoots : faded (mk_fade false 0 65530 6553 2 1) [0; 0; 0; 0] [SAMPLE_MAX; SAMPLE_MAX; SAMPLE_MAX; SAMPLE_MAX]
  = [2147287039; 2147287039; -1932951554; -1932951554].
Proof. vm_compute. reflexivity. Qed.

(** Fade in and out over one second halves the period to zero. *)
Lemma halved_period_divides_by_zero o rate : start_fade_in (decode_output_set_transition 52 1 o) rate = None.
Proof. reflexivity. Qed.
