(* ===== verification/DecodeOutputGain.v ===== *)
(** Track gain: the clip range makes the fixed-point product saturate, and the
    shortcut for a track without gain or inversion changes nothing. *)

From S2P Require Import Prelude AudioFifo DecodeOutput DecodeOutputFade DecodeOutputProps DecodeOutputStart.

Definition is_s32 (z : Z) : Prop := SAMPLE_MIN <= z <= SAMPLE_MAX.

(** The product with a gain of 16 fractional bits, clipped. *)
Definition saturated (gain sample : Z) : Z := Z.max SAMPLE_MIN (Z.min SAMPLE_MAX ((gain * sample) / 2 ^ 16)).

(** [f] on the left samples and [g] on the right ones. *)
Fixpoint alternate (f g : Z → Z) (l : list Z) : list Z :=
  match l with x :: l' => f x :: alternate g f l' | [] => [] end.

Lemma div_range x a b : a * 2 ^ 16 <= x < b * 2 ^ 16 → a <= x / 2 ^ 16 < b.
Proof. intros H. split; [apply Z.div_le_lower_bound; lia|apply Z.div_lt_upper_bound; lia]. Qed.

Lemma fixed_mul_exact gain s : SAMPLE_MIN * 2 ^ 16 <= gain * s < (SAMPLE_MAX + 1) * 2 ^ 16 →
  fixed_mul gain s = (gain * s) / 2 ^ 16.
Proof.
  intros H. unfold fixed_mul. rewrite Z.shiftr_div_pow2 by lia. pose proof (div_range _ _ _ H). apply s32_small. lia.
Qed.

Lemma volume_mul_saturated gain s : 0 <= gain < 2 ^ 31 → is_s32 s →
  volume_mul s gain (volume_get_clip_range gain) = saturated gain s.
Proof.
  unfold is_s32. intros Hg Hs. unfold volume_mul, volume_get_clip_range, saturated. destruct (FIXED_ONE <? gain) eqn:E; bool_prop; cbn [fst snd].
  - set (hi := Z.quot _ gain). set (lo := Z.quot _ gain).
    assert (Hhi : hi * gain <= SAMPLE_MAX * FIXED_ONE < (hi + 1) * gain).
    { unfold hi. rewrite Z.quot_div_nonneg by lia. pose proof (Z.div_mod (SAMPLE_MAX * FIXED_ONE) gain).
      pose proof (Z.mod_pos_bound (SAMPLE_MAX * FIXED_ONE) gain). lia. }
    assert (Hlo : (lo - 1) * gain < SAMPLE_MIN * FIXED_ONE <= lo * gain).
    { unfold lo. replace (SAMPLE_MIN * FIXED_ONE) with (- (2 ^ 31 * FIXED_ONE)) by lia. rewrite Z.quot_opp_l, Z.quot_div_nonneg by lia.
      pose proof (Z.div_mod (2 ^ 31 * FIXED_ONE) gain). pose proof (Z.mod_pos_bound (2 ^ 31 * FIXED_ONE) gain). lia. }
    clearbody hi lo. destruct (hi <? s) eqn:E1; [|destruct (s <? lo) eqn:E2]; bool_prop.
    + assert (SAMPLE_MAX * 2 ^ 16 <= gain * s) by nia. pose proof (Z.div_le_lower_bound (gain * s) (2 ^ 16) SAMPLE_MAX). lia.
    + assert (gain * s < SAMPLE_MIN * 2 ^ 16) by nia. pose proof (Z.div_lt_upper_bound (gain * s) (2 ^ 16) SAMPLE_MIN). lia.
    + assert (H : SAMPLE_MIN * 2 ^ 16 <= gain * s < (SAMPLE_MAX + 1) * 2 ^ 16) by nia.
      rewrite fixed_mul_exact by done. pose proof (div_range _ _ _ H). lia.
  - destruct (_ <? s) eqn:E1; [|destruct (s <? _) eqn:E2]; bool_prop; [lia..|].
    assert (H : SAMPLE_MIN * 2 ^ 16 <= gain * s < (SAMPLE_MAX + 1) * 2 ^ 16) by nia.
    rewrite fixed_mul_exact by done. pose proof (div_range _ _ _ H). lia.
Qed.

Lemma saturated_one s : is_s32 s → saturated FIXED_ONE s = s.
Proof. unfold is_s32, saturated. intros H. rewrite Z.mul_comm. change FIXED_ONE with (2 ^ 16). rewrite Z.div_mul by lia. lia. Qed.

Lemma alternate_id f g l : (∀ x, x ∈ l → f x = x ∧ g x = x) → alternate f g l = l.
Proof.
  revert f g. induction l as [|x l IH]; intros f g H; cbn; [done|]. f_equal; [apply H; left|].
  apply IH. intros y Hy. destruct (H y); [by right|done].
Qed.

Lemma apply_gain_alternate v buffer : (length buffer mod 2 = 0)%nat →
  apply_gain v buffer = alternate (λ s, s32 ((track_inversion v).1 * volume_mul s (track_gain v) (track_clip_range v)))
    (λ s, s32 ((track_inversion v).2 * volume_mul s (track_gain v) (track_clip_range v))) buffer.
Proof.
  induction buffer as [[|x [|y buffer]] IH] using (well_founded_induction (well_founded_ltof _ length)); [done..|].
  intros H. cbn. rewrite IH; [done|unfold ltof; cbn; lia|].
  change (length (x :: y :: buffer)) with (2 + length buffer)%nat in H. 
  replace (2 + length buffer)%nat with (length buffer + 1 * 2)%nat in H by lia. by rewrite Nat.Div0.mod_add in H.
Qed.

Lemma alternate_ext f f' g g' l : (∀ x, x ∈ l → f x = f' x ∧ g x = g' x) → alternate f g l = alternate f' g' l.
Proof.
  revert f f' g g'. induction l as [|x l IH]; intros f f' g g' H; cbn; [done|]. f_equal; [apply H; left|].
  apply IH. intros y Hy. destruct (H y); [by right|done].
Qed.

(** Track gain on a whole buffer: for every gain that is not negative and
    the clip range computed from it, each sample becomes the exact product
    rounded down and clipped to 32 bits, times the polarity of its channel;
    the early return for a gain of one without inversion agrees with it. *)
Theorem track_gain_exact v buffer : 0 <= track_gain v < 2 ^ 31 → track_clip_range v = volume_get_clip_range (track_gain v) →
  Forall is_s32 buffer → (length buffer mod 2 = 0)%nat →
  decode_apply_track_gain v buffer
  = alternate (λ s, s32 ((track_inversion v).1 * saturated (track_gain v) s))
      (λ s, s32 ((track_inversion v).2 * saturated (track_gain v) s)) buffer.
Proof.
  intros Hg Hclip Hs Hlen. rewrite Forall_forall in Hs. unfold decode_apply_track_gain. destruct (_ && _) eqn:E.
  - apply andb_true_iff in E as [E E2]. apply andb_true_iff in E as [E0 E1]. bool_prop. rewrite E0, E1, E2. symmetry. apply alternate_id. intros x Hx.
    rewrite saturated_one, Z.mul_1_l by auto. specialize (Hs x Hx). unfold is_s32 in Hs. by rewrite s32_small by lia.
  - rewrite apply_gain_alternate, Hclip by done. apply alternate_ext. intros x Hx.
    by rewrite volume_mul_saturated by auto.
Qed.

Lemma track_gain_exact_witness :
  decode_apply_track_gain (mk_volume 0x18000 (volume_get_clip_range 0x18000) (1, -1) 0) [1000; 1000; 0x7fffffff; -0x7fffffff]
  = [1500; -1500; 0x7fffffff; -0x80000000].
Proof.
  rewrite track_gain_exact; [reflexivity|cbn; lia|reflexivity| |reflexivity].
  repeat constructor; done.
Defined.

(** The lowest sample has no inverse. *)
Example inversion_overflows :
  decode_apply_track_gain (mk_volume FIXED_ONE (SAMPLE_MAX, SAMPLE_MIN) (-1, 1) 0) [SAMPLE_MIN; 0] = [SAMPLE_MIN; 0].
Proof. reflexivity. Qed.
