(* ===== verification/Playback.v ===== *)
(** The playback side of the decoder output: decode_check_start_point of
    lib/audio/decode/audio_helper.c and playback_callback of
    decode_i2s_backend.c, which runs with the fifo locked, takes decoded
    samples out of the buffer and gives the sound device one period of 16-bit
    frames.  The warnings that only log ([crazy]) are left out; the time is an
    argument. *)

From S2P Require Import Prelude AudioFifo DecodeOutput.

Abbreviation DECODE_STATE_UNDERRUN := 0x2.
Abbreviation DECODE_STATE_AUTOSTART := 0x40.
Abbreviation DECODE_FIFO_SIZE := (10 * 2 * 44100 * 4).

(** The rest of struct decode_audio: playback, synchronisation and fade out. *)
Record player := mk_player {
  lgain : Z;
  rgain : Z;
  set_sample_rate : Z;
  output_threshold : Z;
  num_tracks_started : Z;
  skip_ahead_bytes : Z;
  add_silence_ms : Z;
  start_at_jiffies : Z;
  start_at_elapsed_samples : Z;
  out_gain : Z;
  out_gain_step : Z;
  out_sample_step : Z;
  out_samples_in_step : Z
}.

Record decode_audio := mk_decode_audio { a_out : output; a_play : player }.

(** The fields of struct decode_i2s that playback reads. *)
Record i2s := mk_i2s { period_count : Z; pcm_sample_rate : Z }.

Definition on_out (f : output → output) (a : decode_audio) : decode_audio := mk_decode_audio (f (a_out a)) (a_play a).
Definition on_play (f : player → player) (a : decode_audio) : decode_audio := mk_decode_audio (a_out a) (f (a_play a)).

Definition set_skip v p := mk_player (lgain p) (rgain p) (set_sample_rate p) (output_threshold p) (num_tracks_started p)
  v (add_silence_ms p) (start_at_jiffies p) (start_at_elapsed_samples p) (out_gain p) (out_gain_step p) (out_sample_step p) (out_samples_in_step p).
Definition set_silence v p := mk_player (lgain p) (rgain p) (set_sample_rate p) (output_threshold p) (num_tracks_started p)
  (skip_ahead_bytes p) v (start_at_jiffies p) (start_at_elapsed_samples p) (out_gain p) (out_gain_step p) (out_sample_step p) (out_samples_in_step p).
Definition set_fade_out g gs st n p := mk_player (lgain p) (rgain p) (set_sample_rate p) (output_threshold p) (num_tracks_started p)
  (skip_ahead_bytes p) (add_silence_ms p) (start_at_jiffies p) (start_at_elapsed_samples p) g gs st n.
Definition set_rate v p := mk_player (lgain p) (rgain p) v (output_threshold p) (num_tracks_started p)
  (skip_ahead_bytes p) (add_silence_ms p) (start_at_jiffies p) (start_at_elapsed_samples p) (out_gain p) (out_gain_step p) (out_sample_step p) (out_samples_in_step p).
Definition track_started p := mk_player (lgain p) (rgain p) (set_sample_rate p) (output_threshold p) (u32 (num_tracks_started p + 1))
  (skip_ahead_bytes p) (add_silence_ms p) (start_at_jiffies p) 0 (out_gain p) (out_gain_step p) (out_sample_step p) (out_samples_in_step p).

Definition set_state v o := mk_output (o_fifo o) (o_buf o) (o_track o) (o_fade o) (o_volume o) (decode_transition_type o)
  (decode_transition_period o) (decode_first_buffer o) v (o_max_rate o) (o_calls o).
Definition set_written v o := let t := o_track o in
  set_track (mk_track (check_start_point t) (track_start_point t) (track_copyright t) (track_sample_rate t) v
    (sync_timestamp t) (samples_until_fade t) (samples_to_fade t) (transition_sample_rate t)) o.
Definition set_until_fade v w o := let t := o_track o in
  set_track (mk_track (check_start_point t) (track_start_point t) (track_copyright t) (track_sample_rate t) (written_track_samples t)
    (sync_timestamp t) v w (transition_sample_rate t)) o.

(** ** The start of a track *)

Definition reached_start (wptr rptr start : Z) : bool :=
  if start <? wptr then (start <? rptr) && (rptr <=? wptr) else (start <? rptr) || (rptr <=? wptr).

Definition decode_check_start_point (a : decode_audio) : option (bool * decode_audio) :=
  let o := a_out a in
  f_locked (o_fifo o) (
    let t := o_track o in
    if negb (check_start_point t) then Some (false, a) else
    let f := o_fifo o in
    if negb (reached_start (f_wptr f) (f_rptr f) (track_start_point t)) then Some (false, a) else
    let offset := s32 (f_rptr f - track_start_point t) in
    let offset := if offset <? 0 then s32 (offset + DECODE_FIFO_SIZE) else offset in
    let t := mk_track false (track_start_point t) (track_copyright t) (track_sample_rate t)
               (u32 (bytes_to_samples (u32 offset) + start_at_elapsed_samples (a_play a))) 0
               (samples_until_fade t) (samples_to_fade t) (transition_sample_rate t) in
    Some (true, mk_decode_audio (set_track t o) (track_started (a_play a)))).

(** ** Mixing *)

(** decode_priv.h: the sum is formed in 32 bits before it is widened. *)
Definition sample_clip (a b : Z) : Z :=
  let s := s32 (a + b) in
  if s <? SAMPLE_MIN then SAMPLE_MIN else if SAMPLE_MAX <? s then SAMPLE_MAX else s.

Definition s16_clip (a b : Z) : Z :=
  let s := a + b in
  if s <? -0x8000 then -0x8000 else if 0x7fff <? s then 0x7fff else s.

(** ** Playback *)

(** The audio starts once enough is decoded; late, it is to skip ahead, early,
    to play silence first. *)
Definition autostart (now : Z) (st : i2s) (decode_frames output_frames : Z) (a : decode_audio) : decode_audio :=
  let p := a_play a in
  let state := o_state (a_out a) in
  if c_true (Z.land state DECODE_STATE_AUTOSTART)
     && (u32 (output_frames * u32 (3 + period_count st)) <? decode_frames)
     && (u32 (output_threshold p * pcm_sample_rate st) / 10 <? decode_frames)
  then
    let a := if start_at_jiffies p <? now then
               let delta_ms := u32 (now - start_at_jiffies p) in
               on_play (set_skip (u32 (u32 (delta_ms * pcm_sample_rate st) / 1000 * 4))) a
             else if (now <? start_at_jiffies p) && (u64 (start_at_jiffies p - 5000) <? now) then
               on_play (set_silence (s32 (start_at_jiffies p - now))) a
             else a in
    on_out (set_state (Z.lor (Z.ldiff state DECODE_STATE_AUTOSTART) DECODE_STATE_RUNNING)) a
  else a.

(** The frames of silence that go first. *)
Definition add_silence (st : i2s) (output_frames : Z) (a : decode_audio) : option (Z * decode_audio) :=
  let ms := add_silence_ms (a_play a) in
  if c_true ms then
    let add_frames := u32 (ms * pcm_sample_rate st) / 1000 in
    let add_frames := if output_frames <? add_frames then output_frames else add_frames in
    if pcm_sample_rate st =? 0 then None else
    let ms := s32 (ms - u32 (add_frames * 1000) / pcm_sample_rate st) in
    Some (add_frames, on_play (set_silence (if ms <? 2 then 0 else ms)) a)
  else Some (0, a).

Definition skip_one (frames : Z) (a : decode_audio) : option decode_audio :=
  f ← fifo_rptr_incby (o_fifo (a_out a)) (samples_to_bytes frames);
  let a := on_play (set_skip (u32 (skip_ahead_bytes (a_play a) - samples_to_bytes frames))) a in
  Some (on_out (λ o, set_written (u32 (written_track_samples (o_track o) + frames)) (set_fifo f o)) a).

Definition skip_ahead (skip_frames : Z) (a : decode_audio) : option decode_audio :=
  if skip_frames =? 0 then Some a else
  wrap ← fifo_bytes_until_rptr_wrap (o_fifo (a_out a));
  let wrap_frames := bytes_to_samples wrap in
  if wrap_frames <? skip_frames then
    a ← skip_one wrap_frames a;
    skip_one (u32 (skip_frames - wrap_frames)) a
  else skip_one skip_frames a.

(** [while (transition_gain && transition_samples_in_step >= transition_sample_step)]. *)
Fixpoint reduce_gain (fuel : nat) (p : player) : option player :=
  if c_true (out_gain p) && (out_sample_step p <=? out_samples_in_step p) then
    match fuel with
    | O => None
    | S fuel => reduce_gain fuel (set_fade_out (s32 (out_gain p - out_gain_step p)) (out_gain_step p) (out_sample_step p)
                                    (u32 (out_samples_in_step p - out_sample_step p)) p)
    end
  else Some p.

(** The gains of a run of frames, with the fade out that may be on. *)
Definition fade_out (fuel : nat) (frames_write : Z) (a : decode_audio) : option (Z * Z * decode_audio) :=
  let o := a_out a in
  let t := o_track o in
  let p := a_play a in
  if samples_to_fade t =? 0 then Some (lgain p, rgain p, a) else
  if frames_write <? samples_until_fade t
  then Some (lgain p, rgain p, on_out (set_until_fade (samples_until_fade t - frames_write) (samples_to_fade t)) a)
  else
    let o := set_until_fade 0 (samples_to_fade t) o in
    p ← (if out_gain_step p =? 0 then
           if transition_sample_rate t =? 0 then None else
           '(interval, _) ← determine_transition_interval fuel o (transition_sample_rate t) (samples_to_fade t / transition_sample_rate t);
           let interval := if interval =? 0 then 1 else interval in
           gain_step ← fixed_div FIXED_ONE (fixed_mul interval (int32_to_fixed TRANSITION_STEPS_PER_SECOND));
           Some (set_fade_out FIXED_ONE gain_step (transition_sample_rate t / TRANSITION_STEPS_PER_SECOND) 0 p)
         else Some p);
    let l := fixed_mul (lgain p) (out_gain p) in
    let r := fixed_mul (rgain p) (out_gain p) in
    let n := u32 (out_samples_in_step p + frames_write) in
    p ← reduce_gain (S (Z.to_nat n)) (set_fade_out (out_gain p) (out_gain_step p) (out_sample_step p) n p);
    Some (l, r, mk_decode_audio o p).

(** A 16-bit sample for the device, bytes swapped. *)
Definition flip_sample (out_sample : Z) : Z :=
  Z.lor (Z.shiftl (Z.land out_sample 0xff) 8) (Z.shiftr (Z.land out_sample 0xff00) 8).
Definition play_sample (gain sample : Z) : Z := flip_sample (u16 (Z.shiftr (fixed_mul gain sample) 16)).

Fixpoint play_samples (l r : Z) (samples : list Z) : list Z :=
  match samples with
  | x :: y :: samples' => play_sample l x :: play_sample r y :: play_samples l r samples'
  | _ => []
  end.

(** Loading samples; past the end of the buffer is not ours. *)
Definition load_samples (buf : list Z) (i n : nat) : option (list Z) :=
  if (i + n <=? length buf)%nat then Some (take n (drop i buf)) else None.

(** The loop over the decoded frames; [fuel] bounds its passes. *)
Fixpoint play_loop (fuel : nat) (decode_frames : Z) (a : decode_audio) : option (list Z * decode_audio) :=
  if decode_frames =? 0 then Some ([], a) else
  match fuel with
  | O => None
  | S fuel' =>
      wrap ← fifo_bytes_until_rptr_wrap (o_fifo (a_out a));
      let wrap_frames := bytes_to_samples wrap in
      let frames_write := if wrap_frames <? decode_frames then wrap_frames else decode_frames in
      '(l, r, a) ← fade_out fuel frames_write a;
      let o := a_out a in
      i ← sample_index (f_rptr (o_fifo o));
      samples ← load_samples (o_buf o) i (Z.to_nat (frames_write * 2));
      f ← fifo_rptr_incby (o_fifo o) (samples_to_bytes frames_write);
      let o := set_written (u32 (written_track_samples (o_track o) + frames_write)) (set_fifo f o) in
      '(out, a) ← play_loop fuel' (u32 (decode_frames - frames_write)) (mk_decode_audio o (a_play a));
      Some (play_samples l r samples ++ out, a)
  end.

Definition silence (frames : Z) : list Z := replicate (Z.to_nat (2 * frames)) 0.

(** The track's start may have been reached. *)
Definition after_playback (st : i2s) (a : decode_audio) : option decode_audio :=
  '(reached, a) ← decode_check_start_point a;
  if reached : bool then
    let a := on_out (λ o, set_until_fade (samples_until_fade (o_track o)) 0 o) a in
    let p := a_play a in
    let p := set_fade_out (out_gain p) 0 (out_sample_step p) (out_samples_in_step p) p in
    let rate := track_sample_rate (o_track (a_out a)) in
    Some (mk_decode_audio (a_out a) (if rate =? pcm_sample_rate st then p else set_rate rate p))
  else Some a.

(** [output_frames] frames for the device, and the state after. *)
Definition playback_callback (fuel : nat) (now : Z) (st : i2s) (output_frames : Z) (a : decode_audio) : option (list Z * decode_audio) :=
  f_locked (o_fifo (a_out a)) (
    used ← fifo_bytes_used (o_fifo (a_out a));
    let decode_frames := bytes_to_samples used in
    let a := autostart now st decode_frames output_frames a in
    '(add_frames, a) ← add_silence st output_frames a;
    let output_frames := output_frames - add_frames in
    if output_frames =? 0 then Some (silence add_frames, a) else
    let skip := skip_ahead_bytes (a_play a) in
    let skip_frames := if (output_frames <=? decode_frames) && (0 <? skip)
                       then Z.min (decode_frames - output_frames) (bytes_to_samples skip) else 0 in
    let decode_frames := if output_frames <? decode_frames then output_frames else decode_frames in
    let state := o_state (a_out a) in
    let running := c_true (Z.land state DECODE_STATE_RUNNING) in
    let underrun := running && (decode_frames <? output_frames) in
    let a := on_out (set_state (if underrun then Z.lor state DECODE_STATE_UNDERRUN else Z.ldiff state DECODE_STATE_UNDERRUN)) a in
    a ← skip_ahead skip_frames a;
    if negb running then Some (silence (add_frames + output_frames), a) else
    '(out, a) ← play_loop fuel decode_frames a;
    a ← after_playback st a;
    Some (silence add_frames ++ out ++ silence (output_frames - decode_frames), a)).
