(* ===== verification/PlaybackProps.v ===== *)
(** What playback takes out of the buffer and gives the device: the oldest
    frames in order, wherever they lie in the ring; and when a track's start
    counts as reached. *)

From S2P Require Import Prelude Ring AudioFifo DecodeOutput DecodeOutputFade DecodeOutputProps DecodeOutputStart Playback.

(** [n] frames taken from the buffer. *)
Definition advanced (n : Z) (o : output) : output :=
  set_written (u32 (written_track_samples (o_track o) + n))
    (set_fifo (f_set_rptr ((f_rptr (o_fifo o) + 8 * n) mod f_size (o_fifo o)) (o_fifo o)) o).

Lemma advanced_ok n o : buf_ok o → buf_ok (advanced n o).
Proof.
  intros [Hl [Hs Hm] Hw [Hr Hrm] Hst]. split; cbn; try done. apply mod_pos; [lia|done|dlia].
Qed.

Lemma advanced_add n m o : advanced m (advanced n o) = advanced (n + m) o.
Proof.
  unfold advanced, set_written, set_fifo, set_track, f_set_rptr. cbn. f_equal.
  - f_equal. rewrite Zplus_mod_idemp_l. f_equal. lia.
  - f_equal. rewrite u32_add_l. f_equal. lia.
Qed.

Lemma advanced_0 o : buf_ok o → is_u32 (written_track_samples (o_track o)) → advanced 0 o = o.
Proof.
  intros [_ _ _ [Hr _] _] Hw. unfold advanced. rewrite !Z.add_0_r, Z.mod_small, u32_small by done.
  by destruct o as [[] ? [] ?].
Qed.

Lemma rptr_incby o n : f_lock (o_fifo o) = true → buf_ok o → 0 <= n → 8 * n <= f_size (o_fifo o) - f_rptr (o_fifo o) →
  fifo_rptr_incby (o_fifo o) (samples_to_bytes n) = Some (f_set_rptr ((f_rptr (o_fifo o) + 8 * n) mod f_size (o_fifo o)) (o_fifo o)).
Proof.
  intros Hl [_ [Hs _] _ [Hr _] _] H0 Hn. unfold fifo_rptr_incby, f_locked, samples_to_bytes. rewrite Hl.
  replace (2 * n * 4) with (8 * n) by lia. rewrite (u32_small (8 * n)), u32_small by (unfold is_u32; lia).
  destruct (_ =? _) eqn:E; bool_prop; [|by rewrite Z.mod_small by lia]. by rewrite E, Z.mod_same by lia.
Qed.

Lemma rptr_wrap o : f_lock (o_fifo o) = true → buf_ok o →
  ∃ k, fifo_bytes_until_rptr_wrap (o_fifo o) = Some (8 * k) ∧ 0 < k ∧ 8 * k = f_size (o_fifo o) - f_rptr (o_fifo o).
Proof.
  intros Hl [_ [Hs Hm] _ [Hr Hrm] _]. exists ((f_size (o_fifo o) - f_rptr (o_fifo o)) / 8).
  unfold fifo_bytes_until_rptr_wrap, f_locked. rewrite Hl, u32_small by (unfold is_u32; lia).
  split_and!; [f_equal; dlia|dlia|dlia].
Qed.

(** ** Skipping *)

Lemma skip_one_spec n a : f_lock (o_fifo (a_out a)) = true → buf_ok (a_out a) → 0 <= n →
  8 * n <= f_size (o_fifo (a_out a)) - f_rptr (o_fifo (a_out a)) →
  skip_one n a = Some (mk_decode_audio (advanced n (a_out a)) (set_skip (u32 (skip_ahead_bytes (a_play a) - 8 * n)) (a_play a))).
Proof.
  intros Hl Hok H0 Hn. unfold skip_one. rewrite rptr_incby by done. cbn [mbind option_bind].
  destruct (ok_size _ Hok) as [Hs _], (ok_rptr _ Hok) as [Hr _]. unfold samples_to_bytes.
  rewrite (u32_small (2 * n * 4)) by (unfold is_u32; lia). replace (2 * n * 4) with (8 * n) by lia. done.
Qed.

Lemma skip_ahead_spec n a : f_lock (o_fifo (a_out a)) = true → buf_ok (a_out a) → 0 < n →
  8 * n <= f_size (o_fifo (a_out a)) →
  skip_ahead n a = Some (mk_decode_audio (advanced n (a_out a)) (set_skip (u32 (skip_ahead_bytes (a_play a) - 8 * n)) (a_play a))).
Proof.
  intros Hl Hok H0 Hn. unfold skip_ahead. destruct (n =? 0) eqn:E0; bool_prop; [lia|].
  destruct (rptr_wrap _ Hl Hok) as (k & -> & Hk0 & Hk). cbn [mbind option_bind]. unfold bytes_to_samples.
  destruct (ok_size _ Hok) as [Hs Hm], (ok_rptr _ Hok) as [Hr _].
  rewrite (Z.mul_comm 8 k), Z.div_mul by lia. destruct (k <? n) eqn:E; bool_prop.
  - rewrite skip_one_spec by (done || lia). cbn [mbind option_bind]. rewrite u32_small by (unfold is_u32; lia).
    rewrite skip_one_spec; [|done|by apply advanced_ok|lia|].
    + cbn [a_out a_play]. rewrite advanced_add. replace (k + (n - k)) with n by lia. do 2 f_equal.
      unfold set_skip. cbn. f_equal. unfold u32. rewrite Zminus_mod_idemp_l. f_equal. lia.
    + cbn [a_out]. change (f_size (o_fifo (advanced k (a_out a)))) with (f_size (o_fifo (a_out a))).
      change (f_rptr (o_fifo (advanced k (a_out a)))) with ((f_rptr (o_fifo (a_out a)) + 8 * k) mod f_size (o_fifo (a_out a))).
      replace (f_rptr (o_fifo (a_out a)) + 8 * k) with (f_size (o_fifo (a_out a))) by lia. rewrite Z.mod_same by lia. lia.
  - by rewrite skip_one_spec by (done || lia).
Qed.

(** ** Playing *)

(** The next [n] frames of the buffer. *)
Definition fresh (o : output) (n : nat) : list Z := slice (f_size (o_fifo o) / 4) (o_buf o) (f_rptr (o_fifo o) / 4) (2 * n).

Lemma play_samples_app l r k s1 s2 : length s1 = (2 * k)%nat →
  play_samples l r (s1 ++ s2) = play_samples l r s1 ++ play_samples l r s2.
Proof.
  revert s1. induction k as [|k IH]; intros s1 H; [by destruct s1|].
  destruct s1 as [|x [|y s1]]; cbn in H; try lia. cbn. by rewrite IH by lia.
Qed.

Lemma fresh_add o k n : buf_ok o → fresh o (k + n) = fresh o k ++ fresh (advanced (Z.of_nat k) o) n.
Proof.
  intros [_ [Hs Hm] _ [Hr Hrm] _]. unfold fresh. rewrite Nat.mul_add_distr_l, slice_app. f_equal. cbn -[Z.mul Nat.mul].
  set (sz := f_size (o_fifo o)) in *. set (r := f_rptr (o_fifo o)) in *.
  assert (Hq : (r + 8 * Z.of_nat k) mod sz / 4 = (r / 4 + Z.of_nat (2 * k)) mod (sz / 4)).
  { assert (Hz : sz = 4 * (sz / 4)) by dlia. rewrite Hz at 1. rewrite Z.rem_mul_r by dlia.
    replace (r + 8 * Z.of_nat k) with (4 * (r / 4 + Z.of_nat (2 * k))) by dlia. rewrite Z.mul_comm, Z.mod_mul, Z.div_mul by lia.
    rewrite Z.add_0_l, Z.mul_comm, Z.div_mul by lia. done. }
  rewrite Hq. symmetry. apply slice_mod. dlia.
Qed.

Lemma load_fresh o n : buf_ok o → 8 * Z.of_nat n <= f_size (o_fifo o) - f_rptr (o_fifo o) →
  sample_index (f_rptr (o_fifo o)) = Some (Z.to_nat (f_rptr (o_fifo o) / 4)) ∧
  load_samples (o_buf o) (Z.to_nat (f_rptr (o_fifo o) / 4)) (2 * n) = Some (fresh o n).
Proof.
  intros [Hl [Hs Hm] _ [Hr Hrm] _] Hn. unfold sample_index, load_samples, fresh. split.
  - destruct (_ =? _) eqn:E; bool_prop; [done|dlia].
  - destruct (Nat.leb_spec (Z.to_nat (f_rptr (o_fifo o) / 4) + 2 * n) (length (o_buf o))); [|dlia].
    f_equal. symmetry. apply slice_contig; dlia.
Qed.

(** No fade out is pending, and the count of frames is a 32-bit number. *)
Definition plain_track (o : output) : Prop :=
  samples_to_fade (o_track o) = 0 ∧ is_u32 (written_track_samples (o_track o)).

Lemma advanced_plain n o : plain_track o → plain_track (advanced n o).
Proof. intros [H _]. split; [done|]. apply u32_range. Qed.

Lemma play_loop_spec fuel n a : f_lock (o_fifo (a_out a)) = true → buf_ok (a_out a) → plain_track (a_out a) →
  Z.of_nat n < 2 ^ 29 → (n <= fuel)%nat →
  play_loop fuel (Z.of_nat n) a
  = Some (play_samples (lgain (a_play a)) (rgain (a_play a)) (fresh (a_out a) n), mk_decode_audio (advanced (Z.of_nat n) (a_out a)) (a_play a)).
Proof.
  revert n a. induction fuel as [|fuel IH]; intros n [o p] Hl Hok Hp Hsm Hf; cbn [a_out a_play] in *.
  - replace n with 0%nat by lia. cbn. by rewrite advanced_0 by (done || apply Hp).
  - destruct n as [|n']; [cbn; by rewrite advanced_0 by (done || apply Hp)|]. set (n := S n') in *.
    cbn [play_loop]. destruct (Z.of_nat n =? 0) eqn:E; bool_prop; [lia|]. cbn [a_out a_play].
    destruct (rptr_wrap _ Hl Hok) as (w & -> & Hw0 & Hw). cbn [mbind option_bind]. unfold bytes_to_samples.
    rewrite (Z.mul_comm 8 w), Z.div_mul by lia.
    set (k := Nat.min n (Z.to_nat w)).
    assert (Hk : (if w <? Z.of_nat n then w else Z.of_nat n) = Z.of_nat k) by (unfold k; destruct (_ <? _) eqn:E2; bool_prop; lia).
    assert (Hk' : (0 < k <= n)%nat ∧ 8 * Z.of_nat k <= f_size (o_fifo o) - f_rptr (o_fifo o)) by (unfold k; lia).
    rewrite Hk. clearbody k. clear Hk. unfold fade_out. cbn [a_out a_play]. destruct Hp as [Hp Hu]. rewrite Hp. cbn [Z.eqb mbind option_bind a_out a_play].
    destruct (load_fresh o k Hok) as [-> Hload]; [lia|]. cbn [mbind option_bind].
    replace (Z.to_nat (Z.of_nat k * 2)) with (2 * k)%nat by lia. rewrite Hload. cbn [mbind option_bind].
    rewrite rptr_incby by (done || lia). cbn [mbind option_bind].
    match goal with |- context [set_written ?x ?y] => change (set_written x y) with (advanced (Z.of_nat k) o) end.
    rewrite u32_small by (unfold is_u32; lia). replace (Z.of_nat n - Z.of_nat k) with (Z.of_nat (n - k)) by lia.
    rewrite IH; [|done|by apply advanced_ok|by apply advanced_plain|cbn; lia|lia].
    cbn [mbind option_bind a_out a_play]. rewrite advanced_add. replace (Z.of_nat k + Z.of_nat (n - k)) with (Z.of_nat n) by lia.
    replace (fresh o n) with (fresh o (k + (n - k))) by (f_equal; lia).
    rewrite fresh_add, (play_samples_app _ _ k) by (done || apply length_slice). done.
Qed.

(** ** The whole callback *)

Lemma check_start_fifo a : f_lock (o_fifo (a_out a)) = true →
  ∃ b a', decode_check_start_point a = Some (b, a') ∧ o_fifo (a_out a') = o_fifo (a_out a) ∧ o_buf (a_out a') = o_buf (a_out a).
Proof.
  intros Hl. unfold decode_check_start_point, f_locked. rewrite Hl.
  destruct (negb _); [by eexists _, _|]. destruct (negb _); by eexists _, _.
Qed.

Lemma after_playback_fifo st a : f_lock (o_fifo (a_out a)) = true →
  ∃ a', after_playback st a = Some a' ∧ o_fifo (a_out a') = o_fifo (a_out a) ∧ o_buf (a_out a') = o_buf (a_out a).
Proof.
  intros Hl. unfold after_playback. destruct (check_start_fifo a Hl) as (b & a' & -> & H1 & H2). cbn [mbind option_bind].
  destruct b; eexists; (split; [done|]); done.
Qed.

(** The frames in the buffer, and how many of them are dropped to catch up. *)
Definition frames_used (o : output) : Z := ((f_wptr (o_fifo o) - f_rptr (o_fifo o)) mod f_size (o_fifo o)) / 8.
Definition frames_skipped (a : decode_audio) (output_frames : Z) : Z :=
  let u := frames_used (a_out a) in
  if output_frames <=? u then Z.min (u - output_frames) (skip_ahead_bytes (a_play a) / 8) else 0.

Lemma bytes_used_mod o : f_lock (o_fifo o) = true → buf_ok o →
  fifo_bytes_used (o_fifo o) = Some ((f_wptr (o_fifo o) - f_rptr (o_fifo o)) mod f_size (o_fifo o)).
Proof.
  intros Hl [_ [Hs _] [Hw _] [Hr _] _]. unfold fifo_bytes_used, f_locked. rewrite Hl. destruct (_ <=? _) eqn:E; bool_prop.
  - by rewrite u32_small, Z.mod_small by (unfold is_u32; lia).
  - rewrite u32_add_l, u32_small by (unfold is_u32; lia). f_equal. rewrite <- (Z.mod_add _ 1) by lia. rewrite Z.mod_small by lia. lia.
Qed.

Lemma frames_used_range o : buf_ok o → 0 <= frames_used o ∧ 8 * frames_used o < f_size (o_fifo o).
Proof.
  intros [_ [Hs Hm] _ _ _]. unfold frames_used. pose proof (Z.mod_pos_bound (f_wptr (o_fifo o) - f_rptr (o_fifo o)) (f_size (o_fifo o))).
  split; [apply Z.div_pos; lia|]. pose proof (Z.mul_div_le ((f_wptr (o_fifo o) - f_rptr (o_fifo o)) mod f_size (o_fifo o)) 8). lia.
Qed.

Lemma autostart_off now st n m a : Z.land (o_state (a_out a)) DECODE_STATE_AUTOSTART = 0 → autostart now st n m a = a.
Proof. intros H. unfold autostart. by rewrite H. Qed.

Lemma add_silence_off st n a : add_silence_ms (a_play a) = 0 → add_silence st n a = Some (0, a).
Proof. intros H. unfold add_silence. by rewrite H. Qed.

Lemma skipped_code p o m : is_u32 (skip_ahead_bytes p) → 0 <= m →
  (if (m <=? frames_used o) && (0 <? skip_ahead_bytes p)
   then Z.min (frames_used o - m) (bytes_to_samples (skip_ahead_bytes p)) else 0) = frames_skipped (mk_decode_audio o p) m.
Proof.
  unfold is_u32, bytes_to_samples, frames_skipped. cbn [a_out a_play]. intros H Hm.
  destruct (m <=? _) eqn:E1; [|done]. destruct (0 <? _) eqn:E2; bool_prop; [done|].
  replace (skip_ahead_bytes p) with 0 by lia. cbn [andb]. change (0 / 8) with 0. lia.
Qed.

Lemma skip_ahead_total n a : f_lock (o_fifo (a_out a)) = true → buf_ok (a_out a) → plain_track (a_out a) → 0 <= n →
  8 * n <= f_size (o_fifo (a_out a)) → ∃ v, skip_ahead n a = Some (mk_decode_audio (advanced n (a_out a)) (set_skip v (a_play a))).
Proof.
  intros Hl Hok Hp H0 Hn. destruct (decide (n = 0)) as [->|Hne]; [|eexists; by apply skip_ahead_spec; try lia].
  exists (skip_ahead_bytes (a_play a)). cbn. rewrite advanced_0 by (done || apply Hp). by destruct a as [? []].
Qed.

Lemma playback_spec fuel now st output_frames a : f_lock (o_fifo (a_out a)) = true → buf_ok (a_out a) → plain_track (a_out a) →
  Z.land (o_state (a_out a)) DECODE_STATE_AUTOSTART = 0 → Z.land (o_state (a_out a)) DECODE_STATE_RUNNING ≠ 0 →
  add_silence_ms (a_play a) = 0 → is_u32 (skip_ahead_bytes (a_play a)) → 0 < output_frames < 2 ^ 28 → output_frames <= Z.of_nat fuel →
  let o := a_out a in
  let n := Z.min (frames_used o) output_frames in
  let s := frames_skipped a output_frames in
  ∃ a', playback_callback fuel now st output_frames a
    = Some (play_samples (lgain (a_play a)) (rgain (a_play a)) (fresh (advanced s o) (Z.to_nat n)) ++ silence (output_frames - n), a') ∧
    o_fifo (a_out a') = f_set_rptr ((f_rptr (o_fifo o) + 8 * (s + n)) mod f_size (o_fifo o)) (o_fifo o) ∧ o_buf (a_out a') = o_buf o.
Proof.
  intros Hl Hok Hp Hauto Hrun Hsil Hskip Hout Hfuel o n s. destruct a as [o' p]. cbn [a_out a_play] in *. subst o.
  destruct (frames_used_range _ Hok) as [Hu0 Hu1]. destruct (ok_size _ Hok) as [Hs _].
  unfold playback_callback, f_locked. cbn [a_out]. rewrite Hl, bytes_used_mod by done. cbn [mbind option_bind].
  change (bytes_to_samples (_ mod _)) with (frames_used o'). rewrite autostart_off, add_silence_off by done. cbn [mbind option_bind a_out a_play].
  rewrite Z.sub_0_r. destruct (output_frames =? 0) eqn:E; bool_prop; [lia|].
  rewrite skipped_code by (done || lia). change (frames_skipped _ _) with s.
  assert (Hn : (if output_frames <? frames_used o' then output_frames else frames_used o') = n)
    by (unfold n; destruct (_ <? _) eqn:E2; bool_prop; lia).
  rewrite Hn. match goal with |- context [on_out (set_state ?v) _] =>
    set (o1 := set_state v o'); change (on_out (set_state v) (mk_decode_audio o' p)) with (mk_decode_audio o1 p) end.
  assert (Hs0 : 0 <= s ∧ s <= frames_used o').
  { unfold s, frames_skipped. cbn [a_out a_play]. unfold is_u32 in Hskip. pose proof (Z.div_pos (skip_ahead_bytes p) 8).
    destruct (_ <=? _) eqn:E2; bool_prop; lia. }
  assert (Hok1 : buf_ok o1) by (by destruct Hok).
  destruct (skip_ahead_total s (mk_decode_audio o1 p)) as [v Hv]; [done|done|done|lia|cbn; lia|]. rewrite Hv. cbn [mbind option_bind a_out a_play].
  unfold c_true. destruct (_ =? 0) eqn:E2; bool_prop; [done|]. cbn [negb].
  pose proof (play_loop_spec fuel (Z.to_nat n) (mk_decode_audio (advanced s o1) (set_skip v p))) as Hloop.
  rewrite Z2Nat.id in Hloop by lia. rewrite Hloop; [|done|by apply advanced_ok|by apply advanced_plain|lia|lia].
  cbn [mbind option_bind a_out a_play]. rewrite advanced_add.
  destruct (after_playback_fifo st (mk_decode_audio (advanced (s + n) o1) (set_skip v p))) as (a' & -> & Ha1 & Ha2); [done|].
  cbn [mbind option_bind]. exists a'. rewrite Ha1, Ha2. by split_and!.
Qed.
