(* ===== verification/PlaybackThrough.v ===== *)
(** Decoder output and playback together: what decode_output_samples puts in
    the buffer is what playback_callback takes out, and when the start of a
    track is reported. *)

From S2P Require Import Prelude Ring AudioFifo DecodeOutput DecodeOutputFade DecodeOutputProps DecodeOutputStart Playback PlaybackProps.

(** ** Through the buffer *)

Lemma wptr_of_used o : buf_ok o → f_wptr (o_fifo o) / 4 = (f_rptr (o_fifo o) / 4 + 2 * frames_used o) mod (f_size (o_fifo o) / 4).
Proof.
  intros [_ [Hs Hm] [Hw Hwm] [Hr Hrm] _]. unfold frames_used.
  set (sz := f_size (o_fifo o)) in *. set (w := f_wptr (o_fifo o)) in *. set (r := f_rptr (o_fifo o)) in *.
  destruct (Z.le_gt_cases r w).
  - rewrite (Z.mod_small (w - r)) by lia. rewrite Z.mod_small; dlia.
  - rewrite <- (Z.mod_add (w - r) 1) by lia. rewrite (Z.mod_small (w - r + 1 * sz)) by lia.
    replace (r / 4 + 2 * ((w - r + 1 * sz) / 8)) with (w / 4 + 1 * (sz / 4)) by dlia. rewrite Z.mod_add, Z.mod_small by dlia. done.
Qed.

Lemma used_aligned o : buf_ok o → 8 * frames_used o = (f_wptr (o_fifo o) - f_rptr (o_fifo o)) mod f_size (o_fifo o).
Proof.
  intros [_ [Hs Hm] [Hw Hwm] [Hr Hrm] _]. unfold frames_used.
  set (sz := f_size (o_fifo o)) in *. set (w := f_wptr (o_fifo o)) in *. set (r := f_rptr (o_fifo o)) in *.
  destruct (Z.le_gt_cases r w); [rewrite (Z.mod_small (w - r)) by lia; dlia|].
  rewrite <- (Z.mod_add (w - r) 1), (Z.mod_small (w - r + 1 * sz)) by lia. dlia.
Qed.

Lemma read_all o : buf_ok o → (f_rptr (o_fifo o) + 8 * frames_used o) mod f_size (o_fifo o) = f_wptr (o_fifo o).
Proof.
  intros Hok. rewrite used_aligned by done. destruct (ok_wptr _ Hok) as [Hw _]. rewrite Zplus_mod_idemp_r.
  rewrite Z.mod_small; lia.
Qed.

(** A frame count as a number of the samples that follow the read position. *)
Lemma used_written o out M : buf_ok o → length out = (2 * M)%nat → 8 * (frames_used o + Z.of_nat M) < f_size (o_fifo o) →
  frames_used (written o out) = frames_used o + Z.of_nat M.
Proof.
  intros Hok Hlen Hroom. destruct (frames_used_range _ Hok) as [Hu _]. pose proof (used_aligned o Hok) as Hd.
  destruct Hok as [_ [Hs Hm] [Hw Hwm] [Hr Hrm] _]. unfold frames_used in *.
  cbn -[Z.mul]. rewrite Hlen. rewrite Zminus_mod_idemp_l.
  set (sz := f_size (o_fifo o)) in *. set (w := f_wptr (o_fifo o)) in *. set (r := f_rptr (o_fifo o)) in *.
  replace (w + 4 * Z.of_nat (2 * M) - r) with (w - r + 8 * Z.of_nat M) by lia. rewrite <- Zplus_mod_idemp_l.
  set (d := (w - r) mod sz) in *. pose proof (Z.mod_pos_bound (w - r) sz). fold d in H. clearbody d.
  rewrite Z.mod_small by dlia. dlia.
Qed.

Lemma fresh_written o out M : buf_ok o → length out = (2 * M)%nat → 8 * (frames_used o + Z.of_nat M) < f_size (o_fifo o) →
  fresh (written o out) (Z.to_nat (frames_used o) + M) = fresh o (Z.to_nat (frames_used o)) ++ out.
Proof.
  intros Hok Hlen Hroom. destruct (frames_used_range _ Hok) as [Hu _]. pose proof (wptr_of_used o Hok) as Hwu.
  destruct (ok_size _ Hok) as [Hs Hm]. unfold fresh. rewrite Nat.mul_add_distr_l, slice_app. cbn -[Z.mul Nat.mul].
  set (sz := f_size (o_fifo o) / 4) in *. assert (Hz : 0 < sz) by (unfold sz; dlia).
  set (i := f_rptr (o_fifo o) / 4) in *. set (u := frames_used o) in *.
  assert (Hput : put sz (o_buf o) (f_wptr (o_fifo o) / 4) out = put sz (o_buf o) (i + 2 * u) out) by (rewrite Hwu; by apply put_mod).
  rewrite Hput. rewrite slice_put_out by (try done; rewrite ?Hlen; unfold sz; dlia). f_equal.
  replace (i + Z.of_nat (2 * Z.to_nat u)) with (i + 2 * u) by lia. rewrite <- Hlen.
  apply slice_put_same; [done|unfold sz; dlia|]. pose proof (ok_length _ Hok). unfold sz. dlia.
Qed.

Lemma frames_skipped_all o p : is_u32 (skip_ahead_bytes p) → frames_skipped (mk_decode_audio o p) (frames_used o) = 0.
Proof.
  unfold is_u32, frames_skipped. cbn. intros H. rewrite Z.leb_refl, Z.sub_diag.
  pose proof (Z.div_pos (skip_ahead_bytes p) 8). lia.
Qed.

(** Ready to write and play: no transition, no fade out, the audio running. *)
Record steady (o : output) (p : player) : Prop := {
  st_out : out_ok o;
  st_first : decode_first_buffer o = false;
  st_gain : transition_gain_step (o_fade o) = 0;
  st_track : plain_track o;
  st_auto : Z.land (o_state o) DECODE_STATE_AUTOSTART = 0;
  st_run : Z.land (o_state o) DECODE_STATE_RUNNING ≠ 0;
  st_silence : add_silence_ms p = 0;
  st_skip : is_u32 (skip_ahead_bytes p)
}.

(** The same without a word on the first buffer. *)
Record playing (o : output) (p : player) : Prop := {
  pl_out : out_ok o;
  pl_gain : transition_gain_step (o_fade o) = 0;
  pl_track : plain_track o;
  pl_auto : Z.land (o_state o) DECODE_STATE_AUTOSTART = 0;
  pl_run : Z.land (o_state o) DECODE_STATE_RUNNING ≠ 0;
  pl_silence : add_silence_ms p = 0;
  pl_skip : is_u32 (skip_ahead_bytes p)
}.

(** From the state [o1] in which the samples are written. *)
Lemma through_from fuel1 fuel2 now st rate copyright o o1 p buffer M :
  (if decode_first_buffer o then first_buffer fuel1 (locked o) rate copyright else Some (locked o)) = Some o1 →
  playing o1 p → f_lock (o_fifo o1) = true → length buffer = (2 * M)%nat → (0 < M)%nat →
  8 * (frames_used o1 + Z.of_nat M) < f_size (o_fifo o1) → (M <= fuel1)%nat → frames_used o1 + Z.of_nat M <= Z.of_nat fuel2 →
  ∃ o2 a', decode_output_samples fuel1 o buffer rate copyright = Some o2 ∧ f_lock (o_fifo o2) = false ∧
    playback_callback fuel2 now st (frames_used o1 + Z.of_nat M) (mk_decode_audio (locked o2) p)
    = Some (play_samples (lgain p) (rgain p) (fresh o1 (Z.to_nat (frames_used o1)) ++ processed (o_volume o1) buffer), a') ∧
    f_rptr (o_fifo (a_out a')) = f_wptr (o_fifo (a_out a')) ∧ f_lock (o_fifo (a_out a')) = true.
Proof.
  intros Ho1 [Hok Hg Ht Ha Hr Hsil Hskip] Hlock Hlen HM Hroom Hf1 Hf2.
  destruct (frames_used_range o1 (proj1 Hok)) as [Hu _]. destruct (ok_size _ (proj1 Hok)) as [Hs _].
  destruct (samples_spec fuel1 o o1 buffer rate copyright M) as (o2 & -> & out & fd & Hl & Heq & Hok2 & Hplain); [done..|lia|lia|done|done|done|].
  destruct (Hplain Hg) as [Hout ->]. clear Hplain. rewrite take_ge in Hout by (rewrite length_processed; lia).
  exists (unlocked o2). rewrite Hout in *. clear Hout.
  pose proof (used_written o1 (processed (o_volume o1) buffer) M (proj1 Hok) Hl Hroom) as Hused.
  assert (Hb2 : buf_ok (locked (unlocked o2))) by (subst o2; apply locked_ok, unlocked_ok, Hok2).
  assert (Hfu : frames_used (locked (unlocked o2)) = frames_used o1 + Z.of_nat M) by (by rewrite Heq).
  destruct (playback_spec fuel2 now st (frames_used o1 + Z.of_nat M) (mk_decode_audio (locked (unlocked o2)) p)) as (a' & Hp & Hf & _);
    try (done || lia); [by rewrite Heq..|]. cbn [a_out a_play] in Hp, Hf.
  rewrite <- Hfu, frames_skipped_all, Z.min_id in Hp, Hf by done. rewrite Z.sub_diag in Hp. exists a'. split; [done|]. split; [done|].
  rewrite <- Hfu, Hp, Hf. split_and!; [| |done].
  - rewrite advanced_0; [|done|by rewrite Heq; apply Ht]. cbn [silence Z.mul Z.to_nat replicate]. rewrite app_nil_r, Hfu, Z2Nat.inj_add, Nat2Z.id by lia.
    pose proof (fresh_written o1 (processed (o_volume o1) buffer) M (proj1 Hok) Hl Hroom) as Hfr. by rewrite Heq, <- Hfr.
  - cbn [f_rptr f_wptr f_set_rptr]. rewrite Z.add_0_l. by apply read_all.
Qed.

Lemma through_spec fuel now st rate copyright o p buffer M : steady o p →
  length buffer = (2 * M)%nat → (0 < M)%nat → 8 * (frames_used o + Z.of_nat M) < f_size (o_fifo o) → frames_used o + Z.of_nat M <= Z.of_nat fuel →
  ∃ o1 a', decode_output_samples fuel o buffer rate copyright = Some o1 ∧
    playback_callback fuel now st (frames_used o + Z.of_nat M) (mk_decode_audio (locked o1) p)
    = Some (play_samples (lgain p) (rgain p) (fresh o (Z.to_nat (frames_used o)) ++ processed (o_volume o) buffer), a') ∧
    f_rptr (o_fifo (a_out a')) = f_wptr (o_fifo (a_out a')).
Proof.
  intros [Hok Hfirst Hg Ht Ha Hr Hsil Hskip] Hlen HM Hroom Hfuel. destruct (frames_used_range o (proj1 Hok)) as [Hu _].
  destruct (through_from fuel fuel now st rate copyright o (locked o) p buffer M) as (o2 & a' & H1 & _ & H2 & H3 & _);
    [by rewrite Hfirst|split; try done; by apply locked_ok|done|done|done|done|lia|done|]. by exists o2, a'.
Qed.

(** Sound passes through the buffer unchanged and in order: after a steady
    output writes a buffer of frames behind those still unplayed, a period of
    all of them gives the device exactly the unplayed frames followed by the
    new ones, with the channel, track gain and volume applied and nothing
    else, wherever the ring wraps; the buffer is then empty. *)
Theorem sound_through_buffer fuel now st rate copyright o p buffer M : steady o p →
  length buffer = (2 * M)%nat → (0 < M)%nat → 8 * (frames_used o + Z.of_nat M) < f_size (o_fifo o) → frames_used o + Z.of_nat M <= Z.of_nat fuel →
  ∃ o1 a', decode_output_samples fuel o buffer rate copyright = Some o1 ∧
    playback_callback fuel now st (frames_used o + Z.of_nat M) (mk_decode_audio (locked o1) p)
    = Some (play_samples (lgain p) (rgain p) (fresh o (Z.to_nat (frames_used o)) ++ processed (o_volume o) buffer), a') ∧
    f_rptr (o_fifo (a_out a')) = f_wptr (o_fifo (a_out a')).
Proof. apply through_spec. Qed.

(** Eight frames of room, three unplayed across the end of the ring. *)
Definition demo_steady : output :=
  mk_output (mk_fifo false 48 8 64) [65536; 131072; 0; 0; 0; 0; 0; 0; 0; 0; 0; 0; 196608; 262144; 327680; 393216]
    (mk_track false 0 false 44100 7 0 0 0 0) (mk_fade false 0 0 0 0 0)
    (mk_volume FIXED_ONE (SAMPLE_MAX, SAMPLE_MIN) (1, 1) 0) TRANSITION_NONE 0 false DECODE_STATE_RUNNING 48000 [].
Definition demo_player : player := mk_player FIXED_ONE 0x8000 44100 0 1 0 0 0 0 0 0 0 0.

Lemma sound_through_buffer_witness :
  ∃ o1 a', decode_output_samples 9 demo_steady [458752; 524288; 589824; 655360] 44100 false = Some o1 ∧
    playback_callback 9 0 (mk_i2s 10 44100) 5 (mk_decode_audio (locked o1) demo_player)
    = Some ([0x300; 0x200; 0x500; 0x300; 0x100; 0x100; 0x700; 0x400; 0x900; 0x500], a') ∧
    f_rptr (o_fifo (a_out a')) = f_wptr (o_fifo (a_out a')).
Proof.
  destruct (sound_through_buffer 9 0 (mk_i2s 10 44100) 44100 false demo_steady demo_player [458752; 524288; 589824; 655360] 2)
    as (o1 & a' & H1 & H2 & H3); [|reflexivity|lia|reflexivity|by vm_compute|].
  - split; try done; split; split; done.
  - exists o1, a'. split; [exact H1|]. split; [exact H2|exact H3].
Defined.

(** ** The start of a track *)

Lemma reached_spec size S R W : 0 < size → S < W → W - size < S → R <= W → W - size < R →
  reached_start (W mod size) (R mod size) (S mod size) = (S <? R).
Proof.
  intros Hz H1 H2 H3 H4. unfold reached_start.
  assert (Hw : W = size * (W / size) + W mod size) by (apply Z.div_mod; lia).
  pose proof (Z.mod_pos_bound W size Hz) as Hb. set (q := W / size) in *. set (w := W mod size) in *.
  assert (Hmod : ∀ X, X <= W → W - size < X → X mod size = if X - size * q <? 0 then X - size * q + size else X - size * q).
  { intros X Hx1 Hx2. destruct (_ <? _) eqn:E; bool_prop.
    - replace X with (X - size * q + size + (q - 1) * size) at 1 by lia. rewrite Z.mod_add, Z.mod_small by lia. lia.
    - replace X with (X - size * q + q * size) at 1 by lia. rewrite Z.mod_add, Z.mod_small by lia. lia. }
  rewrite (Hmod S), (Hmod R) by lia. clearbody q w. set (sq := size * q) in *. clearbody sq.
  destruct (S - sq <? 0) eqn:E1, (R - sq <? 0) eqn:E2; bool_prop;
    (destruct (S <? R) eqn:E3; bool_prop);
    repeat match goal with
    | |- context [?x <? ?y] => destruct (Z.ltb_spec x y)
    | |- context [?x <=? ?y] => destruct (Z.leb_spec x y)
    end; cbn; (reflexivity || lia).
Qed.

Lemma start_offset size S R : 0 < size < 2 ^ 31 → 0 < R - S < size →
  let offset := s32 (R mod size - S mod size) in
  (if offset <? 0 then s32 (offset + size) else offset) = R - S.
Proof.
  intros Hz Hd. cbv zeta. pose proof (Z.mod_pos_bound R size). pose proof (Z.mod_pos_bound S size).
  assert (Hm : R - S = (R mod size - S mod size) mod size) by (rewrite <- Zminus_mod, Z.mod_small; lia).
  rewrite s32_small by lia. destruct (_ <? _) eqn:E; bool_prop.
  - rewrite s32_small by lia. rewrite Hm. rewrite <- (Z.mod_add (R mod size - S mod size) 1), (Z.mod_small (_ - _ + _)) by lia. lia.
  - rewrite Hm, (Z.mod_small (_ - _)); lia.
Qed.

(** The positions in the fifo, unrolled: the track starts at [S], playback
    stands at [R] and the decoder at [W], and the ring holds them all. *)
Record unrolled (o : output) (S R W : Z) : Prop := {
  un_size : f_size (o_fifo o) = DECODE_FIFO_SIZE;
  un_start : track_start_point (o_track o) = S mod DECODE_FIFO_SIZE;
  un_rptr : f_rptr (o_fifo o) = R mod DECODE_FIFO_SIZE;
  un_wptr : f_wptr (o_fifo o) = W mod DECODE_FIFO_SIZE;
  un_order : S < W ∧ R <= W ∧ W - DECODE_FIFO_SIZE < S ∧ W - DECODE_FIFO_SIZE < R
}.

(** C40.  While a track's first frame waits in the buffer, decode_check_start_point
    answers whether playback has passed it, wherever the ring wraps.  When it
    has, the track counts as started, once, with the frames played of it; when
    it has not, nothing changes. *)
Theorem start_point_exact a S R W : f_lock (o_fifo (a_out a)) = true → check_start_point (o_track (a_out a)) = true →
  unrolled (a_out a) S R W →
  ∃ a', decode_check_start_point a = Some (S <? R, a') ∧
    (R <= S → a' = a) ∧
    (S < R → check_start_point (o_track (a_out a')) = false ∧
      num_tracks_started (a_play a') = u32 (num_tracks_started (a_play a) + 1) ∧
      written_track_samples (o_track (a_out a')) = u32 ((R - S) / 8 + start_at_elapsed_samples (a_play a)) ∧
      o_fifo (a_out a') = o_fifo (a_out a)).
Proof.
  intros Hl Hc [Hz Hs Hr Hw (H1 & H2 & H3 & H4)]. unfold decode_check_start_point, f_locked. rewrite Hl, Hc, Hs, Hr, Hw.
  cbn [negb]. rewrite reached_spec by lia. destruct (S <? R) eqn:E; bool_prop; cbn [negb].
  - eexists. split; [done|]. split; [lia|]. intros _. split_and!; try done.
    cbn [a_out o_track written_track_samples]. rewrite (start_offset DECODE_FIFO_SIZE S R) by lia.
    rewrite (u32_small (R - S)) by (unfold is_u32; lia). done.
  - exists a. split; [done|]. split; [done|]. lia.
Qed.

(** A second of the new track is played, from the last frames of the ring. *)
Definition demo_start : decode_audio :=
  mk_decode_audio (mk_output (mk_fifo true 352000 400000 DECODE_FIFO_SIZE) []
      (mk_track true 3527200 false 44100 0 0 0 0 0) (mk_fade false 0 0 0 0 0)
      (mk_volume FIXED_ONE (SAMPLE_MAX, SAMPLE_MIN) (1, 1) 0) TRANSITION_NONE 0 false DECODE_STATE_RUNNING 48000 [])
    demo_player.

Lemma start_point_exact_witness :
  ∃ a', decode_check_start_point demo_start = Some (true, a') ∧ written_track_samples (o_track (a_out a')) = 44100.
Proof.
  destruct (start_point_exact demo_start 3527200 (3528000 + 352000) (3528000 + 400000)) as (a' & H1 & _ & H2);
    [reflexivity|reflexivity|by split|].
  exists a'. split; [exact H1|]. by destruct H2 as (_ & _ & -> & _).
Defined.

(** Once a flush or a stop empties the buffer (decode_output_end), a start
    that was still waiting is taken for reached. *)
Lemma end_reports_start o p o1 : check_start_point (o_track o) = true → decode_output_end o = Some o1 →
  ∃ a', decode_check_start_point (mk_decode_audio o1 p) = Some (true, a') ∧ num_tracks_started (a_play a') = u32 (num_tracks_started p + 1).
Proof.
  intros Hc. unfold decode_output_end, f_locked. destruct (f_lock (o_fifo o)) eqn:Hl; [|done]. intros [= <-].
  unfold decode_check_start_point, f_locked. cbn. rewrite Hl, Hc. cbn.
  assert (Hr : reached_start 0 0 (track_start_point (o_track o)) = true).
  { unfold reached_start. destruct (_ <? 0); [done|]. by rewrite orb_true_r. }
  rewrite Hr. cbn. eexists. split; [done|]. done.
Qed.

(** A late start drops half of the frames that were missed: the frames are
    counted in bytes of the device and dropped in bytes of the buffer. *)
Lemma late_start_skips_half now st n m p o : 
  Z.land (o_state o) DECODE_STATE_AUTOSTART ≠ 0 → u32 (m * u32 (3 + period_count st)) < n → u32 (output_threshold p * pcm_sample_rate st) / 10 < n →
  0 <= start_at_jiffies p < now → (now - start_at_jiffies p) * pcm_sample_rate st < 2 ^ 32 → 0 <= pcm_sample_rate st → now - start_at_jiffies p < 2 ^ 32 →
  bytes_to_samples (skip_ahead_bytes (a_play (autostart now st n m (mk_decode_audio o p))))
  = ((now - start_at_jiffies p) * pcm_sample_rate st / 1000) / 2.
Proof.
  intros H1 H2 H3 H4 H5 H6 H7. unfold autostart. cbn [a_out a_play]. unfold c_true. destruct (_ =? 0) eqn:E; bool_prop; [done|].
  destruct (_ <? n) eqn:E1; bool_prop; [|lia]. destruct (_ <? n) eqn:E2; bool_prop; [|lia]. cbn [negb andb].
  destruct (_ <? now) eqn:E3; bool_prop; [|lia]. unfold bytes_to_samples.
  change (skip_ahead_bytes _) with (u32 (u32 (u32 (now - start_at_jiffies p) * pcm_sample_rate st) / 1000 * 4)).
  rewrite (u32_small (now - _)) by (unfold is_u32; lia). rewrite (u32_small (_ * pcm_sample_rate st)) by (unfold is_u32; nia).
  set (x := (now - start_at_jiffies p) * pcm_sample_rate st) in *. assert (0 <= x) by (unfold x; nia). clearbody x.
  rewrite u32_small by (unfold is_u32; dlia). dlia.
Qed.

(** The clip of 32-bit samples never clips: it is the sum with wrap around. *)
Lemma sample_clip_wraps a b : sample_clip a b = s32 (a + b).
Proof.
  unfold sample_clip. cbv zeta. assert (H : SAMPLE_MIN <= s32 (a + b) <= SAMPLE_MAX) by (unfold s32; Z.to_euclidean_division_equations; lia).
  split_ifs; bool_prop; lia.
Qed.
