(* ===== verification/DecodePcm.v ===== *)
(** lib/audio/decode/decode_pcm.c: the decoder for uncompressed audio.  It
    reads bytes from the stream buffer, turns whole frames of them into 32-bit
    samples for decode_output_samples and keeps the rest for the next call. *)

From S2P Require Import Prelude Endian Fifo2 Streambuf AudioFifo DecodeOutput.

Abbreviation BLOCKSIZE := 4096.
Abbreviation DECODE_STATE_UNDERRUN := 0x2.

Record decode_pcm := mk_pcm {
  read_buffer : list Z;
  leftover : Z;
  big_endian : bool;
  sample_rate : Z;
  sample_size : Z;
  stereo : bool
}.

Definition pcm_sample_widths : list Z := [1; 2; 3; 4].

Section Pcm.
(** The processor's byte order. *)
Context (big : bool).

(** Each reads the sample that starts a run of bytes. *)
Definition pcm_read8bit (pos : list Z) : option Z :=
  match pos with b0 :: _ => Some (s32 (Z.shiftl (b0 - 128) 24)) | _ => None end.
Definition pcm_read16bitBE (pos : list Z) : option Z :=
  match pos with b0 :: b1 :: _ => Some (s32 (Z.lor (Z.shiftl b0 24) (Z.shiftl b1 16))) | _ => None end.
Definition pcm_read16bitLE (pos : list Z) : option Z :=
  match pos with b0 :: b1 :: _ => Some (s32 (Z.lor (Z.shiftl b0 16) (Z.shiftl b1 24))) | _ => None end.
Definition pcm_read24bitBE (pos : list Z) : option Z :=
  match pos with
  | b0 :: b1 :: b2 :: _ => Some (s32 (Z.lor (Z.lor (Z.shiftl b0 24) (Z.shiftl b1 16)) (Z.shiftl b2 8)))
  | _ => None
  end.
Definition pcm_read24bitLE (pos : list Z) : option Z :=
  match pos with
  | b0 :: b1 :: b2 :: _ => Some (s32 (Z.lor (Z.lor (Z.shiftl b0 8) (Z.shiftl b1 16)) (Z.shiftl b2 24)))
  | _ => None
  end.
Definition pcm_read32bitBE (pos : list Z) : option Z :=
  match pos with
  | b0 :: b1 :: b2 :: b3 :: _ =>
      Some (s32 (Z.lor (Z.lor (Z.lor (Z.shiftl b0 24) (Z.shiftl b1 16)) (Z.shiftl b2 8)) b3))
  | _ => None
  end.
(** A load in the processor's own order. *)
Definition pcm_read32bitLE (pos : list Z) : option Z :=
  match pos with b0 :: b1 :: b2 :: b3 :: _ => Some (s32 (native_val big [b0; b1; b2; b3])) | _ => None end.

Definition pcm_read_funcs : list (list Z → option Z) :=
  [pcm_read8bit; pcm_read8bit; pcm_read16bitLE; pcm_read16bitBE;
   pcm_read24bitLE; pcm_read24bitBE; pcm_read32bitLE; pcm_read32bitBE].

(** [num_samples] samples from the run of bytes, each twice when mono. *)
Fixpoint read_samples (read_func : list Z → option Z) (width : nat) (mono : bool) (num_samples : nat) (read_pos : list Z) : option (list Z) :=
  match num_samples with
  | O => Some []
  | S n =>
      sample ← read_func read_pos;
      rest ← read_samples read_func width mono n (drop width read_pos);
      Some ((if mono then [sample; sample] else [sample]) ++ rest)
  end.

(** What [sz] bytes read behind the leftover ones give: the samples and the
    state with the bytes of an unfinished frame. *)
Definition pcm_block (self : decode_pcm) (data : list Z) : option (Z * list Z * decode_pcm) :=
  if BLOCKSIZE <? leftover self + Z.of_nat (length data) then None else
  let buffer := list_inserts (Z.to_nat (leftover self)) data (read_buffer self) in
  let sz := u32 (Z.of_nat (length data) + leftover self) in
  read_func ← pcm_read_funcs !! Z.to_nat (2 * sample_size self + c_bool (big_endian self));
  width ← pcm_sample_widths !! Z.to_nat (sample_size self);
  let num_samples := sz / width in
  let num_samples := if stereo self then Z.land num_samples (Z.lnot 1) else num_samples in
  samples ← read_samples read_func (Z.to_nat width) (negb (stereo self)) (Z.to_nat num_samples) buffer;
  let used := num_samples * width in
  let left := u32 (sz - used) in
  let buffer := if c_true left
                then list_inserts 0 (take (Z.to_nat left) (drop (Z.to_nat used) buffer)) buffer else buffer in
  Some (if stereo self then num_samples / 2 else num_samples, samples,
        mk_pcm buffer left (big_endian self) (sample_rate self) (sample_size self) (stereo self)).

(** [state] is current_decoder_state; [fuel] is that of decode_output_samples. *)
Definition decode_pcm_callback (fuel : nat) (s : streambuf) (o : output) (state : Z) (self : decode_pcm)
    : option (bool * streambuf * output * Z * decode_pcm) :=
  '(sz, data, _, s) ← streambuf_read s 0 (u32 (BLOCKSIZE - leftover self));
  if sz =? 0 then Some (false, s, o, Z.lor state DECODE_STATE_UNDERRUN, self) else
  '(_, s) ← streambuf_discard s sz true;
  let state := Z.ldiff state DECODE_STATE_UNDERRUN in
  '(nframes, samples, self) ← pcm_block self data;
  o ← (if nframes =? 0 then Some o else decode_output_samples fuel o samples (sample_rate self) streambuf_is_copyright);
  Some (true, s, o, state, self).

Definition decode_pcm_samples : Z := BLOCKSIZE.

(** [buffer] is what the allocated memory holds; the parameters are not used. *)
Definition decode_pcm_start (buffer : list Z) : decode_pcm := mk_pcm (take (Z.to_nat BLOCKSIZE) buffer) 0 false 44100 1 true.
End Pcm.
