(* ===== verification/DecodePcmProps.v ===== *)
(** The PCM decoder gives the same samples however the stream is cut into
    reads. *)

From S2P Require Import Prelude Endian Fifo2 Streambuf AudioFifo DecodeOutput DecodePcm.

Ltac dlia := Z.to_euclidean_division_equations; lia.

Section PcmProps.
Context (big : bool).

(** A reading function for samples of [w] bytes. *)
Definition reads (rf : list Z → option Z) (w : nat) : Prop :=
  (0 < w)%nat ∧ ∀ pos, (w <= length pos)%nat → ∃ x, rf pos = Some x ∧ ∀ more, rf (pos ++ more) = Some x.

(** The formats the tables know. *)
Record pcm_ok (self : decode_pcm) (rf : list Z → option Z) (w : nat) : Prop := {
  pk_rf : pcm_read_funcs big !! Z.to_nat (2 * sample_size self + c_bool (big_endian self)) = Some rf;
  pk_w : pcm_sample_widths !! Z.to_nat (sample_size self) = Some (Z.of_nat w);
  pk_size : 0 <= sample_size self <= 3;
  pk_buf : length (read_buffer self) = Z.to_nat BLOCKSIZE;
  pk_left : 0 <= leftover self < Z.of_nat w * (if stereo self then 2 else 1)
}.

Lemma formats_read self rf w : pcm_ok self rf w → reads rf w ∧ (w <= 4)%nat.
Proof.
  intros [Hrf Hw Hs _ _]. assert (Hcases : sample_size self = 0 ∨ sample_size self = 1 ∨ sample_size self = 2 ∨ sample_size self = 3) by lia.
  destruct Hcases as [E|[E|[E|E]]]; rewrite E in Hrf, Hw; cbn in Hw; injection Hw as Hw';
    (assert (w = 1 ∨ w = 2 ∨ w = 3 ∨ w = 4)%nat as Hw4 by lia);
    destruct (big_endian self); cbn in Hrf; injection Hrf as <-; (split; [|lia]);
    (split; [lia|]); intros pos Hp;
    destruct pos as [|b0 [|b1 [|b2 [|b3 pos]]]]; cbn in Hp; try lia; by eexists.
Qed.

(** The bytes of an unfinished frame. *)
Definition pending (self : decode_pcm) : list Z := take (Z.to_nat (leftover self)) (read_buffer self).

(** The samples in the whole frames of [n] bytes. *)
Definition whole (self : decode_pcm) (w n : nat) : nat :=
  if stereo self then (2 * (n / (2 * w)))%nat else (n / w)%nat.

Lemma read_samples_length rf w mono n pos : reads rf w → (n * w <= length pos)%nat →
  ∃ l, read_samples rf w mono n pos = Some l ∧ length l = (n * if mono then 2 else 1)%nat.
Proof.
  intros [Hw Hr]. revert pos. induction n as [|n IH]; intros pos Hp; cbn [read_samples]; [by exists []|].
  destruct (Hr pos) as (x & -> & _); [lia|]. cbn [mbind option_bind].
  destruct (IH (drop w pos)) as (l & -> & Hl); [rewrite length_drop; lia|]. cbn [mbind option_bind].
  eexists. split; [done|]. rewrite length_app, Hl. destruct mono; cbn; lia.
Qed.

Lemma read_samples_add rf w mono n m pos l : reads rf w → (n * w <= length pos)%nat →
  read_samples rf w mono n pos = Some l →
  read_samples rf w mono (n + m) pos = (l' ← read_samples rf w mono m (drop (n * w) pos); Some (l ++ l')).
Proof.
  intros Hr. revert pos l. induction n as [|n IH]; intros pos l Hp; cbn [read_samples Nat.add].
  - intros [= <-]. cbn. rewrite drop_0. by destruct (read_samples rf w mono m pos).
  - destruct (rf pos) as [x|]; [|done]. cbn [mbind option_bind].
    destruct (read_samples rf w mono n (drop w pos)) as [l1|] eqn:E; [|done]. cbn [mbind option_bind]. intros [= <-].
    rewrite (IH _ l1), drop_drop; [|rewrite length_drop; lia|done]. replace (w + n * w)%nat with (S n * w)%nat by lia.
    destruct (read_samples rf w mono m _); cbn; [by rewrite app_assoc|done].
Qed.

(** Bytes behind the samples do not matter. *)
Lemma read_samples_more rf w mono n pos more : reads rf w → (n * w <= length pos)%nat →
  read_samples rf w mono n (pos ++ more) = read_samples rf w mono n pos.
Proof.
  intros [Hw Hr]. revert pos. induction n as [|n IH]; intros pos Hp; cbn [read_samples]; [done|].
  destruct (Hr pos) as (x & -> & Hx); [lia|]. rewrite Hx. cbn [mbind option_bind].
  rewrite drop_app_le by lia. by rewrite IH by (rewrite length_drop; lia).
Qed.

Lemma whole_fits self w n : (0 < w)%nat → (whole self w n * w <= n)%nat ∧ (n - whole self w n * w < w * if stereo self then 2 else 1)%nat.
Proof.
  intros Hw. unfold whole. destruct (stereo self).
  - pose proof (Nat.div_mod_eq n (2 * w)). pose proof (Nat.mod_upper_bound n (2 * w)). lia.
  - pose proof (Nat.div_mod_eq n w). pose proof (Nat.mod_upper_bound n w). lia.
Qed.

(** The code's count of samples. *)
Lemma whole_code self w n : (0 < w)%nat →
  (if stereo self then Z.land (Z.of_nat n / Z.of_nat w) (Z.lnot 1) else Z.of_nat n / Z.of_nat w) = Z.of_nat (whole self w n).
Proof.
  intros Hw. unfold whole. rewrite <- Nat2Z.inj_div. destruct (stereo self); [|done].
  rewrite <- Z.ldiff_land. change 1 with (Z.ones 1). rewrite Z.ldiff_ones_r, Z.shiftl_mul_pow2, Z.shiftr_div_pow2 by lia.
  rewrite (Nat.mul_comm 2 w), <- Nat.Div0.div_div. change (2 ^ 1) with (Z.of_nat 2). rewrite <- Nat2Z.inj_div. lia.
Qed.

Lemma inserts_head (l k : list Z) i : (i + length k <= length l)%nat →
  take (i + length k) (list_inserts i k l) = take i l ++ k.
Proof.
  intros H. apply list_eq. intros j. destruct (decide (j < i + length k)%nat) as [Hj|Hj].
  - rewrite lookup_take_lt by lia. destruct (decide (j < i)%nat).
    + rewrite list_lookup_inserts_lt, lookup_app_l by (rewrite ?length_take; lia). by rewrite lookup_take_lt by lia.
    + rewrite list_lookup_inserts by lia. rewrite lookup_app_r by (rewrite length_take; lia). f_equal. rewrite length_take. lia.
  - rewrite lookup_take_ge by lia. symmetry. apply lookup_ge_None. rewrite length_app, length_take. lia.
Qed.

(** One block: the whole frames of what was pending and what was read. *)
Lemma pcm_block_spec self rf w data : pcm_ok self rf w → leftover self + Z.of_nat (length data) <= BLOCKSIZE →
  let all := pending self ++ data in
  let n := whole self w (length all) in
  ∃ out self', pcm_block big self data = Some (Z.of_nat (n / if stereo self then 2 else 1), out, self') ∧
    read_samples rf w (negb (stereo self)) n all = Some out ∧
    pending self' = drop (n * w) all ∧ pcm_ok self' rf w ∧ stereo self' = stereo self ∧ sample_rate self' = sample_rate self.
Proof.
  intros Hok Hfit all n. destruct (formats_read _ _ _ Hok) as [Hr Hw4]. pose proof Hr as [Hw0 _]. pose proof Hok as [Hrf Hw Hs Hb [Hl0 Hl1]].
  set (lo := Z.to_nat (leftover self)). assert (Hlo : Z.of_nat lo = leftover self) by lia.
  assert (Hlp : length (pending self) = lo) by (unfold pending; rewrite length_take, Hb; fold lo; lia).
  assert (Hall : length all = (lo + length data)%nat) by (unfold all; rewrite length_app; lia).
  set (buf := list_inserts lo data (read_buffer self)).
  assert (Hbuf : buf = all ++ drop (length all) buf).
  { rewrite <- (take_drop (length all) buf) at 1. f_equal. rewrite Hall. unfold buf. apply inserts_head. lia. }
  destruct (whole_fits self w (length all) Hw0) as [Hn1 Hn2]. fold n in Hn1, Hn2.
  destruct (read_samples_length rf w (negb (stereo self)) n all Hr Hn1) as (out & Hout & _).
  assert (Hread : read_samples rf w (negb (stereo self)) n buf = Some out) by (rewrite Hbuf, read_samples_more; done).
  assert (Hdrop : drop (n * w) buf = drop (n * w) all ++ drop (length all) buf) by (rewrite Hbuf at 1; by rewrite drop_app_le by lia).
  unfold pcm_block. destruct (_ <? _) eqn:E; bool_prop; [lia|]. rewrite Hrf, Hw. cbn [mbind option_bind]. fold lo. fold buf.
  rewrite (u32_small (_ + leftover self)) by (unfold is_u32; lia). replace (Z.of_nat (length data) + leftover self) with (Z.of_nat (length all)) by lia.
  rewrite whole_code by done. fold n. rewrite !Nat2Z.id, Hread. cbn [mbind option_bind].
  set (left := (length all - n * w)%nat) in *. replace (Z.of_nat (length all) - Z.of_nat n * Z.of_nat w) with (Z.of_nat left) by lia.
  rewrite u32_small by (unfold is_u32; lia). replace (Z.to_nat (Z.of_nat n * Z.of_nat w)) with (n * w)%nat by lia. rewrite Nat2Z.id, Hdrop.
  assert (Htl : length (drop (n * w) all) = left) by (by rewrite length_drop).
  rewrite take_app_length' by done. eexists out, _. split_and!; [f_equal; f_equal; f_equal; by destruct (stereo self); rewrite ?Nat.div_1_r, ?Nat2Z.inj_div|done|..].
  - unfold pending. cbn [leftover read_buffer]. rewrite Nat2Z.id. unfold c_true. destruct (_ =? 0) eqn:E2; bool_prop; cbn [negb].
    + replace left with 0%nat by lia. symmetry. apply nil_length_inv. lia.
    + rewrite <- Htl at 1. apply (inserts_head buf (drop (n * w) all) 0). unfold buf. rewrite length_inserts. lia.
  - split; try done; cbn [read_buffer leftover stereo].
    + unfold buf. destruct (c_true _); by rewrite ?length_inserts.
    + destruct (stereo self); lia.
  - done.
  - done.
Qed.

(** Any sequence of reads. *)
Fixpoint pcm_blocks (self : decode_pcm) (reads : list (list Z)) : option (list Z * decode_pcm) :=
  match reads with
  | [] => Some ([], self)
  | data :: reads' =>
      '(_, out, self) ← pcm_block big self data;
      '(outs, self) ← pcm_blocks self reads';
      Some (out ++ outs, self)
  end.

Lemma whole_add self w a b : (0 < w)%nat →
  whole self w (a + b) = (whole self w a + whole self w (a - whole self w a * w + b))%nat.
Proof.
  intros Hw. unfold whole. destruct (stereo self).
  - set (q := (a / (2 * w))%nat). replace (a + b)%nat with ((a - 2 * q * w + b) + q * (2 * w))%nat.
    + rewrite Nat.div_add by lia. lia.
    + pose proof (Nat.div_mod_eq a (2 * w)). unfold q. lia.
  - set (q := (a / w)%nat). replace (a + b)%nat with ((a - q * w + b) + q * w)%nat.
    + rewrite Nat.div_add by lia. lia.
    + pose proof (Nat.div_mod_eq a w). unfold q. lia.
Qed.

Lemma whole_stereo self self' w n : stereo self = stereo self' → whole self w n = whole self' w n.
Proof. intros H. unfold whole. by rewrite H. Qed.

(** Each read takes at most what is free behind the bytes kept, as the code
    asks for. *)
Fixpoint reads_fit (self : decode_pcm) (reads : list (list Z)) : Prop :=
  match reads with
  | [] => True
  | data :: reads' =>
      Z.of_nat (length data) <= BLOCKSIZE - leftover self ∧
      match pcm_block big self data with Some (_, _, self') => reads_fit self' reads' | None => False end
  end.

(** C29.  The PCM decoder does not depend on how the stream is cut: whatever
    sizes the reads have, up to the BLOCKSIZE bytes less the leftover ones that
    the decoder asks for, its blocks together give the samples of the whole
    frames of all the bytes, in order, and it keeps exactly the bytes of the
    unfinished frame, for every sample width, byte order and channel count of
    its tables. *)
Theorem pcm_reads_exact reads self rf w : pcm_ok self rf w → reads_fit self reads →
  let all := pending self ++ concat reads in
  let n := whole self w (length all) in
  ∃ out self', pcm_blocks self reads = Some (out, self') ∧
    read_samples rf w (negb (stereo self)) n all = Some out ∧ pending self' = drop (n * w) all.
Proof.
  revert self. induction reads as [|data reads IH]; intros self Hok Hfit all n; destruct (formats_read _ _ _ Hok) as [Hr Hw4]; pose proof Hr as [Hw0 _].
  - assert (Hlen : (length all < w * if stereo self then 2 else 1)%nat).
    { unfold all. cbn [concat]. rewrite app_nil_r. unfold pending. rewrite length_take. destruct (pk_left _ _ _ Hok). destruct (stereo self); lia. }
    assert (Hn : n = 0%nat) by (unfold n, whole in *; destruct (stereo self); rewrite Nat.div_small; lia).
    rewrite Hn. exists [], self. split_and!; [done..|]. unfold all. cbn. by rewrite app_nil_r, drop_0.
  - cbn [reads_fit] in Hfit. destruct Hfit as [Hd Hfit'].
    destruct (pcm_block_spec self rf w data Hok ltac:(lia)) as (o1 & s1 & H1 & R1 & P1 & K1 & St1 & _).
    rewrite H1 in Hfit'.
    destruct (IH s1 K1 Hfit') as (o2 & s2 & H2 & R2 & P2). cbn [pcm_blocks]. rewrite H1. cbn [mbind option_bind]. rewrite H2. cbn [mbind option_bind].
    set (all1 := pending self ++ data) in *. set (n1 := whole self w (length all1)) in *.
    assert (Hall : all = all1 ++ concat reads) by (unfold all, all1; cbn; by rewrite app_assoc).
    destruct (whole_fits self w (length all1) Hw0) as [Hf1 Hf2]. fold n1 in Hf1, Hf2.
    rewrite P1, (whole_stereo s1 self) in * by done. rewrite St1 in R2. set (n2 := whole self w (length (drop (n1 * w) all1 ++ concat reads))) in *.
    assert (Hn : n = (n1 + n2)%nat).
    { unfold n, n2. rewrite Hall, !length_app, length_drop, whole_add by done. done. }
    assert (Hdr : drop (n1 * w) all = drop (n1 * w) all1 ++ concat reads) by (rewrite Hall; by rewrite drop_app_le).
    eexists _, s2. split_and!; [done| |].
    + rewrite Hn. rewrite (read_samples_add _ _ _ _ _ _ o1); [|done|rewrite Hall, length_app; lia|by rewrite Hall, read_samples_more].
      by rewrite Hdr, R2.
    + rewrite P2, <- Hdr, drop_drop, Hn. f_equal. lia.
Qed.
End PcmProps.

(** A full block and two reads that cut frames, in the format of
    decode_pcm_start. *)
Definition demo_reads : list (list Z) := [replicate 4096 0; [1; 0; 255]; [255; 2]; [0; 3; 0; 4]].

Lemma pcm_reads_exact_witness :
  ∃ self', pcm_blocks false (decode_pcm_start (replicate (Z.to_nat BLOCKSIZE) 0)) demo_reads
    = Some (replicate 2048 0 ++ [65536; -65536; 131072; 196608], self') ∧ pending self' = [4].
Proof.
  destruct (pcm_reads_exact false demo_reads (decode_pcm_start (replicate (Z.to_nat BLOCKSIZE) 0))
    pcm_read16bitLE 2) as (out & self' & H1 & H2 & H3).
  - split; try done; cbn; lia.
  - vm_compute. repeat split; discriminate.
  - exists self'. split; [|rewrite H3; vm_compute; reflexivity]. rewrite H1. do 2 f_equal. apply (inj Some).
    rewrite <- H2. vm_compute. reflexivity.
Defined.

(** On a big-endian processor little-endian 32-bit samples are read reversed. *)
Example pcm_read32bitLE_big : pcm_read32bitLE true [1; 0; 0; 0] = Some 0x01000000.
Proof. reflexivity. Qed.
