(* ===== verification/PcmToDevice.v ===== *)
(** The whole path of uncompressed audio: bytes of the stream buffer, through
    the PCM decoder and the output buffer, to the sound device. *)

From S2P Require Import Prelude Endian Ring Fifo2 Streambuf StreambufSpec StreambufRefines AudioFifo DecodeOutput.
From S2P Require Import DecodeOutputFade DecodeOutputProps DecodeOutputStart Playback PlaybackProps PlaybackThrough DecodePcm DecodePcmProps.

(** The bytes a call takes from the head of the stream. *)
Definition pcm_take (a : stream) (self : decode_pcm) : Z := Z.min (Z.of_nat (length (st_head a))) (BLOCKSIZE - leftover self).
Definition pcm_bytes (a : stream) (self : decode_pcm) : list Z := pending self ++ take (Z.to_nat (pcm_take a self)) (st_head a).
Definition pcm_frames (a : stream) (self : decode_pcm) (w : nat) : nat :=
  (whole self w (length (pcm_bytes a self)) / if stereo self then 2 else 1)%nat.

Lemma read_samples_frames rf w self n l : reads rf w → (n * w <= length l)%nat →
  (if stereo self then n mod 2 = 0 else True)%nat →
  ∃ out, read_samples rf w (negb (stereo self)) n l = Some out ∧ length out = (2 * (n / if stereo self then 2 else 1))%nat.
Proof.
  intros Hr Hn He. destruct (read_samples_length rf w (negb (stereo self)) n l Hr Hn) as (out & H1 & H2).
  exists out. split; [done|]. rewrite H2. destruct (stereo self); cbn [negb].
  - pose proof (Nat.div_mod_eq n 2). lia.
  - rewrite Nat.div_1_r. lia.
Qed.

Lemma callback_spec SZ big s a self rf w : 0 < SZ <= max_size → sb_rep SZ s a → pcm_ok big self rf w → 0 < pcm_take a self →
  let n := pcm_take a self in
  let k := whole self w (length (pcm_bytes a self)) in
  ∃ samples s' self', read_samples rf w (negb (stereo self)) k (pcm_bytes a self) = Some samples ∧
    length samples = (2 * pcm_frames a self w)%nat ∧ sb_rep SZ s' (a_discard (a_read a n) n true) ∧
    pending self' = drop (k * w) (pcm_bytes a self) ∧ pcm_ok big self' rf w ∧
    ∀ fuel o state, decode_pcm_callback big fuel s o state self =
      (o ← (if Z.of_nat (pcm_frames a self w) =? 0 then Some o
            else decode_output_samples fuel o samples (sample_rate self) streambuf_is_copyright);
       Some (true, s', o, Z.ldiff state DecodePcm.DECODE_STATE_UNDERRUN, self')).
Proof.
  intros HSZ Hs Hp Hn n k. destruct (pk_left _ _ _ _ Hp) as [Hl0 Hl1]. destruct (formats_read _ _ _ _ Hp) as [Hr Hw4].
  assert (Hl8 : leftover self < 8) by (destruct (stereo self); lia).
  destruct (data_deq_ok SZ HSZ s a 0 (BLOCKSIZE - leftover self) Hs) as (s1 & Hd & Hs1); [lia|].
  assert (Hdq : deq_size (Z.of_nat (length (st_head a))) 0 (BLOCKSIZE - leftover self) = n).
  { unfold n, pcm_take, deq_size. destruct (_ <? 0) eqn:E; bool_prop; [lia|]. destruct (_ <? _) eqn:E2; bool_prop; lia. }
  rewrite Hdq in *. 
  destruct (discard_ok SZ HSZ s1 (a_read a n) n true Hs1) as (s2 & Hd2 & Hs2).
  { cbn. destruct Hs as [_ [? ? ? ? ? ? ? ? ? ?]]. unfold n in *. lia. }
  destruct (pcm_block_spec big self rf w (take (Z.to_nat n) (st_head a)) Hp) as (out & self' & Hb & Hout & Hpend & Hp' & _ & Hrate).
  { rewrite length_take. unfold n, pcm_take in *. lia. }
  exists out, s2, self'. destruct (whole_fits self w (length (pcm_bytes a self)) ltac:(apply Hr)) as [Hf _].
  split_and!; [done| |done|done|done|].
  - destruct (read_samples_frames rf w self k (pcm_bytes a self)) as (out' & H1 & H2); [done|done| |].
    + unfold k, whole. destruct (stereo self); [|done]. rewrite Nat.mul_comm. apply Nat.Div0.mod_mul.
    + unfold k, pcm_bytes in H1. fold n in H1. rewrite Hout in H1. injection H1 as <-. done.
  - intros fuel o state. unfold decode_pcm_callback, streambuf_read. rewrite u32_small by (unfold is_u32; lia). rewrite Hd. cbn [mbind option_bind].
    destruct (n =? 0) eqn:E; bool_prop; [lia|]. rewrite Hd2. cbn [mbind option_bind]. rewrite Hb. cbn [mbind option_bind]. by rewrite Hrate.
Qed.

(** C7.  From the stream to the device: with audio running and room in the
    output buffer, one call of the PCM decoder takes the next bytes of the
    stream, and playback of the frames then in the buffer gives the device the
    frames that were waiting followed by exactly the whole frames of the bytes
    pending and taken, with channel, gain and volume applied.  The stream
    continues after those bytes, and the unfinished frame is kept. *)
Theorem pcm_to_device fuel now st SZ big s a o p state self rf w : 0 < SZ <= max_size → sb_rep SZ s a → pcm_ok big self rf w → steady o p →
  0 < pcm_take a self → (0 < pcm_frames a self w)%nat →
  8 * (frames_used o + Z.of_nat (pcm_frames a self w)) < f_size (o_fifo o) →
  frames_used o + Z.of_nat (pcm_frames a self w) <= Z.of_nat fuel →
  let n := pcm_take a self in
  let k := whole self w (length (pcm_bytes a self)) in
  ∃ samples s' o' self' a', read_samples rf w (negb (stereo self)) k (pcm_bytes a self) = Some samples ∧
    decode_pcm_callback big fuel s o state self = Some (true, s', o', Z.ldiff state DecodePcm.DECODE_STATE_UNDERRUN, self') ∧
    sb_rep SZ s' (a_discard (a_read a n) n true) ∧ pending self' = drop (k * w) (pcm_bytes a self) ∧
    playback_callback fuel now st (frames_used o + Z.of_nat (pcm_frames a self w)) (mk_decode_audio (locked o') p)
    = Some (play_samples (lgain p) (rgain p) (fresh o (Z.to_nat (frames_used o)) ++ processed (o_volume o) samples), a').
Proof.
  intros HSZ Hs Hp Ho Hn Hf0 Hroom Hfuel n k.
  destruct (callback_spec SZ big s a self rf w HSZ Hs Hp Hn) as (samples & s' & self' & H1 & H2 & H3 & H4 & _ & Hcb).
  destruct (through_spec fuel now st (sample_rate self) streambuf_is_copyright o p samples _ Ho H2 Hf0 Hroom Hfuel) as (o' & a' & H5 & H6 & _).
  exists samples, s', o', self', a'. split_and!; [done| |done|done|done].
  rewrite Hcb. destruct (_ =? 0) eqn:E; bool_prop; [lia|]. by rewrite H5.
Qed.

(** Two frames and a half wait in the stream; three frames in the buffer. *)
Definition demo_pcm : decode_pcm := decode_pcm_start (replicate (Z.to_nat BLOCKSIZE) 0).
Definition demo_bytes : list Z := [1; 0; 255; 255; 2; 0; 3; 0; 4; 0].

Lemma pcm_to_device_witness :
  ∃ s a, sb_rep 64 s a ∧ pcm_bytes a demo_pcm = demo_bytes ∧
  ∃ s' o' self' a', decode_pcm_callback false 9 s demo_steady 2 demo_pcm = Some (true, s', o', 0, self') ∧ pending self' = [4; 0] ∧
    playback_callback 9 0 (mk_i2s 10 44100) 5 (mk_decode_audio (locked o') demo_player)
    = Some ([0x300; 0x200; 0x500; 0x300; 0x100; 0x100; 0x100; 0xffff; 0x200; 0x100], a').
Proof.
  destruct (data_enq_ok 64 ltac:(unfold max_size; lia) (streambuf_init 64 streambuf_static) stream_init demo_bytes) as (s & _ & Hs);
    [by apply init_ok|by vm_compute|].
  exists s, (a_append stream_init demo_bytes). split; [exact Hs|]. split; [by vm_compute|].
  destruct (pcm_to_device 9 0 (mk_i2s 10 44100) 64 false s (a_append stream_init demo_bytes) demo_steady demo_player 2 demo_pcm pcm_read16bitLE 2)
    as (samples & s' & o' & self' & a' & H1 & H2 & _ & H4 & H5); [unfold max_size; lia|exact Hs|..].
  - split; try done; cbn; lia.
  - split; try done; split; split; done.
  - by vm_compute.
  - vm_compute. lia.
  - by vm_compute.
  - by vm_compute.
  - exists s', o', self', a'. split; [exact H2|]. split; [by rewrite H4|].
    vm_compute in H1. injection H1 as <-. exact H5.
Defined.
