(* ===== verification/AudioControl.v ===== *)
(** lib/audio/audio.c: the control of the decoder.  Clients queue commands,
    some in the message queue, some inline in the stream buffer; the decode
    thread takes them out, runs their handlers and lets the decoder run when
    there is room for its output.  The decoder modules besides PCM are
    parameters: what [start], [flush] and [samples] of each do to its own data.
    The children of decode_play.c are taken to be alive. *)

From S2P Require Import Prelude Endian Ring Fifo2 AudioFifo Mqueue Streambuf StreambufSpec StreambufRefines AudioSync.
From S2P Require Import DecodeOutput Playback.

Abbreviation DECODE_MAX_INTERVAL := 500.
Abbreviation DECODE_WAIT_INTERVAL := 100.
Abbreviation DECODER_MAX_PARAMS := 32.
Abbreviation DECODE_MINIMUM_BYTES_FLAC := 25000.
Abbreviation DECODE_STATE_ERROR := 0x4.
Abbreviation DECODE_STATE_STOPPING := 0x20.

(** ** Operation codes *)

Abbreviation AUDIO_OP_MAX := 127.
Abbreviation AUDIO_OP_THIS_ENDIAN := 0x80000000.

Inductive audio_op :=
  | DECODE_RESUME_DECODER_OP
  | DECODE_STOP_OP
  | DECODE_FLUSH_OP
  | AUDIO_PAUSE_AUDIO_OP
  | DECODE_RESUME_AUDIO_OP
  | DECODE_START_OP
  | DECODE_ST_END_OP
  | DECODE_SKIP_AHEAD_OP.

Definition op_num (p : audio_op) : Z :=
  match p with
  | DECODE_RESUME_DECODER_OP => 1
  | DECODE_STOP_OP => 2
  | DECODE_FLUSH_OP => 3
  | AUDIO_PAUSE_AUDIO_OP => 4
  | DECODE_RESUME_AUDIO_OP => 5
  | DECODE_START_OP => 6
  | DECODE_ST_END_OP => 7
  | DECODE_SKIP_AHEAD_OP => 8
  end.

Definition encode_audio_op (op size : Z) : Z :=
  if AUDIO_OP_MAX <? op then 0 else Z.lor (Z.lor AUDIO_OP_THIS_ENDIAN (Z.shiftl size 8)) op.

Definition bswap_32 (x : Z) : Z :=
  Z.lor (Z.lor (Z.shiftl (Z.land x 0xff) 24) (Z.shiftl (Z.land x 0xff00) 8))
    (Z.lor (Z.land (Z.shiftr x 8) 0xff00) (Z.land (Z.shiftr x 24) 0xff)).

(** The switch over the operations, none for an unknown one. *)
Definition op_of (k : Z) : option audio_op :=
  if k =? 1 then Some DECODE_RESUME_DECODER_OP
  else if k =? 2 then Some DECODE_STOP_OP
  else if k =? 3 then Some DECODE_FLUSH_OP
  else if k =? 4 then Some AUDIO_PAUSE_AUDIO_OP
  else if k =? 5 then Some DECODE_RESUME_AUDIO_OP
  else if k =? 6 then Some DECODE_START_OP
  else if k =? 7 then Some DECODE_ST_END_OP
  else if k =? 8 then Some DECODE_SKIP_AHEAD_OP
  else None.

(** The operation, the size and whether the code came from a machine of the
    other byte order. *)
Definition decode_audio_op (code : Z) : option audio_op * Z * bool :=
  let need_swap := Z.land code AUDIO_OP_THIS_ENDIAN =? 0 in
  let code := if need_swap then bswap_32 code else code in
  (op_of (Z.land code 0xff), u16 (Z.shiftr code 8), need_swap).

(** ** The state *)

(** The identifiers of the installed decoders: mad, pcm, test, aac, vorbis,
    flac. *)
Definition all_decoders : list Z := [109; 112; 116; 97; 111; 102].
Abbreviation decode_flac := 102.
(** Only vorbis has a flush operation. *)
Definition has_flush (id : Z) : bool := id =? 111.

Section Control.
(** The processor's byte order; the data of a running decoder and what the
    modules do with it. *)
Context (big : bool) {D : Type}.
Context (module_start : Z → list Z → D) (module_flush : Z → D → D) (module_samples : Z → D → Z).

Record control := mk_control {
  c_mq : mqueue;
  c_da : decode_audio;
  c_sync : audio;
  current_decoder_state : Z;
  play_cookie : Z;
  decoder : option (Z * D);
  bitrate : Z
}.

Definition set_mq v c := mk_control v (c_da c) (c_sync c) (current_decoder_state c) (play_cookie c) (decoder c) (bitrate c).
Definition set_da v c := mk_control (c_mq c) v (c_sync c) (current_decoder_state c) (play_cookie c) (decoder c) (bitrate c).
Definition set_sync v c := mk_control (c_mq c) (c_da c) v (current_decoder_state c) (play_cookie c) (decoder c) (bitrate c).
Definition set_decoder_state v c := mk_control (c_mq c) (c_da c) (c_sync c) v (play_cookie c) (decoder c) (bitrate c).
Definition set_cookie v c := mk_control (c_mq c) (c_da c) (c_sync c) (current_decoder_state c) v (decoder c) (bitrate c).
Definition set_module v c := mk_control (c_mq c) (c_da c) (c_sync c) (current_decoder_state c) (play_cookie c) v (bitrate c).
Definition set_bitrate v c := mk_control (c_mq c) (c_da c) (c_sync c) (current_decoder_state c) (play_cookie c) (decoder c) v.

Definition set_tracks v p := mk_player (lgain p) (rgain p) (set_sample_rate p) (output_threshold p) v
  (skip_ahead_bytes p) (add_silence_ms p) (start_at_jiffies p) (start_at_elapsed_samples p) (out_gain p) (out_gain_step p) (out_sample_step p) (out_samples_in_step p).
Definition set_threshold v p := mk_player (lgain p) (rgain p) (set_sample_rate p) v (num_tracks_started p)
  (skip_ahead_bytes p) (add_silence_ms p) (start_at_jiffies p) (start_at_elapsed_samples p) (out_gain p) (out_gain_step p) (out_sample_step p) (out_samples_in_step p).
Definition set_start_at j e p := mk_player (lgain p) (rgain p) (set_sample_rate p) (output_threshold p) (num_tracks_started p)
  (skip_ahead_bytes p) (add_silence_ms p) j e (out_gain p) (out_gain_step p) (out_sample_step p) (out_samples_in_step p).
Definition set_gains g p := mk_player g g (set_sample_rate p) (output_threshold p) (num_tracks_started p)
  (skip_ahead_bytes p) (add_silence_ms p) (start_at_jiffies p) (start_at_elapsed_samples p) (out_gain p) (out_gain_step p) (out_sample_step p) (out_samples_in_step p).

(** decode_audio_lock and decode_audio_unlock around [k]. *)
Definition with_audio (k : decode_audio → option decode_audio) (c : control) : option control :=
  d ← k (on_out (λ o, set_fifo (fifo_lock 0 (o_fifo o)).2 o) (c_da c));
  o ← unlock (a_out d);
  Some (set_da (mk_decode_audio o (a_play d)) c).

Definition run_out (k : output → option output) (d : decode_audio) : option decode_audio :=
  o ← k (a_out d); Some (mk_decode_audio o (a_play d)).

(** ** The handlers *)

Definition read_u32 (c : control) : option (Z * control) := '(v, m) ← mqueue_read_u32 big (c_mq c); Some (v, set_mq m c).
Definition read_complete (c : control) : option control := m ← mqueue_read_complete (c_mq c); Some (set_mq m c).

(** Each handler reads its arguments, releases the queue and then does its
    work, which does not touch the queue. *)

Definition resume_decoder (c : control) : option control := Some (set_decoder_state DECODE_STATE_RUNNING c).

Definition decode_resume_decoder_handler (c : control) : option control := c ← read_complete c; resume_decoder c.

Definition decode_stop (cookie : Z) (c : control) : option control :=
  c ← with_audio (λ d,
        let d := on_out (set_state 0) d in
        let d := on_play (λ p, set_skip 0 (set_tracks 0 p)) d in
        run_out decode_output_end (on_out (set_first false) d)) (set_cookie (s32 cookie) c);
  Some (set_bitrate 0 (set_module None (set_decoder_state 0 c))).

Definition decode_stop_handler (c : control) : option control :=
  '(cookie, c) ← read_u32 c; c ← read_complete c; decode_stop cookie c.

(** The caller of the flush, who waits for it, is woken at the end. *)
Definition decode_flush (cookie : Z) (c : control) : option control :=
  c ← with_audio (λ d, run_out decode_output_end (on_out (set_first false) d)) (set_cookie (s32 cookie) c);
  Some (match decoder c with
        | Some (id, data) => if has_flush id then set_module (Some (id, module_flush id data)) c else c
        | None => c
        end).

Definition decode_flush_handler (c : control) : option control :=
  '(cookie, c) ← read_u32 c; c ← read_complete c; decode_flush cookie c.

Definition pause_audio (interval : Z) (c : control) : option control :=
  with_audio (λ d,
    if c_true interval then Some (on_play (set_silence (s32 interval)) d)
    else if c_true (Z.land (o_state (a_out d)) DECODE_STATE_RUNNING)
    then Some (on_out (λ o, call Pause (set_state (Z.ldiff (o_state o) DECODE_STATE_RUNNING) o)) d)
    else Some d) c.

Definition audio_pause_audio_handler (c : control) : option control :=
  '(interval, c) ← read_u32 c; c ← read_complete c; pause_audio interval c.

Definition resume_audio (start_jiffies : Z) (c : control) : option control :=
  let restore := restore_state_on_resume (c_sync c) in
  let discarded := sync_discarded_samples (c_sync c) in
  '(start_jiffies, sy) ← resume_restore (c_sync c) start_jiffies;
  with_audio (λ d,
    let d := if restore then on_play (λ p, set_start_at (start_at_jiffies p) discarded p) d else d in
    if Z.land (o_state (a_out d)) (Z.lor DECODE_STATE_RUNNING DECODE_STATE_AUTOSTART) =? 0 then
      let d := on_play (λ p, set_start_at start_jiffies (start_at_elapsed_samples p) p) d in
      Some (on_out (λ o, call Resume (set_state DECODE_STATE_AUTOSTART o)) d)
    else Some d) (set_sync sy c).

Definition decode_resume_audio_handler (c : control) : option control :=
  '(start_jiffies, m) ← mqueue_read_u64 big (c_mq c);
  c ← read_complete (set_mq m c);
  resume_audio start_jiffies c.

Fixpoint read_params (n : nat) (c : control) : option (list Z * control) :=
  match n with
  | O => Some ([], c)
  | S n => '(x, m) ← mqueue_read_u8 big (c_mq c); '(l, c) ← read_params n (set_mq m c); Some (x :: l, c)
  end.

(** decode_play_start of decode_play.c, called by decode_output_begin. *)
Definition play_begin (d : decode_audio) : option decode_audio :=
  d ← run_out decode_output_begin d;
  Some (on_play (set_rate (track_sample_rate (o_track (a_out d)))) d).

(** The arguments of a start besides the decoder and its parameters. *)
Record start_args := mk_start {
  transition_type : Z;
  transition_period : Z;
  replay_gain : Z;
  threshold : Z;
  polarity_inversion : Z;
  channels : Z
}.

Definition decode_start (decoder_id : Z) (a : start_args) (params : list Z) (c : control) : option control :=
  if negb (existsb (Z.eqb decoder_id) all_decoders) then Some (set_module None c) else
  let d := on_out (λ o,
    let o := decode_output_set_transition (transition_type a) (transition_period a) (set_first true o) in
    let o := decode_output_set_track_gain (replay_gain a) o in
    let o := decode_set_track_polarity_inversion (u8 (polarity_inversion a)) o in
    decode_set_output_channels (u8 (channels a)) o) (c_da c) in
  let c := set_module (Some (decoder_id, module_start decoder_id params)) (set_da d c) in
  with_audio (λ d, play_begin (on_play (set_threshold (threshold a)) d)) c.

Definition decode_start_handler (c : control) : option control :=
  '(decoder_id, c) ← read_u32 c;
  '(ty, c) ← read_u32 c;
  '(period, c) ← read_u32 c;
  '(gain, c) ← read_u32 c;
  '(thr, c) ← read_u32 c;
  '(inversion, c) ← read_u32 c;
  '(chans, c) ← read_u32 c;
  '(num_params, c) ← read_u32 c;
  '(params, c) ← read_params (Z.to_nat (Z.min num_params DECODER_MAX_PARAMS)) c;
  c ← read_complete c;
  decode_start decoder_id (mk_start ty period gain thr inversion chans) params c.

Definition st_end (c : control) : option control :=
  Some (set_sync (set_sb (streambuf_set_streaming (a_sb (c_sync c)) false) (c_sync c)) c).

Definition decode_st_end_handler (c : control) : option control := c ← read_complete c; st_end c.

Definition skip_ahead_us (interval : Z) (c : control) : option control :=
  with_audio (λ d, Some (on_play (set_skip
    (samples_to_bytes (u32 (interval * track_sample_rate (o_track (a_out d)) / (1000 * 1000))))) d)) c.

Definition decode_skip_ahead_handler (c : control) : option control :=
  '(interval, c) ← read_u32 c; c ← read_complete c; skip_ahead_us interval c.

Definition handle (p : audio_op) : control → option control :=
  match p with
  | DECODE_RESUME_DECODER_OP => decode_resume_decoder_handler
  | DECODE_STOP_OP => decode_stop_handler
  | DECODE_FLUSH_OP => decode_flush_handler
  | AUDIO_PAUSE_AUDIO_OP => audio_pause_audio_handler
  | DECODE_RESUME_AUDIO_OP => decode_resume_audio_handler
  | DECODE_START_OP => decode_start_handler
  | DECODE_ST_END_OP => decode_st_end_handler
  | DECODE_SKIP_AHEAD_OP => decode_skip_ahead_handler
  end.

(** ** The decode thread *)

(** Whether to decode now, and the milliseconds to wait for a message. *)
Definition audio_decode_timer_interval (c : control) : option (bool * Z * control) :=
  let st := current_decoder_state c in
  let streaming := streambuf_is_streaming (a_sb (c_sync c)) in
  let underrun := c_true (Z.land st DECODE_STATE_UNDERRUN) in
  match decoder c with
  | None => Some (false, DECODE_MAX_INTERVAL, c)
  | Some (id, data) =>
      if (negb streaming && underrun)
         || negb (Z.land st (Z.lor DECODE_STATE_RUNNING DECODE_STATE_ERROR) =? DECODE_STATE_RUNNING)
      then Some (false, DECODE_MAX_INTERVAL, c) else
      if streaming && underrun then Some (true, DECODE_WAIT_INTERVAL, c) else
      '(wait, sb) ← streambuf_would_wait_for (a_sb (c_sync c)) 1;
      let c := set_sync (set_sb sb (c_sync c)) c in
      if wait : bool then Some (false, DECODE_WAIT_INTERVAL, c) else
      '(wait, c) ← (if id =? decode_flac then
                      '(wait, sb) ← streambuf_would_wait_for (a_sb (c_sync c)) DECODE_MINIMUM_BYTES_FLAC;
                      Some (wait, set_sync (set_sb sb (c_sync c)) c)
                    else Some (false, c));
      if wait : bool then Some (false, DECODE_WAIT_INTERVAL, c) else
      let max_samples := module_samples id data in
      let sample_rate := track_sample_rate (o_track (a_out (c_da c))) in
      free_bytes ← fifo_bytes_free (fifo_lock 0 (o_fifo (a_out (c_da c)))).2;
      c ← with_audio Some c;
      if samples_to_bytes max_samples <? free_bytes then Some (true, 0, c)
      else if sample_rate =? 0 then None
      else Some (false, u32 (u32 (u32 (max_samples * 1000) / sample_rate + 1) * 2), c)
  end.

(** One message: its code is read and its handler runs.  An unknown operation
    calls no handler, which ends the process.  [wait] is what happens in a wait
    for a signal. *)
Definition thread_message (wait : Z * Z → fifo * list Z → Z * (fifo * list Z)) (delay : Z) (c : control) : option (bool * control) :=
  '(encoded_op, m) ← mqueue_read_request big 0 wait 1 0 0 (c_mq c) delay;
  let c := set_mq m c in
  if encoded_op =? 0 then Some (false, c) else
  p ← (decode_audio_op encoded_op).1.1;
  c ← handle p c;
  Some (true, c).

(** A command that is next in the stream moves to the message queue. *)
Definition inline_command (c : control) : option (bool * control) :=
  '(encoded_op, sb) ← streambuf_cmd_ready big (a_sb (c_sync c));
  let c := set_sync (set_sb sb (c_sync c)) c in
  if encoded_op =? 0 then Some (false, c) else
  let cmd_size := (decode_audio_op encoded_op).1.2 in
  if 128 <? cmd_size then Some (true, c) else
  '(deqed, data, sb) ← streambuf_cmd_deq (a_sb (c_sync c)) cmd_size;
  let c := set_sync (set_sb sb (c_sync c)) c in
  if deqed =? 0 then Some (true, c) else
  '(_, sb) ← streambuf_discard (a_sb (c_sync c)) cmd_size false;
  let c := set_sync (set_sb sb (c_sync c)) c in
  '(ok, m) ← mqueue_write_request big 0 (c_mq c) encoded_op cmd_size;
  if negb ok then None else
  let cmd_size := u16 (cmd_size - 4) in
  m ← (if cmd_size =? 0 then Some m else mqueue_write_array m (take (Z.to_nat cmd_size) (drop 4 data)));
  m ← mqueue_write_complete m;
  Some (true, set_mq m c).

(** ** The clients *)

(** A message to the queue, dropped when the queue says it is full; [len] is
    the room asked for. *)
Definition send (op len : Z) (write : mqueue → option mqueue) (c : control) : option (bool * control) :=
  '(ok, m) ← mqueue_write_request big 0 (c_mq c) (encode_audio_op op 0) len;
  if negb ok then Some (false, set_mq m c) else
  m ← write m;
  m ← mqueue_write_complete m;
  Some (true, set_mq m c).

Definition audio_decoder_stop (cookie : Z) (c : control) : option control :=
  '(ok, m) ← mqueue_write_request big 0 (c_mq c) (encode_audio_op 2 0) 0;
  let c := set_mq m c in
  if negb ok then Some c else
  c ← with_audio (λ d, Some (on_out (λ o, set_state (Z.lor (o_state o) DECODE_STATE_STOPPING) o) d)) c;
  m ← mqueue_write_u32 big (c_mq c) (u32 cookie);
  m ← mqueue_write_complete m;
  Some (set_mq m c).

(** Up to the wait for the handler; a full queue aborts. *)
Definition audio_decoder_flush (cookie : Z) (c : control) : option control :=
  '(ok, c) ← send 3 0 (λ m, mqueue_write_u32 big m (u32 cookie)) c;
  if ok : bool then Some c else None.

Definition audio_pause (interval_ms : Z) (c : control) : option control :=
  '(_, c) ← send 4 4 (λ m, mqueue_write_u32 big m interval_ms) c; Some c.

Definition audio_resume (start_jiffies : Z) (c : control) : option control :=
  '(_, c) ← send 5 4 (λ m, mqueue_write_u64 big m start_jiffies) c; Some c.

Definition audio_skip_ahead (interval_us : Z) (c : control) : option control :=
  '(_, c) ← send 8 4 (λ m, mqueue_write_u32 big m interval_us) c; Some c.

(** A command to the stream: the code with its size, then the words. *)
Definition stream_command (op : Z) (words : list Z) (c : control) : option control :=
  let size := 4 + 4 * Z.of_nat (length words) in
  '(_, sb) ← streambuf_cmd_enq (a_sb (c_sync c)) (native big 4 (encode_audio_op op size) ++ Endian.words big words);
  Some (set_sync (set_sb sb (c_sync c)) c).

Definition audio_decoder_resume (c : control) : option control := stream_command 1 [] c.
Definition audio_decoder_st_end (c : control) : option control := stream_command 7 [] c.

Definition audio_wakeup_decode_thread (c : control) : option control :=
  let m := mk_mqueue (mq_buffer (c_mq c)) (fifo_lock 0 (mq_fifo (c_mq c))).2 in
  m ← mqueue_write_complete m;
  Some (set_mq m c).

Definition audio_decoder_start (id transition_type transition_period replay_gain threshold polarity_inversion channels : Z)
    (c : control) : option control :=
  let c := set_decoder_state 0 c in
  c ← stream_command 6 [id; transition_type; transition_period; replay_gain; threshold; polarity_inversion; channels; 0] c;
  audio_wakeup_decode_thread c.

Definition audio_gain (gain : Z) (c : control) : option control :=
  if (gain <? 0) || (Z.shiftl 1 16 <? gain) then Some c
  else with_audio (λ d, Some (on_play (set_gains gain) d)) c.

Definition audio_adjust_gain (gain_delta : Z) (c : control) : option control :=
  if (gain_delta <? - Z.shiftl 1 16) || (Z.shiftl 1 16 <? gain_delta) then Some c else
  with_audio (λ d,
    let new_gain := s32 (lgain (a_play d) + gain_delta) in
    let new_gain := if Z.shiftl 1 16 <? new_gain then Z.shiftl 1 16 else new_gain in
    let new_gain := if new_gain <? 0 then 0 else new_gain in
    Some (on_play (set_gains new_gain) d)) c.
End Control.

Arguments control D : clear implicits.
