(* ===== verification/AudioOps.v ===== *)
(** The operation codes of audio.c: a code names its operation and size on
    any machine, whatever its byte order. *)

From S2P Require Import Prelude Checksum Endian AudioControl.

Lemma lor_low h l n : 0 <= n → 0 <= l < 2 ^ n → Z.lor (h * 2 ^ n) l = h * 2 ^ n + l.
Proof.
  intros Hn Hl. assert (H0 : Z.land (h * 2 ^ n) l = 0).
  { rewrite <- Z.shiftl_mul_pow2 by done. apply Z.bits_inj'. intros i Hi. rewrite Z.land_spec, Z.bits_0.
    destruct (Z.lt_ge_cases i n); [by rewrite Z.shiftl_spec_low|by rewrite (testbit_small l n), andb_false_r]. }
  rewrite <- Z.lxor_lor, <- Z.add_nocarry_lxor by done. done.
Qed.

Lemma land_ff x : Z.land x 0xff = x mod 256.
Proof. change 0xff with (Z.ones 8). by rewrite Z.land_ones. Qed.

Lemma land_ff00 x : Z.land x 0xff00 = (x / 256) mod 256 * 2 ^ 8.
Proof.
  rewrite <- land_ff. change 256 with (2 ^ 8). rewrite <- Z.shiftl_mul_pow2, <- Z.shiftr_div_pow2, Z.shiftl_land by lia.
  rewrite <- Z.ldiff_ones_r, Z.ldiff_land, <- Z.land_assoc by lia. reflexivity.
Qed.

(** The number with bytes [a], [b], [c], [d]. *)
Definition code4 (a b c d : Z) : Z := ((a * 256 + b) * 256 + c) * 256 + d.

Lemma bswap_code4 a b c d : is_u8 a → is_u8 b → is_u8 c → is_u8 d → bswap_32 (code4 a b c d) = code4 d c b a.
Proof.
  unfold is_u8, code4. intros Ha Hb Hc Hd. unfold bswap_32. rewrite !land_ff, !land_ff00, !Z.shiftl_mul_pow2, !Z.shiftr_div_pow2 by lia.
  set (x := ((a * 256 + b) * 256 + c) * 256 + d).
  assert (Hx0 : x mod 256 = d) by (unfold x; rewrite Z.add_comm, Z.mod_add, Z.mod_small by lia; done).
  assert (Hx1 : (x / 256) mod 256 = c).
  { unfold x. rewrite Z.div_add_l, (Z.div_small d), Z.add_0_r by lia. by rewrite Z.add_comm, Z.mod_add, Z.mod_small by lia. }
  assert (Hx2 : (x / 2 ^ 8 / 256) mod 256 = b).
  { unfold x. rewrite Z.div_add_l, (Z.div_small d), Z.add_0_r, Z.div_add_l, (Z.div_small c), Z.add_0_r by lia.
    by rewrite Z.add_comm, Z.mod_add, Z.mod_small by lia. }
  assert (Hx3 : (x / 2 ^ 24) mod 256 = a).
  { replace (2 ^ 24) with (256 * 256 * 256) by lia. rewrite <- !Z.div_div by lia. unfold x.
    rewrite Z.div_add_l, (Z.div_small d), Z.add_0_r, Z.div_add_l, (Z.div_small c), Z.add_0_r, Z.div_add_l, (Z.div_small b), Z.add_0_r by lia.
    by rewrite Z.mod_small by lia. }
  rewrite Hx0, Hx1, Hx2, Hx3. replace (c * 2 ^ 8 * 2 ^ 8) with (c * 2 ^ 16) by lia.
  rewrite (lor_low d) by lia. rewrite (lor_low b) by lia.
  replace (d * 2 ^ 24 + c * 2 ^ 16) with ((d * 256 + c) * 2 ^ 16) by lia. rewrite lor_low by lia. lia.
Qed.

Lemma encode_code4 op size : 0 <= op <= 127 → is_u16 size → encode_audio_op op size = code4 0x80 (size / 256) (size mod 256) op.
Proof.
  unfold is_u16. intros Ho Hs. unfold encode_audio_op, code4. destruct (_ <? op) eqn:E; bool_prop; [lia|].
  rewrite Z.shiftl_mul_pow2 by lia. change AUDIO_OP_THIS_ENDIAN with (0x80 * 2 ^ 24). rewrite (lor_low 0x80) by lia.
  replace (0x80 * 2 ^ 24 + size * 2 ^ 8) with ((0x80 * 2 ^ 16 + size) * 2 ^ 8) by lia. rewrite lor_low by lia.
  pose proof (Z.div_mod size 256). lia.
Qed.

Lemma top_bit a b c d : is_u8 a → is_u8 b → is_u8 c → is_u8 d → (Z.land (code4 a b c d) AUDIO_OP_THIS_ENDIAN =? 0) = (a <? 128).
Proof.
  unfold is_u8, code4. intros Ha Hb Hc Hd. change AUDIO_OP_THIS_ENDIAN with (2 ^ 31).
  pose proof (c_true_land_pow2 (code4 a b c d) 31) as H. unfold c_true, code4 in H. specialize (H ltac:(lia)).
  rewrite <- (negb_involutive (_ =? 0)), H. rewrite Z.testbit_odd, Z.shiftr_div_pow2 by lia.
  replace (2 ^ 31) with (256 * 256 * 256 * 128) by lia. rewrite <- !Z.div_div by lia.
  rewrite Z.div_add_l, (Z.div_small d), Z.add_0_r, Z.div_add_l, (Z.div_small c), Z.add_0_r, Z.div_add_l, (Z.div_small b), Z.add_0_r by lia.
  destruct (a <? 128) eqn:E; bool_prop; [by rewrite Z.div_small by lia|]. assert (a / 128 = 1) as -> by (Z.to_euclidean_division_equations; lia). done.
Qed.

(** What decoding finds once the code is in this machine's order. *)
Lemma decode_native p b c : is_u8 b → is_u8 c →
  op_of (Z.land (code4 0x80 b c (op_num p)) 0xff) = Some p ∧ u16 (Z.shiftr (code4 0x80 b c (op_num p)) 8) = b * 256 + c.
Proof.
  unfold is_u8. intros Hb Hc. assert (Hp : 0 <= op_num p < 256) by (destruct p; cbn; lia). split.
  - rewrite land_ff. unfold code4. rewrite Z.add_comm, Z.mod_add, Z.mod_small by lia. by destruct p.
  - rewrite Z.shiftr_div_pow2 by lia. unfold code4, u16. change (2 ^ 8) with 256.
    rewrite Z.div_add_l, (Z.div_small (op_num p)), Z.add_0_r by lia.
    replace ((128 * 256 + b) * 256 + c) with (b * 256 + c + 128 * 65536) by lia. by rewrite Z.mod_add, Z.mod_small by lia.
Qed.

(** What a machine of byte order [big'] loads from the four bytes that one of
    order [big] stored. *)
Definition received (big big' : bool) (code : Z) : Z := native_val big' (native big 4 code).

Lemma le_bytes_code4 a b c d : is_u8 a → is_u8 b → is_u8 c → is_u8 d → le_bytes 4 (code4 a b c d) = [d; c; b; a].
Proof.
  unfold is_u8, code4. intros Ha Hb Hc Hd. cbn [le_bytes].
  rewrite Z.div_add_l, (Z.div_small d), Z.add_0_r, Z.div_add_l, (Z.div_small c), Z.add_0_r, Z.div_add_l, (Z.div_small b), Z.add_0_r by lia.
  rewrite !(Z.add_comm (_ * 256)), !Z.mod_add, !Z.mod_small by lia. done.
Qed.

Lemma received_code4 big big' a b c d : is_u8 a → is_u8 b → is_u8 c → is_u8 d →
  received big big' (code4 a b c d) = if Bool.eqb big big' then code4 a b c d else code4 d c b a.
Proof.
  intros Ha Hb Hc Hd. unfold received, native, native_val. rewrite le_bytes_code4 by done.
  destruct big, big'; cbn; unfold code4; lia.
Qed.

(** Operation codes survive a change of byte order: the bytes of a code
    stored on a machine of either byte order name, on a machine of either
    order, the same operation and the same size, and the receiver swaps exactly
    when the orders differ; for every operation and every 16-bit size. *)
Theorem audio_op_any_endian big big' p size : is_u16 size →
  decode_audio_op (received big big' (encode_audio_op (op_num p) size)) = (Some p, size, negb (Bool.eqb big big')).
Proof.
  intros Hs. assert (Hp : 0 <= op_num p <= 127) by (destruct p; cbn; lia). rewrite encode_code4 by done.
  assert (Hh : is_u8 (size / 256) ∧ is_u8 (size mod 256)) by (unfold is_u8, is_u16 in *; Z.to_euclidean_division_equations; lia).
  destruct Hh as [Hh Hl]. assert (Ho : is_u8 (op_num p)) by (unfold is_u8; lia). assert (H8 : is_u8 0x80) by (unfold is_u8; lia).
  destruct (decode_native p _ _ Hh Hl) as [Hk Hz].
  replace (size / 256 * 256 + size mod 256) with size in Hz by (pose proof (Z.div_mod size 256); lia).
  rewrite received_code4 by done. unfold decode_audio_op. destruct (Bool.eqb big big'); rewrite !top_bit by done.
  - replace (128 <? 128) with false by reflexivity. by rewrite Hk, Hz.
  - destruct (op_num p <? 128) eqn:E; bool_prop; [|lia]. by rewrite bswap_code4, Hk, Hz by done.
Qed.

Lemma audio_op_any_endian_witness :
  decode_audio_op (received true false (encode_audio_op (op_num DECODE_START_OP) 36)) = (Some DECODE_START_OP, 36, true).
Proof. apply (audio_op_any_endian true false DECODE_START_OP 36). unfold is_u16. lia. Defined.
