(* ===== verification/AudioCommands.v ===== *)
(** The commands of audio.c from the clients to their handlers: through the
    message queue, and for those that belong to a place in the stream through
    the stream buffer first. *)

From S2P Require Import Prelude Endian Ring Fifo2 AudioFifo Mqueue Streambuf StreambufSpec StreambufRefines AudioSync.
From S2P Require Import DecodeOutput Playback AudioControl AudioOps.

Inductive command :=
  | QResumeDecoder
  | QStop (cookie : Z)
  | QFlush (cookie : Z)
  | QPause (interval : Z)
  | QResumeAudio (jiffies : Z)
  | QStart (id : Z) (a : start_args)
  | QStEnd
  | QSkipAhead (interval : Z).

Definition cmd_op (k : command) : audio_op :=
  match k with
  | QResumeDecoder => DECODE_RESUME_DECODER_OP
  | QStop _ => DECODE_STOP_OP
  | QFlush _ => DECODE_FLUSH_OP
  | QPause _ => AUDIO_PAUSE_AUDIO_OP
  | QResumeAudio _ => DECODE_RESUME_AUDIO_OP
  | QStart _ _ => DECODE_START_OP
  | QStEnd => DECODE_ST_END_OP
  | QSkipAhead _ => DECODE_SKIP_AHEAD_OP
  end.

Definition start_words (id : Z) (a : start_args) : list Z :=
  [id; transition_type a; transition_period a; replay_gain a; threshold a; polarity_inversion a; channels a; 0].

Definition cmd_fields (k : command) : list field :=
  match k with
  | QResumeDecoder | QStEnd => []
  | QStop v | QFlush v | QPause v | QSkipAhead v => [F32 v]
  | QResumeAudio v => [F64 v]
  | QStart id a => F32 <$> start_words id a
  end.

(** The size in the code: that of the command in the stream, 0 in the queue. *)
Definition cmd_size (k : command) : Z :=
  match k with QResumeDecoder | QStEnd => 4 | QStart _ _ => 36 | _ => 0 end.

Definition cmd_msg (k : command) : msg := mk_msg (encode_audio_op (op_num (cmd_op k)) (cmd_size k)) (cmd_fields k).

Definition cmd_ok (k : command) : Prop := Forall field_ok (cmd_fields k).

Lemma cmd_size_u16 k : is_u16 (cmd_size k).
Proof. unfold is_u16. destruct k; cbn; lia. Qed.

(** A code is not zero, and within 32 bits. *)
Lemma cmd_code k : 0 < code (cmd_msg k) < 2 ^ 32.
Proof. destruct k; vm_compute; done. Qed.

Lemma cmd_decoded k : decode_audio_op (code (cmd_msg k)) = (Some (cmd_op k), cmd_size k, false).
Proof. destruct k; vm_compute; reflexivity. Qed.

Section Commands.
Context (big : bool) {D : Type}.
Context (module_start : Z → list Z → D) (module_flush : Z → D → D).

(** What a command does once its turn comes. *)
Definition effect (k : command) (c : control D) : option (control D) :=
  match k with
  | QResumeDecoder => resume_decoder c
  | QStop v => decode_stop v c
  | QFlush v => decode_flush module_flush v c
  | QPause v => pause_audio v c
  | QResumeAudio v => resume_audio v c
  | QStart id a => decode_start module_start id a [] c
  | QStEnd => st_end c
  | QSkipAhead v => skip_ahead_us v c
  end.

(** ** The thread reads a command *)

Lemma read32_rep m v l : mq_locked m = true → is_u32 v → mq_rep m (native big 4 v ++ l) →
  ∃ m', mqueue_read_u32 big m = Some (v, m') ∧ mq_next m m' true l.
Proof.
  intros Hl Hv H. destruct (read_u_rep big m 4 v l Hl H) as (m' & Hm & Hn). exists m'. unfold mqueue_read_u32. rewrite Hm.
  cbn [mbind option_bind]. unfold is_u32 in Hv. rewrite native_val_native by (cbn; lia). done.
Qed.

Lemma read64_rep m v l : mq_locked m = true → 0 <= v < 2 ^ 64 → mq_rep m (native big 8 v ++ l) →
  ∃ m', mqueue_read_u64 big m = Some (v, m') ∧ mq_next m m' true l.
Proof.
  intros Hl Hv H. destruct (read_u_rep big m 8 v l Hl H) as (m' & Hm & Hn). exists m'. unfold mqueue_read_u64. rewrite Hm.
  cbn [mbind option_bind]. rewrite native_val_native by (cbn; lia). done.
Qed.

(** The queue left by a handler. *)
Definition left_with (m m' : mqueue) (l : list Z) : Prop := mq_next m m' false l.

Lemma read_u32_ctl c m v l : mq_locked m = true → is_u32 v → mq_rep m (native big 4 v ++ l) →
  ∃ m', read_u32 big (set_mq m c : control D) = Some (v, set_mq m' c) ∧ mq_next m m' true l.
Proof.
  intros Hl Hv H. destruct (read32_rep m v l Hl Hv H) as (m' & Hm & Hn). exists m'. unfold read_u32. cbn [c_mq set_mq]. by rewrite Hm.
Qed.

Lemma read_complete_ctl c m l : mq_locked m = true → mq_rep m l →
  ∃ m', read_complete (set_mq m c : control D) = Some (set_mq m' c) ∧ mq_next m m' false l.
Proof.
  intros Hl H. destruct (unlock_rep m l Hl H) as (m' & Hm & Hn). exists m'. unfold read_complete, mqueue_read_complete. cbn [c_mq set_mq]. by rewrite Hm.
Qed.

Lemma complete_handler body c m l : mq_locked m = true → mq_rep m l →
  ∃ m', (c ← read_complete (set_mq m c : control D); body c) = (body (set_mq m' c) : option (control D)) ∧ mq_next m m' false l.
Proof. intros Hl H. destruct (read_complete_ctl c m l Hl H) as (m' & Hm & Hn). exists m'. by rewrite Hm. Qed.

Lemma word_handler body c m v l : mq_locked m = true → is_u32 v → mq_rep m (native big 4 v ++ l) →
  ∃ m', ('(v, c) ← read_u32 big (set_mq m c : control D); c ← read_complete c; body v c) = (body v (set_mq m' c) : option (control D))
    ∧ mq_next m m' false l.
Proof.
  intros Hl Hv H. destruct (read_u32_ctl c m v l Hl Hv H) as (m1 & -> & (Hr1 & Hl1 & Hs1)). cbn [mbind option_bind].
  destruct (complete_handler (body v) c m1 l Hl1 Hr1) as (m2 & -> & (Hr2 & Hl2 & Hs2)). exists m2. split; [done|].
  split_and!; [done|done|congruence].
Qed.

(** One more argument of a start. *)
Ltac read_arg c Hl Hr m' Hl' Hr' Hs' :=
  match type of Hr with mq_rep _ (native _ _ ?v ++ ?l) =>
    let Hv := fresh in assert (Hv : is_u32 v) by done;
    let Hm := fresh in
    destruct (read_u32_ctl c _ v l Hl Hv Hr) as (m' & Hm & (Hr' & Hl' & Hs')); rewrite Hm; cbn [mbind option_bind]; clear Hm Hv
  end.

Lemma start_handler_spec id a m c l : Forall field_ok (F32 <$> start_words id a) → mq_locked m = true →
  mq_rep m (((F32 <$> start_words id a) ≫= field_bytes big) ++ l) →
  ∃ m', decode_start_handler big module_start (set_mq m c) = decode_start module_start id a [] (set_mq m' c) ∧ mq_next m m' false l.
Proof.
  intros Hk Hl Hr. destruct a as [ty per rg th pol ch]. cbn [start_words fmap list_fmap transition_type transition_period replay_gain threshold polarity_inversion channels] in *.
  repeat rewrite ?bind_cons, <- ?app_assoc in Hr. cbn [mbind list_bind app field_bytes] in Hr.
  repeat match goal with H : Forall _ (_ :: _) |- _ => apply Forall_cons in H as [? H] end. cbn [field_ok] in *.
  unfold decode_start_handler.
  read_arg c Hl Hr m1 Hl1 Hr1 Hs1. read_arg c Hl1 Hr1 m2 Hl2 Hr2 Hs2. read_arg c Hl2 Hr2 m3 Hl3 Hr3 Hs3. read_arg c Hl3 Hr3 m4 Hl4 Hr4 Hs4.
  read_arg c Hl4 Hr4 m5 Hl5 Hr5 Hs5. read_arg c Hl5 Hr5 m6 Hl6 Hr6 Hs6. read_arg c Hl6 Hr6 m7 Hl7 Hr7 Hs7. read_arg c Hl7 Hr7 m8 Hl8 Hr8 Hs8.
  change (Z.to_nat (Z.min 0 DECODER_MAX_PARAMS)) with 0%nat. cbn [read_params mbind option_bind].
  destruct (complete_handler (decode_start module_start id (mk_start ty per rg th pol ch) []) c m8 l Hl8 Hr8) as (m9 & -> & (Hr9 & Hl9 & Hs9)).
  exists m9. split; [done|]. split_and!; [done|done|congruence].
Qed.

Lemma handle_spec k m c l : cmd_ok k → mq_locked m = true → mq_rep m ((cmd_fields k ≫= field_bytes big) ++ l) →
  ∃ m', handle big module_start module_flush (cmd_op k) (set_mq m c) = effect k (set_mq m' c) ∧ mq_next m m' false l.
Proof.
  intros Hk Hl Hr. unfold cmd_ok in Hk. destruct k as [|v|v|v|v|id a| |v]; cbn [cmd_op handle effect].
  6: by apply start_handler_spec.
  all: cbn [cmd_fields] in Hk, Hr; repeat rewrite ?bind_cons, <- ?app_assoc in Hr; cbn [mbind list_bind app field_bytes] in Hr.
  all: repeat match goal with H : Forall _ (_ :: _) |- _ => apply Forall_cons in H as [? H] end; cbn [field_ok] in *.
  1, 6: by apply complete_handler.
  1-3, 5: by apply word_handler.
  destruct (read64_rep m v l Hl ltac:(done) Hr) as (m1 & H1 & (Hr1 & Hl1 & Hs1)). unfold decode_resume_audio_handler. cbn [c_mq set_mq].
  rewrite H1. cbn [mbind option_bind]. destruct (complete_handler (resume_audio v) c m1 l Hl1 Hr1) as (m2 & H2 & (Hr2 & Hl2 & Hs2)).
  exists m2. split; [exact H2|]. split_and!; [done|done|congruence].
Qed.

(** A thread that does not wait. *)
Definition no_wait (_ : Z * Z) (s : fifo * list Z) : Z * (fifo * list Z) := (0, s).

(** The first command of the queue runs; without one, nothing happens, however
    long the thread waits. *)
Lemma thread_spec delay c q : mq_locked (c_mq c) = false → mq_holds big (c_mq c) (cmd_msg <$> q) → Forall cmd_ok q →
  match q with
  | [] => ∃ m', thread_message big module_start module_flush no_wait delay c = Some (false, set_mq m' c) ∧ mq_next (c_mq c) m' false []
  | k :: q' => ∃ m', thread_message big module_start module_flush no_wait delay c = (c ← effect k (set_mq m' c); Some (true, c)) ∧
      mq_holds big m' (cmd_msg <$> q') ∧ mq_locked m' = false ∧ mq_size m' = mq_size (c_mq c)
  end.
Proof.
  intros Hl H Hq. unfold thread_message, mqueue_read_request, fifo_lock. cbv beta iota. change (0 =? -1) with false. cbv beta iota.
  set (m0 := mk_mqueue (mq_buffer (c_mq c)) (f_set_lock true (mq_fifo (c_mq c)))).
  assert (H0 : mq_rep m0 ((cmd_msg <$> q) ≫= msg_bytes big)) by done. rewrite (used_rep m0 _ eq_refl H0). cbn [mbind option_bind].
  destruct q as [|k q]; cbn [fmap list_fmap] in *.
  - cbn [mbind list_bind length Z.of_nat c_true Z.eqb negb]. destruct (unlock_rep m0 [] eq_refl H0) as (m1 & Hu & Hn). exists m1.
    destruct (delay =? 0); [by rewrite Hu|]. unfold fifo_wait_timeout, f_locked. cbn [fst snd m0 mq_fifo mq_buffer f_lock f_set_lock negb].
    cbn [fifo_timedwait no_wait mbind option_bind fst snd]. change (0 =? EINTR) with false. cbn [mbind option_bind].
    change (0 =? ETIMEDOUT) with false. change (0 =? 0) with true. cbn [negb].
    change (mk_mqueue _ _) with m0. change (f_set_lock true _) with (mq_fifo m0). rewrite (used_rep m0 _ eq_refl H0). cbn [mbind option_bind list_bind length Z.of_nat c_true Z.eqb negb].
    by rewrite Hu.
  - rewrite bind_cons in H0 |- *. unfold msg_bytes at 1 in H0. unfold c_true. destruct (_ =? 0) eqn:E; bool_prop.
    { rewrite length_app in E. unfold msg_bytes at 1 in E. rewrite length_app, length_native in E. lia. }
    cbn [negb]. rewrite <- app_assoc in H0. destruct (read_u_rep big m0 4 _ _ eq_refl H0) as (m1 & -> & (Hr1 & Hl1 & Hs1)). cbn [mbind option_bind].
    pose proof (cmd_code k). rewrite native_val_native by (change (256 ^ Z.of_nat 4) with (2 ^ 32); lia). destruct (_ =? 0) eqn:E0; bool_prop; [lia|].
    apply Forall_cons in Hq as [Hk Hq]. rewrite cmd_decoded. cbn [fst mbind option_bind].
    destruct (handle_spec k m1 c _ Hk Hl1 Hr1) as (m2 & -> & (Hr2 & Hl2 & Hs2)). exists m2. split_and!; [done|done|done|by rewrite Hs2, Hs1].
Qed.

(** ** The clients *)

Definition client (k : command) (c : control D) : option (control D) :=
  match k with
  | QResumeDecoder => audio_decoder_resume big c
  | QStop v => audio_decoder_stop big v c
  | QFlush v => audio_decoder_flush big v c
  | QPause v => audio_pause big v c
  | QResumeAudio v => audio_resume big v c
  | QStart id a => audio_decoder_start big id (transition_type a) (transition_period a) (replay_gain a) (threshold a)
                     (polarity_inversion a) (channels a) c
  | QStEnd => audio_decoder_st_end big c
  | QSkipAhead v => audio_skip_ahead big v c
  end.

(** The commands that go to the queue at once. *)
Definition queued (k : command) : bool := match k with QResumeDecoder | QStart _ _ | QStEnd => false | _ => true end.

(** What a client changes besides queueing its command. *)
Definition now (k : command) (c : control D) : option (control D) :=
  match k with
  | QStop _ => with_audio (λ d, Some (on_out (λ o, set_state (Z.lor (o_state o) DECODE_STATE_STOPPING) o) d)) c
  | _ => Some c
  end.

Lemma with_audio_mq f m c : with_audio f (set_mq m c : control D) = set_mq m <$> with_audio f c.
Proof.
  unfold with_audio. cbn [c_da set_mq]. destruct (f _) as [d|]; [|done]. cbn [mbind option_bind].
  by destruct (unlock (a_out d)).
Qed.

Lemma set_cookie_mq v m c : set_cookie v (set_mq m c : control D) = set_mq m (set_cookie v c).
Proof. done. Qed.

(** The queue has no part in the work of a command. *)
Lemma effect_mq k m c : effect k (set_mq m c) = set_mq m <$> effect k c.
Proof.
  destruct k as [|v|v|v|v|id a| |v]; cbn [effect].
  - reflexivity.
  - unfold decode_stop. rewrite set_cookie_mq, with_audio_mq. by destruct (with_audio _ (set_cookie _ c)).
  - unfold decode_flush. rewrite set_cookie_mq, with_audio_mq.
    destruct (with_audio _ (set_cookie _ c)) as [c1|]; [|done]. cbn [fmap option_fmap option_map mbind option_bind decoder set_mq].
    destruct (decoder c1) as [[id dat]|]; [|done]. by destruct (has_flush id).
  - apply with_audio_mq.
  - unfold resume_audio. cbn [c_sync set_mq]. destruct (resume_restore _ v) as [[j sy]|]; [|done]. cbn [mbind option_bind].
    change (set_sync sy (set_mq m c)) with (set_mq m (set_sync sy c)). apply with_audio_mq.
  - unfold decode_start. destruct (negb _); [done|]. cbv zeta. cbn [c_da set_mq].
    match goal with |- context [set_module ?x (set_da ?d (set_mq m c))] =>
      change (set_module x (set_da d (set_mq m c))) with (set_mq m (set_module x (set_da d c))) end. apply with_audio_mq.
  - reflexivity.
  - apply with_audio_mq.
Qed.

Lemma send_as_fits m q x len : mq_holds big m q → msgs_len q + msg_len x < mq_size m → len <= msg_len x →
  mq_send_as big len m x = mq_send big m x.
Proof.
  intros H Hfit Hlen. unfold mq_send, mq_send_as, mqueue_write_request, fifo_lock. cbv beta iota. change (0 =? -1) with false. cbv beta iota.
  set (m0 := mk_mqueue (mq_buffer m) (f_set_lock true (mq_fifo m))). assert (H0 : mq_rep m0 (q ≫= msg_bytes big)) by done.
  rewrite (free_rep m0 _ eq_refl H0), (length_msgs big q). change (mq_size m0) with (mq_size m). cbn [mbind option_bind].
  destruct (_ <? len) eqn:E1; bool_prop; [lia|]. destruct (_ <? msg_len x) eqn:E2; bool_prop; [lia|done].
Qed.

Lemma send_sends p len f c q : mq_holds big (c_mq c) q →
  let x := mk_msg (encode_audio_op (op_num p) 0) [f] in
  msgs_len q + msg_len x < mq_size (c_mq c) → len <= msg_len x →
  ∃ m', send big (op_num p) len (λ m, write_field big m f) (c : control D) = Some (true, set_mq m' c) ∧
    mq_holds big m' (q ++ [x]) ∧ mq_locked m' = false ∧ mq_size m' = mq_size (c_mq c).
Proof.
  intros H x Hfit Hlen. destruct (send_rep big (c_mq c) q x H) as (m' & Hs & H' & Hl & Hz). unfold a_send in Hs, H'.
  destruct (_ <=? _) eqn:E; bool_prop; [|lia]. cbn [fst snd] in *. exists m'. split; [|done].
  rewrite <- (send_as_fits _ _ _ _ H Hfit Hlen) in Hs. unfold mq_send_as in Hs. unfold send. cbn [code args x] in Hs.
  destruct (mqueue_write_request _ _ _ _ _) as [[ok m1]|]; [|done]. cbn [mbind option_bind] in *. destruct ok; [|done]. cbn [negb write_fields] in *.
  destruct (write_field big m1 f) as [m2|]; [|done]. cbn [mbind option_bind] in *.
  destruct (mqueue_write_complete m2) as [m3|]; [|done]. cbn [mbind option_bind] in *. by injection Hs as ->.
Qed.

Lemma stop_sends v c q : is_u32 v → mq_holds big (c_mq c) q → msgs_len q + msg_len (cmd_msg (QStop v)) < mq_size (c_mq c) →
  ∃ m', client (QStop v) c = set_mq m' <$> now (QStop v) c ∧ mq_holds big m' (q ++ [cmd_msg (QStop v)]) ∧
    mq_locked m' = false ∧ mq_size m' = mq_size (c_mq c).
Proof.
  intros Hv H Hfit. set (x := cmd_msg (QStop v)) in *. destruct (send_rep big (c_mq c) q x H) as (m' & Hs & H' & Hl & Hz). unfold a_send in Hs, H'.
  destruct (_ <=? _) eqn:E; bool_prop; [|lia]. cbn [fst snd] in *. exists m'. split; [|done].
  rewrite <- (send_as_fits _ _ _ 0 H Hfit ltac:(done)) in Hs. unfold mq_send_as in Hs. cbn [client]. unfold audio_decoder_stop.
  change (encode_audio_op 2 0) with (code x). destruct (mqueue_write_request _ _ _ _ _) as [[ok m1]|]; [|done].
  cbn [mbind option_bind] in *. destruct ok; [|done]. cbn [negb] in *. rewrite with_audio_mq. cbn [now].
  destruct (with_audio _ c) as [c1|]; [|done]. cbn [fmap option_fmap option_map mbind option_bind c_mq set_mq].
  rewrite u32_small by done. cbn [x cmd_msg args cmd_fields write_fields write_field mbind option_bind] in Hs.
  destruct (mqueue_write_u32 big m1 v) as [m2|]; [|done]. cbn [mbind option_bind] in *.
  destruct (mqueue_write_complete m2) as [m3|]; [|done]. cbn [mbind option_bind] in *. by injection Hs as ->.
Qed.

(** A call queues its command behind the others. *)
Lemma client_spec k c q : queued k = true → cmd_ok k → mq_holds big (c_mq c) q →
  msgs_len q + msg_len (cmd_msg k) < mq_size (c_mq c) →
  ∃ m', client k c = set_mq m' <$> now k c ∧ mq_holds big m' (q ++ [cmd_msg k]) ∧ mq_locked m' = false ∧ mq_size m' = mq_size (c_mq c).
Proof.
  intros Hq Hk H Hfit. destruct k as [|v|v|v|v|id a| |v]; try done; unfold cmd_ok in Hk; cbn [cmd_fields] in Hk;
    apply Forall_cons in Hk as [Hv _]; cbn [field_ok] in Hv; [by apply stop_sends|..]; cbn [client now fmap option_fmap option_map].
  - destruct (send_sends DECODE_FLUSH_OP 0 (F32 v) c q H Hfit ltac:(done)) as (m' & Hs & Hr). exists m'. split; [|exact Hr].
    unfold audio_decoder_flush. rewrite u32_small by done. cbn [write_field op_num] in Hs. by rewrite Hs.
  - destruct (send_sends AUDIO_PAUSE_AUDIO_OP 4 (F32 v) c q H Hfit ltac:(done)) as (m' & Hs & Hr). exists m'. split; [|exact Hr].
    unfold audio_pause. cbn [write_field op_num] in Hs. by rewrite Hs.
  - destruct (send_sends DECODE_RESUME_AUDIO_OP 4 (F64 v) c q H Hfit ltac:(done)) as (m' & Hs & Hr). exists m'. split; [|exact Hr].
    unfold audio_resume. cbn [write_field op_num] in Hs. by rewrite Hs.
  - destruct (send_sends DECODE_SKIP_AHEAD_OP 4 (F32 v) c q H Hfit ltac:(done)) as (m' & Hs & Hr). exists m'. split; [|exact Hr].
    unfold audio_skip_ahead. cbn [write_field op_num] in Hs. by rewrite Hs.
Qed.

(** The room a client asks the queue for, less than its message takes. *)
Definition asked (k : command) : Z := match k with QStop _ | QFlush _ => 0 | _ => 4 end.

Lemma write_refused m q x len : mq_holds big m q → mq_size m - 1 - msgs_len q < len →
  ∃ m', mqueue_write_request big 0 m x len = Some (false, m') ∧ mq_holds big m' q ∧ mq_locked m' = false ∧ mq_size m' = mq_size m.
Proof.
  intros H Hlen. unfold mqueue_write_request, fifo_lock. cbv beta iota. change (0 =? -1) with false. cbv beta iota.
  set (m0 := mk_mqueue (mq_buffer m) (f_set_lock true (mq_fifo m))). assert (H0 : mq_rep m0 (q ≫= msg_bytes big)) by done.
  rewrite (free_rep m0 _ eq_refl H0), (length_msgs big q). change (mq_size m0) with (mq_size m). cbn [mbind option_bind].
  destruct (_ <? len) eqn:E; bool_prop; [|lia]. destruct (unlock_rep m0 _ eq_refl H0) as (m' & -> & (H1 & H2 & H3)). by exists m'.
Qed.

Lemma holds_room m q : mq_holds big m q → 0 <= mq_size m - 1 - msgs_len q.
Proof. intros H. mq_bounds H. rewrite (length_msgs big q) in Hroom. unfold mq_size. lia. Qed.

(** A call for which there is less room than it asks for leaves no trace. *)
Lemma client_refused k c q : queued k = true → mq_holds big (c_mq c) q → mq_size (c_mq c) - 1 - msgs_len q < asked k →
  ∃ m', client k c = Some (set_mq m' c) ∧ mq_holds big m' q ∧ mq_locked m' = false ∧ mq_size m' = mq_size (c_mq c).
Proof.
  intros Hq H Hlen. pose proof (holds_room _ _ H). destruct k as [|v|v|v|v|id a| |v]; try done; cbn [asked] in Hlen; try lia; cbn [client];
    unfold audio_pause, audio_resume, audio_skip_ahead, send;
    [set (op := encode_audio_op 4 0)|set (op := encode_audio_op 5 0)|set (op := encode_audio_op 8 0)];
    (destruct (write_refused (c_mq c) q op 4 H Hlen) as (m' & -> & H1); by exists m').
Qed.

(** ** Clients and thread interleaved *)

Inductive event := Call (k : command) | Turn.

Definition ctl_step (e : event) (c : control D) : option (control D) :=
  match e with
  | Call k => client k c
  | Turn => '(_, c) ← thread_message big module_start module_flush no_wait 0 c; Some c
  end.

Fixpoint ctl_run (es : list event) (c : control D) : option (control D) :=
  match es with [] => Some c | e :: es' => c ← ctl_step e c; ctl_run es' c end.

(** The specification, for a queue of [size] bytes: a list of commands, run one
    by one in the order of the calls; a call the queue has not got the room for
    that the client asks for is refused. *)
Definition room (size : Z) (q : list command) : Z := size - 1 - msgs_len (cmd_msg <$> q).

Definition abs_step (size : Z) (e : event) (s : list command * control D) : option (list command * control D) :=
  let '(q, c) := s in
  match e with
  | Call k => if asked k <=? room size q then c ← now k c; Some (q ++ [k], c) else Some (q, c)
  | Turn => match q with
            | [] => Some ([], c)
            | k :: q' => c ← effect k c; Some (q', c)
            end
  end.

Fixpoint abs_run (size : Z) (es : list event) (s : list command * control D) : option (list command * control D) :=
  match es with [] => Some s | e :: es' => s ← abs_step size e s; abs_run size es' s end.

(** The calls are of commands for the queue, and never fall in the gap between
    the room a client asks for and the room its message takes. *)
Fixpoint no_overrun (size : Z) (q : list command) (es : list event) : Prop :=
  match es with
  | [] => True
  | Call k :: es' => queued k = true ∧ cmd_ok k ∧
      if asked k <=? room size q then msg_len (cmd_msg k) <= room size q ∧ no_overrun size (q ++ [k]) es' else no_overrun size q es'
  | Turn :: es' => no_overrun size (tail q) es'
  end.

Lemma now_mq k m c : now k (set_mq m c) = set_mq m <$> now k c.
Proof. by destruct k. Qed.

Lemma run_spec es q c m : mq_locked m = false → mq_holds big m (cmd_msg <$> q) → Forall cmd_ok q → no_overrun (mq_size m) q es →
  match abs_run (mq_size m) es (q, c) with
  | Some (q', c') => ∃ m', ctl_run es (set_mq m c) = Some (set_mq m' c') ∧ mq_holds big m' (cmd_msg <$> q') ∧ mq_locked m' = false
  | None => ctl_run es (set_mq m c) = None
  end.
Proof.
  revert q c m. induction es as [|[k|] es IH]; intros q c m Hl H Hq Hfit; cbn [abs_run ctl_run ctl_step abs_step no_overrun] in *.
  - by exists m.
  - destruct Hfit as (Hk & Hok & Hfit). destruct (asked k <=? room (mq_size m) q) eqn:E; bool_prop.
    + destruct Hfit as [Hroom Hfit].
      destruct (client_spec k (set_mq m c) (cmd_msg <$> q) Hk Hok H) as (m1 & -> & H1 & Hl1 & Hs1); [unfold room in Hroom; cbn [c_mq set_mq]; lia|].
      rewrite now_mq. destruct (now k c) as [c1|]; [|done]. cbn [fmap option_fmap option_map mbind option_bind].
      specialize (IH (q ++ [k]) c1 m1 Hl1). rewrite fmap_app in IH. rewrite Hs1 in IH. cbn [c_mq set_mq] in IH.
      apply IH; [done| |done]. apply Forall_app. by split; [|apply Forall_singleton].
    + destruct (client_refused k (set_mq m c) (cmd_msg <$> q) Hk H ltac:(unfold room in E; cbn [c_mq set_mq]; lia)) as (m1 & -> & H1 & Hl1 & Hs1).
      cbn [c_mq set_mq] in Hs1. cbn [mbind option_bind]. rewrite <- Hs1 in Hfit |- *. by apply (IH q c m1).
  - pose proof (thread_spec 0 (set_mq m c) q Hl H Hq) as Ht. destruct q as [|k q].
    + destruct Ht as (m1 & -> & (Hr1 & Hl1 & Hs1)). cbn [mbind option_bind]. cbn [c_mq set_mq] in Hs1. rewrite <- Hs1 in Hfit |- *.
      by apply (IH [] c m1).
    + destruct Ht as (m1 & -> & H1 & Hl1 & Hs1). change (set_mq m1 (set_mq m c)) with (set_mq m1 c). rewrite effect_mq.
      destruct (effect k c) as [c1|]; [|done]. cbn [fmap option_fmap option_map mbind option_bind]. cbn [c_mq set_mq] in Hs1. rewrite <- Hs1 in Hfit |- *.
      apply Forall_cons in Hq as [_ Hq]. by apply (IH q c1 m1).
Qed.
End Commands.

(** C8.  The five commands that go straight to the queue (stop, flush, pause,
    resume audio, skip ahead) run once each, in the order they were called and
    with the arguments they were called with, and a call that the queue refuses
    leaves no trace: whatever the interleaving of client calls and turns of the
    decode thread, the state is that of a list of commands whose first is
    executed at each turn, and which a call is added to when the queue has the
    room the client asks for.  A turn with no command waiting does nothing.
    Clients ask for 0 or 4 bytes and write 8 or 12; runs in which a call is
    granted room that its message exceeds are left out; what the queue
    loses there is shown in Mqueue. *)
Theorem commands_in_order big D (module_start : Z → list Z → D) module_flush es c :
  mq_locked (c_mq c) = false → mq_holds big (c_mq c) [] → no_overrun (mq_size (c_mq c)) [] es →
  match abs_run module_start module_flush (mq_size (c_mq c)) es ([], c) with
  | Some (q, c') => ∃ m, ctl_run big module_start module_flush es c = Some (set_mq m c') ∧ mq_holds big m (cmd_msg <$> q) ∧ mq_locked m = false
  | None => ctl_run big module_start module_flush es c = None
  end.
Proof.
  intros Hl H Hf. pose proof (run_spec big module_start module_flush es [] c (c_mq c) Hl H (Forall_nil_2 _) Hf) as Hr.
  by replace (set_mq (c_mq c) c) with c in Hr by (by destruct c).
Qed.

(** A player at rest with the queue of audio_init. *)
Definition demo_control : control unit :=
  mk_control (mqueue_init [] demo_mqueue (replicate 512 0))
    (mk_decode_audio
      (mk_output (mk_fifo false 8 24 64) (replicate 16 0) (mk_track false 0 false 44100 0 0 0 0 0) (mk_fade false 0 0 0 0 0)
         (mk_volume FIXED_ONE (SAMPLE_MAX, SAMPLE_MIN) (1, 1) 0) TRANSITION_NONE 0 false DECODE_STATE_RUNNING 48000 [])
      (mk_player FIXED_ONE FIXED_ONE 44100 0 1 0 0 0 0 0 0 0 0))
    (mk_audio (streambuf_init 64 streambuf_static) SYNC_IDLE 0 0 0 0 0 0 false) DECODE_STATE_RUNNING (-1) (Some (111, tt)) 320.

(** With a queue of 24 bytes a pause is refused behind a skip and a resume. *)
Definition small_control : control unit := set_mq (mqueue_init [] demo_mqueue (replicate 24 0)) demo_control.

Definition demo_events : list event :=
  [Call (QSkipAhead 500000); Call (QResumeAudio 123456789012); Call (QPause 0); Turn; Call (QFlush 7); Turn; Turn; Turn; Call (QStop 8)].

Definition demo_view (s : list command * control unit) : list command * (Z * Z * Z * Z) :=
  let c := s.2 in (s.1, (play_cookie c, skip_ahead_bytes (a_play (c_da c)), f_rptr (o_fifo (a_out (c_da c))), o_state (a_out (c_da c)))).

Lemma commands_in_order_witness :
  ∃ c m, ctl_run true (λ _ _, tt) (λ _ x, x) demo_events small_control = Some (set_mq m c) ∧
    demo_view ([QStop 8], c) = ([QStop 8], (7, 22050 * 8, 0, Z.lor DECODE_STATE_RUNNING DECODE_STATE_STOPPING)) ∧
    mq_holds true m [cmd_msg (QStop 8)].
Proof.
  assert (Hv : demo_view <$> abs_run (λ _ _, tt) (λ _ x, x) 24 demo_events ([], small_control)
    = Some ([QStop 8], (7, 22050 * 8, 0, Z.lor DECODE_STATE_RUNNING DECODE_STATE_STOPPING))) by (vm_compute; reflexivity).
  pose proof (commands_in_order true unit (λ _ _, tt) (λ _ x, x) demo_events small_control) as H.
  change (mq_size (c_mq small_control)) with 24 in H.
  revert Hv H. generalize (abs_run (λ _ _, tt) (λ _ (x : unit), x) 24 demo_events ([], small_control)). intros [[q c]|] Hv H; [|clear H; discriminate Hv].
  destruct H as (m & H1 & H2 & _).
  - reflexivity.
  - split; [vm_compute; split; [reflexivity|discriminate]|]. apply rep_init; vm_compute; reflexivity.
  - cbn [no_overrun demo_events tail app].
    repeat (try (split; [reflexivity|split; [apply Forall_singleton; vm_compute; split; (reflexivity || discriminate)|]]);
      match goal with |- if ?b then _ else _ => let v := eval vm_compute in b in change b with v; cbv iota end;
      try (split; [vm_compute; discriminate|]); cbn [no_overrun tail app]).
    exact I.
  - apply (inj Some) in Hv. assert (Hq : q = [QStop 8]) by exact (f_equal fst Hv). subst q.
    exists c, m. split; [exact H1|]. split; [exact Hv|exact H2].
Defined.
