(* ===== verification/AudioInline.v ===== *)
(** Commands that belong to a place in the stream: queued in the stream buffer
    by their clients, moved to the message queue by the decode thread once the
    data before them has been read. *)

From S2P Require Import Prelude Endian Ring Fifo2 AudioFifo Mqueue Streambuf StreambufSpec StreambufRefines AudioSync.
From S2P Require Import DecodeOutput Playback AudioControl AudioOps AudioCommands.

Section Inline.
Context (big : bool) {D : Type}.

(** A command as its bytes in the stream. *)
Definition cmd_bytes (k : command) : list Z := msg_bytes big (cmd_msg k).

Lemma length_cmd_bytes k : queued k = false → Z.of_nat (length (cmd_bytes k)) = cmd_size k.
Proof. intros Hk. unfold cmd_bytes. rewrite length_msg. by destruct k. Qed.

(** The words of a message are its fields. *)
Lemma words_fields ws : (F32 <$> ws) ≫= field_bytes big = Endian.words big ws.
Proof. induction ws as [|w ws IH]; [done|]. cbn. f_equal. apply IH. Qed.

(** The clients put the command at the end of the stream. *)
Lemma stream_command_spec SZ k ws (c : control D) a : 0 < SZ <= max_size → queued k = false →
  cmd_fields k = F32 <$> ws → cmd_size k = 4 + 4 * Z.of_nat (length ws) → sb_rep SZ (a_sb (c_sync c)) a →
  (length (st_tail a) < 8)%nat → length (st_kept a) ≠ 9%nat → Z.of_nat (length (cmd_bytes k)) < SZ - 1 - st_used a →
  ∃ s, stream_command big (op_num (cmd_op k)) ws c = Some (set_sync (set_sb s (c_sync c)) c) ∧ sb_rep SZ s (a_cmd a (cmd_bytes k)).
Proof.
  intros HSZ Hk Hf Hsz Hs Ht Hkept Hroom. unfold stream_command. rewrite <- Hsz, <- words_fields, <- Hf.
  change (native big 4 _ ++ _) with (cmd_bytes k).
  pose proof (cmd_enq_ok SZ HSZ (a_sb (c_sync c)) a (cmd_bytes k) Hs) as He.
  assert (H4 : (4 <= length (cmd_bytes k))%nat) by (unfold cmd_bytes, msg_bytes; rewrite length_app, length_native; lia).
  specialize (He H4 Ht). destruct (_ || _) eqn:E.
  - apply orb_true_iff in E as [E|E]; [by apply Nat.eqb_eq in E|bool_prop; lia].
  - destruct He as (s' & He & Hr). rewrite He. exists s'. done.
Qed.

(** The thread's copy of a command to the queue. *)
Lemma copy_to_queue k m q : queued k = false → mq_holds big m q → mq_locked m = false →
  msgs_len q + msg_len (cmd_msg k) < mq_size m →
  ∃ m', ('(ok, m) ← mqueue_write_request big 0 m (code (cmd_msg k)) (cmd_size k);
         if negb ok then None else
         m ← (if u16 (cmd_size k - 4) =? 0 then Some m
              else mqueue_write_array m (take (Z.to_nat (u16 (cmd_size k - 4))) (drop 4 (cmd_bytes k))));
         mqueue_write_complete m) = Some m' ∧
    mq_holds big m' (q ++ [cmd_msg k]) ∧ mq_locked m' = false ∧ mq_size m' = mq_size m.
Proof.
  intros Hk H Hl Hfit. set (m0 := mk_mqueue (mq_buffer m) (f_set_lock true (mq_fifo m))). assert (H0 : mq_rep m0 (q ≫= msg_bytes big)) by done.
  assert (Hlen : msg_len (cmd_msg k) = cmd_size k) by (rewrite <- (length_cmd_bytes k Hk); unfold cmd_bytes; by rewrite length_msg).
  unfold mqueue_write_request, fifo_lock. cbv beta iota. change (0 =? -1) with false. cbv beta iota. fold m0.
  rewrite (free_rep m0 _ eq_refl H0), (length_msgs big q). change (mq_size m0) with (mq_size m). cbn [mbind option_bind].
  destruct (_ <? _) eqn:E; bool_prop; [lia|].
  set (rest := (cmd_fields k ≫= field_bytes big)).
  assert (Hb : cmd_bytes k = native big 4 (code (cmd_msg k)) ++ rest) by done.
  assert (Hrl : Z.of_nat (length rest) = cmd_size k - 4).
  { pose proof (length_cmd_bytes k Hk) as Hx. rewrite Hb, length_app, length_native in Hx. lia. }
  assert (Hu : u16 (cmd_size k - 4) = Z.of_nat (length rest)) by (rewrite u16_small; [lia|]; unfold is_u16; destruct k; cbn in *; lia).
  assert (Htd : take (Z.to_nat (Z.of_nat (length rest))) (drop 4 (cmd_bytes k)) = rest).
  { rewrite Hb, drop_app_length' by (symmetry; apply length_native). rewrite Nat2Z.id. by apply take_ge. }
  pose proof (length_msgs big q) as Hq.
  destruct (write_buf_rep m0 _ (native big 4 (code (cmd_msg k))) eq_refl H0) as (m1 & -> & (Hr1 & Hl1 & Hs1)).
  { rewrite length_native. change (mq_size m0) with (mq_size m). lia. }
  cbn [mbind option_bind negb]. rewrite Hu, Htd.
  assert (Hw : ∃ m2, (if Z.of_nat (length rest) =? 0 then Some m1 else mqueue_write_array m1 rest) = Some m2 ∧ mq_next m1 m2 true (((q ≫= msg_bytes big) ++ native big 4 (code (cmd_msg k))) ++ rest)).
  { destruct (_ =? 0) eqn:E2; bool_prop.
    - exists m1. split; [done|]. replace rest with (@nil Z) by (symmetry; apply nil_length_inv; lia). by rewrite app_nil_r.
    - unfold mqueue_write_array. apply write_buf_rep; [done|done|]. rewrite length_app, length_native, Hs1. change (mq_size m0) with (mq_size m). lia. }
  destruct Hw as (m2 & -> & (Hr2 & Hl2 & Hs2)). cbn [mbind option_bind]. unfold mqueue_write_complete, fifo_signal, f_locked.
  unfold mq_locked in Hl2. rewrite Hl2. cbn [mbind option_bind]. destruct (unlock_rep m2 _ Hl2 Hr2) as (m3 & -> & (Hr3 & Hl3 & Hs3)).
  exists m3. split_and!; [done| |done|by rewrite Hs3, Hs2, Hs1]. unfold mq_holds. rewrite bind_app. cbn [mbind list_bind]. rewrite app_nil_r.
  unfold msg_bytes at 2. by rewrite app_assoc.
Qed.

(** Without a command next in the stream nothing happens. *)
Lemma inline_none SZ (c : control D) a : 0 < SZ <= max_size → sb_rep SZ (a_sb (c_sync c)) a → ready a = None →
  ∃ s, inline_command big c = Some (false, set_sync (set_sb s (c_sync c)) c) ∧ sb_rep SZ s a.
Proof.
  intros HSZ Hs Hready. unfold inline_command. destruct (cmd_ready_ok SZ HSZ big _ a Hs) as (s1 & H1 & Hs1).
  rewrite H1, Hready. by exists s1.
Qed.

Lemma inline_moves_spec SZ k d t (c : control D) a q : 0 < SZ <= max_size → queued k = false →
  sb_rep SZ (a_sb (c_sync c)) a → ready a = Some (cmd_bytes k, d, t) →
  mq_holds big (c_mq c) q → mq_locked (c_mq c) = false → msgs_len q + msg_len (cmd_msg k) < mq_size (c_mq c) →
  ∃ m s, inline_command big c = Some (true, set_mq m (set_sync (set_sb s (c_sync c)) c)) ∧
    mq_holds big m (q ++ [cmd_msg k]) ∧ mq_locked m = false ∧ mq_size m = mq_size (c_mq c) ∧
    sb_rep SZ s (a_discard (a_take_cmd a (cmd_bytes k) d t) (cmd_size k) false).
Proof.
  intros HSZ Hk Hs Hready Hq Hl Hfit. unfold inline_command.
  destruct (cmd_ready_ok SZ HSZ big _ a Hs) as (s1 & H1 & Hs1). rewrite H1, Hready. cbn [mbind option_bind from_option fst].
  pose proof (cmd_code k) as Hcode.
  assert (Hc4 : native_val big (take 4 (cmd_bytes k)) = code (cmd_msg k)).
  { unfold cmd_bytes, msg_bytes. rewrite take_app_length' by (symmetry; apply length_native).
    apply native_val_native. change (256 ^ Z.of_nat 4) with (2 ^ 32). lia. }
  rewrite Hc4. destruct (_ =? 0) eqn:E0; bool_prop; [lia|]. rewrite cmd_decoded. cbn [fst snd].
  destruct (128 <? cmd_size k) eqn:E1; bool_prop; [destruct k; cbn in *; lia|]. cbn [c_sync set_sync a_sb set_sb].
  destruct (cmd_deq_ok SZ HSZ s1 a (cmd_size k) Hs1) as (s2 & H2 & Hs2).
  { intros c' d' t' Hr. rewrite Hready in Hr. injection Hr as <- _ _. symmetry. by apply length_cmd_bytes. }
  rewrite H2. rewrite Hready in Hs2 |- *. cbn [mbind option_bind].
  destruct (cmd_size k =? 0) eqn:E2; bool_prop; [destruct k; cbn in *; lia|]. cbn [c_sync set_sync a_sb set_sb].
  destruct (discard_ok SZ HSZ s2 _ (cmd_size k) false Hs2) as (s3 & H3 & Hs3).
  { cbn [st_cmd a_take_cmd]. rewrite length_cmd_bytes by done. destruct Hs as [_ Hs]. destruct (i_pos _ _ _ Hs). destruct k; cbn in *; lia. }
  rewrite H3. cbn [mbind option_bind c_mq set_sync].
  destruct (copy_to_queue k (c_mq c) q Hk Hq Hl Hfit) as (m' & Hcopy & Hm & Hml & Hmz). exists m', s3. split; [|done].
  destruct (mqueue_write_request _ _ _ _ _) as [[ok m1]|]; [|done]. cbn [mbind option_bind] in *. destruct ok; [|done]. cbn [negb] in *.
  destruct (if _ =? 0 then _ else _) as [m2|]; [|done]. cbn [mbind option_bind] in *. rewrite Hcopy. done.
Qed.

(** A command in the stream reaches the queue in its place: when all data
    before it has been read, the thread takes the whole command out of the
    stream buffer, discards its bytes there and queues it, arguments
    unchanged, behind the commands already waiting; the stream goes on with the
    data after it. *)
Theorem inline_command_moves SZ k d t (c : control D) a q : 0 < SZ <= max_size → queued k = false →
  sb_rep SZ (a_sb (c_sync c)) a → ready a = Some (cmd_bytes k, d, t) →
  mq_holds big (c_mq c) q → mq_locked (c_mq c) = false → msgs_len q + msg_len (cmd_msg k) < mq_size (c_mq c) →
  ∃ m s, inline_command big c = Some (true, set_mq m (set_sync (set_sb s (c_sync c)) c)) ∧
    mq_holds big m (q ++ [cmd_msg k]) ∧ mq_locked m = false ∧
    sb_rep SZ s (a_discard (a_take_cmd a (cmd_bytes k) d t) (cmd_size k) false).
Proof.
  intros HSZ Hk Hs Hready Hq Hl Hfit.
  destruct (inline_moves_spec SZ k d t c a q HSZ Hk Hs Hready Hq Hl Hfit) as (m & s & H1 & H2 & H3 & _ & H4). by exists m, s.
Qed.
End Inline.

(** A start at the head of the stream. *)
Definition demo_args : start_args := mk_start 48 0 0 10 0 0.

Lemma inline_command_moves_witness :
  ∃ c c' : control unit, stream_command true 6 (start_words 112 demo_args) demo_control = Some c ∧
    inline_command true c = Some (true, c') ∧ mq_holds true (c_mq c') [cmd_msg (QStart 112 demo_args)].
Proof.
  assert (HSZ : 0 < 64 <= max_size) by (unfold max_size; lia).
  destruct (stream_command_spec true 64 (QStart 112 demo_args) (start_words 112 demo_args) demo_control stream_init HSZ eq_refl eq_refl eq_refl)
    as (s & H1 & Hs); [by apply init_ok|cbn; lia|discriminate|vm_compute; reflexivity|].
  assert (Hq : mq_holds true (c_mq demo_control) [])
    by (split; [vm_compute; split; [reflexivity|discriminate]|]; apply rep_init; vm_compute; reflexivity).
  destruct (inline_command_moves true 64 (QStart 112 demo_args) [] [] (set_sync (set_sb s (c_sync demo_control)) demo_control)
    (a_cmd stream_init (cmd_bytes true (QStart 112 demo_args))) []) as (m & s' & H2 & H3 & _);
    [exact HSZ|reflexivity|exact Hs|reflexivity|exact Hq|reflexivity|vm_compute; reflexivity|].
  eexists _, _. split; [exact H1|]. split; [exact H2|exact H3].
Defined.
