(* ===== verification/AudioSystem.v ===== *)
(** The output side of the player as a whole: clients, decoder thread and
    playback change one struct decode_audio.  Whatever they do, in any order,
    its positions, transition and gains stay in range, and the decoder's output
    returns in all but one case, a fade in over a period that makes the divisor
    of its gain step zero. *)

From S2P Require Import Prelude Endian Ring Fifo2 AudioFifo Mqueue Streambuf StreambufSpec StreambufRefines AudioSync.
From S2P Require Import DecodeOutput DecodeOutputFade DecodeOutputProps DecodeOutputStart Playback PlaybackProps AudioControl AudioOps AudioCommands.

(** ** The invariant *)

Definition crossfading (o : output) : bool := c_true (Z.land (decode_transition_type o) TRANSITION_CROSSFADE).

(** A cross fade lasts ten minutes at most. *)
Definition period_ok (o : output) : Prop :=
  0 <= decode_transition_period o ∧ (crossfading o = true → 1 <= decode_transition_period o <= 600).

Definition gains_ok (p : player) : Prop := lgain p = rgain p ∧ 0 <= lgain p <= FIXED_ONE.

Record sys_ok (d : decode_audio) : Prop := {
  sy_out : out_ok (a_out d);
  sy_period : period_ok (a_out d);
  sy_gains : gains_ok (a_play d)
}.

Lemma out_ok_same o o' : o_fifo o' = o_fifo o → o_buf o' = o_buf o → o_fade o' = o_fade o →
  track_start_point (o_track o') = track_start_point (o_track o) → out_ok o → out_ok o'.
Proof.
  intros H1 H2 H3 H4 [[B1 B2 B3 B4 B5] [S1 S2]]. split; split; rewrite ?H1, ?H2, ?H3, ?H4; done.
Qed.

Lemma period_ok_same o o' : decode_transition_type o' = decode_transition_type o →
  decode_transition_period o' = decode_transition_period o → period_ok o → period_ok o'.
Proof. unfold period_ok, crossfading. by intros -> ->. Qed.

(** Changes outside the fields of the invariant. *)
Lemma sys_ok_same d d' : o_fifo (a_out d') = o_fifo (a_out d) → o_buf (a_out d') = o_buf (a_out d) →
  o_fade (a_out d') = o_fade (a_out d) → track_start_point (o_track (a_out d')) = track_start_point (o_track (a_out d)) →
  decode_transition_type (a_out d') = decode_transition_type (a_out d) →
  decode_transition_period (a_out d') = decode_transition_period (a_out d) →
  lgain (a_play d') = lgain (a_play d) → rgain (a_play d') = rgain (a_play d) → sys_ok d → sys_ok d'.
Proof.
  intros H1 H2 H3 H4 H5 H6 H7 H8 [Ho Hp Hg]. split; [by apply (out_ok_same (a_out d))|by apply (period_ok_same (a_out d))|].
  unfold gains_ok. by rewrite H7, H8.
Qed.

Ltac same := match goal with H : sys_ok ?d |- sys_ok _ => apply (sys_ok_same d); [reflexivity..|exact H] end.

Lemma end_ok o o' : out_ok o → decode_output_end o = Some o' →
  out_ok o' ∧ decode_transition_type o' = decode_transition_type o ∧ decode_transition_period o' = decode_transition_period o.
Proof.
  intros [[B1 [B2 B2'] B3 B4 B5] _]. unfold decode_output_end, f_locked. destruct (f_lock (o_fifo o)); [|done]. intros [= <-].
  split; [|done]. split; [|by split]. split; cbn; try done; (split; [cbn; lia|done]).
Qed.

Lemma begin_ok o o' : out_ok o → decode_output_begin o = Some o' →
  out_ok o' ∧ decode_transition_type o' = decode_transition_type o ∧ decode_transition_period o' = decode_transition_period o.
Proof.
  intros Ho. unfold decode_output_begin, f_locked. destruct (f_lock (o_fifo o)); [|done]. intros [= <-].
  split; [|done]. by apply (out_ok_same o).
Qed.

Lemma output_flush_ok o o' : out_ok o → decode_output_flush o = Some o' → out_ok o'.
Proof.
  intros [[B1 B2 B3 B4 B5] [S1 S2]]. unfold decode_output_flush, f_locked. destruct (f_lock (o_fifo o)); [|done].
  destruct (check_start_point (o_track o)); intros [= <-]; (split; split; cbn; try done).
  intros Hc. destruct (S2 Hc) as (? & ? & ? & ?). done.
Qed.

(** The type and period a start asks for are 32-bit numbers.  '1' and '5' are
    cross fades; a type that is none of '0' to '5' changes the period of the
    transition before it, which may be one. *)
Definition may_crossfade (ty : Z) : bool := negb (bool_decide (ty ∈ [48; 50; 51; 52])).

Definition start_ok (a : start_args) : Prop :=
  is_u32 (transition_type a) ∧ is_u32 (transition_period a) ∧
  (may_crossfade (transition_type a) = true → transition_period a <= 600).

Lemma set_transition_ok ty per o : is_u32 ty → is_u32 per → (may_crossfade ty = true → per <= 600) → period_ok o →
  period_ok (decode_output_set_transition ty per o).
Proof.
  intros Hty Hp H4 Ho. unfold decode_output_set_transition. destruct (per =? 0) eqn:E0; bool_prop; [by split; [apply Ho|]|].
  assert (Hk : ty ∉ [48; 50; 51; 52] → per <= 600).
  { intros Hn. apply H4. unfold may_crossfade. by rewrite bool_decide_eq_false_2. }
  assert (Hu : ∀ i, 0 <= i < 256 → u32 (ty - 48) = i → ty = i + 48) by (unfold u32, is_u32 in *; intros; Z.to_euclidean_division_equations; lia).
  unfold is_u32 in *. split_ifs; bool_prop; unfold period_ok, crossfading in *; cbn [set_type decode_transition_type decode_transition_period];
    (split; [try (apply Z.shiftr_nonneg); lia|]); intros Hx; try discriminate Hx; (split; [lia|apply Hk]);
    rewrite !not_elem_of_cons; split_and!; try (apply not_elem_of_nil); intros ->; done.
Qed.

(** ** Commands *)

Section System.
Context {D : Type} (module_start : Z → list Z → D) (module_flush : Z → D → D).

Lemma with_audio_ok f (c c' : control D) : (∀ d d', sys_ok d → f d = Some d' → sys_ok d') →
  with_audio f c = Some c' → sys_ok (c_da c) → sys_ok (c_da c').
Proof.
  intros Hf. unfold with_audio. set (d0 := on_out _ (c_da c)). intros H Hc. destruct Hc as [Ho Hp Hg].
  assert (H0 : sys_ok d0) by (split; [by apply (locked_ok (a_out (c_da c)))|done|done]).
  destruct (f d0) as [d1|] eqn:E; [|done]. cbn [mbind option_bind] in H. destruct (Hf _ _ H0 E) as [Ho1 Hp1 Hg1].
  unfold unlock, fifo_unlock, f_locked in H. destruct (f_lock (o_fifo (a_out d1))) eqn:El; [|done]. cbn [mbind option_bind negb] in H.
  injection H as <-. split; [by apply unlocked_ok|done|done].
Qed.

Lemma run_end_ok d d' : sys_ok d → run_out decode_output_end d = Some d' → sys_ok d'.
Proof.
  intros [Ho Hp Hg]. unfold run_out. destruct (decode_output_end (a_out d)) as [o'|] eqn:E; [|done]. cbn [mbind option_bind]. intros [= <-].
  destruct (end_ok _ _ Ho E) as (H1 & H2 & H3). split; [done|by apply (period_ok_same (a_out d))|done].
Qed.

Lemma play_begin_ok d d' : sys_ok d → play_begin d = Some d' → sys_ok d'.
Proof.
  intros [Ho Hp Hg]. unfold play_begin, run_out. destruct (decode_output_begin (a_out d)) as [o'|] eqn:E; [|done]. cbn [mbind option_bind]. intros [= <-].
  destruct (begin_ok _ _ Ho E) as (H1 & H2 & H3). split; [done|by apply (period_ok_same (a_out d))|done].
Qed.

Definition command_ok (k : command) : Prop := match k with QStart _ a => start_ok a | _ => True end.

Lemma effect_ok k c c' : command_ok k → effect module_start module_flush k c = Some c' → sys_ok (c_da c) → sys_ok (c_da c').
Proof.
  intros Hk. destruct k as [|v|v|v|v|id a| |v]; cbn [effect].
  - by intros [= <-].
  - unfold decode_stop. destruct (with_audio _ _) as [c1|] eqn:E; [|done]. cbn [mbind option_bind]. intros [= <-] Hc.
    refine (with_audio_ok _ _ _ _ E Hc). intros d d' Hd. apply run_end_ok. same.
  - unfold decode_flush. destruct (with_audio _ _) as [c1|] eqn:E; [|done]. cbn [mbind option_bind]. intros [= <-] Hc.
    assert (H1 : sys_ok (c_da c1)).
    { refine (with_audio_ok _ _ _ _ E Hc). intros d d' Hd. apply run_end_ok. same. }
    destruct (decoder c1) as [[id dat]|]; [|done]. by destruct (has_flush id).
  - apply with_audio_ok. intros d d' Hd. split_ifs; intros [= <-]; same.
  - unfold resume_audio. destruct (resume_restore _ v) as [[j sy]|]; [|done]. cbn [mbind option_bind]. intros E Hc.
    refine (with_audio_ok _ _ _ _ E Hc). intros d d' Hd. destruct (restore_state_on_resume _); split_ifs; intros [= <-]; same.
  - unfold decode_start. destruct (negb _); [by intros [= <-]|]. intros E [Ho Hp Hg]. destruct Hk as (K1 & K2 & K3).
    refine (with_audio_ok _ _ _ _ E _); [intros d d' Hd; apply play_begin_ok; same|].
    split; [|by apply (set_transition_ok _ _ (set_first true (a_out (c_da c))))|done]. cbn [c_da set_module set_da on_out a_out].
    unfold decode_output_set_transition. split_ifs; by apply (out_ok_same (a_out (c_da c))).
  - by intros [= <-].
  - apply with_audio_ok. intros d d' Hd [= <-]. same.
Qed.
End System.

(** ** Playback *)

(** Playback moves the read position and nothing else of the invariant. *)
Record kept (a a' : decode_audio) : Prop := {
  k_buf : o_buf (a_out a') = o_buf (a_out a);
  k_size : f_size (o_fifo (a_out a')) = f_size (o_fifo (a_out a));
  k_wptr : f_wptr (o_fifo (a_out a')) = f_wptr (o_fifo (a_out a));
  k_rptr : pos_ok (f_size (o_fifo (a_out a))) (f_rptr (o_fifo (a_out a)));
  k_rptr' : pos_ok (f_size (o_fifo (a_out a'))) (f_rptr (o_fifo (a_out a')));
  k_fade : o_fade (a_out a') = o_fade (a_out a);
  k_start : track_start_point (o_track (a_out a')) = track_start_point (o_track (a_out a));
  k_type : decode_transition_type (a_out a') = decode_transition_type (a_out a);
  k_period : decode_transition_period (a_out a') = decode_transition_period (a_out a);
  k_lgain : lgain (a_play a') = lgain (a_play a);
  k_rgain : rgain (a_play a') = rgain (a_play a)
}.

Lemma kept_trans a b c : kept a b → kept b c → kept a c.
Proof. intros [] []. split; congruence || done. Qed.

Lemma kept_ok a a' : kept a a' → sys_ok a → sys_ok a'.
Proof.
  intros [K1 K2 K3 _ K4 K5 K6 K7 K8 K9 K10] [[[B1 B2 B3 B4 B5] [S1 S2]] Hp Hg]. split.
  - split; split; rewrite ?K1, ?K2, ?K3, ?K5, ?K6; try done. by rewrite K2 in K4.
  - by apply (period_ok_same (a_out a)).
  - unfold gains_ok. by rewrite K9, K10.
Qed.

Lemma kept_refl a : buf_ok (a_out a) → kept a a.
Proof. intros []. by split. Qed.

Lemma kept_buf a a' : kept a a' → buf_ok (a_out a) → buf_ok (a_out a').
Proof. intros [K1 K2 K3 _ K4 _ K6 _ _ _ _] [B1 B2 B3 B4 B5]. split; rewrite ?K1, ?K2, ?K3, ?K6; try done. by rewrite K2 in K4. Qed.

(** Changes of other fields. *)
Ltac kept_same Hb := destruct Hb; split; done.

Lemma autostart_kept now st n m a : buf_ok (a_out a) → kept a (autostart now st n m a).
Proof. intros Hb. unfold autostart. split_ifs; kept_same Hb. Qed.

Lemma add_silence_kept st n a k a' : buf_ok (a_out a) → add_silence st n a = Some (k, a') → kept a a'.
Proof. intros Hb. unfold add_silence. destruct (c_true _); [|intros [= _ <-]; by apply kept_refl]. destruct (_ =? 0); [done|]. intros [= _ <-]. kept_same Hb. Qed.

Lemma advanced_kept n a p : buf_ok (a_out a) → lgain p = lgain (a_play a) → rgain p = rgain (a_play a) →
  kept a (mk_decode_audio (advanced n (a_out a)) p).
Proof. intros Hb Hl Hr. destruct (advanced_ok n _ Hb), Hb. by split. Qed.

Lemma rptr_incby_locked o n f : fifo_rptr_incby (o_fifo o) n = Some f → f_lock (o_fifo o) = true.
Proof. unfold fifo_rptr_incby, f_locked. by destruct (f_lock (o_fifo o)). Qed.

Lemma skip_ahead_kept n a a' : buf_ok (a_out a) → 0 <= n → 8 * n <= f_size (o_fifo (a_out a)) → skip_ahead n a = Some a' → kept a a'.
Proof.
  intros Hb H0 Hn H. destruct (decide (n = 0)) as [->|Hne]; [injection H as <-; by apply kept_refl|].
  assert (Hl : f_lock (o_fifo (a_out a)) = true).
  { unfold skip_ahead in H. destruct (_ =? 0) eqn:E; bool_prop; [done|]. unfold fifo_bytes_until_rptr_wrap, f_locked in H. by destruct (f_lock _). }
  rewrite skip_ahead_spec in H by (done || lia). injection H as <-. by apply advanced_kept.
Qed.

Lemma reduce_gain_gains fuel p p' : reduce_gain fuel p = Some p' → lgain p' = lgain p ∧ rgain p' = rgain p.
Proof.
  revert p. induction fuel as [|fuel IH]; intros p; cbn [reduce_gain]; destruct (_ && _); try done; [by intros [= <-]| |by intros [= <-]].
  intros H. by apply IH in H.
Qed.

Lemma fade_out_kept fuel n a l r a' : buf_ok (a_out a) → fade_out fuel n a = Some (l, r, a') → kept a a'.
Proof.
  intros Hb. unfold fade_out. destruct (_ =? 0); [intros [= _ _ <-]; by apply kept_refl|]. destruct (_ <? _); [intros [= _ _ <-]; kept_same Hb|].
  destruct (if out_gain_step _ =? 0 then _ else _) as [p1|] eqn:E; [|done]. cbn [mbind option_bind].
  destruct (reduce_gain _ _) as [p2|] eqn:E2; [|done]. cbn [mbind option_bind]. intros [= _ _ <-]. apply reduce_gain_gains in E2 as [G1 G2].
  assert (Hp1 : lgain p1 = lgain (a_play a) ∧ rgain p1 = rgain (a_play a)).
  { destruct (out_gain_step _ =? 0); [|by injection E as <-]. destruct (_ =? 0); [done|].
    destruct (determine_transition_interval _ _ _ _) as [[i nb]|]; [|done]. cbn [mbind option_bind] in E.
    destruct (fixed_div _ _); [|done]. by injection E as <-. }
  destruct Hp1 as [P1 P2]. destruct Hb. split; cbn; try done; cbn in G1, G2; congruence.
Qed.

Lemma play_loop_kept fuel n a out a' : buf_ok (a_out a) → 0 <= n → play_loop fuel n a = Some (out, a') → kept a a'.
Proof.
  revert n a out. induction fuel as [|fuel IH]; intros n a out Hb Hn; cbn [play_loop]; destruct (n =? 0) eqn:E; bool_prop;
    [intros [= _ <-]; by apply kept_refl|done|intros [= _ <-]; by apply kept_refl|].
  destruct (fifo_bytes_until_rptr_wrap _) as [w|] eqn:Ew; [|done]. cbn [mbind option_bind].
  assert (Hl : f_lock (o_fifo (a_out a)) = true) by (unfold fifo_bytes_until_rptr_wrap, f_locked in Ew; by destruct (f_lock _)).
  destruct (rptr_wrap _ Hl Hb) as (k & Hk & Hk0 & Hk1). rewrite Hk in Ew. injection Ew as <-. unfold bytes_to_samples. rewrite (Z.mul_comm 8 k), Z.div_mul by lia.
  set (fw := if k <? n then k else n). assert (Hfw : 0 < fw <= n ∧ fw <= k) by (unfold fw; destruct (_ <? _) eqn:E2; bool_prop; lia). clearbody fw.
  destruct (fade_out (S fuel) fw a) as [[[l r] a1]|] eqn:Ef; [|done]. cbn [mbind option_bind]. pose proof (fade_out_kept _ _ _ _ _ _ Hb Ef) as K1.
  pose proof (kept_buf _ _ K1 Hb) as Hb1. assert (Hrest : 8 * fw <= f_size (o_fifo (a_out a1)) - f_rptr (o_fifo (a_out a1))).
  { unfold fade_out in Ef. assert (Hsame : o_fifo (a_out a1) = o_fifo (a_out a)); [|by rewrite Hsame; lia].
    destruct (_ =? 0); [by injection Ef as <- <- <-|]. destruct (_ <? _); [by injection Ef as <- <- <-|].
    destruct (if out_gain_step _ =? 0 then _ else _); [|done]. cbn [mbind option_bind] in Ef. destruct (reduce_gain _ _); [|done]. by injection Ef as <- <- <-. }
  destruct (sample_index _) as [i|]; [|done]. cbn [mbind option_bind]. destruct (load_samples _ _ _) as [samples|]; [|done]. cbn [mbind option_bind].
  destruct (fifo_rptr_incby _ _) as [f|] eqn:Ei; [|done]. cbn [mbind option_bind]. pose proof (rptr_incby_locked _ _ _ Ei) as Hl1.
  rewrite rptr_incby in Ei by (done || lia). injection Ei as <-.
  match goal with |- context [mk_decode_audio ?o ?p] => change (mk_decode_audio o p) with (mk_decode_audio (advanced fw (a_out a1)) (a_play a1)) end.
  destruct (play_loop fuel _ _) as [[out2 a2]|] eqn:E2; [|done]. cbn [mbind option_bind]. intros [= _ <-].
  apply (kept_trans _ a1 _ K1). apply (kept_trans _ (mk_decode_audio (advanced fw (a_out a1)) (a_play a1))); [by apply advanced_kept|].
  apply IH in E2; [done|by apply advanced_ok|]. apply u32_range.
Qed.

Lemma after_playback_kept st a a' : buf_ok (a_out a) → after_playback st a = Some a' → kept a a'.
Proof.
  intros Hb. unfold after_playback, decode_check_start_point, f_locked. destruct (f_lock _); [|done].
  destruct (negb (check_start_point _)); [intros [= <-]; by apply kept_refl|]. destruct (negb _); [intros [= <-]; by apply kept_refl|].
  cbn [mbind option_bind]. intros [= <-]. destruct Hb. destruct (_ =? _); by split.
Qed.

Lemma playback_kept fuel now st n a out a' : buf_ok (a_out a) → 0 < n → playback_callback fuel now st n a = Some (out, a') → kept a a'.
Proof.
  intros Hb Hn. unfold playback_callback, f_locked. destruct (f_lock (o_fifo (a_out a))) eqn:Hl; [|done]. rewrite bytes_used_mod by done. cbn [mbind option_bind].
  change (bytes_to_samples (_ mod _)) with (frames_used (a_out a)). destruct (frames_used_range _ Hb) as [Hu0 Hu1].
  pose proof (autostart_kept now st (frames_used (a_out a)) n a Hb) as K1. set (a1 := autostart _ _ _ _ _) in *.
  destruct (add_silence st n a1) as [[k a2]|] eqn:Es; [|done]. cbn [mbind option_bind]. pose proof (kept_buf _ _ K1 Hb) as Hb1.
  pose proof (kept_trans _ _ _ K1 (add_silence_kept _ _ _ _ _ Hb1 Es)) as K2.
  destruct (_ =? 0) eqn:E0; [by intros [= _ <-]|]. bool_prop. pose proof (kept_buf _ _ K2 Hb) as Hb2.
  assert (Hk : 0 < n - k).
  { unfold add_silence in Es. destruct (c_true _); [|injection Es as <- _; lia]. destruct (_ =? 0); [done|]. injection Es as <- _. destruct (n <? _) eqn:E3; bool_prop; lia. }
  set (sf := if _ && _ then _ else 0). assert (Hsf : 0 <= sf /\ sf <= frames_used (a_out a)).
  { unfold sf. destruct (_ && _) eqn:E3; [|lia]. apply andb_true_iff in E3 as [E3 E4]. bool_prop. unfold bytes_to_samples.
    pose proof (Z.div_pos (skip_ahead_bytes (a_play a2)) 8). lia. }
  clearbody sf. set (df := if _ <? _ then _ else _). assert (Hdf : 0 <= df) by (unfold df; destruct (_ <? _) eqn:E3; bool_prop; lia). clearbody df.
  set (a3 := on_out _ a2). assert (K3 : kept a a3) by (apply (kept_trans _ a2 _ K2); kept_same Hb2). pose proof (kept_buf _ _ K3 Hb) as Hb3.
  destruct (skip_ahead sf a3) as [a4|] eqn:E4; [|done]. cbn [mbind option_bind].
  pose proof (skip_ahead_kept sf a3 a4 Hb3) as K4. rewrite (k_size _ _ K3) in K4. specialize (K4 ltac:(lia) ltac:(lia) E4).
  pose proof (kept_trans _ _ _ K3 K4) as K5. destruct (negb _); [by intros [= _ <-]|]. pose proof (kept_buf _ _ K5 Hb) as Hb4.
  destruct (play_loop fuel df a4) as [[out5 a5]|] eqn:E5; [|done]. cbn [mbind option_bind].
  pose proof (kept_trans _ _ _ K5 (play_loop_kept _ _ _ _ _ Hb4 Hdf E5)) as K6. pose proof (kept_buf _ _ K6 Hb) as Hb5.
  destruct (after_playback st a5) as [a6|] eqn:E6; [|done]. cbn [mbind option_bind]. intros [= _ <-].
  exact (kept_trans _ _ _ K6 (after_playback_kept _ _ _ Hb5 E6)).
Qed.

(** ** Output *)

Lemma enter_keeps fuel o rate o' : enter_crossfade fuel o rate = Some o' →
  decode_transition_type o' = decode_transition_type o ∧ decode_transition_period o' = decode_transition_period o.
Proof.
  unfold enter_crossfade. destruct (determine_transition_interval _ _ _ _) as [[i nb]|]; [|done]. cbn [mbind option_bind].
  destruct (c_true i); [|by intros [= <-]]. destruct (fixed_div _ _); [|done]. by intros [= <-].
Qed.

Lemma first_buffer_keeps fuel o rate cp o' : first_buffer fuel o rate cp = Some o' →
  decode_transition_type o' = decode_transition_type o ∧ decode_transition_period o' = decode_transition_period o.
Proof.
  unfold first_buffer. set (o1 := set_start_point _ _). destruct (if c_true _ then _ else _) as [o2|] eqn:E; [|done]. cbn [mbind option_bind]. intros [= <-].
  cbn [set_first set_track decode_transition_type decode_transition_period].
  destruct (c_true (Z.land _ TRANSITION_CROSSFADE)).
  - unfold start_crossfade in E. destruct (c_true _); [|by apply enter_keeps in E].
    unfold immediate_skip in E. destruct (fifo_bytes_used _); [|done]. cbn [mbind option_bind] in E. destruct (_ <? _); by apply enter_keeps in E.
  - destruct (c_true _); [|by injection E as <-]. unfold start_fade_in in E. destruct (fixed_div _ _); [|done]. by injection E as <-.
Qed.

(** Enough passes for the loops of decode_output_samples. *)
Definition output_fuel (o : output) (buffer : list Z) (rate : Z) : nat :=
  (S (Z.to_nat (8 * (decode_transition_period o * rate))) + length buffer)%nat.

Lemma output_spec_fuel fuel d buffer rate cp M : sys_ok d → 10 <= rate <= 384000 →
  length buffer = (2 * M)%nat → (0 < M)%nat → Z.of_nat M < 2 ^ 29 → (M <= fuel)%nat → 8 * (decode_transition_period (a_out d) * rate) < Z.of_nat fuel →
  if divides_by_zero (a_out d) then decode_output_samples fuel (a_out d) buffer rate cp = None
  else ∃ o', decode_output_samples fuel (a_out d) buffer rate cp = Some o' ∧
    sys_ok (mk_decode_audio o' (a_play d)) ∧ f_lock (o_fifo o') = false.
Proof.
  intros [Ho Hp Hg] Hrate Hlen HM0 HM Hf1 Hf2. set (o := a_out d) in *. pose proof (proj1 Hp) as Hper.
  assert (H1 : if divides_by_zero o then decode_first_buffer o = true ∧ first_buffer fuel (locked o) rate cp = None
    else ∃ o1, (if decode_first_buffer o then first_buffer fuel (locked o) rate cp else Some (locked o)) = Some o1 ∧
    out_ok o1 ∧ f_lock (o_fifo o1) = true ∧ decode_transition_type o1 = decode_transition_type o ∧ decode_transition_period o1 = decode_transition_period o).
  { destruct (decode_first_buffer o) eqn:Ef.
    - pose proof (first_buffer_ok fuel (locked o) rate cp) as H1. change (divides_by_zero (locked o)) with (divides_by_zero o) in H1.
      assert (Ht : transition_ok (locked o) rate).
      { intros _ Hbits. destruct (proj2 Hp Hbits). unfold rate_ok. change (decode_transition_period (locked o)) with (decode_transition_period o). nia. }
      specialize (H1 eq_refl (locked_ok o Ho) Ef ltac:(lia) Ht Hf2). destruct (divides_by_zero o); [done|].
      destruct H1 as (o1 & E1 & Hok1 & Hl1). exists o1. destruct (first_buffer_keeps _ _ _ _ _ E1). by split_and!.
    - unfold divides_by_zero. rewrite Ef. exists (locked o). split_and!; try done. by apply locked_ok. }
  destruct (divides_by_zero o).
  { destruct H1 as [Ef H1]. unfold decode_output_samples. rewrite Hlen. destruct (_ =? _) eqn:E; bool_prop; [dlia|].
    cbn [fifo_lock snd]. fold (locked o). change (decode_first_buffer (locked o)) with (decode_first_buffer o). by rewrite Ef, H1. }
  destruct H1 as (o1 & E1 & Hok1 & Hl1 & Ht1 & Hp1).
  destruct (samples_spec fuel o o1 buffer rate cp M Hlen ltac:(lia) ltac:(lia) Hf1 E1 Hok1 Hl1) as (o2 & E2 & out & fd & _ & -> & Hok2 & _).
  eexists. split; [exact E2|]. split; [|done]. split; [by apply unlocked_ok|by apply (period_ok_same o)|done].
Qed.

(** The output of a buffer stops at a division by zero. *)
Definition output_stops (o : output) (buffer : list Z) : bool := negb (bool_decide (buffer = [])) && divides_by_zero o.

Lemma output_spec fuel d buffer rate cp M : sys_ok d → 10 <= rate <= 384000 →
  length buffer = (2 * M)%nat → Z.of_nat M < 2 ^ 29 → (output_fuel (a_out d) buffer rate <= fuel)%nat →
  if output_stops (a_out d) buffer then decode_output_samples fuel (a_out d) buffer rate cp = None
  else ∃ o', decode_output_samples fuel (a_out d) buffer rate cp = Some o' ∧ sys_ok (mk_decode_audio o' (a_play d)).
Proof.
  intros Hd Hrate Hlen HM Hf. unfold output_stops. destruct buffer as [|x buffer].
  { exists (a_out d). unfold decode_output_samples. by split; [|destruct d]. }
  rewrite bool_decide_eq_false_2 by done. cbn [negb andb]. cbn [length] in Hlen.
  pose proof (proj1 (sy_period _ Hd)) as Hper. unfold output_fuel in Hf. cbn [length] in Hf.
  pose proof (output_spec_fuel fuel d (x :: buffer) rate cp M Hd Hrate Hlen ltac:(lia) HM ltac:(lia) ltac:(lia)) as H.
  destruct (divides_by_zero (a_out d)); [done|]. destruct H as (o' & H1 & H2 & _). by exists o'.
Qed.

(** ** Reachable states *)

Section Reach.
Context {D : Type} (module_start : Z → list Z → D) (module_flush : Z → D → D).

(** Anything the clients, the decoder and playback do to the audio. *)
Inductive sys_step : control D → control D → Prop :=
  | step_call k c c' : now k c = Some c' → sys_step c c'
  | step_command k c c' : command_ok k → effect module_start module_flush k c = Some c' → sys_step c c'
  | step_gain g c c' : audio_gain g c = Some c' → sys_step c c'
  | step_adjust g c c' : audio_adjust_gain g c = Some c' → sys_step c c'
  | step_output buffer rate cp M c o' : length buffer = (2 * M)%nat → Z.of_nat M < 2 ^ 29 → 10 <= rate <= 384000 →
      decode_output_samples (output_fuel (a_out (c_da c)) buffer rate) (a_out (c_da c)) buffer rate cp = Some o' →
      sys_step c (set_da (mk_decode_audio o' (a_play (c_da c))) c)
  | step_playback fuel t st n out c c' : 0 < n →
      with_audio (λ d, '(out', d') ← playback_callback fuel t st n d; if decide (out' = out) then Some d' else None) c = Some c' → sys_step c c'.

Inductive reachable (c0 : control D) : control D → Prop :=
  | reach_start : reachable c0 c0
  | reach_step c c' : reachable c0 c → sys_step c c' → reachable c0 c'.

Lemma adjust_ok g (c c' : control D) : audio_adjust_gain g c = Some c' → sys_ok (c_da c) → sys_ok (c_da c').
Proof.
  unfold audio_adjust_gain. destruct (_ || _); [by intros [= <-]|]. apply with_audio_ok. intros d d' [Ho Hp Hg] [= <-].
  split; [done|done|]. split; [done|]. cbn -[Z.shiftl]. change (Z.shiftl 1 16) with FIXED_ONE. split_ifs; bool_prop; lia.
Qed.

Lemma gain_ok g (c c' : control D) : audio_gain g c = Some c' → sys_ok (c_da c) → sys_ok (c_da c').
Proof.
  unfold audio_gain. change (Z.shiftl 1 16) with FIXED_ONE. destruct (_ || _) eqn:E; [by intros [= <-]|]. bool_prop. apply with_audio_ok. intros d d' [Ho Hp Hg] [= <-].
  split; [done|done|]. split; [done|]. cbn. lia.
Qed.

Lemma sys_step_ok c c' : sys_step c c' → sys_ok (c_da c) → sys_ok (c_da c').
Proof.
  intros H Hc. destruct H as [k c c' H|k c c' Hk H|g c c' H|g c c' H|buffer rate cp M c o' Hlen HM Hr H|fuel t st n out c c' Hn H].
  - destruct k; cbn [now] in H; try by injection H as <-. refine (with_audio_ok _ _ _ _ H Hc). intros d d' Hd [= <-]. same.
  - by apply (effect_ok module_start module_flush k c c').
  - by apply (gain_ok g c).
  - by apply (adjust_ok g c).
  - pose proof (output_spec _ _ buffer rate cp M Hc Hr Hlen HM (Nat.le_refl _)) as Ho. destruct (output_stops _ _); [by rewrite H in Ho|].
    destruct Ho as (o2 & E & Hok). rewrite E in H. by injection H as <-.
  - refine (with_audio_ok _ _ _ _ H Hc). intros d d' Hd Hx. destruct (playback_callback fuel t st n d) as [[out' d1]|] eqn:E; [|done].
    cbn [mbind option_bind] in Hx. destruct (decide _); [|done]. injection Hx as <-. by apply (kept_ok d); [apply (playback_kept fuel t st n d out')|]; try apply Hd.
Qed.

Lemma reach_ok c0 c : sys_ok (c_da c0) → reachable c0 c → sys_ok (c_da c).
Proof. intros H0 H. induction H as [|c c' H IH Hs]; [done|]. by apply (sys_step_ok c). Qed.
End Reach.

(** C13.  The shared audio state keeps its invariant: from any state in range,
    whatever sequence of client calls, command executions, volume changes,
    decoder output and playback periods follows, all positions stay aligned
    inside the ring, a running cross fade keeps its end away from the write
    position and from the track's start, its gain steps stay whole, a cross
    fade that is asked for has a period from 1 to 600 seconds and both channel
    gains stay equal, between silence and full volume.  Commands may carry any
    type of transition and any 32-bit period, but a start whose type is '1',
    '5' or unknown no more than 600 seconds: nothing in the code limits the
    period of a cross fade, and a longer one can leave the ring
    ([long_crossfade]). *)
Theorem audio_invariant D (module_start : Z → list Z → D) module_flush c0 c : sys_ok (c_da c0) →
  reachable module_start module_flush c0 c → sys_ok (c_da c).
Proof. apply reach_ok. Qed.

(** C12.  The decoder's output never hangs: in every state the player can reach
    with the commands of C13, for every buffer of frames and every sample rate
    from 10 to 384000, decode_output_samples with enough passes for its loops,
    or more, returns and leaves the state in range, although its loops depend
    on positions other threads move; except for the first buffer of a track
    that fades in over a period that is a multiple of 32768 seconds, zero
    included ('4' halves a period of one second to zero), where it always
    divides by zero. *)
Theorem output_returns D (module_start : Z → list Z → D) module_flush c0 c buffer rate cp M fuel : sys_ok (c_da c0) →
  reachable module_start module_flush c0 c → length buffer = (2 * M)%nat → Z.of_nat M < 2 ^ 29 → 10 <= rate <= 384000 →
  (output_fuel (a_out (c_da c)) buffer rate <= fuel)%nat →
  if output_stops (a_out (c_da c)) buffer then decode_output_samples fuel (a_out (c_da c)) buffer rate cp = None
  else ∃ o, decode_output_samples fuel (a_out (c_da c)) buffer rate cp = Some o ∧ sys_ok (mk_decode_audio o (a_play (c_da c))).
Proof.
  intros H0 H Hlen HM Hr Hf. apply (output_spec fuel (c_da c) buffer rate cp M); try done.
  by apply (reach_ok module_start module_flush c0).
Qed.

(** A cross fade of 194783 seconds at 44100 Hz into a ring with a second of
    audio: the comparison that would shorten it wraps around 32 bits, and it
    is to go back more bytes than any ring of the invariant holds. *)
Lemma long_crossfade fuel o used : f_lock (o_fifo o) = true → track_sample_rate (o_track o) = 44100 →
  fifo_bytes_used (o_fifo o) = Some used → 8 * 44100 <= used →
  ∃ i, determine_transition_interval (S fuel) o 44100 194783 = Some (i, 4294932960).
Proof.
  intros Hl Ht Hu Hs. unfold determine_transition_interval, f_locked. rewrite Hl, Ht, Hu, Z.eqb_refl. cbn [negb mbind option_bind].
  rewrite interval_step_value. change (samples_to_bytes _) with 352800 at 1. destruct (_ <? _) eqn:E; bool_prop; [lia|].
  cbn [mbind option_bind shrink_interval]. change (used <? u32 _) with (used <? 944). destruct (_ <? _) eqn:E2; bool_prop; [lia|]. by eexists.
Qed.

Lemma demo_sys_ok : sys_ok (c_da demo_control).
Proof. split; [split; split; try done; split; done|split; [done|discriminate]|split; [done|cbn; lia]]. Qed.

(** The state a command leaves. *)
Definition started (k : command) (c : control unit) : control unit := default c (effect (λ _ _, tt) (λ _ x, x) k c).

(** Fade in and out over one second, as in C12's exception. *)
Definition halved_start : command := QStart 112 (mk_start 52 1 0 0 0 0).

Lemma started_step k c : command_ok k → from_option (λ _, true) false (effect (λ _ _, tt) (λ _ x, x) k c) = true → sys_step (λ _ _, tt) (λ _ x, x) c (started k c).
Proof. intros Hk H. apply (step_command _ _ k); [done|]. unfold started. by destruct (effect _ _ k c). Qed.

(** After that start and a pause. *)
Lemma audio_invariant_witness : sys_ok (c_da (started (QPause 0) (started halved_start demo_control))).
Proof.
  apply (audio_invariant unit (λ _ _, tt) (λ _ x, x) demo_control); [exact demo_sys_ok|].
  eapply reach_step; [eapply reach_step; [apply reach_start|]|]; apply started_step; try exact I; try (vm_compute; reflexivity).
  repeat split; cbn; unfold is_u32; lia || discriminate.
Defined.

(** The first buffer of a track that fades in, after a start; and after one
    that fades in and out over one second. *)
Definition fade_start : command := QStart 112 (mk_start 50 2 0 0 0 0).

Lemma output_returns_witness :
  (∃ o, decode_output_samples 900 (a_out (c_da (started fade_start demo_control))) [1; 2; 3; 4] 50 false = Some o ∧
    sys_ok (mk_decode_audio o (a_play (c_da (started fade_start demo_control))))) ∧
  decode_output_samples 900 (a_out (c_da (started halved_start demo_control))) [1; 2; 3; 4] 50 false = None.
Proof.
  split; [set (k := fade_start)|set (k := halved_start)];
    (apply (output_returns unit (λ _ _, tt) (λ _ x, x) demo_control (started k demo_control) [1; 2; 3; 4] 50 false 2 900);
      [exact demo_sys_ok| |reflexivity|lia|lia|vm_compute; lia]);
    (eapply reach_step; [apply reach_start|]); (apply started_step; [|vm_compute; reflexivity]);
    repeat split; cbn; unfold is_u32; lia || discriminate.
Defined.
