(* ===== verification/AudioThread.v ===== *)
(** The decode thread of lib/audio/audio.c as a whole: one pass of the loop of
    audio_decode_thread_execute runs every waiting command, then either moves
    the command that is next in the stream to the queue or lets the decoder
    work.  The decoder's callback is a parameter. *)

From S2P Require Import Prelude Endian Ring Fifo2 AudioFifo Mqueue Streambuf StreambufSpec StreambufRefines AudioSync.
From S2P Require Import DecodeOutput DecodeOutputFade DecodeOutputProps DecodeOutputStart Playback PlaybackProps PlaybackThrough.
From S2P Require Import AudioControl AudioOps AudioCommands AudioInline AudioSystem.

Section Thread.
Context (big : bool) {D : Type}.
Context (module_start : Z → list Z → D) (module_flush : Z → D → D) (module_samples : Z → D → Z).
(** The callback of a module: it reads the stream, writes the output and sets
    the decoder state. *)
Context (module_callback : Z → D → streambuf → output → Z → option (streambuf * output * Z * D)).

(** ** The loop *)

(** [while ((encoded_op = mqueue_read_request(&decode_mqueue, delay)))]: [fuel]
    bounds the messages; the result is the last decision to decode. *)
Fixpoint thread_messages (fuel : nat) (wait : Z * Z → fifo * list Z → Z * (fifo * list Z)) (can_decode : bool) (delay : Z)
    (c : control D) : option (bool * control D) :=
  match fuel with
  | O => None
  | S fuel =>
      '(got, c) ← thread_message big module_start module_flush wait delay c;
      if got : bool then
        '(can_decode, delay, c) ← audio_decode_timer_interval module_samples c;
        thread_messages fuel wait can_decode delay c
      else Some (can_decode, c)
  end.

Definition run_decoder (can_decode : bool) (c : control D) : option (control D) :=
  match decoder c with
  | Some (id, data) =>
      if can_decode && c_true (Z.land (current_decoder_state c) DECODE_STATE_RUNNING) then
        '(sb, o, state, data) ← module_callback id data (a_sb (c_sync c)) (a_out (c_da c)) (current_decoder_state c);
        let c := set_sync (set_sb sb (c_sync c)) c in
        let c := set_da (mk_decode_audio o (a_play (c_da c))) c in
        Some (set_module (Some (id, data)) (set_decoder_state state c))
      else Some c
  | None => Some c
  end.

(** One pass of [while (true)]. *)
Definition thread_pass (fuel : nat) (wait : Z * Z → fifo * list Z → Z * (fifo * list Z)) (c : control D) : option (control D) :=
  '(can_decode, delay, c) ← audio_decode_timer_interval module_samples c;
  '(can_decode, c) ← thread_messages fuel wait can_decode delay c;
  '(moved, c) ← inline_command big c;
  if moved : bool then Some c else run_decoder can_decode c.

(** One period of the sound device (audio_thread_execute of
    decode_i2s_backend.c): what it plays, and whether it has to be opened again
    for another sample rate. *)
Definition playback_period (fuel : nat) (now : Z) (st : i2s) (period_size : Z) (c : control D) : option (list Z * bool * control D) :=
  let o := a_out (c_da c) in
  '(out, d) ← playback_callback fuel now st period_size (mk_decode_audio (set_fifo (fifo_lock 0 (o_fifo o)).2 o) (a_play (c_da c)));
  let do_open := c_true (set_sample_rate (a_play d)) && negb (set_sample_rate (a_play d) =? pcm_sample_rate st) in
  o ← unlock (a_out d);
  Some (out, do_open, set_da (mk_decode_audio o (a_play d)) c).

(** ** The stream in the state *)

Definition put_sb (s : streambuf) (c : control D) : control D := set_sync (set_sb s (c_sync c)) c.

(** What a command does to the stream buffer; a resume that restores a handed
    over stream is not meant here. *)
Definition sb_effect (k : command) (s : streambuf) : streambuf :=
  match k with QStEnd => streambuf_set_streaming s false | _ => s end.
Definition a_effect (k : command) (a : stream) : stream :=
  match k with QStEnd => a_set_streaming a false | _ => a end.

Lemma put_sb_put s s' c : put_sb s (put_sb s' c) = put_sb s c.
Proof. done. Qed.

Lemma put_sb_self c : put_sb (a_sb (c_sync c)) c = c.
Proof. by destruct c as [? ? []]. Qed.

Lemma with_audio_sb f s c : with_audio f (put_sb s c) = put_sb s <$> with_audio f c.
Proof.
  unfold with_audio. change (c_da (put_sb s c)) with (c_da c). destruct (f _) as [d|]; [|done]. cbn [mbind option_bind].
  by destruct (unlock (a_out d)).
Qed.

Lemma set_cookie_sb v s c : set_cookie v (put_sb s c) = put_sb s (set_cookie v c).
Proof. done. Qed.

(** Apart from the end of the stream, commands leave the buffer alone. *)
Lemma effect_sb k s c : restore_state_on_resume (c_sync c) = false →
  effect module_start module_flush k (put_sb s c) = put_sb (sb_effect k s) <$> effect module_start module_flush k c.
Proof.
  intros Hr. destruct k as [|v|v|v|v|id a| |v]; cbn [effect sb_effect].
  - reflexivity.
  - unfold decode_stop. rewrite set_cookie_sb, with_audio_sb. by destruct (with_audio _ (set_cookie _ c)).
  - unfold decode_flush. rewrite set_cookie_sb, with_audio_sb.
    destruct (with_audio _ (set_cookie _ c)) as [c1|]; [|done]. cbn [fmap option_fmap option_map mbind option_bind].
    change (decoder (put_sb s c1)) with (decoder c1). destruct (decoder c1) as [[id dat]|]; [|done]. by destruct (has_flush id).
  - apply with_audio_sb.
  - unfold resume_audio, resume_restore. cbn [c_sync put_sb set_sync set_sb restore_state_on_resume]. rewrite Hr. cbn [mbind option_bind].
    match goal with |- with_audio ?f (set_sync ?x (put_sb s c)) = _ =>
      change (set_sync x (put_sb s c)) with (put_sb s (set_sync (set_discarded 0 (set_position v (sync_discarded_samples (c_sync c)) (c_sync c))) c)) end.
    apply with_audio_sb.
  - unfold decode_start. destruct (negb _); [done|]. cbv zeta. change (c_da (put_sb s c)) with (c_da c).
    match goal with |- context [set_module ?x (set_da ?d (put_sb s c))] =>
      change (set_module x (set_da d (put_sb s c))) with (put_sb s (set_module x (set_da d c))) end. apply with_audio_sb.
  - reflexivity.
  - apply with_audio_sb.
Qed.

(** ** When to decode *)

(** The bytes free in the output buffer. *)
Definition room (o : output) : Z := f_size (o_fifo o) - 1 - 8 * frames_used o.

(** The decision of audio_decode_timer_interval on the abstract stream; none
    when it divides by a sample rate of zero. *)
Definition decision (c : control D) (a : stream) : option (bool * Z) :=
  match decoder c with
  | None => Some (false, DECODE_MAX_INTERVAL)
  | Some (id, data) =>
      let underrun := c_true (Z.land (current_decoder_state c) DECODE_STATE_UNDERRUN) in
      let waiting n := st_streaming a && (Z.of_nat (length (st_head a)) <? n) in
      let max_samples := module_samples id data in
      let sample_rate := track_sample_rate (o_track (a_out (c_da c))) in
      if (negb (st_streaming a) && underrun)
         || negb (Z.land (current_decoder_state c) (Z.lor DECODE_STATE_RUNNING DECODE_STATE_ERROR) =? DECODE_STATE_RUNNING)
      then Some (false, DECODE_MAX_INTERVAL)
      else if st_streaming a && underrun then Some (true, DECODE_WAIT_INTERVAL)
      else if waiting 1 then Some (false, DECODE_WAIT_INTERVAL)
      else if (id =? decode_flac) && waiting DECODE_MINIMUM_BYTES_FLAC then Some (false, DECODE_WAIT_INTERVAL)
      else if samples_to_bytes max_samples <? room (a_out (c_da c)) then Some (true, 0)
      else if sample_rate =? 0 then None
      else Some (false, u32 (u32 (u32 (max_samples * 1000) / sample_rate + 1) * 2))
  end.

(** Between the steps of the threads: in range, unlocked, and no handed over
    stream to restore. *)
Record quiet (c : control D) : Prop := {
  q_sys : sys_ok (c_da c);
  q_lock : f_lock (o_fifo (a_out (c_da c))) = false;
  q_restore : restore_state_on_resume (c_sync c) = false
}.

Lemma bytes_free_room o : buf_ok o → fifo_bytes_free (f_set_lock true (o_fifo o)) = Some (room o).
Proof.
  intros Hok. unfold room. rewrite used_aligned by done. destruct Hok as [_ [Hs _] [Hw _] [Hr _] _].
  unfold fifo_bytes_free, f_locked. cbn. f_equal. destruct (_ <? _) eqn:E; bool_prop.
  - rewrite u32_small by (unfold is_u32; lia). rewrite <- (Z.mod_add (_ - _) 1) by lia. rewrite Z.mod_small by lia. lia.
  - rewrite <- Z.add_sub_assoc, u32_add_l, u32_small by (unfold is_u32; lia). rewrite Z.mod_small by lia. lia.
Qed.

Lemma with_audio_none c : quiet c → with_audio Some c = Some c.
Proof.
  intros [_ Hl _]. unfold with_audio, unlock, fifo_unlock, f_locked. cbn [mbind option_bind on_out a_out a_play o_fifo set_fifo fifo_lock snd f_lock f_set_lock negb].
  f_equal. destruct c as [m d sy st ck dc br]. destruct d as [o p]. destruct o as [f ? ? ? ? ? ? ? ? ? ?]. destruct f as [l ? ? ?]. cbn in *. by subst l.
Qed.

Lemma timer_spec SZ s a c : quiet c → sb_rep SZ s a →
  match decision c a with
  | Some (b, d) => ∃ s', audio_decode_timer_interval module_samples (put_sb s c) = Some (b, d, put_sb s' c) ∧ sb_rep SZ s' a
  | None => audio_decode_timer_interval module_samples (put_sb s c) = None
  end.
Proof.
  intros Hq Hs. unfold decision, audio_decode_timer_interval. change (decoder (put_sb s c)) with (decoder c).
  destruct (decoder c) as [[id data]|]; [|by exists s].
  change (current_decoder_state (put_sb s c)) with (current_decoder_state c). change (a_sb (c_sync (put_sb s c))) with s.
  assert (Hst : streambuf_is_streaming s = st_streaming a) by (destruct Hs as [_ []]; by destruct i_flags as (? & _)).
  rewrite Hst. destruct (_ || _); [by exists s|]. destruct (st_streaming a && c_true _); [by exists s|].
  destruct (would_wait_ok SZ s a 1 Hs) as (s1 & -> & Hs1). cbn [mbind option_bind].
  change (set_sync _ (put_sb s c)) with (put_sb s1 c). destruct (st_streaming a && (_ <? 1)); [by exists s1|].
  assert (Hflac : ∃ s2, (if id =? decode_flac then
      '(wait, sb) ← streambuf_would_wait_for (a_sb (c_sync (put_sb s1 c))) DECODE_MINIMUM_BYTES_FLAC;
      Some (wait, set_sync (set_sb sb (c_sync (put_sb s1 c))) (put_sb s1 c)) else Some (false, put_sb s1 c))
    = Some ((id =? decode_flac) && (st_streaming a && (Z.of_nat (length (st_head a)) <? DECODE_MINIMUM_BYTES_FLAC)), put_sb s2 c) ∧ sb_rep SZ s2 a).
  { destruct (id =? decode_flac); [|by exists s1]. destruct (would_wait_ok SZ s1 a DECODE_MINIMUM_BYTES_FLAC Hs1) as (s2 & H2 & Hs2).
    exists s2. change (a_sb (c_sync (put_sb s1 c))) with s1. by rewrite H2. }
  destruct Hflac as (s2 & -> & Hs2). cbn [mbind option_bind]. destruct ((id =? decode_flac) && _); [by exists s2|].
  change (c_da (put_sb s2 c)) with (c_da c). cbn [fifo_lock snd]. rewrite bytes_free_room by apply Hq. cbn [mbind option_bind].
  rewrite with_audio_sb, with_audio_none by done. cbn [fmap option_fmap option_map mbind option_bind].
  destruct (_ <? room _); [by exists s2|]. destruct (_ =? 0); [done|by exists s2].
Qed.

(** The sample rate of the track is zero until its first buffer; a flush before
    that clears the mark of the first buffer, and once the output buffer is
    nearly full the thread divides by zero. *)
Lemma flush_clears_first v c c' : effect module_start module_flush (QFlush v) c = Some c' →
  decode_first_buffer (a_out (c_da c')) = false ∧ track_sample_rate (o_track (a_out (c_da c'))) = track_sample_rate (o_track (a_out (c_da c))).
Proof.
  cbn [effect]. unfold decode_flush, with_audio, run_out, decode_output_end, f_locked.
  cbn [c_da set_cookie on_out a_out set_first set_fifo o_fifo fifo_lock snd f_lock f_set_lock mbind option_bind].
  unfold unlock, fifo_unlock, f_locked. cbn -[decoder]. intros [= <-].
  destruct (decoder _) as [[id data]|]; [|done]. by destruct (has_flush id).
Qed.

Lemma zero_rate_stops SZ s a c id data : quiet c → sb_rep SZ s a → decoder c = Some (id, data) → id ≠ decode_flac →
  current_decoder_state c = DECODE_STATE_RUNNING → st_head a ≠ [] → track_sample_rate (o_track (a_out (c_da c))) = 0 →
  room (a_out (c_da c)) <= samples_to_bytes (module_samples id data) →
  audio_decode_timer_interval module_samples (put_sb s c) = None.
Proof.
  intros Hq Hs Hd Hid Hst Hh Hr Hroom. pose proof (timer_spec SZ s a c Hq Hs) as Ht. unfold decision in Ht. rewrite Hd, Hst, Hr in Ht.
  change (c_true (Z.land DECODE_STATE_RUNNING DECODE_STATE_UNDERRUN)) with false in Ht. rewrite !andb_false_r in Ht.
  change (negb (Z.land DECODE_STATE_RUNNING (Z.lor DECODE_STATE_RUNNING DECODE_STATE_ERROR) =? DECODE_STATE_RUNNING)) with false in Ht.
  destruct (id =? decode_flac) eqn:E; bool_prop; [done|]. cbn [orb andb] in Ht.
  assert (Hl : (Z.of_nat (length (st_head a)) <? 1) = false) by (destruct (st_head a); [done|]; apply Z.ltb_ge; cbn; lia).
  rewrite Hl, andb_false_r in Ht. destruct (_ <? room _) eqn:E2; bool_prop; [lia|]. exact Ht.
Qed.
End Thread.
