(* ===== verification/AudioModules.v ===== *)
(** What the decode thread expects of a decoder module, as an interface, and the
    PCM decoder as an instance of it.  The other decoders are any instance. *)

From S2P Require Import Prelude Endian Ring Fifo2 AudioFifo Streambuf StreambufSpec StreambufRefines.
From S2P Require Import DecodeOutput DecodeOutputFade DecodeOutputProps DecodeOutputStart Playback AudioSystem.
From S2P Require Import DecodePcm DecodePcmProps PcmToDevice.

(** ** What the thread expects of decoders *)

Class Decoders (SZ : Z) (D : Type) := {
  module_start : Z → list Z → D;
  module_flush : Z → D → D;
  module_samples : Z → D → Z;
  module_callback : Z → D → streambuf → output → Z → option (streambuf * output * Z * D);
  (** an invariant of a decoder's data, and its work on the abstract stream *)
  mod_ok : D → Prop;
  decode_spec : Z → D → stream → output → Z → option (stream * output * Z * D);
  start_law id params : mod_ok (module_start id params);
  flush_law id d : mod_ok d → mod_ok (module_flush id d);
  callback_law id d s a o st : mod_ok d → sb_rep SZ s a →
    match decode_spec id d a o st with
    | Some (a', o', st', d') => ∃ s', module_callback id d s o st = Some (s', o', st', d') ∧ sb_rep SZ s' a'
    | None => module_callback id d s o st = None
    end;
  (** a decoder reads data, not commands, and leaves the output in range *)
  frame_law id d a o st a' o' st' d' p : mod_ok d → decode_spec id d a o st = Some (a', o', st', d') →
    sys_ok (mk_decode_audio o p) → f_lock (o_fifo o) = false →
    (st_tail a').*1 = (st_tail a).*1 ∧ sys_ok (mk_decode_audio o' p) ∧ f_lock (o_fifo o') = false ∧ mod_ok d'
}.

(** ** The PCM decoder *)

Section Pcm.
Context (big : bool) {SZ : Z} {O : Type} `{!Decoders SZ O} (HSZ : 0 < SZ <= max_size).
(** What the memory of a new read buffer holds. *)
Context (mem : list Z) (Hmem : length mem = Z.to_nat BLOCKSIZE).

(** Enough passes for the output of one block. *)
Definition pcm_fuel (o : output) (rate : Z) : nat := (S (Z.to_nat (8 * (decode_transition_period o * rate))) + Z.to_nat BLOCKSIZE)%nat.

Definition pcm_start (id : Z) (params : list Z) : decode_pcm + O :=
  if id =? 112 then inl (decode_pcm_start mem) else inr (module_start id params).
Definition pcm_flush (id : Z) (d : decode_pcm + O) : decode_pcm + O :=
  match d with inl self => inl self | inr x => inr (module_flush id x) end.
Definition pcm_samples (id : Z) (d : decode_pcm + O) : Z :=
  match d with inl _ => decode_pcm_samples | inr x => module_samples id x end.
Definition pcm_callback (id : Z) (d : decode_pcm + O) (s : streambuf) (o : output) (st : Z)
    : option (streambuf * output * Z * (decode_pcm + O)) :=
  match d with
  | inl self => '(_, s, o, st, self) ← decode_pcm_callback big (pcm_fuel o (sample_rate self)) s o st self; Some (s, o, st, inl self)
  | inr x => '(s, o, st, x) ← module_callback id x s o st; Some (s, o, st, inr x)
  end.

Definition pcm_mod_ok (d : decode_pcm + O) : Prop :=
  match d with inl self => (∃ rf w, pcm_ok big self rf w) ∧ 10 <= sample_rate self <= 384000 | inr x => mod_ok x end.

(** The same work on the abstract stream. *)
Definition pcm_spec (self : decode_pcm) (a : stream) (o : output) (st : Z) : option (stream * output * Z * decode_pcm) :=
  let n := pcm_take a self in
  if n =? 0 then Some (a_read a 0, o, Z.lor st DecodePcm.DECODE_STATE_UNDERRUN, self) else
  '(nframes, samples, self') ← pcm_block big self (take (Z.to_nat n) (st_head a));
  o ← (if nframes =? 0 then Some o else decode_output_samples (pcm_fuel o (sample_rate self)) o samples (sample_rate self') streambuf_is_copyright);
  Some (a_discard (a_read a n) n true, o, Z.ldiff st DecodePcm.DECODE_STATE_UNDERRUN, self').

Definition pcm_decode_spec (id : Z) (d : decode_pcm + O) (a : stream) (o : output) (st : Z)
    : option (stream * output * Z * (decode_pcm + O)) :=
  match d with
  | inl self => '(a, o, st, self) ← pcm_spec self a o st; Some (a, o, st, inl self)
  | inr x => '(a, o, st, x) ← decode_spec id x a o st; Some (a, o, st, inr x)
  end.

Lemma pcm_start_ok id params : pcm_mod_ok (pcm_start id params).
Proof.
  unfold pcm_start. destruct (id =? 112); [|apply start_law]. split; [|cbn; lia].
  exists pcm_read16bitLE, 2%nat. split; try done; cbn [sample_size read_buffer leftover stereo decode_pcm_start]; try lia.
  by rewrite length_take, Hmem, Nat.min_id.
Qed.

Lemma pcm_callback_ok self s a o st rf w : pcm_ok big self rf w → sb_rep SZ s a →
  match pcm_spec self a o st with
  | Some (a', o', st', self') => ∃ b s', decode_pcm_callback big (pcm_fuel o (sample_rate self)) s o st self = Some (b, s', o', st', self') ∧ sb_rep SZ s' a'
  | None => decode_pcm_callback big (pcm_fuel o (sample_rate self)) s o st self = None
  end.
Proof.
  intros Hp Hs. destruct (pk_left _ _ _ _ Hp) as [Hl0 Hl1]. destruct (formats_read _ _ _ _ Hp) as [Hr Hw4].
  assert (Hl8 : leftover self < 8) by (destruct (stereo self); lia).
  destruct (data_deq_ok SZ HSZ s a 0 (BLOCKSIZE - leftover self) Hs) as (s1 & Hd & Hs1); [lia|].
  assert (Hdq : deq_size (Z.of_nat (length (st_head a))) 0 (BLOCKSIZE - leftover self) = pcm_take a self).
  { unfold pcm_take, deq_size. destruct (_ <? 0) eqn:E; bool_prop; [lia|]. destruct (_ <? _) eqn:E2; bool_prop; lia. }
  rewrite Hdq in *. unfold pcm_spec, decode_pcm_callback, streambuf_read. rewrite u32_small by (unfold is_u32; lia).
  rewrite Hd. cbn [mbind option_bind]. destruct (pcm_take a self =? 0) eqn:E; bool_prop.
  { rewrite E in Hs1. by exists false, s1. }
  destruct (discard_ok SZ HSZ s1 (a_read a (pcm_take a self)) (pcm_take a self) true Hs1) as (s2 & Hd2 & Hs2).
  { cbn. destruct Hs as [_ [? ? ? ? ? ? ? ? ? ?]]. unfold pcm_take in *. lia. }
  rewrite Hd2. cbn [mbind option_bind]. destruct (pcm_block _ _ _) as [[[nf samples] self']|]; [|done]. cbn [mbind option_bind].
  destruct (if nf =? 0 then _ else _) as [o'|]; [|done]. by exists true, s2.
Qed.

Lemma a_discard_tail a n b : st_tail (a_discard a n b) = st_tail a.
Proof. unfold a_discard. by destruct (st_may_discard a). Qed.

(** A block of a format in the tables has that format's frames. *)
Lemma pcm_block_frames self rf w data : pcm_ok big self rf w → leftover self + Z.of_nat (length data) <= BLOCKSIZE →
  ∃ M samples self', pcm_block big self data = Some (Z.of_nat M, samples, self') ∧ length samples = (2 * M)%nat ∧
    Z.of_nat M <= BLOCKSIZE ∧ pcm_ok big self' rf w ∧ sample_rate self' = sample_rate self.
Proof.
  intros Hp Hfit. destruct (formats_read _ _ _ _ Hp) as [Hr Hw4]. destruct (pk_left _ _ _ _ Hp) as [Hl0 _]. pose proof (pk_buf _ _ _ _ Hp) as Hb.
  destruct (pcm_block_spec big self rf w data Hp Hfit) as (out & self' & H1 & H2 & _ & H3 & _ & H4).
  set (all := pending self ++ data) in *. set (n := whole self w (length all)) in *.
  destruct (whole_fits self w (length all) ltac:(apply Hr)) as [Hf _]. fold n in Hf.
  destruct (read_samples_frames rf w self n all Hr Hf) as (out' & E & Hlen).
  { unfold n, whole. destruct (stereo self); [|done]. rewrite Nat.mul_comm. apply Nat.Div0.mod_mul. }
  rewrite H2 in E. injection E as <-. eexists _, out, self'. split_and!; [exact H1|done| |done|done].
  assert (Ha : Z.of_nat (length all) <= BLOCKSIZE).
  { unfold all. rewrite length_app. unfold pending. rewrite length_take, Hb. lia. }
  assert (Hn : (n <= length all)%nat) by (destruct Hr as [Hw _]; nia).
  destruct (stereo self); [pose proof (Nat.div_mod_eq n 2)|rewrite Nat.div_1_r]; lia.
Qed.

Lemma pcm_spec_frame self a o st a' o' st' self' p : pcm_mod_ok (inl self) → pcm_spec self a o st = Some (a', o', st', self') →
  sys_ok (mk_decode_audio o p) → f_lock (o_fifo o) = false →
  st_tail a' = st_tail a ∧ sys_ok (mk_decode_audio o' p) ∧ f_lock (o_fifo o') = false ∧ pcm_mod_ok (inl self').
Proof.
  intros [(rf & w & Hp) Hrate] H Ho Hl. revert H. unfold pcm_spec. destruct (pcm_take a self =? 0) eqn:E; bool_prop.
  { intros [= <- <- _ <-]. split_and!; try done. split; [by exists rf, w|done]. }
  destruct (pk_left _ _ _ _ Hp) as [Hl0 Hl1]. destruct (formats_read _ _ _ _ Hp) as [_ Hw4].
  destruct (pcm_block_frames self rf w (take (Z.to_nat (pcm_take a self)) (st_head a)) Hp) as (M & samples & s2 & -> & Hlen & HM & Hp2 & Hr2).
  { rewrite length_take. unfold pcm_take in *. destruct (stereo self); lia. }
  cbn [mbind option_bind]. assert (Hok2 : pcm_mod_ok (inl s2)) by (split; [by exists rf, w|by rewrite Hr2]).
  destruct (Z.of_nat M =? 0) eqn:E2; bool_prop; cbn [mbind option_bind].
  { intros [= <- <- _ <-]. by rewrite a_discard_tail. }
  pose proof (proj1 (sy_period _ Ho)) as Hper. cbn [a_out] in Hper.
  pose proof (output_spec_fuel (pcm_fuel o (sample_rate self)) (mk_decode_audio o p) samples (sample_rate s2) streambuf_is_copyright M Ho
    ltac:(by rewrite Hr2) Hlen ltac:(lia) ltac:(lia) ltac:(unfold pcm_fuel; lia) ltac:(rewrite Hr2; unfold pcm_fuel; cbn [a_out]; lia)) as Hs.
  cbn [a_out a_play] in Hs. destruct (divides_by_zero o); [by rewrite Hs|]. destruct Hs as (o2 & Eo & Hs2 & Hl2). rewrite Eo. cbn [mbind option_bind]. intros [= <- <- _ <-]. by rewrite a_discard_tail.
Qed.

#[export] Program Instance pcm_decoders : Decoders SZ (decode_pcm + O) := {|
  module_start := pcm_start;
  module_flush := pcm_flush;
  module_samples := pcm_samples;
  module_callback := pcm_callback;
  mod_ok := pcm_mod_ok;
  decode_spec := pcm_decode_spec
|}.
Next Obligation. apply pcm_start_ok. Qed.
Next Obligation. intros id [self|x] H; [done|]. by apply flush_law. Qed.
Next Obligation.
  intros id [self|x] s a o st H Hs; cbn [pcm_decode_spec pcm_callback].
  - destruct H as [(rf & w & Hp) _]. pose proof (pcm_callback_ok self s a o st rf w Hp Hs) as Hc.
    destruct (pcm_spec self a o st) as [[[[a' o'] st'] self']|]; [|by rewrite Hc]. destruct Hc as (b & s' & -> & Hs'). by exists s'.
  - pose proof (callback_law id x s a o st H Hs) as Hc. destruct (decode_spec id x a o st) as [[[[a' o'] st'] x']|]; [|by rewrite Hc].
    destruct Hc as (s' & -> & Hs'). by exists s'.
Qed.
Next Obligation.
  intros id [self|x] a o st a' o' st' d' p H; cbn [pcm_decode_spec].
  - destruct (pcm_spec self a o st) as [[[[a1 o1] st1] self1]|] eqn:E; [|done]. cbn [mbind option_bind]. intros [= <- <- <- <-] Ho Hl.
    destruct (pcm_spec_frame self a o st a1 o1 st1 self1 p H E Ho Hl) as (H1 & H2 & H3 & H4). by rewrite H1.
  - destruct (decode_spec id x a o st) as [[[[a1 o1] st1] x1]|] eqn:E; [|done]. cbn [mbind option_bind]. intros [= <- <- <- <-] Ho Hl.
    exact (frame_law id x a o st a1 o1 st1 x1 p H E Ho Hl).
Qed.
End Pcm.

(** A decoder that plays nothing, for the places of decoders not of interest. *)
#[export] Program Instance silent_decoders SZ : Decoders SZ unit := {|
  module_start _ _ := tt;
  module_flush _ d := d;
  module_samples _ _ := 0;
  module_callback _ d s o st := Some (s, o, st, d);
  mod_ok _ := True;
  decode_spec _ d a o st := Some (a, o, st, d)
|}.
Next Obligation. done. Qed.
Next Obligation. done. Qed.
Next Obligation. intros SZ id d s a o st _ Hs. by exists s. Qed.
Next Obligation. intros SZ id d a o st a' o' st' d' p _ [= <- <- <- <-]. done. Qed.
