(* ===== verification/AudioPlayer.v ===== *)
(** The player as clients, decode thread and sound device see it: a stream of
    data with commands in it, a list of commands waiting, and the audio state.
    What a decoder module promises to the decode thread is an interface; every
    run of the threads over the real queues refines this abstract player. *)

From S2P Require Import Prelude Endian Ring Fifo2 AudioFifo Mqueue Streambuf StreambufSpec StreambufRefines AudioSync.
From S2P Require Import DecodeOutput DecodeOutputFade DecodeOutputProps DecodeOutputStart Playback PlaybackProps.
From S2P Require Import AudioControl AudioOps AudioCommands AudioInline AudioSystem AudioThread AudioModules.

Section Player.
Context (big : bool) {SZ : Z} {D : Type} `{!Decoders SZ D} (HSZ : 0 < SZ <= max_size) (QSZ : Z) (HQ : 40 < QSZ).

Implicit Types (c : control D) (k : command).

Definition decoder_ok c : Prop := match decoder c with Some (_, d) => mod_ok d | None => True end.

(** ** Commands keep the audio in range and unlocked *)

Lemma with_audio_frame f c c' : with_audio f c = Some c' →
  f_lock (o_fifo (a_out (c_da c'))) = false ∧ c_sync c' = c_sync c ∧ decoder c' = decoder c.
Proof.
  unfold with_audio. destruct (f _) as [d|]; [|done]. cbn [mbind option_bind]. unfold unlock, fifo_unlock, f_locked.
  destruct (f_lock (o_fifo (a_out d))) eqn:E; [|done]. cbn [mbind option_bind]. by intros [= <-].
Qed.

(** Unlocked, without a stream to restore, the decoder's data in order. *)
Definition settled c : Prop :=
  f_lock (o_fifo (a_out (c_da c))) = false ∧ restore_state_on_resume (c_sync c) = false ∧ decoder_ok c.

Lemma with_audio_settled f c c' : with_audio f c = Some c' → restore_state_on_resume (c_sync c) = false → decoder_ok c → settled c'.
Proof.
  intros H Hr Hd. destruct (with_audio_frame _ _ _ H) as (H1 & H2 & H3). unfold settled, decoder_ok. by rewrite H2, H3.
Qed.

Lemma stop_settled v c c' : decode_stop v c = Some c' → settled c → settled c'.
Proof.
  unfold decode_stop. destruct (with_audio _ _) as [c1|] eqn:E; [|done]. cbn [mbind option_bind]. intros [= <-] (Hl & Hr & Hd).
  destruct (with_audio_settled _ _ _ E Hr Hd) as (H1 & H2 & H3). clear E.
  split; [exact H1|]. split; [exact H2|exact I].
Qed.

Lemma flush_settled v c c' : decode_flush module_flush v c = Some c' → settled c → settled c'.
Proof.
  unfold decode_flush. destruct (with_audio _ _) as [c1|] eqn:E; [|done]. cbn [mbind option_bind]. intros [= <-] (Hl & Hr & Hd).
  pose proof (with_audio_settled _ _ _ E Hr Hd) as H1. clear E.
  destruct (decoder c1) as [[id dat]|] eqn:Ed; [|done]. destruct (has_flush id); [|done]. destruct H1 as (H1 & H2 & H3).
  unfold settled, decoder_ok in *. rewrite Ed in H3. split_and!; [done|done|]. by apply flush_law.
Qed.

Lemma effect_settled k c c' : effect module_start module_flush k c = Some c' → settled c → settled c'.
Proof.
  destruct k as [|v|v|v|v|id a| |v]; cbn [effect]; [by intros [= <-]|exact (stop_settled v c c')|exact (flush_settled v c c')|..].
  - intros H (Hl & Hr & Hd). exact (with_audio_settled _ _ _ H Hr Hd).
  - intros H (Hl & Hr & Hd). unfold resume_audio, resume_restore in H. rewrite Hr in H. cbn [mbind option_bind] in H.
    exact (with_audio_settled _ _ _ H Hr Hd).
  - unfold decode_start. destruct (negb _); [intros [= <-] (Hl & Hr & _); split; [exact Hl|]; split; [exact Hr|exact I]|]. intros H (Hl & Hr & Hd). cbv zeta in H.
    revert H. generalize (on_out (λ o, decode_set_output_channels (u8 (channels a))
      (decode_set_track_polarity_inversion (u8 (polarity_inversion a)) (decode_output_set_track_gain (replay_gain a)
      (decode_output_set_transition (transition_type a) (transition_period a) (set_first true o))))) (c_da c)). intros d H.
    refine (with_audio_settled _ _ _ H Hr _). apply start_law.
  - by intros [= <-].
  - intros H (Hl & Hr & Hd). exact (with_audio_settled _ _ _ H Hr Hd).
Qed.

Lemma effect_quiet k c c' : command_ok k → effect module_start module_flush k c = Some c' → quiet c → decoder_ok c → quiet c' ∧ decoder_ok c'.
Proof.
  intros Hk H [Hs Hl Hr] Hd. destruct (effect_settled k c c' H) as (H1 & H2 & H3); [done|].
  split; [|done]. split; [|done|done]. by apply (effect_ok _ _ k c c' Hk H).
Qed.

(** ** The abstract player *)

Record player_state := mk_ps {
  p_stream : stream;
  p_inline : list command;
  p_queue : list command;
  p_ctl : control D
}.

(** The waiting commands run; the result says whether to decode. *)
Fixpoint abs_messages (can : bool) (q : list command) (a : stream) c : option (bool * stream * control D) :=
  match q with
  | [] => Some (can, a, c)
  | k :: q' =>
      c ← effect module_start module_flush k c;
      let a := a_effect k a in
      '(can, _) ← decision module_samples c a;
      abs_messages can q' a c
  end.

Definition abs_decode (can : bool) (a : stream) c : option (stream * control D) :=
  match decoder c with
  | Some (id, data) =>
      if can && c_true (Z.land (current_decoder_state c) DECODE_STATE_RUNNING) then
        '(a, o, state, data) ← decode_spec id data a (a_out (c_da c)) (current_decoder_state c);
        Some (a, set_module (Some (id, data)) (set_decoder_state state (set_da (mk_decode_audio o (a_play (c_da c))) c)))
      else Some (a, c)
  | None => Some (a, c)
  end.

Definition abs_pass (x : player_state) : option player_state :=
  '(can, _) ← decision module_samples (p_ctl x) (p_stream x);
  '(can, a, c) ← abs_messages can (p_queue x) (p_stream x) (p_ctl x);
  match ready a, p_inline x with
  | Some (_, d, t), k :: ks => Some (mk_ps (a_discard (a_take_cmd a (cmd_bytes big k) d t) (cmd_size k) false) ks [k] c)
  | _, _ => '(a, c) ← abs_decode can a c; Some (mk_ps a (p_inline x) [] c)
  end.

(** ** The correspondence *)

Definition waiting_ok k : Prop := cmd_ok k ∧ command_ok k.

Record player_ok (x : player_state) : Prop := {
  po_quiet : quiet (p_ctl x);
  po_decoder : decoder_ok (p_ctl x);
  po_tail : (st_tail (p_stream x)).*1 = cmd_bytes big <$> p_inline x;
  po_inline : Forall (λ k, queued k = false ∧ waiting_ok k) (p_inline x);
  po_queue : Forall waiting_ok (p_queue x)
}.

(** The queues in memory hold what the abstract player says. *)
Definition player_rep c (x : player_state) : Prop :=
  ∃ m s, c = set_mq m (put_sb s (p_ctl x)) ∧ sb_rep SZ s (p_stream x) ∧
    mq_holds big m (cmd_msg <$> p_queue x) ∧ mq_locked m = false ∧ mq_size m = QSZ.

Lemma timer_ctl m s a c : quiet c → sb_rep SZ s a →
  match decision module_samples c a with
  | Some (b, d) => ∃ s', audio_decode_timer_interval module_samples (set_mq m (put_sb s c)) = Some (b, d, set_mq m (put_sb s' c)) ∧ sb_rep SZ s' a
  | None => audio_decode_timer_interval module_samples (set_mq m (put_sb s c)) = None
  end.
Proof. intros Hq Hs. apply (timer_spec module_samples SZ s a (set_mq m c)); [by destruct Hq|done]. Qed.

Lemma a_effect_rep k s a : sb_rep SZ s a → sb_rep SZ (sb_effect k s) (a_effect k a).
Proof. destruct k; try done. apply set_streaming_ok. Qed.

Lemma a_effect_tail k a : st_tail (a_effect k a) = st_tail a ∧ st_head (a_effect k a) = st_head a.
Proof. by destruct k. Qed.

Lemma messages_spec q : ∀ fuel can delay m s a c, (length q < fuel)%nat → quiet c → decoder_ok c → Forall waiting_ok q →
  sb_rep SZ s a → mq_holds big m (cmd_msg <$> q) → mq_locked m = false → mq_size m = QSZ →
  match abs_messages can q a c with
  | Some (can', a', c') => ∃ m' s',
      thread_messages big module_start module_flush module_samples fuel no_wait can delay (set_mq m (put_sb s c))
      = Some (can', set_mq m' (put_sb s' c')) ∧ sb_rep SZ s' a' ∧ mq_holds big m' [] ∧ mq_locked m' = false ∧ mq_size m' = QSZ ∧
      quiet c' ∧ decoder_ok c' ∧ (st_tail a').*1 = (st_tail a).*1
  | None => thread_messages big module_start module_flush module_samples fuel no_wait can delay (set_mq m (put_sb s c)) = None
  end.
Proof.
  induction q as [|k q IH]; intros fuel can delay m s a c Hf Hq Hd Hok Hs Hm Hl Hz; (destruct fuel as [|fuel]; [cbn in Hf; lia|]); cbn [abs_messages thread_messages].
  - destruct (thread_spec big module_start module_flush delay (set_mq m (put_sb s c)) [] Hl Hm (Forall_nil_2 _)) as (m' & -> & (Hr & Hl' & Hz')).
    cbn [mbind option_bind]. exists m', s. split_and!; try done. by rewrite Hz'.
  - apply Forall_cons in Hok as [[Hk1 Hk2] Hok].
    destruct (thread_spec big module_start module_flush delay (set_mq m (put_sb s c)) (k :: q) Hl Hm) as (m1 & -> & Hm1 & Hl1 & Hz1).
    { apply Forall_cons. split; [done|]. eapply Forall_impl; [exact Hok|]. by intros ? [? _]. }
    change (set_mq m1 (set_mq m (put_sb s c))) with (set_mq m1 (put_sb s c)).
    rewrite effect_mq, effect_sb by apply Hq. destruct (effect _ _ k c) as [c1|] eqn:E; [|done]. cbn [fmap option_fmap option_map mbind option_bind].
    destruct (effect_quiet k c c1 Hk2 E Hq Hd) as [Hq1 Hd1]. pose proof (a_effect_rep k s a Hs) as Hs1.
    pose proof (timer_ctl m1 _ _ c1 Hq1 Hs1) as Ht. destruct (decision _ _ _) as [[b d]|]; [|by rewrite Ht].
    destruct Ht as (s2 & -> & Hs2). cbn [mbind option_bind].
    specialize (IH fuel b d m1 s2 (a_effect k a) c1 ltac:(cbn in Hf; lia) Hq1 Hd1 Hok Hs2 Hm1 Hl1 ltac:(by rewrite Hz1)).
    by rewrite (proj1 (a_effect_tail k a)) in IH.
Qed.

Lemma msgs_long q : (length q <= length (q ≫= msg_bytes big))%nat.
Proof.
  induction q as [|x q IH]; [done|]. rewrite bind_cons, length_app. unfold msg_bytes at 1. rewrite length_app, length_native. cbn. lia.
Qed.

Lemma queue_short m q : mq_holds big m q → (length q < Z.to_nat (mq_size m))%nat.
Proof.
  intros [Hb Hr]. pose proof (msgs_long q). pose proof (rr_room _ _ _ _ _ _ Hr) as Hroom.
  unfold q_room, q_used in Hroom. cbn in Hroom. unfold mq_size. lia.
Qed.

Lemma ready_inline a ks bytes d t : (st_tail a).*1 = cmd_bytes big <$> ks → ready a = Some (bytes, d, t) →
  ∃ k ks', ks = k :: ks' ∧ bytes = cmd_bytes big k ∧ t.*1 = cmd_bytes big <$> ks'.
Proof.
  intros Ht Hr. unfold ready in Hr. destruct (st_head a); [|done]. destruct (st_tail a) as [|[b d'] t']; [done|]. injection Hr as -> -> ->.
  destruct ks as [|k ks']; [done|]. injection Ht as -> Ht. by exists k, ks'.
Qed.

Lemma decode_refines can m s a c : quiet c → decoder_ok c → sb_rep SZ s a →
  match abs_decode can a c with
  | Some (a', c') => ∃ s', run_decoder module_callback can (set_mq m (put_sb s c)) = Some (set_mq m (put_sb s' c')) ∧ sb_rep SZ s' a' ∧
      quiet c' ∧ decoder_ok c' ∧ (st_tail a').*1 = (st_tail a).*1
  | None => run_decoder module_callback can (set_mq m (put_sb s c)) = None
  end.
Proof.
  intros Hq Hd Hs. unfold abs_decode, run_decoder. change (decoder (set_mq m (put_sb s c))) with (decoder c).
  change (current_decoder_state (set_mq m (put_sb s c))) with (current_decoder_state c). unfold decoder_ok in Hd.
  destruct (decoder c) as [[id data]|] eqn:Ed; [|exists s; split_and!; try done; by unfold decoder_ok; rewrite Ed].
  destruct (can && _); [|exists s; split_and!; try done; by unfold decoder_ok; rewrite Ed].
  change (a_sb (c_sync (set_mq m (put_sb s c)))) with s. change (c_da (set_mq m (put_sb s c))) with (c_da c).
  pose proof (callback_law id data s a (a_out (c_da c)) (current_decoder_state c) Hd Hs) as Hc.
  destruct (decode_spec _ _ _ _ _) as [[[[a' o'] st'] d']|] eqn:Es; [|by rewrite Hc].
  destruct Hc as (s' & -> & Hs'). cbn [mbind option_bind]. exists s'. destruct Hq as [Q1 Q2 Q3].
  destruct (frame_law id data a _ _ a' o' st' d' (a_play (c_da c)) Hd Es) as (F1 & F2 & F3 & F4); [by destruct (c_da c)|done|].
  split_and!; try done.
Qed.

Lemma thread_pass_spec c x : player_ok x → player_rep c x →
  match abs_pass x with
  | Some x' => ∃ c', thread_pass big module_start module_flush module_samples module_callback (Z.to_nat QSZ) no_wait c = Some c' ∧
      player_rep c' x' ∧ player_ok x'
  | None => thread_pass big module_start module_flush module_samples module_callback (Z.to_nat QSZ) no_wait c = None
  end.
Proof.
  destruct x as [a ks q c0]. intros [Hq Hd Ht Hi Hok] (m & s & -> & Hs & Hm & Hl & Hz). cbn [p_stream p_inline p_queue p_ctl] in *.
  unfold abs_pass, thread_pass. cbn [p_stream p_inline p_queue p_ctl].
  pose proof (timer_ctl m s a c0 Hq Hs) as Hti. destruct (decision _ _ _) as [[b dl]|]; [|by rewrite Hti].
  destruct Hti as (s1 & -> & Hs1). cbn [mbind option_bind].
  pose proof (messages_spec q (Z.to_nat QSZ) b dl m s1 a c0) as Hms. rewrite <- Hz in Hms at 1.
  specialize (Hms ltac:(pose proof (queue_short m _ Hm) as Hx; by rewrite length_fmap in Hx) Hq Hd Hok Hs1 Hm Hl Hz).
  destruct (abs_messages b q a c0) as [[[can a2] c2]|]; [|by rewrite Hms].
  destruct Hms as (m2 & s2 & -> & Hs2 & Hm2 & Hl2 & Hz2 & Hq2 & Hd2 & Ht2). cbn [mbind option_bind]. rewrite Ht in Ht2.
  destruct (ready a2) as [[[bytes d] t]|] eqn:Er.
  - destruct (ready_inline a2 ks bytes d t Ht2 Er) as (k & ks' & -> & -> & Ht').
    apply Forall_cons in Hi as [[Hk [Hk1 Hk2]] Hi]. change s2 with (a_sb (c_sync (set_mq m2 (put_sb s2 c2)))) in Hs2.
    destruct (inline_moves_spec big SZ k d t (set_mq m2 (put_sb s2 c2)) a2 [] HSZ Hk Hs2 Er Hm2 Hl2) as (m3 & s3 & -> & H1 & H2 & H3 & H4).
    { change (c_mq (set_mq m2 (put_sb s2 c2))) with m2. rewrite Hz2. assert (msg_len (cmd_msg k) <= 36) by (destruct k; done). change (msgs_len []) with 0. lia. }
    cbn [mbind option_bind]. eexists. split; [reflexivity|]. split.
    + exists m3, s3. split_and!; try done. by rewrite H3.
    + split; cbn [p_stream p_inline p_queue p_ctl]; try done; [|by apply Forall_singleton].
      unfold a_discard, a_take_cmd. by destruct (st_may_discard a2).
  - destruct (inline_none big SZ (set_mq m2 (put_sb s2 c2)) a2 HSZ Hs2 Er) as (s3 & -> & Hs3). cbn [mbind option_bind].
    change (set_sync _ (set_mq m2 (put_sb s2 c2))) with (set_mq m2 (put_sb s3 c2)).
    pose proof (decode_refines can m2 s3 a2 c2 Hq2 Hd2 Hs3) as Hde. destruct (abs_decode can a2 c2) as [[a4 c4]|]; [|by rewrite Hde].
    destruct Hde as (s4 & -> & Hs4 & Hq4 & Hd4 & Ht4). eexists. split; [reflexivity|]. split.
    + by exists m2, s4.
    + split; cbn [p_stream p_inline p_queue p_ctl]; try done. by rewrite Ht4.
Qed.

(** ** Runs *)

(** A client's call, data for the stream, a pass of the decode thread, a period
    of the device. *)
Inductive player_event :=
  | PCall (k : command)
  | PData (buf : list Z)
  | PPass
  | PPeriod (fuel : nat) (now : Z) (st : i2s) (period_size : Z).

(** The threads on the real queues; the result is what the device plays. *)
Definition player_step (e : player_event) c : option (list Z * control D) :=
  match e with
  | PCall k => c ← client big k c; Some ([], c)
  | PData buf => '(_, s) ← streambuf_data_enq (a_sb (c_sync c)) buf; Some ([], put_sb s c)
  | PPass => c ← thread_pass big module_start module_flush module_samples module_callback (Z.to_nat QSZ) no_wait c; Some ([], c)
  | PPeriod fuel t st n => '(out, _, c) ← playback_period fuel t st n c; Some (out, c)
  end.

Fixpoint player_run (es : list player_event) c : option (list Z * control D) :=
  match es with
  | [] => Some ([], c)
  | e :: es' => '(out, c) ← player_step e c; '(out', c) ← player_run es' c; Some (out ++ out', c)
  end.

(** What a client that puts its command in the stream does besides. *)
Definition start_now k c : control D := match k with QStart _ _ => set_decoder_state 0 c | _ => c end.

Definition abs_player_step (e : player_event) (x : player_state) : option (list Z * player_state) :=
  match e with
  | PCall k =>
      if queued k then c ← now k (p_ctl x); Some ([], mk_ps (p_stream x) (p_inline x) (p_queue x ++ [k]) c)
      else Some ([], mk_ps (a_cmd (p_stream x) (cmd_bytes big k)) (p_inline x ++ [k]) (p_queue x) (start_now k (p_ctl x)))
  | PData buf => Some ([], mk_ps (a_append (p_stream x) buf) (p_inline x) (p_queue x) (p_ctl x))
  | PPass => x ← abs_pass x; Some ([], x)
  | PPeriod fuel t st n => '(out, _, c) ← playback_period fuel t st n (p_ctl x); Some (out, mk_ps (p_stream x) (p_inline x) (p_queue x) c)
  end.

Fixpoint abs_player_run (es : list player_event) (x : player_state) : option (list Z * player_state) :=
  match es with
  | [] => Some ([], x)
  | e :: es' => '(out, x) ← abs_player_step e x; '(out', x) ← abs_player_run es' x; Some (out ++ out', x)
  end.

(** Clients call with arguments in range and when there is room. *)
Definition legal_event (e : player_event) (x : player_state) : Prop :=
  match e with
  | PCall k => waiting_ok k ∧
      if queued k then msgs_len (cmd_msg <$> p_queue x) + msg_len (cmd_msg k) < QSZ
      else (length (st_tail (p_stream x)) < 8)%nat ∧ length (st_kept (p_stream x)) ≠ 9%nat ∧ cmd_size k < SZ - 1 - st_used (p_stream x)
  | PData buf => Z.of_nat (length buf) <= SZ - 1 - st_used (p_stream x)
  | PPass => True
  | PPeriod _ _ _ n => 0 < n
  end.

Fixpoint legal_events (es : list player_event) (x : player_state) : Prop :=
  match es with
  | [] => True
  | e :: es' => legal_event e x ∧ (match abs_player_step e x with Some (_, x') => legal_events es' x' | None => True end)
  end.

Lemma quiet_settled c : quiet c → decoder_ok c → settled c.
Proof. intros [_ H1 H2] H3. done. Qed.

Lemma settled_quiet c : sys_ok (c_da c) → settled c → quiet c ∧ decoder_ok c.
Proof. intros Hs (H1 & H2 & H3). done. Qed.

Lemma now_sb k s c : now k (put_sb s c) = put_sb s <$> now k c.
Proof. by destruct k. Qed.

Lemma now_quiet k c c' : now k c = Some c' → quiet c → decoder_ok c → quiet c' ∧ decoder_ok c'.
Proof.
  intros H Hq Hd. apply settled_quiet.
  - apply (sys_step_ok module_start module_flush c); [by apply (step_call _ _ k)|apply Hq].
  - destruct (quiet_settled c Hq Hd) as (H1 & H2 & H3). destruct k; cbn [now] in H; try by injection H as <-.
Qed.

Lemma call_queued k x c : queued k = true → legal_event (PCall k) x → player_ok x → player_rep c x →
  match abs_player_step (PCall k) x with
  | Some (out, x') => ∃ c', player_step (PCall k) c = Some (out, c') ∧ player_rep c' x' ∧ player_ok x'
  | None => player_step (PCall k) c = None
  end.
Proof.
  destruct x as [a ks q c0]. intros Hk [[Hk1 Hk2] Hroom] [Hq Hd Ht Hi Hok] (m & s & -> & Hs & Hm & Hl & Hz).
  cbn [abs_player_step player_step p_stream p_inline p_queue p_ctl] in *. rewrite Hk in Hroom |- *.
  destruct (client_spec big k (set_mq m (put_sb s c0)) _ Hk Hk1 Hm) as (m' & -> & H1 & H2 & H3).
  { change (c_mq (set_mq m (put_sb s c0))) with m. by rewrite Hz. }
  rewrite now_mq, now_sb. destruct (now k c0) as [c1|] eqn:E; [|done]. cbn [fmap option_fmap option_map mbind option_bind].
  destruct (now_quiet k c0 c1 E Hq Hd) as [Hq1 Hd1]. eexists. split; [reflexivity|]. split.
  - exists m', s. split_and!; [done|done| |done|by rewrite H3]. cbn [p_queue]. rewrite fmap_app. exact H1.
  - split; try done. cbn [p_queue]. apply Forall_app. by split; [|apply Forall_singleton].
Qed.

Lemma wakeup_spec m c q : mq_holds big m q → ∃ m', audio_wakeup_decode_thread (set_mq m c) = Some (set_mq m' c) ∧
  mq_holds big m' q ∧ mq_locked m' = false ∧ mq_size m' = mq_size m.
Proof.
  intros H. unfold audio_wakeup_decode_thread. cbn [c_mq set_mq fifo_lock snd].
  destruct (unlock_rep (mk_mqueue (mq_buffer m) (f_set_lock true (mq_fifo m))) _ eq_refl H) as (m' & Hu & (H1 & H2 & H3)).
  exists m'. unfold mqueue_write_complete, fifo_signal, f_locked. cbn [mq_fifo f_lock f_set_lock mbind option_bind]. by rewrite Hu.
Qed.

(** A command for the stream as its client sends it. *)
Lemma client_inline k m s a q c : queued k = false → sb_rep SZ s a → mq_holds big m q → mq_locked m = false →
  (length (st_tail a) < 8)%nat → length (st_kept a) ≠ 9%nat → cmd_size k < SZ - 1 - st_used a →
  ∃ m' s', client big k (set_mq m (put_sb s c)) = Some (set_mq m' (put_sb s' (start_now k c))) ∧
    sb_rep SZ s' (a_cmd a (cmd_bytes big k)) ∧ mq_holds big m' q ∧ mq_locked m' = false ∧ mq_size m' = mq_size m.
Proof.
  intros Hk Hs Hm Hl H1 H2 H3. rewrite <- (length_cmd_bytes big k Hk) in H3.
  destruct k as [|v|v|v|v|id ar| |v]; try done; cbn [client start_now].
  - destruct (stream_command_spec big SZ QResumeDecoder [] (set_mq m (put_sb s c)) a HSZ Hk eq_refl eq_refl Hs H1 H2 H3) as (s' & E & Hs').
    exists m, s'. split; [exact E|done].
  - destruct (stream_command_spec big SZ (QStart id ar) (start_words id ar) (set_decoder_state 0 (set_mq m (put_sb s c))) a HSZ Hk eq_refl eq_refl Hs H1 H2 H3) as (s' & E & Hs').
    destruct (wakeup_spec m (put_sb s' (set_decoder_state 0 c)) q Hm) as (m' & Ew & Hm' & Hl' & Hz').
    exists m', s'. split; [|done]. unfold audio_decoder_start. cbv zeta. fold (start_words id ar). change (op_num (cmd_op (QStart id ar))) with 6 in E. rewrite E. exact Ew.
  - destruct (stream_command_spec big SZ QStEnd [] (set_mq m (put_sb s c)) a HSZ Hk eq_refl eq_refl Hs H1 H2 H3) as (s' & E & Hs').
    exists m, s'. split; [exact E|done].
Qed.

Lemma start_now_quiet k c : quiet c → decoder_ok c → quiet (start_now k c) ∧ decoder_ok (start_now k c).
Proof. intros [? ? ?] ?. by destruct k. Qed.

Lemma call_inline k x c : queued k = false → legal_event (PCall k) x → player_ok x → player_rep c x →
  match abs_player_step (PCall k) x with
  | Some (out, x') => ∃ c', player_step (PCall k) c = Some (out, c') ∧ player_rep c' x' ∧ player_ok x'
  | None => player_step (PCall k) c = None
  end.
Proof.
  destruct x as [a ks q c0]. intros Hk [Hok Hroom] [Hq Hd Ht Hi Hokq] (m & s & -> & Hs & Hm & Hl & Hz).
  cbn [abs_player_step player_step p_stream p_inline p_queue p_ctl] in *. rewrite Hk in Hroom |- *. destruct Hroom as (H1 & H2 & H3).
  destruct (client_inline k m s a _ c0 Hk Hs Hm Hl H1 H2 H3) as (m' & s' & -> & Hs' & Hm' & Hl' & Hz'). cbn [mbind option_bind].
  destruct (start_now_quiet k c0 Hq Hd) as [Hq1 Hd1]. eexists. split; [reflexivity|]. split.
  - exists m', s'. split_and!; [done|done|done|done|by rewrite Hz'].
  - split; try done; cbn [p_stream p_inline a_cmd st_tail].
    + rewrite !fmap_app, Ht. done.
    + apply Forall_app. by split; [|apply Forall_singleton].
Qed.

Lemma period_ctl fuel t st n m s c : playback_period fuel t st n (set_mq m (put_sb s c))
  = (λ r, (r.1, set_mq m (put_sb s r.2))) <$> playback_period fuel t st n c.
Proof.
  unfold playback_period. change (c_da (set_mq m (put_sb s c))) with (c_da c). destruct (playback_callback _ _ _ _ _) as [[out d]|]; [|done].
  cbn [mbind option_bind]. by destruct (unlock (a_out d)).
Qed.

Lemma period_quiet fuel t st n c out b c' : 0 < n → playback_period fuel t st n c = Some (out, b, c') → quiet c → decoder_ok c →
  quiet c' ∧ decoder_ok c'.
Proof.
  intros Hn. unfold playback_period. set (d0 := mk_decode_audio _ _). destruct (playback_callback _ _ _ _ d0) as [[out1 d]|] eqn:E; [|done].
  cbn [mbind option_bind]. unfold unlock, fifo_unlock, f_locked. destruct (f_lock (o_fifo (a_out d))); [|done]. cbn [mbind option_bind negb].
  intros [= _ _ <-] [Hs Hl Hr] Hd. apply settled_quiet; [|done]. destruct Hs as [Ho Hp Hg].
  assert (H0 : sys_ok d0) by (split; [by apply (locked_ok (a_out (c_da c)))|done|done]).
  destruct (kept_ok d0 d (playback_kept fuel t st n d0 out1 d (proj1 (sy_out _ H0)) Hn E) H0) as [Ho1 Hp1 Hg1].
  split; [by apply unlocked_ok|done|done].
Qed.

Lemma append_tail a buf : (st_tail (a_append a buf)).*1 = (st_tail a).*1.
Proof.
  unfold a_append. pose proof (append_ok (st_tail a) (st_head a) buf) as H.
  destruct (append (st_head a) (st_tail a) buf) as [h t]. by destruct H as (_ & _ & H).
Qed.

Lemma player_step_spec e c x : legal_event e x → player_ok x → player_rep c x →
  match abs_player_step e x with
  | Some (out, x') => ∃ c', player_step e c = Some (out, c') ∧ player_rep c' x' ∧ player_ok x'
  | None => player_step e c = None
  end.
Proof.
  intros He Hx Hc. destruct e as [k|buf| |fuel t st n].
  - destruct (queued k) eqn:Hk; [by apply call_queued|by apply call_inline].
  - destruct x as [a ks q c0], Hx as [Hq Hd Ht Hi Hok], Hc as (m & s & -> & Hs & Hm & Hl & Hz). cbn [legal_event abs_player_step player_step p_stream p_inline p_queue p_ctl] in *.
    change (a_sb (c_sync (set_mq m (put_sb s c0)))) with s. destruct (data_enq_ok SZ HSZ s a buf Hs He) as (s' & -> & Hs'). cbn [mbind option_bind].
    eexists. split; [reflexivity|]. split; [by exists m, s'|]. split; try done. cbn [p_stream p_inline]. by rewrite append_tail.
  - pose proof (thread_pass_spec c x Hx Hc) as Hp. cbn [abs_player_step player_step]. destruct (abs_pass x) as [x'|]; [|by rewrite Hp].
    destruct Hp as (c' & -> & H1 & H2). by exists c'.
  - destruct x as [a ks q c0], Hx as [Hq Hd Ht Hi Hok], Hc as (m & s & -> & Hs & Hm & Hl & Hz). cbn [legal_event abs_player_step player_step p_stream p_inline p_queue p_ctl] in *.
    rewrite period_ctl. destruct (playback_period fuel t st n c0) as [[[out b] c1]|] eqn:E; [|done]. cbn [fmap option_fmap option_map mbind option_bind fst snd].
    destruct (period_quiet fuel t st n c0 out b c1 He E Hq Hd) as [Hq1 Hd1]. eexists. split; [reflexivity|]. split; [by exists m, s|by split].
Qed.

Lemma player_run_spec es c x : legal_events es x → player_ok x → player_rep c x →
  match abs_player_run es x with
  | Some (out, x') => ∃ c', player_run es c = Some (out, c') ∧ player_rep c' x' ∧ player_ok x'
  | None => player_run es c = None
  end.
Proof.
  revert c x. induction es as [|e es IH]; intros c x Hl Hx Hc; cbn [abs_player_run player_run]; [by exists c|].
  destruct Hl as [He Hl]. pose proof (player_step_spec e c x He Hx Hc) as Hs. destruct (abs_player_step e x) as [[out x1]|]; [|by rewrite Hs].
  destruct Hs as (c1 & -> & Hc1 & Hx1). cbn [mbind option_bind]. specialize (IH c1 x1 Hl Hx1 Hc1).
  destruct (abs_player_run es x1) as [[out' x2]|]; [|by rewrite IH]. destruct IH as (c2 & -> & Hc2 & Hx2). by exists c2.
Qed.

(** C5.  The threads over the real queues are the abstract player: whatever the
    order of client calls, data, passes of the decode thread and periods of
    the device, as long as calls are made when there is room, the device plays
    what it plays when each pass runs all waiting commands in order and then
    takes the next command of the stream in its place or lets the decoder
    work on the stream's data, and the queues hold what that player says; a
    run that stops stops there too. *)
Theorem player_refines es c x : legal_events es x → player_ok x → player_rep c x →
  match abs_player_run es x with
  | Some (out, x') => ∃ c', player_run es c = Some (out, c') ∧ player_rep c' x'
  | None => player_run es c = None
  end.
Proof.
  intros Hl Hx Hc. pose proof (player_run_spec es c x Hl Hx Hc) as H. destruct (abs_player_run es x) as [[out x']|]; [|done].
  destruct H as (c' & H1 & H2 & _). by exists c'.
Qed.
End Player.

(** A pause is queued and data arrives; a pass runs the pause, and the device
    then plays silence. *)
Definition pause_events : list player_event :=
  [PCall (QPause 0); PData [1; 2; 3]; PPass; PPeriod 3 0 (mk_i2s 10 44100) 2].

Lemma player_refines_witness :
  ∃ c' x', player_run (SZ := 64) true 512 pause_events demo_control = Some ([0; 0; 0; 0], c') ∧
    player_rep true (SZ := 64) 512 c' x' ∧ p_queue x' = [] ∧ st_head (p_stream x') = [1; 2; 3].
Proof.
  assert (HSZ : 0 < 64 <= max_size) by (unfold max_size; lia).
  pose proof (player_refines true HSZ 512 ltac:(lia) pause_events demo_control (mk_ps stream_init [] [] demo_control)) as H.
  assert (Hv : (λ r, (r.1, p_queue r.2, st_head (p_stream r.2))) <$> abs_player_run (SZ := 64) true pause_events (mk_ps stream_init [] [] demo_control)
    = Some ([0; 0; 0; 0], [], [1; 2; 3])) by (vm_compute; reflexivity).
  revert Hv H. generalize (abs_player_run (SZ := 64) true pause_events (mk_ps stream_init [] [] demo_control)).
  intros [[out x']|] Hv H; [|discriminate Hv]. apply (inj Some) in Hv.
  assert (Ho : out = [0; 0; 0; 0]) by exact (f_equal (λ r, r.1.1) Hv). assert (Hq : p_queue x' = []) by exact (f_equal (λ r, r.1.2) Hv).
  assert (Hh : st_head (p_stream x') = [1; 2; 3]) by exact (f_equal snd Hv). subst out. clear Hv.
  destruct H as (c' & H1 & H2); [| | |exists c', x'; split; [exact H1|split; [exact H2|split; [exact Hq|exact Hh]]]].
  - split; [split; [split; [|exact I]; apply Forall_singleton; vm_compute; split; [discriminate|reflexivity]|vm_compute; reflexivity]|].
    split; [vm_compute; discriminate|]. split; [exact I|]. vm_compute. split; [reflexivity|exact I].
  - split; [split; [exact demo_sys_ok|reflexivity|reflexivity]|exact I|reflexivity|apply Forall_nil_2|apply Forall_nil_2].
  - exists (c_mq demo_control), (a_sb (c_sync demo_control)). split; [reflexivity|]. split; [by apply init_ok|]. split; [|split; reflexivity].
    split; [vm_compute; split; [reflexivity|discriminate]|]. apply rep_init; vm_compute; reflexivity.
Defined.
