(* ===== verification/PlayTrack.v ===== *)
(** From a client's call to sound: the whole player, commands, stream, decode
    thread, PCM decoder, output buffer and device together, for a track that is
    started while another one is still playing. *)

From S2P Require Import Prelude Endian Ring Fifo2 AudioFifo Mqueue Streambuf StreambufSpec StreambufRefines AudioSync.
From S2P Require Import DecodeOutput DecodeOutputFade DecodeOutputProps DecodeOutputStart Playback PlaybackProps PlaybackThrough.
From S2P Require Import AudioControl AudioOps AudioCommands AudioInline AudioSystem DecodePcm DecodePcmProps PcmToDevice AudioThread AudioModules AudioPlayer.

Section Track.
Context (big : bool) {SZ : Z} {O : Type} `{!Decoders SZ O} (HSZ : 0 < SZ <= max_size) (QSZ : Z) (HQ : 40 < QSZ).
Context (mem : list Z) (Hmem : length mem = Z.to_nat BLOCKSIZE).

Local Instance modules : Decoders SZ (decode_pcm + O) := pcm_decoders big HSZ mem Hmem.

Implicit Types (c : control (decode_pcm + O)) (args : start_args).

(** ** The start of a track *)

(** The output after a start. *)
Definition started args (o : output) : output :=
  decode_set_output_channels (u8 (channels args))
    (decode_set_track_polarity_inversion (u8 (polarity_inversion args))
      (decode_output_set_track_gain (replay_gain args)
        (decode_output_set_transition (transition_type args) (transition_period args) (set_first true o)))).

Definition start_ctl args c : control (decode_pcm + O) :=
  let o := call Start (started args (a_out (c_da c))) in
  let p := set_rate (track_sample_rate (o_track (a_out (c_da c)))) (set_threshold (threshold args) (a_play (c_da c))) in
  set_da (mk_decode_audio o p) (set_module (Some (112, inl (decode_pcm_start mem))) c).

(** What a start leaves of the output. *)
Lemma started_keeps args o : let o' := started args o in
  o_fifo o' = o_fifo o ∧ o_buf o' = o_buf o ∧ o_track o' = o_track o ∧ o_fade o' = o_fade o ∧ o_state o' = o_state o ∧
  decode_first_buffer o' = true ∧ (transition_period args = 0 → decode_transition_type o' = TRANSITION_NONE).
Proof.
  unfold started. set (o1 := decode_output_set_transition _ _ _).
  assert (H1 : o_fifo o1 = o_fifo o ∧ o_buf o1 = o_buf o ∧ o_track o1 = o_track o ∧ o_fade o1 = o_fade o ∧ o_state o1 = o_state o ∧
    decode_first_buffer o1 = true ∧ (transition_period args = 0 → decode_transition_type o1 = TRANSITION_NONE)).
  { unfold o1, decode_output_set_transition. destruct (transition_period args =? 0) eqn:E; bool_prop; [done|].
    split_ifs; (split_and!; [done..|]); intros; lia. }
  clearbody o1. exact H1.
Qed.

Lemma start_effect args c : f_lock (o_fifo (a_out (c_da c))) = false →
  effect module_start module_flush (QStart 112 args) c = Some (start_ctl args c).
Proof.
  intros Hl. cbn [effect]. unfold decode_start. change (negb (existsb (Z.eqb 112) all_decoders)) with false. cbv beta iota zeta.
  unfold start_ctl. fold (started args). destruct (started_keeps args (a_out (c_da c))) as (Hf & _ & Htr & _).
  unfold on_out at 1. set (o1 := started args (a_out (c_da c))) in *. clearbody o1. rewrite <- Hf in Hl. rewrite <- Htr. clear Hf Htr.
  unfold with_audio, play_begin, run_out, decode_output_begin, f_locked.
  cbn [c_da set_module set_da on_out on_play a_out a_play set_fifo o_fifo fifo_lock snd f_lock f_set_lock mbind option_bind call].
  unfold unlock, fifo_unlock, f_locked. cbn [a_out o_fifo f_lock f_set_lock mbind option_bind].
  do 2 f_equal. destruct o1 as [[l ? ? ?] ? ? ? ? ? ? ? ? ? ?]. cbn in *. by subst l.
Qed.

(** ** The first block of the track *)

(** The first buffer without a transition. *)
Definition first_of (rate : Z) (copyright : bool) (o : output) : output :=
  let t := o_track o in
  let o := set_fade (set_crossfade false (o_fade o)) o in
  set_first false (set_track (mk_track true (f_wptr (o_fifo o)) copyright (u32 rate) (written_track_samples t)
    (sync_timestamp t) (samples_until_fade t) (samples_to_fade t) (transition_sample_rate t)) o).

Lemma first_plain fuel rate copyright o : decode_transition_type o = TRANSITION_NONE →
  first_buffer fuel o rate copyright = Some (first_of rate copyright o).
Proof.
  intros H. unfold first_buffer. set (o1 := set_start_point _ _). change (decode_transition_type o1) with (decode_transition_type o).
  rewrite H. reflexivity.
Qed.

Lemma first_playing rate copyright o p : playing o p → playing (first_of rate copyright o) p.
Proof.
  intros [[[B1 B2 B3 B4 B5] [S1 S2]] Hg [Ht1 Ht2] Ha Hr Hs Hk]. by split.
Qed.

Lemma locked_playing o p : playing o p → playing (locked o) p.
Proof. intros [Ho Hg Ht Ha Hr Hs Hk]. split; try done. by apply locked_ok. Qed.

Lemma started_playing args o p : playing o p → playing (call Start (started args o)) p.
Proof.
  destruct (started_keeps args o) as (K1 & K2 & K3 & K4 & K5 & _ & _). set (o1 := started args o) in *. clearbody o1.
  intros [Ho Hg [Ht1 Ht2] Ha Hr Hs Hk]. split; try done; cbn [call o_fade o_state]; rewrite ?K4, ?K5; try done.
  - apply (out_ok_same o); [done|done|done|by cbn; rewrite K3|done].
  - split; cbn; by rewrite K3.
Qed.

(** The stereo 16-bit samples of whole frames. *)
Lemma pcm_first_block buf M : length buf = (4 * M)%nat → (M <= 1024)%nat → 
  ∃ samples self', pcm_block big (decode_pcm_start mem) buf = Some (Z.of_nat M, samples, self') ∧
    read_samples pcm_read16bitLE 2 false (2 * M) buf = Some samples ∧ length samples = (2 * M)%nat ∧ sample_rate self' = 44100.
Proof.
  intros Hb HM. assert (Hp : pcm_ok big (decode_pcm_start mem) pcm_read16bitLE 2).
  { split; try done; cbn [sample_size read_buffer leftover stereo decode_pcm_start]; try lia. by rewrite length_take, Hmem, Nat.min_id. }
  destruct (pcm_block_spec big (decode_pcm_start mem) pcm_read16bitLE 2 buf Hp) as (out & self' & H1 & H2 & _ & _ & _ & H4); [cbn; lia|].
  change (pending (decode_pcm_start mem) ++ buf) with buf in *.
  assert (Hw : whole (decode_pcm_start mem) 2 (length buf) = (2 * M)%nat).
  { unfold whole. cbn [stereo decode_pcm_start]. rewrite Hb. replace (4 * M)%nat with (M * (2 * 2))%nat by lia. by rewrite Nat.div_mul. }
  rewrite Hw in *. exists out, self'. cbn [stereo decode_pcm_start negb] in *. replace (2 * M / 2)%nat with M in H1 by (rewrite Nat.mul_comm, Nat.div_mul; lia).
  split_and!; try done. destruct (read_samples_length pcm_read16bitLE 2 false (2 * M) buf) as (l & E & Hl);
    [apply (formats_read _ _ _ _ Hp)|lia|]. rewrite H2 in E. injection E as <-. lia.
Qed.

(** The block is decoded, and the device then plays what was waiting and the
    block. *)
Lemma first_block_plays args o p p' a st fuel t i2 buf M : playing o p → f_lock (o_fifo o) = false → transition_period args = 0 →
  lgain p' = lgain p → rgain p' = rgain p → add_silence_ms p' = add_silence_ms p → skip_ahead_bytes p' = skip_ahead_bytes p →
  st_head a = buf → length buf = (4 * M)%nat → (0 < M <= 1024)%nat →
  8 * (frames_used o + Z.of_nat M) < f_size (o_fifo o) → frames_used o + Z.of_nat M <= Z.of_nat fuel →
  ∃ samples a' o2 self' d', read_samples pcm_read16bitLE 2 false (2 * M) buf = Some samples ∧
    pcm_spec big (decode_pcm_start mem) a (call Start (started args o)) st = Some (a', o2, Z.ldiff st DecodePcm.DECODE_STATE_UNDERRUN, self') ∧
    playback_callback fuel t i2 (frames_used o + Z.of_nat M) (mk_decode_audio (locked o2) p')
    = Some (play_samples (lgain p) (rgain p) (fresh o (Z.to_nat (frames_used o)) ++ processed (o_volume (started args o)) samples), d') ∧
    f_lock (o_fifo (a_out d')) = true.
Proof.
  intros Hpl Hlock Hper G1 G2 G3 G4 Ha Hb HM Hroom Hfuel.
  destruct (pcm_first_block buf M Hb ltac:(lia)) as (samples & self' & Hblk & Hrs & Hlen & Hrate).
  set (o' := call Start (started args o)). destruct (started_keeps args o) as (K1 & K2 & _ & _ & _ & K6 & K7). specialize (K7 Hper).
  assert (Hp' : playing o' p') by (destruct (started_playing args o p Hpl); split; try done; congruence).
  set (o1 := first_of 44100 streambuf_is_copyright (locked o')).
  assert (Ho1 : (if decode_first_buffer o' then first_buffer (pcm_fuel o' 44100) (locked o') 44100 streambuf_is_copyright else Some (locked o')) = Some o1).
  { change (decode_first_buffer o') with (decode_first_buffer (started args o)). rewrite K6. by apply first_plain. }
  assert (Hf1 : o_fifo o1 = f_set_lock true (o_fifo o)) by (transitivity (f_set_lock true (o_fifo (started args o))); [reflexivity|by rewrite K1]).
  assert (Hb1 : o_buf o1 = o_buf o) by exact K2.
  assert (Hu : frames_used o1 = frames_used o) by (unfold frames_used; by rewrite Hf1).
  assert (Hfr : fresh o1 (Z.to_nat (frames_used o)) = fresh o (Z.to_nat (frames_used o))) by (unfold fresh; by rewrite Hf1, Hb1).
  destruct (through_from (pcm_fuel o' 44100) fuel t i2 44100 streambuf_is_copyright o' o1 p' samples M) as (o2 & d' & H1 & H2 & H3 & _ & H5).
  - exact Ho1.
  - by apply first_playing, locked_playing.
  - by rewrite Hf1.
  - done.
  - lia.
  - by rewrite Hu, Hf1.
  - unfold pcm_fuel. lia.
  - by rewrite Hu.
  - rewrite Hu, Hfr, G1, G2 in H3. exists samples. eexists _, o2, self', d'. split_and!; [done| |exact H3|done].
    unfold pcm_spec. assert (Htk : pcm_take a (decode_pcm_start mem) = Z.of_nat (length buf)).
    { unfold pcm_take. rewrite Ha. cbn [leftover decode_pcm_start]. lia. }
    rewrite Htk, Ha. destruct (_ =? 0) eqn:E; bool_prop; [lia|]. rewrite take_ge by lia. rewrite Hblk. cbn [mbind option_bind].
    destruct (Z.of_nat M =? 0) eqn:E2; bool_prop; [lia|]. rewrite Hrate. change (sample_rate (decode_pcm_start mem)) with 44100.
    fold o'. rewrite H1. reflexivity.
Qed.

(** ** The passes of the decode thread *)

Lemma decision_idle c a : current_decoder_state c = 0 → decision module_samples c a = Some (false, DECODE_MAX_INTERVAL).
Proof.
  intros H. unfold decision. rewrite H. destruct (decoder c) as [[id d]|]; [|done]. cbn [Z.land Z.eqb negb]. by rewrite orb_true_r.
Qed.

Lemma decision_go c a self : decoder c = Some (112, inl self) → current_decoder_state c = DECODE_STATE_RUNNING → st_head a ≠ [] →
  samples_to_bytes BLOCKSIZE < room (a_out (c_da c)) → decision module_samples c a = Some (true, 0).
Proof.
  intros H1 H2 H3 H4. unfold decision. rewrite H1, H2. change (c_true (Z.land DECODE_STATE_RUNNING DECODE_STATE_UNDERRUN)) with false.
  rewrite !andb_false_r. change (negb (Z.land DECODE_STATE_RUNNING (Z.lor DECODE_STATE_RUNNING DECODE_STATE_ERROR) =? DECODE_STATE_RUNNING)) with false.
  change (112 =? decode_flac) with false. cbn [orb andb]. assert (Hh : (Z.of_nat (length (st_head a)) <? 1) = false).
  { destruct (st_head a); [done|]. apply Z.ltb_ge. cbn. lia. }
  rewrite Hh, andb_false_r. change (module_samples 112 (inl self)) with BLOCKSIZE. destruct (_ <? room _) eqn:E; bool_prop; [done|lia].
Qed.

Lemma a_discard_keeps a n b : st_head (a_discard a n b) = st_head a ∧ st_tail (a_discard a n b) = st_tail a.
Proof. unfold a_discard. by destruct (st_may_discard a). Qed.

(** A pass that takes a command from the stream. *)
Lemma pass_takes a k ks q c can2 a2 c2 d t : current_decoder_state c = 0 → abs_messages false q a c = Some (can2, a2, c2) →
  st_head a2 = [] → st_tail a2 = (cmd_bytes big k, d) :: t →
  ∃ a', abs_pass big (mk_ps a (k :: ks) q c) = Some (mk_ps a' ks [k] c2) ∧ st_head a' = d ∧ st_tail a' = t.
Proof.
  intros H0 Hm Hh Ht. exists (a_discard (a_take_cmd a2 (cmd_bytes big k) d t) (cmd_size k) false).
  split; [|apply a_discard_keeps]. unfold abs_pass. cbn [p_ctl p_stream p_queue p_inline]. rewrite decision_idle by done.
  cbn [mbind option_bind]. rewrite Hm. cbn [mbind option_bind]. unfold ready. by rewrite Hh, Ht.
Qed.

Lemma three_passes args a buf c self : current_decoder_state c = 0 → f_lock (o_fifo (a_out (c_da c))) = false → self = decode_pcm_start mem →
  st_head a = [] → st_tail a = [(cmd_bytes big (QStart 112 args), []); (cmd_bytes big QResumeDecoder, buf)] → buf ≠ [] →
  samples_to_bytes BLOCKSIZE < room (started args (a_out (c_da c))) →
  ∃ x1 x2 a3, abs_pass big (mk_ps a [QStart 112 args; QResumeDecoder] [] c) = Some x1 ∧ abs_pass big x1 = Some x2 ∧ st_head a3 = buf ∧
    abs_pass big x2 = ('(a, o, st, self) ← pcm_spec big self a3 (call Start (started args (a_out (c_da c)))) DECODE_STATE_RUNNING;
      Some (mk_ps a [] [] (set_module (Some (112, inl self)) (set_decoder_state st (set_da (mk_decode_audio o (a_play (c_da (start_ctl args c)))) (start_ctl args c)))))).
Proof.
  intros Hst Hl -> Hh Ht Hb Hroom.
  destruct (pass_takes a (QStart 112 args) [QResumeDecoder] [] c false a c _ _ Hst eq_refl Hh Ht) as (a1 & P1 & Hh1 & Ht1).
  assert (Hm2 : abs_messages false [QStart 112 args] a1 c = Some (false, a1, start_ctl args c)).
  { cbn [abs_messages a_effect]. rewrite (start_effect args c Hl). cbn [mbind option_bind]. rewrite decision_idle by exact Hst. done. }
  destruct (pass_takes a1 QResumeDecoder [] [QStart 112 args] c false a1 (start_ctl args c) _ _ Hst Hm2 Hh1 Ht1) as (a2 & P2 & Hh2 & Ht2).
  eexists _, _, a2. split; [exact P1|]. split; [exact P2|]. split; [done|].
  unfold abs_pass. cbn [p_ctl p_stream p_queue p_inline]. rewrite decision_idle by exact Hst. cbn [mbind option_bind abs_messages effect a_effect].
  unfold resume_decoder. cbn [mbind option_bind]. rewrite (decision_go _ a2 (decode_pcm_start mem)); [|done|done|by rewrite Hh2|exact Hroom].
  cbn [mbind option_bind]. assert (Hr : ready a2 = None) by (unfold ready; rewrite Hh2, Ht2; by destruct buf). rewrite Hr.
  unfold abs_decode. change (decoder (set_decoder_state _ (start_ctl args c))) with (Some (112, inl (decode_pcm_start mem)) : option (Z * (decode_pcm + O))).
  cbv beta iota. change (true && c_true _) with true. cbv beta iota.
  match goal with |- context [decode_spec 112 ?d a2 ?o ?s] => change (decode_spec 112 d a2 o s) with (pcm_decode_spec big 112 d a2 o s) end.
  cbn [pcm_decode_spec]. change (a_out (c_da (set_decoder_state _ (start_ctl args c)))) with (call Start (started args (a_out (c_da c)))).
  change (current_decoder_state (set_decoder_state DECODE_STATE_RUNNING (start_ctl args c))) with DECODE_STATE_RUNNING.
  destruct (pcm_spec _ _ _ _ _) as [[[[a4 o4] st4] self4]|]; [|done]. reflexivity.
Qed.

(** ** The whole *)

Definition track_events args (buf : list Z) (fuel : nat) (t : Z) (st : i2s) (n : Z) : list player_event :=
  [PCall (QStart 112 args); PCall QResumeDecoder; PData buf; PPass; PPass; PPass; PPeriod fuel t st n].

Lemma run_cons e es x out x' out' x'' : legal_event QSZ (SZ := SZ) e x → abs_player_step big e x = Some (out, x') →
  legal_events big QSZ es x' ∧ abs_player_run big es x' = Some (out', x'') →
  legal_events big QSZ (e :: es) x ∧ abs_player_run big (e :: es) x = Some (out ++ out', x'').
Proof. intros He Hs [Hl Hr]. cbn [legal_events abs_player_run]. rewrite Hs. cbn [mbind option_bind]. by rewrite Hr. Qed.

Lemma used_cmd a b : st_used (a_cmd a b) = st_used a + Z.of_nat (length b).
Proof.
  unfold st_used, st_bytes, st_read, st_pieces. cbn [a_cmd st_head st_tail st_data st_cmd st_thaw_data st_thaw_cmd].
  rewrite bind_app, bind_singleton. cbn [fst snd]. rewrite app_nil_r, !length_app. lia.
Qed.

Lemma period_plays fuel t st n c out d : playback_callback fuel t st n (mk_decode_audio (locked (a_out (c_da c))) (a_play (c_da c))) = Some (out, d) →
  f_lock (o_fifo (a_out d)) = true → ∃ b c', playback_period fuel t st n c = Some (out, b, c').
Proof.
  intros H Hl. unfold playback_period. cbn [fifo_lock snd]. fold (locked (a_out (c_da c))). rewrite H. cbn [mbind option_bind].
  unfold unlock, fifo_unlock, f_locked. rewrite Hl. cbn [mbind option_bind]. by eexists _, _.
Qed.

Lemma track_run args buf M a c fuel t st : f_lock (o_fifo (a_out (c_da c))) = false → playing (a_out (c_da c)) (a_play (c_da c)) →
  st_head a = [] → st_tail a = [] → (length (st_kept a) <= 7)%nat → waiting_ok (QStart 112 args) → transition_period args = 0 →
  length buf = (4 * M)%nat → (0 < M <= 1024)%nat → 41 + Z.of_nat (length buf) + st_used a <= SZ → samples_to_bytes BLOCKSIZE < room (a_out (c_da c)) →
  let o := a_out (c_da c) in
  let p := a_play (c_da c) in
  let n := frames_used o + Z.of_nat M in
  n <= Z.of_nat fuel →
  ∃ samples x', read_samples pcm_read16bitLE 2 false (2 * M) buf = Some samples ∧
    legal_events big QSZ (track_events args buf fuel t st n) (mk_ps a [] [] c) ∧
    abs_player_run big (track_events args buf fuel t st n) (mk_ps a [] [] c)
    = Some (play_samples (lgain p) (rgain p) (fresh o (Z.to_nat (frames_used o)) ++ processed (o_volume (started args o)) samples), x').
Proof.
  intros Hlock Hpl Hh Ht Hk Hok Hper Hb HM HSZ' Hroom o p n Hfuel.
  set (kS := QStart 112 args) in *. set (a2 := a_append (a_cmd (a_cmd a (cmd_bytes big kS)) (cmd_bytes big QResumeDecoder)) buf).
  assert (Hh2 : st_head a2 = []) by (unfold a2, a_append, a_cmd; cbn; by rewrite Hh, Ht).
  assert (Ht2 : st_tail a2 = [(cmd_bytes big kS, []); (cmd_bytes big QResumeDecoder, buf)]) by (unfold a2, a_append, a_cmd; cbn; by rewrite Hh, Ht).
  assert (Hne : buf ≠ []) by (intros ->; cbn in Hb; lia).
  destruct (started_keeps args o) as (K1 & _).
  destruct (three_passes args a2 buf (set_decoder_state 0 c) _ eq_refl Hlock eq_refl Hh2 Ht2 Hne) as (x1 & x2 & a3 & P1 & P2 & Ha3 & P3).
  { change (a_out (c_da (set_decoder_state 0 c))) with o. unfold room, frames_used. by rewrite K1. }
  set (p' := a_play (c_da (start_ctl args (set_decoder_state 0 c)))) in *.
  pose proof (frames_used_range o (proj1 (pl_out _ _ Hpl))) as [Hu0 _].
  assert (Hr : 8 * (frames_used o + Z.of_nat M) < f_size (o_fifo o)).
  { unfold room in Hroom. change (samples_to_bytes BLOCKSIZE) with 32768 in Hroom. fold o in Hroom. lia. }
  destruct (first_block_plays args o p p' a3 DECODE_STATE_RUNNING fuel t st buf M Hpl Hlock Hper eq_refl eq_refl eq_refl eq_refl Ha3 Hb HM Hr Hfuel)
    as (samples & a4 & o2 & self' & d' & Hrs & Hsp & Hplay & Hl').
  change (a_out (c_da (set_decoder_state 0 c))) with o in P3. rewrite Hsp in P3. cbn [mbind option_bind] in P3.
  match type of P3 with _ = Some (mk_ps _ _ _ ?x) => set (c4 := x) in P3 end.
  destruct (period_plays fuel t st n c4 _ d' Hplay Hl') as (b & c5 & Hpp).
  assert (HlS : Z.of_nat (length (cmd_bytes big kS)) = 36) by (by rewrite length_cmd_bytes).
  assert (HlR : Z.of_nat (length (cmd_bytes big QResumeDecoder)) = 4) by (by rewrite length_cmd_bytes).
  exists samples, (mk_ps a4 [] [] c5). split; [done|]. set (snd := play_samples _ _ _). set (c0 := set_decoder_state 0 c) in *.
  eapply (run_cons _ _ _ [] (mk_ps (a_cmd a (cmd_bytes big kS)) [kS] [] c0) snd); [|done|].
  { split; [done|]. change (queued kS) with false. cbn [p_stream]. rewrite Ht. split_and!; cbn [length cmd_size]; lia. }
  eapply (run_cons _ _ _ [] (mk_ps (a_cmd (a_cmd a (cmd_bytes big kS)) (cmd_bytes big QResumeDecoder)) [kS; QResumeDecoder] [] c0) snd); [|done|].
  { split; [split; [apply Forall_nil_2|exact I]|]. cbn [queued p_stream cmd_size]. rewrite used_cmd.
    cbn [st_tail st_kept a_cmd]. rewrite Ht, !length_app. split_and!; cbn [length app]; lia. }
  eapply (run_cons _ _ _ [] (mk_ps a2 [kS; QResumeDecoder] [] c0) snd); [|done|].
  { cbn [legal_event p_stream]. rewrite !used_cmd. lia. }
  eapply (run_cons _ _ _ [] x1 snd); [done|cbn [abs_player_step]; fold kS in P1; by rewrite P1|].
  eapply (run_cons _ _ _ [] x2 snd); [done|cbn [abs_player_step]; by rewrite P2|].
  eapply (run_cons _ _ _ [] _ snd); [done|cbn [abs_player_step]; rewrite P3; reflexivity|].
  rewrite <- (app_nil_r snd). eapply run_cons; [cbn; lia|cbn [abs_player_step p_ctl]; rewrite Hpp; reflexivity|]. done.
Qed.

(** C4.  From a call to sound: while the device plays, a client starts an
    uncompressed track without transition, resumes the decoder and sends up to
    1024 frames; three passes of the decode thread later, both commands having
    travelled through the stream, the message queue and their handlers, the
    device plays the frames that were waiting and then exactly the new frames,
    with the gain, polarity and channels of the start and the volume applied,
    without a gap. *)
Theorem new_track_plays args buf M a c cc fuel t st :
  player_ok big (mk_ps a [] [] c) → player_rep big (SZ := SZ) QSZ cc (mk_ps a [] [] c) → playing (a_out (c_da c)) (a_play (c_da c)) →
  st_head a = [] → (length (st_kept a) <= 7)%nat → waiting_ok (QStart 112 args) → transition_period args = 0 →
  length buf = (4 * M)%nat → (0 < M <= 1024)%nat → 41 + Z.of_nat (length buf) + st_used a <= SZ → samples_to_bytes BLOCKSIZE < room (a_out (c_da c)) →
  let o := a_out (c_da c) in
  let p := a_play (c_da c) in
  let n := frames_used o + Z.of_nat M in
  n <= Z.of_nat fuel →
  ∃ samples cc', read_samples pcm_read16bitLE 2 false (2 * M) buf = Some samples ∧
    player_run big QSZ (track_events args buf fuel t st n) cc
    = Some (play_samples (lgain p) (rgain p) (fresh o (Z.to_nat (frames_used o)) ++ processed (o_volume (started args o)) samples), cc').
Proof.
  intros Hok Hrep Hpl Hh Hk Hw Hper Hb HM Hsz Hroom o p n Hf.
  assert (Ht : st_tail a = []) by (apply (fmap_nil_inv fst); exact (po_tail _ _ Hok)).
  destruct (track_run args buf M a c fuel t st (q_lock _ (po_quiet _ _ Hok)) Hpl Hh Ht Hk Hw Hper Hb HM Hsz Hroom Hf) as (samples & x' & Hrs & Hl & Hrun).
  pose proof (player_run_spec big HSZ QSZ HQ _ cc (mk_ps a [] [] c) Hl Hok Hrep) as Hr. rewrite Hrun in Hr.
  destruct Hr as (cc' & Hr & _). by exists samples, cc'.
Qed.
End Track.

(** Three frames of an earlier track wait in a buffer of 5000 frames; two frames
    of a new one arrive. *)
Definition live_output : output :=
  mk_output (mk_fifo false 0 24 40000) ([65536; 131072; 196608; 262144; 327680; 393216] ++ replicate (Z.to_nat 9994) 0)
    (mk_track false 0 false 44100 7 0 0 0 0) (mk_fade false 0 0 0 0 0)
    (mk_volume FIXED_ONE (SAMPLE_MAX, SAMPLE_MIN) (1, 1) 0) TRANSITION_NONE 0 false DECODE_STATE_RUNNING 48000 [].
Definition live_control : control (decode_pcm + unit) :=
  mk_control (mqueue_init [] demo_mqueue (replicate 512 0))
    (mk_decode_audio live_output (mk_player FIXED_ONE FIXED_ONE 44100 0 1 0 0 0 0 0 0 0 0))
    (mk_audio (streambuf_init 128 streambuf_static) SYNC_IDLE 0 0 0 0 0 0 false) DECODE_STATE_RUNNING (-1) None 0.
Definition blank : list Z := replicate (Z.to_nat BLOCKSIZE) 0.

Lemma live_size : 0 < 128 <= max_size.
Proof. unfold max_size. lia. Qed.

Lemma length_blank : length blank = Z.to_nat BLOCKSIZE.
Proof. apply length_replicate. Qed.

#[export] Instance live_modules : Decoders 128 (decode_pcm + unit) := modules true live_size blank length_blank.

Lemma live_playing : playing live_output (a_play (c_da live_control)).
Proof.
  assert (Hl : f_size (o_fifo live_output) = 4 * Z.of_nat (length (o_buf live_output))) by (vm_compute; reflexivity).
  split; [split|reflexivity| |reflexivity|discriminate|reflexivity|].
  - split; [exact Hl|..]; cbn -[o_buf]; unfold pos_ok; (split; [lia|reflexivity]).
  - split; [by intros []|discriminate].
  - split; [reflexivity|]. cbn. unfold is_u32. lia.
  - cbn. unfold is_u32. lia.
Qed.

Lemma live_ok : player_ok true (mk_ps stream_init [] [] live_control).
Proof.
  split; [|exact I|reflexivity|apply Forall_nil_2|apply Forall_nil_2]. split; [|reflexivity|reflexivity].
  split; [apply live_playing|split; [reflexivity|discriminate]|split; [reflexivity|cbn; lia]].
Qed.

Lemma live_rep : player_rep true (SZ := 128) 512 live_control (mk_ps stream_init [] [] live_control).
Proof.
  exists (c_mq live_control), (a_sb (c_sync live_control)). split_and!; [done|by apply init_ok, live_size| |done|done].
  split; [vm_compute; split; [reflexivity|discriminate]|]. apply rep_init; vm_compute; reflexivity.
Qed.

Lemma new_track_plays_witness :
  ∃ cc', player_run true 512 (track_events (mk_start 48 0 0 0 0 0) [1; 0; 2; 0; 3; 0; 4; 0] 5 0 (mk_i2s 10 44100) 5) live_control
    = Some ([0x100; 0x200; 0x300; 0x400; 0x500; 0x600; 0x100; 0x200; 0x300; 0x400], cc').
Proof.
  destruct (new_track_plays true live_size 512 ltac:(lia) blank length_blank (mk_start 48 0 0 0 0 0) [1; 0; 2; 0; 3; 0; 4; 0] 2
    stream_init live_control live_control 5 0 (mk_i2s 10 44100) live_ok live_rep live_playing) as (samples & cc' & H1 & H2).
  - reflexivity.
  - cbn. lia.
  - split; [|by repeat split]. repeat constructor; cbn; unfold is_u32; lia.
  - reflexivity.
  - reflexivity.
  - lia.
  - vm_compute. discriminate.
  - vm_compute. reflexivity.
  - vm_compute. discriminate.
  - exists cc'. vm_compute in H1. injection H1 as <-. exact H2.
Defined.
