(* ===== verification/Knob.v ===== *)
(** iomcu/controller/knob.c: the push switch (debounced by its last four
    samples) and the optical encoder (two photo sensors, filtered, decoded as
    quadrature) of the controller firmware, and the compression of sensor data
    with its inverse in iomcu/ioutil/i2c_encdata.c. *)

From S2P Require Import Prelude.

(** A C array of two elements. *)
Definition arr2 : Type := Z * Z.
Definition get2 (a : arr2) (i : Z) : Z := if i =? 0 then a.1 else a.2.
Definition set2 (a : arr2) (i v : Z) : arr2 := if i =? 0 then (v, a.2) else (a.1, v).

Abbreviation KNOB_SWITCH_DOWN := 0.
Abbreviation KNOB_SWITCH_UP := 1.
Abbreviation UP_VAL_THRESHOLD := 100.
Abbreviation DOWN_SEQ_THRESHOLD := 40.
Abbreviation UP_SEQ_THRESHOLD := 10.

Record encoder := mk_encoder {
  prev_up : arr2;
  run_count : arr2;
  sending_up : arr2;
  channel_vals : arr2;
  prev_encoder_state : Z;
  encoder_armed : Z;
  direction : Z
}.

Definition encoder_init : encoder := mk_encoder (0, 0) (0, 0) (0, 0) (0, 0) 0 0 0.

Record knob := mk_knob {
  knob_switch_state : Z;
  knob_switch_count : arr2;
  knob_encoder_count : Z;
  knob_encoder : encoder
}.

Definition knob_init : knob := mk_knob 0xff (0, 0) 0 encoder_init.

(** ** The switch *)

(** [pin] is GPIO_STATE_HIGH of the switch. *)
Definition knob_switch_read (k : knob) (pin : Z) : knob :=
  let st := Z.lor (u8 (Z.shiftl (knob_switch_state k) 1)) pin in
  let cnt := knob_switch_count k in
  let cnt :=
    if Z.land st 0xf =? 0x3 then set2 cnt KNOB_SWITCH_UP (u8 (get2 cnt KNOB_SWITCH_UP + 1))
    else if Z.land st 0xf =? 0xc then set2 cnt KNOB_SWITCH_DOWN (u8 (get2 cnt KNOB_SWITCH_DOWN + 1))
    else cnt in
  mk_knob st cnt (knob_encoder_count k) (knob_encoder k).

Definition read_count (k : knob) (which : Z) : Z * knob :=
  let ret := get2 (knob_switch_count k) which in
  (ret, mk_knob (knob_switch_state k)
          (set2 (knob_switch_count k) which (u8 (get2 (knob_switch_count k) which - ret)))
          (knob_encoder_count k) (knob_encoder k)).

Definition knob_switch_read_down_count (k : knob) : Z * knob := read_count k KNOB_SWITCH_DOWN.
Definition knob_switch_read_up_count (k : knob) : Z * knob := read_count k KNOB_SWITCH_UP.

(** ** The encoder *)

Definition set_vals v e := mk_encoder (prev_up e) (run_count e) (sending_up e) v (prev_encoder_state e)
  (encoder_armed e) (direction e).
Definition set_state v e := mk_encoder (prev_up e) (run_count e) (sending_up e) (channel_vals e) v
  (encoder_armed e) (direction e).
Definition set_armed v e := mk_encoder (prev_up e) (run_count e) (sending_up e) (channel_vals e)
  (prev_encoder_state e) v (direction e).
Definition set_direction v e := mk_encoder (prev_up e) (run_count e) (sending_up e) (channel_vals e)
  (prev_encoder_state e) (encoder_armed e) v.
Definition set_filter p r s e := mk_encoder p r s (channel_vals e) (prev_encoder_state e) (encoder_armed e) (direction e).

Definition find_turns (e : encoder) (channel is_up : Z) : Z * encoder :=
  let e := set_vals (set2 (channel_vals e) channel is_up) e in
  let encoder_state := u8 (Z.lor (Z.shiftl (get2 (channel_vals e) 1) 1) (get2 (channel_vals e) 0)) in
  if encoder_state =? prev_encoder_state e then (0, e) else
  let e := set_state encoder_state e in
  if encoder_state =? 0x0 then
    if c_true (encoder_armed e) then (direction e, set_armed 0 e) else (0, e)
  else if encoder_state =? 0x1 then
    (0, if encoder_armed e =? 0 then set_direction (-1) e
        else if negb (direction e =? 1) then set_armed 0 e else e)
  else if encoder_state =? 0x2 then
    (0, if encoder_armed e =? 0 then set_direction 1 e
        else if negb (direction e =? -1) then set_armed 0 e else e)
  else if encoder_state =? 0x3 then (0, set_armed 1 e)
  else (0, e).

Definition add_point (e : encoder) (channel value : Z) : Z * encoder :=
  let up := c_bool (UP_VAL_THRESHOLD <? value) in
  let run := if negb (get2 (prev_up e) channel =? up) then 0 else u32 (get2 (run_count e) channel + 1) in
  let sending :=
    if c_true up && (UP_SEQ_THRESHOLD <? run) then set2 (sending_up e) channel 1
    else if negb (c_true up) && (DOWN_SEQ_THRESHOLD <? run) then set2 (sending_up e) channel 0
    else sending_up e in
  let e := set_filter (set2 (prev_up e) channel up) (set2 (run_count e) channel run) sending e in
  find_turns e channel (get2 (sending_up e) channel).

(** The points [buf] at positions [i], [i + 1], ... of the sensor buffer. *)
Fixpoint proc_points (buf : list Z) (i : Z) (k : knob) : knob :=
  match buf with
  | [] => k
  | x :: buf' =>
      let '(val, e) := add_point (knob_encoder k) (Z.land i 1) x in
      let cnt := if c_true val then s8 (knob_encoder_count k + val) else knob_encoder_count k in
      proc_points buf' (i + 1) (mk_knob (knob_switch_state k) (knob_switch_count k) cnt e)
  end.

(** [dma] is the 240-byte sensor buffer. *)
Definition knob_encoder_proc_data (k : knob) (dma : list Z) (half : Z) : knob :=
  let i := if c_true half then 0 else 120 in
  proc_points (take 120 (drop (Z.to_nat i) dma)) i k.

Definition knob_encoder_read_count (k : knob) : Z * knob :=
  let ret := knob_encoder_count k in
  (ret, if c_true ret
        then mk_knob (knob_switch_state k) (knob_switch_count k) (s8 (knob_encoder_count k - ret)) (knob_encoder k)
        else k).

(** ** Compression of sensor data *)

(** Four bytes into three. *)
Definition compress4 (a b c d : Z) : list Z :=
  [u8 (Z.lor (Z.land a 0xfc) (Z.shiftr b 6));
   u8 (Z.lor (Z.land (Z.shiftl b 2) 0xf0) (Z.shiftr c 4));
   u8 (Z.lor (Z.land (Z.shiftl c 4) 0xc0) (Z.shiftr d 2))].

Fixpoint compress_blocks (data : list Z) : list Z :=
  match data with
  | a :: b :: c :: d :: data' => compress4 a b c d ++ compress_blocks data'
  | _ => []
  end.

(** The compressed buffer, and which table is marked ready (0 or 1). *)
Definition knob_encoder_compress_data (dma comp : list Z) (half : Z) : list Z * Z :=
  let i := if c_true half then 0%nat else 30%nat in
  (list_inserts (i * 3) (compress_blocks (take 120 (drop (i * 4) dma))) comp,
   if c_true half then 1 else 0).

(** The host's expansion of three bytes into four. *)
Definition expand3 (a b c : Z) : list Z :=
  [u8 (Z.land a 0xfc);
   u8 (Z.lor (Z.shiftl a 6) (Z.shiftr (Z.land b 0xf0) 2));
   u8 (Z.lor (Z.shiftl b 4) (Z.shiftr (Z.land c 0xc0) 4));
   u8 (Z.shiftl c 2)].

Fixpoint expand_blocks (n : nat) (cdata : list Z) : list Z :=
  match n, cdata with
  | S n', a :: b :: c :: cdata' => expand3 a b c ++ expand_blocks n' cdata'
  | _, _ => []
  end.

(** What [write_data] writes to the file. *)
Definition write_data (cdata : list Z) : list Z := expand_blocks 30 cdata.
