(* ===== verification/KnobProps.v ===== *)
(** What the knob code computes: counted presses are the clean edges of the
    switch samples, the sensor filter is a hysteresis on run lengths, the
    decoded turns are the winding number of the quadrature signal, and
    compression loses exactly the two low bits of a sample. *)

From S2P Require Import Prelude Knob.

Definition bit (x : Z) : Prop := x = 0 ∨ x = 1.

(** ** The switch *)

Definition switch_run (k : knob) (l : list Z) : knob := fold_left knob_switch_read l k.

(** The last four samples, newest first, of a history [h] (newest first)
    before which the switch was released. *)
Definition last4 (h : list Z) : list Z := take 4 (h ++ [1; 1; 1; 1]).

(** How often the last four samples were the pattern [p]. *)
Fixpoint edges (p : list Z) (h : list Z) : Z :=
  match h with
  | [] => 0
  | _ :: h' => c_bool (bool_decide (last4 h = p)) + edges p h'
  end.

Definition pressed : list Z := [0; 0; 1; 1].
Definition released : list Z := [1; 1; 0; 0].

Definition nibble (l : list Z) : Z :=
  match l with [a; b; c; d] => a + 2 * b + 4 * c + 8 * d | _ => -1 end.

Lemma last4_shape h : Forall bit h → ∃ a b c d, last4 h = [a; b; c; d] ∧ bit a ∧ bit b ∧ bit c ∧ bit d.
Proof.
  assert (H1 : bit 1) by (by right). intros H. unfold last4.
  destruct H as [|a h Ha [|b h' Hb [|c h'' Hc [|d h3 Hd Hh]]]]; cbn [app take]; eauto 10.
Qed.

Lemma last4_cons x h a b c d : last4 h = [a; b; c; d] → last4 (x :: h) = [x; a; b; c].
Proof.
  unfold last4. destruct h as [|? [|? [|? [|? ?]]]]; cbn [app take]; intros [= <- <- <- <-]; reflexivity.
Qed.

Lemma shift_in st pin : is_u8 st → bit pin →
  Z.land (Z.lor (u8 (Z.shiftl st 1)) pin) 0xf = (2 * Z.land st 0xf + pin) mod 16
  ∧ is_u8 (Z.lor (u8 (Z.shiftl st 1)) pin).
Proof.
  intros Hst Hpin.
  pose proof (byte_forall (λ st, forallb (λ pin, let s := Z.lor (u8 (Z.shiftl st 1)) pin in
    (Z.land s 0xf =? (2 * Z.land st 0xf + pin) mod 16) && (0 <=? s) && (s <? 256)) [0; 1]) st eq_refl Hst) as H.
  cbn [forallb] in H. bool_prop. destruct Hpin as [-> | ->]; (split; [done|split; done]).
Qed.

(** The state of the switch code after the history [h]. *)
Definition switch_inv (k : knob) (h : list Z) : Prop :=
  is_u8 (knob_switch_state k) ∧ Z.land (knob_switch_state k) 0xf = nibble (last4 h)
  ∧ knob_switch_count k = (u8 (edges pressed h), u8 (edges released h)).

Lemma u8_add a b : u8 (u8 a + b) = u8 (b + a).
Proof. unfold u8. rewrite Zplus_mod_idemp_l. f_equal. lia. Qed.

Lemma switch_step k h x : switch_inv k h → Forall bit h → bit x → switch_inv (knob_switch_read k x) (x :: h).
Proof.
  intros (Hst & Hn & Hc) Hh Hx. destruct (last4_shape h Hh) as (a & b & c & d & Hl & Ha & Hb & Hcc & Hd).
  pose proof (last4_cons x h a b c d Hl) as Hl'. destruct (shift_in _ _ Hst Hx) as (Hland & Hu).
  unfold switch_inv, knob_switch_read. cbn [knob_switch_state knob_switch_count edges].
  split; [exact Hu|]. rewrite Hland, Hn, Hl, Hl', Hc. cbn [nibble].
  split; [destruct Hx as [-> | ->], Ha as [-> | ->], Hb as [-> | ->], Hcc as [-> | ->], Hd as [-> | ->]; reflexivity|].
  destruct Hx as [-> | ->], Ha as [-> | ->], Hb as [-> | ->], Hcc as [-> | ->], Hd as [-> | ->];
    cbn -[u8 edges]; unfold set2, get2; cbn -[u8 edges]; rewrite ?u8_add; done.
Qed.

(** The switch counters count clean edges and nothing else: after any
    samples, the presses are the moments at which the last four samples were
    released, released, pressed, pressed, the releases those at which they were
    pressed, pressed, released, released, both modulo 256; shorter pulses are
    never counted. *)
Theorem switch_counts_edges l : Forall bit l →
  knob_switch_count (switch_run knob_init l) = (u8 (edges pressed (rev l)), u8 (edges released (rev l))).
Proof.
  intros Hl. assert (H : switch_inv (switch_run knob_init l) (rev l)); [|apply H].
  induction l as [|x l IH] using rev_ind; [done|]. apply Forall_app in Hl as [Hl Hx]. inversion Hx; subst.
  unfold switch_run. rewrite fold_left_app, rev_app_distr. cbn [fold_left rev app].
  apply switch_step; [by apply IH|by apply Forall_rev|done].
Qed.

Lemma switch_counts_edges_witness :
  knob_switch_count (switch_run knob_init [1; 0; 1; 1; 0; 0; 0; 0; 1; 0; 1; 1; 1; 0; 0]) = (2, 0).
Proof.
  assert (H := switch_counts_edges [1; 0; 1; 1; 0; 0; 0; 0; 1; 0; 1; 1; 1; 0; 0]
    ltac:(repeat (apply List.Forall_cons || apply List.Forall_nil); (left; reflexivity) || (right; reflexivity))).
  rewrite H. vm_compute. reflexivity.
Defined.

(** ** Turns *)

(** Quarter turns: the states in the order 0, 2, 3, 1 of a turn to the right. *)
Definition place (s : Z) : Z := if s =? 0 then 0 else if s =? 2 then 1 else if s =? 3 then 2 else 3.

(** The way from one state to the next when one sensor changed. *)
Definition quarter (s s' : Z) : Z :=
  let d := (place s' - place s) mod 4 in if d =? 3 then -1 else d.

Definition signal (v : arr2) : Z := 2 * v.2 + v.1.

(** The net quarter turns of a sequence of sensor values. *)
Fixpoint winding (v : arr2) (us : list (Z * Z)) : Z :=
  match us with
  | [] => 0
  | (c, x) :: us' => quarter (signal v) (signal (set2 v c x)) + winding (set2 v c x) us'
  end.

Fixpoint turns (e : encoder) (us : list (Z * Z)) : Z * encoder :=
  match us with
  | [] => (0, e)
  | (c, x) :: us' => let '(t, e) := find_turns e c x in let '(ts, e) := turns e us' in (t + ts, e)
  end.

(** Where the decoder is in a turn: quarters since the last rest position. *)
Inductive in_turn : Z → Z → Z → Z → Prop :=
  | at_rest d : in_turn 0 0 d 0
  | left1 : in_turn 1 0 (-1) (-1)
  | left2 : in_turn 3 1 (-1) (-2)
  | left3 : in_turn 2 1 (-1) (-3)
  | right1 : in_turn 2 0 1 1
  | right2 : in_turn 3 1 1 2
  | right3 : in_turn 1 1 1 3.

Definition turn_inv (e : encoder) (r : Z) : Prop :=
  bit (channel_vals e).1 ∧ bit (channel_vals e).2 ∧ prev_encoder_state e = signal (channel_vals e)
  ∧ in_turn (prev_encoder_state e) (encoder_armed e) (direction e) r.

Lemma find_turns_step e c x r : turn_inv e r → bit c → bit x →
  let '(t, e') := find_turns e c x in
  turn_inv e' (r + quarter (signal (channel_vals e)) (signal (set2 (channel_vals e) c x)) - 4 * t)
  ∧ channel_vals e' = set2 (channel_vals e) c x.
Proof.
  destruct e as [pu rc su [v0 v1] ps arm dir]. unfold turn_inv. cbn [channel_vals prev_encoder_state encoder_armed direction fst snd].
  intros (H0 & H1 & Hp & Ht) Hc Hx. subst ps.
  destruct H0 as [-> | ->], H1 as [-> | ->]; inversion Ht; subst; try discriminate;
    destruct Hc as [-> | ->], Hx as [-> | ->]; cbn;
    (split; [split; [(by left) || (by right)|split; [(by left) || (by right)|split; [done|constructor]]]|done]).
Qed.

Lemma turns_inv us e r : turn_inv e r → Forall (λ u, bit u.1 ∧ bit u.2) us →
  let '(t, e') := turns e us in turn_inv e' (r + winding (channel_vals e) us - 4 * t).
Proof.
  intros H Hus. revert e r H. induction Hus as [|[c x] us [Hc Hx] Hus IH]; intros e r H; cbn [turns winding].
  - by replace (r + 0 - 4 * 0) with r by lia.
  - pose proof (find_turns_step e c x r H Hc Hx) as Hs. destruct (find_turns e c x) as [t e1].
    destruct Hs as (H1 & Hv). specialize (IH e1 _ H1). destruct (turns e1 us) as [ts e2].
    rewrite Hv in IH. cbn [fst snd] in *.
    by replace (r + (quarter (signal (channel_vals e)) (signal (set2 (channel_vals e) c x))
      + winding (set2 (channel_vals e) c x) us) - 4 * (t + ts))
      with (r + quarter (signal (channel_vals e)) (signal (set2 (channel_vals e) c x)) - 4 * t
        + winding (set2 (channel_vals e) c x) us - 4 * ts) by lia.
Qed.

(** The decoder counts the winding number of the two sensor signals: for
    every sequence of sensor changes, with reversals at any point, four times
    the turns counted differ from the net quarter turns by less than one turn,
    and not at all whenever the encoder is at rest. *)
Theorem turns_are_winding us : Forall (λ u, bit u.1 ∧ bit u.2) us →
  let '(t, e) := turns encoder_init us in
  Z.abs (winding (0, 0) us - 4 * t) < 4 ∧ (prev_encoder_state e = 0 → winding (0, 0) us = 4 * t).
Proof.
  intros Hus. assert (H0 : turn_inv encoder_init 0) by (split_and!; try (by left); constructor).
  pose proof (turns_inv us encoder_init 0 H0 Hus) as H. destruct (turns encoder_init us) as [t e].
  destruct H as (_ & _ & _ & Ht). cbn [channel_vals encoder_init] in Ht. rewrite Z.add_0_l in Ht.
  split; [inversion Ht; lia|]. intros Hz. rewrite Hz in Ht. inversion Ht; lia.
Qed.

(** A turn to the right with a hesitation, then most of a turn back. *)
Definition demo_turn : list (Z * Z) :=
  [(1, 1); (0, 1); (0, 0); (0, 1); (1, 0); (0, 0); (0, 1); (1, 1); (0, 0); (0, 1); (1, 0); (0, 0)].

Lemma turns_are_winding_witness : (turns encoder_init demo_turn).1 = 1 ∧ winding (0, 0) demo_turn = 4 * 1.
Proof.
  split; [vm_compute; reflexivity|].
  assert (H := turns_are_winding demo_turn
    ltac:(repeat (apply List.Forall_cons || apply List.Forall_nil); split; (left; reflexivity) || (right; reflexivity))).
  assert (Ht : turns encoder_init demo_turn = (1, (turns encoder_init demo_turn).2)) by (vm_compute; reflexivity).
  rewrite Ht in H. destruct H as [_ H]. apply H. vm_compute. reflexivity.
Defined.

(** ** The sensor filter *)

(** How many of the newest samples are [b]. *)
Fixpoint lead (b : bool) (h : list bool) : nat :=
  match h with
  | x :: h' => if Bool.eqb x b then S (lead b h') else 0
  | [] => 0
  end.

(** Hysteresis: up after twelve high samples in a row, down after forty-two
    low ones, down at the start. *)
Fixpoint level (h : list bool) : bool :=
  match h with
  | [] => false
  | x :: h' => if x && (12 <=? lead true h)%nat then true
               else if negb x && (42 <=? lead false h)%nat then false
               else level h'
  end.

(** The signal the decoder sees: channel and level, for samples that alternate
    between the channels, after the histories [h0] and [h1]. *)
Fixpoint filtered (h0 h1 : list bool) (i : Z) (pts : list Z) : list (Z * Z) :=
  match pts with
  | [] => []
  | x :: pts' =>
      let up := UP_VAL_THRESHOLD <? x in
      if Z.land i 1 =? 0 then (0, c_bool (level (up :: h0))) :: filtered (up :: h0) h1 (i + 1) pts'
      else (1, c_bool (level (up :: h1))) :: filtered h0 (up :: h1) (i + 1) pts'
  end.

Lemma lead_app b h k : (lead b h <= lead b (h ++ k))%nat.
Proof. induction h as [|x h IH]; cbn; [lia|]. destruct (Bool.eqb x b); lia. Qed.

Lemma lead_snoc_other h : lead true (h ++ [false]) = lead true h.
Proof. induction h as [|x h IH]; cbn; [done|]. by rewrite IH. Qed.

Lemma lead_snoc_false h : lead false (h ++ [false]) = lead false h ∨ level h = false.
Proof.
  assert (H : lead false (h ++ [false]) = lead false h ∨ Forall (λ x, x = false) h).
  { induction h as [|x h IH]; [by right|]. destruct x; cbn; [by left|]. destruct IH as [-> | Hf]; [by left|].
    right. by constructor. }
  destruct H as [H|H]; [by left|right]. induction H as [|x h -> Hh IH]; [done|]. cbn [level].
  cbn [andb negb]. destruct (42 <=? _)%nat; done.
Qed.

Lemma lead_length b h : (lead b h <= length h)%nat.
Proof. induction h as [|x h IH]; cbn; [lia|]. destruct (Bool.eqb x b); lia. Qed.

(** The filter state of a channel after the history [h]. *)
Definition filter_inv (pu rc su : Z) (h : list bool) : Prop :=
  pu = c_bool (hd false h) ∧ rc = Z.of_nat (lead (hd false h) (h ++ [false])) - 1 ∧ su = c_bool (level h).

Lemma c_bool_inj a b : (c_bool a =? c_bool b) = Bool.eqb a b.
Proof. by destruct a, b. Qed.

(** One sample through the filter. *)
Definition filter_step (pu rc su : Z) (up : bool) : Z * Z :=
  let run := if negb (pu =? c_bool up) then 0 else u32 (rc + 1) in
  (run, if up && (UP_SEQ_THRESHOLD <? run) then 1
        else if negb up && (DOWN_SEQ_THRESHOLD <? run) then 0 else su).

Lemma run_length pu rc su h up : filter_inv pu rc su h → Z.of_nat (length h) < 2 ^ 32 - 2 →
  (filter_step pu rc su up).1 = Z.of_nat (lead up (up :: h ++ [false])) - 1.
Proof.
  intros (-> & -> & _) Hlen. unfold filter_step. cbn [fst]. rewrite c_bool_inj.
  pose proof (lead_length (hd false h) (h ++ [false])) as Hl. rewrite length_app in Hl. cbn [length] in Hl.
  cbn [lead]. rewrite eqb_reflx. destruct h as [|y h]; cbn [hd app] in *.
  - destruct up; cbn; [done|]. rewrite u32_small by (unfold is_u32; lia). done.
  - destruct (Bool.eqb y up) eqn:E; cbn [negb].
    + apply eqb_prop in E as ->. rewrite u32_small by (unfold is_u32; cbn [length] in *; lia). lia.
    + cbn [lead]. rewrite E. done.
Qed.

Lemma filter_step_inv pu rc su h up : filter_inv pu rc su h → Z.of_nat (length h) < 2 ^ 32 - 2 →
  let '(run, s) := filter_step pu rc su up in filter_inv (c_bool up) run s (up :: h).
Proof.
  intros H Hlen. pose proof (run_length _ _ _ _ up H Hlen) as Hrun. destruct H as (_ & _ & ->).
  destruct (filter_step pu rc _ up) as [run s] eqn:E. unfold filter_step in E. cbn [fst] in Hrun. injection E as E1 E2.
  rewrite E1 in E2. split; [done|]. split; [done|]. rewrite <- E2, Hrun. clear. cbn [level hd].
  destruct up; cbn [andb negb].
  - rewrite <- (lead_snoc_other (true :: h)). cbn [app].
    destruct (Z.ltb_spec UP_SEQ_THRESHOLD (Z.of_nat (lead true (true :: h ++ [false])) - 1));
      destruct (Nat.leb_spec 12 (lead true (true :: h ++ [false]))); try lia; done.
  - pose proof (lead_snoc_false h) as Hs. cbn [lead Bool.eqb] in *.
    destruct (Z.ltb_spec DOWN_SEQ_THRESHOLD (Z.of_nat (S (lead false (h ++ [false]))) - 1));
      destruct (Nat.leb_spec 42 (S (lead false h))); try done.
    + destruct Hs as [Hs| ->]; [lia|done].
    + pose proof (lead_app false h [false]). lia.
Qed.

(** ** Samples to turns *)

Definition chan_inv (e : encoder) (c : Z) (h : list bool) : Prop :=
  filter_inv (get2 (prev_up e) c) (get2 (run_count e) c) (get2 (sending_up e) c) h.

(** Decoding leaves the filter alone. *)
Lemma find_turns_filter e c x : let e' := (find_turns e c x).2 in
  prev_up e' = prev_up e ∧ run_count e' = run_count e ∧ sending_up e' = sending_up e.
Proof. unfold find_turns. cbv zeta. split_ifs; done. Qed.

Lemma get2_set2 a c v : bit c → get2 (set2 a c v) c = v.
Proof. intros [-> | ->]; done. Qed.
Lemma get2_set2_other a c v : bit c → get2 (set2 a c v) (1 - c) = get2 a (1 - c).
Proof. intros [-> | ->]; done. Qed.

Lemma add_point_ok e c x h h' r : bit c → chan_inv e c h → chan_inv e (1 - c) h' → turn_inv e r →
  Z.of_nat (length h) < 2 ^ 32 - 2 →
  let up := UP_VAL_THRESHOLD <? x in
  let '(t, e') := add_point e c x in
  let y := c_bool (level (up :: h)) in
  chan_inv e' c (up :: h) ∧ chan_inv e' (1 - c) h'
  ∧ turn_inv e' (r + quarter (signal (channel_vals e)) (signal (set2 (channel_vals e) c y)) - 4 * t)
  ∧ channel_vals e' = set2 (channel_vals e) c y.
Proof.
  intros Hc H H' Ht Hlen up. unfold add_point. cbv zeta. fold up.
  assert (Hup : c_true (c_bool up) = up) by (by destruct up). rewrite Hup.
  pose proof (filter_step_inv _ _ _ _ up H Hlen) as Hf. unfold filter_step in Hf.
  set (run := if negb (get2 (prev_up e) c =? c_bool up) then 0 else u32 (get2 (run_count e) c + 1)) in *.
  set (sd := if up && (UP_SEQ_THRESHOLD <? run) then set2 (sending_up e) c 1 else _).
  assert (Hs : get2 sd c = (if up && (UP_SEQ_THRESHOLD <? run) then 1
      else if negb up && (DOWN_SEQ_THRESHOLD <? run) then 0 else get2 (sending_up e) c)
    ∧ get2 sd (1 - c) = get2 (sending_up e) (1 - c)).
  { unfold sd. split_ifs; rewrite ?get2_set2, ?get2_set2_other; done. }
  destruct Hs as [Hs1 Hs2]. cbn [sending_up set_filter]. rewrite <- Hs1 in Hf.
  pose proof (proj2 (proj2 Hf)) as Hlv. rewrite Hlv.
  pose proof (find_turns_filter (set_filter (set2 (prev_up e) c (c_bool up)) (set2 (run_count e) c run) sd e) c
    (c_bool (level (up :: h)))) as Hk.
  assert (Hy : bit (c_bool (level (up :: h)))) by (destruct (level (up :: h)); [by right|by left]).
  pose proof (find_turns_step (set_filter (set2 (prev_up e) c (c_bool up)) (set2 (run_count e) c run) sd e) c
    (c_bool (level (up :: h))) r Ht Hc Hy) as Hst.
  destruct (find_turns (set_filter _ _ sd e) c (c_bool (level (up :: h)))) as [t e']. cbn [snd] in Hk.
  destruct Hk as (Hk1 & Hk2 & Hk3). unfold chan_inv. rewrite Hk1, Hk2, Hk3.
  cbn [prev_up run_count sending_up set_filter]. rewrite !get2_set2, !get2_set2_other, Hs2 by done.
  split; [exact Hf|]. split; [exact H'|]. exact Hst.
Qed.

Lemma land1_bit i : bit (Z.land i 1).
Proof. change 1 with (Z.ones 1). rewrite Z.land_ones by lia. unfold bit. pose proof (Z.mod_pos_bound i (2 ^ 1) ltac:(lia)). lia. Qed.

Lemma s8_add a b : s8 (s8 a + b) = s8 (a + b).
Proof.
  unfold s8. f_equal. replace ((a + 128) mod 256 - 128 + b + 128) with ((a + 128) mod 256 + b) by lia.
  rewrite Zplus_mod_idemp_l. f_equal. lia.
Qed.

Lemma proc_points_ok pts i k h0 h1 r T : chan_inv (knob_encoder k) 0 h0 → chan_inv (knob_encoder k) 1 h1 →
  turn_inv (knob_encoder k) r → knob_encoder_count k = s8 T →
  Z.of_nat (length h0) + Z.of_nat (length h1) + Z.of_nat (length pts) < 2 ^ 32 - 2 →
  let k' := proc_points pts i k in
  ∃ t, knob_encoder_count k' = s8 (T + t)
    ∧ turn_inv (knob_encoder k') (r + winding (channel_vals (knob_encoder k)) (filtered h0 h1 i pts) - 4 * t).
Proof.
  revert i k h0 h1 r T. induction pts as [|x pts IH]; intros i k h0 h1 r T H0 H1 Ht HT Hlen; cbn [proc_points filtered winding].
  - exists 0. rewrite Z.add_0_r. by replace (r + 0 - 4 * 0) with r by lia.
  - set (up := UP_VAL_THRESHOLD <? x).
    assert (Hcase : (Z.land i 1 =? 0) = true ∧ Z.land i 1 = 0 ∨ (Z.land i 1 =? 0) = false ∧ Z.land i 1 = 1)
      by (destruct (land1_bit i) as [-> | ->]; auto).
    set (c := Z.land i 1) in *. set (h := if c =? 0 then h0 else h1). set (h' := if c =? 0 then h1 else h0).
    assert (Hh : chan_inv (knob_encoder k) c h ∧ chan_inv (knob_encoder k) (1 - c) h')
      by (unfold h, h'; destruct Hcase as [[-> ->]|[-> ->]]; auto).
    destruct Hh as [Hh Hh'].
    pose proof (add_point_ok _ c x h h' r (land1_bit i) Hh Hh' Ht
      ltac:(unfold h; destruct (c =? 0); cbn [length] in Hlen; lia)) as Hp.
    destruct (add_point (knob_encoder k) c x) as [t e'] eqn:Eap. fold up in Hp. cbv zeta in Hp.
    destruct Hp as (Hp1 & Hp2 & Hp3 & Hp4).
    set (k1 := mk_knob _ _ _ e').
    assert (HT1 : knob_encoder_count k1 = s8 (T + t)).
    { unfold k1, c_true. cbn [knob_encoder_count]. rewrite HT. destruct (Z.eqb_spec t 0) as [->|]; cbn [negb].
      - by rewrite Z.add_0_r.
      - apply s8_add. }
    set (h0' := if c =? 0 then up :: h0 else h0). set (h1' := if c =? 0 then h1 else up :: h1).
    assert (Ha : chan_inv (knob_encoder k1) 0 h0')
      by (unfold h0', h, h' in *; destruct Hcase as [[E Hc]|[E Hc]]; rewrite E, Hc in *; done).
    assert (Hb : chan_inv (knob_encoder k1) 1 h1')
      by (unfold h1', h, h' in *; destruct Hcase as [[E Hc]|[E Hc]]; rewrite E, Hc in *; done).
    assert (Hl : Z.of_nat (length h0') + Z.of_nat (length h1') + Z.of_nat (length pts) < 2 ^ 32 - 2)
      by (unfold h0', h1'; destruct (c =? 0); cbn [length] in *; lia).
    destruct (IH (i + 1) k1 h0' h1' _ (T + t) Ha Hb Hp3 HT1 Hl) as (t' & Ht' & Hti).
    exists (t + t'). rewrite Z.add_assoc. split; [exact Ht'|].
    unfold k1 in Hti. cbn [knob_encoder] in Hti. rewrite Hp4 in Hti. unfold h, h0', h1' in *.
    destruct Hcase as [[E Hc]|[E Hc]]; rewrite E, Hc in *; cbn [winding] in *;
      match goal with H : turn_inv ?e ?a |- turn_inv ?e ?b => replace b with a by lia; exact H end.
Qed.

(** C25.  From raw samples to counted turns: after any samples of the two
    sensors, the encoder counter is, in its 8-bit type, a number of turns that
    is the winding number of the two filtered signals to within the turn in
    progress, and exactly that number when the filtered signal is at rest. *)
Theorem encoder_counts_turns pts : Z.of_nat (length pts) < 2 ^ 32 - 2 →
  let k := proc_points pts 0 knob_init in
  let w := winding (0, 0) (filtered [] [] 0 pts) in
  ∃ t, knob_encoder_count k = s8 t ∧ Z.abs (w - 4 * t) < 4
    ∧ (prev_encoder_state (knob_encoder k) = 0 → w = 4 * t).
Proof.
  intros Hlen k w. destruct (proc_points_ok pts 0 knob_init [] [] 0 0) as (t & Ht & Hi); try done; try (cbn; lia).
  { split_and!; try (by left); constructor. }
  exists t. split; [exact Ht|]. fold k in Hi. destruct Hi as (_ & _ & _ & Hi).
  change (channel_vals (knob_encoder knob_init)) with (0, 0) in Hi. fold w in Hi. rewrite Z.add_0_l in Hi.
  split; [inversion Hi; lia|]. intros Hz. rewrite Hz in Hi. inversion Hi; lia.
Qed.

(** One turn to the right, in samples: each step held long enough. *)
Definition hold (n : nat) (a b : Z) : list Z := concat (replicate n [a; b]).
Definition demo_samples : list Z := hold 15 10 200 ++ hold 15 200 200 ++ hold 50 200 20 ++ hold 50 20 20.

Lemma encoder_counts_turns_witness :
  knob_encoder_count (proc_points demo_samples 0 knob_init) = 1
  ∧ ∃ t, knob_encoder_count (proc_points demo_samples 0 knob_init) = s8 t
    ∧ winding (0, 0) (filtered [] [] 0 demo_samples) = 4 * t.
Proof.
  split; [vm_compute; reflexivity|].
  destruct (encoder_counts_turns demo_samples ltac:(vm_compute; reflexivity)) as (t & H1 & _ & H3).
  exists t. split; [exact H1|]. apply H3. vm_compute. reflexivity.
Defined.

(** ** Compressed sensor data *)

Lemma u8_lor a b : u8 (Z.lor a b) = Z.lor (u8 a) (u8 b).
Proof. unfold u8. change 256 with (2 ^ 8). rewrite <- !Z.land_ones by lia. apply Z.land_lor_distr_l. Qed.

(** The terms that mix two samples in a compressed byte fall apart again. *)
Lemma expand_terms a : is_u8 a →
  u8 (Z.land (u8 (Z.land a 0xfc)) 0xfc) = Z.land a 0xfc
  ∧ u8 (Z.land (u8 (Z.shiftr a 6)) 0xfc) = 0
  ∧ u8 (Z.shiftl (u8 (Z.land a 0xfc)) 6) = 0
  ∧ Z.lor (u8 (Z.shiftl (u8 (Z.shiftr a 6)) 6)) (u8 (Z.shiftr (Z.land (u8 (Z.land (Z.shiftl a 2) 0xf0)) 0xf0) 2))
    = Z.land a 0xfc
  ∧ u8 (Z.shiftr (Z.land (u8 (Z.shiftr a 4)) 0xf0) 2) = 0
  ∧ u8 (Z.shiftl (u8 (Z.land (Z.shiftl a 2) 0xf0)) 4) = 0
  ∧ Z.lor (u8 (Z.shiftl (u8 (Z.shiftr a 4)) 4)) (u8 (Z.shiftr (Z.land (u8 (Z.land (Z.shiftl a 4) 0xc0)) 0xc0) 4))
    = Z.land a 0xfc
  ∧ u8 (Z.shiftr (Z.land (u8 (Z.shiftr a 2)) 0xc0) 4) = 0
  ∧ u8 (Z.shiftl (u8 (Z.land (Z.shiftl a 4) 0xc0)) 2) = 0
  ∧ u8 (Z.shiftl (u8 (Z.shiftr a 2)) 2) = Z.land a 0xfc.
Proof.
  intros Ha.
  pose proof (byte_forall (λ a,
    (u8 (Z.land (u8 (Z.land a 0xfc)) 0xfc) =? Z.land a 0xfc)
    && (u8 (Z.land (u8 (Z.shiftr a 6)) 0xfc) =? 0)
    && (u8 (Z.shiftl (u8 (Z.land a 0xfc)) 6) =? 0)
    && (Z.lor (u8 (Z.shiftl (u8 (Z.shiftr a 6)) 6)) (u8 (Z.shiftr (Z.land (u8 (Z.land (Z.shiftl a 2) 0xf0)) 0xf0) 2))
        =? Z.land a 0xfc)
    && (u8 (Z.shiftr (Z.land (u8 (Z.shiftr a 4)) 0xf0) 2) =? 0)
    && (u8 (Z.shiftl (u8 (Z.land (Z.shiftl a 2) 0xf0)) 4) =? 0)
    && (Z.lor (u8 (Z.shiftl (u8 (Z.shiftr a 4)) 4)) (u8 (Z.shiftr (Z.land (u8 (Z.land (Z.shiftl a 4) 0xc0)) 0xc0) 4))
        =? Z.land a 0xfc)
    && (u8 (Z.shiftr (Z.land (u8 (Z.shiftr a 2)) 0xc0) 4) =? 0)
    && (u8 (Z.shiftl (u8 (Z.land (Z.shiftl a 4) 0xc0)) 2) =? 0)
    && (u8 (Z.shiftl (u8 (Z.shiftr a 2)) 2) =? Z.land a 0xfc)) a eq_refl Ha) as H.
  cbv beta in H. bool_prop. split_and!; assumption.
Qed.

Definition drop_low (a : Z) : Z := Z.land a 0xfc.

Lemma expand_compress4 a b c d : is_u8 a → is_u8 b → is_u8 c → is_u8 d →
  match compress4 a b c d with [x; y; z] => expand3 x y z | _ => [] end
  = [drop_low a; drop_low b; drop_low c; drop_low d].
Proof.
  intros Ha Hb Hc Hd. unfold compress4, expand3, drop_low.
  destruct (expand_terms a Ha) as (A1 & _ & A3 & _). destruct (expand_terms b Hb) as (_ & B2 & _ & B4 & _ & B6 & _).
  destruct (expand_terms c Hc) as (_ & _ & _ & _ & C5 & _ & C7 & _ & C9 & _).
  destruct (expand_terms d Hd) as (_ & _ & _ & _ & _ & _ & _ & D8 & _ & D10).
  rewrite !u8_lor, !Z.land_lor_distr_l, !Z.shiftl_lor, !Z.shiftr_lor, !u8_lor.
  rewrite A1, B2, A3, C5, B6, D8, C9, D10, Z.lor_0_r, !Z.lor_0_l, !Z.lor_0_r, B4, C7. done.
Qed.

Lemma expand_compress n data : bytes data → length data = (4 * n)%nat →
  expand_blocks n (compress_blocks data) = drop_low <$> data.
Proof.
  revert data. induction n as [|n IH]; intros data Hb Hlen; [by destruct data|].
  destruct data as [|a [|b [|c [|d data]]]]; cbn [length] in Hlen; try lia.
  repeat match goal with H : bytes (_ :: _) |- _ => inversion H; clear H; subst
                       | H : Forall is_u8 (_ :: _) |- _ => inversion H; clear H; subst end.
  pose proof (expand_compress4 a b c d) as Hx. unfold compress4 in Hx.
  cbn [compress_blocks compress4 app expand_blocks]. rewrite Hx by done.
  rewrite IH by (done || lia). done.
Qed.

Lemma length_compress n data : length data = (4 * n)%nat → length (compress_blocks data) = (3 * n)%nat.
Proof.
  revert data. induction n as [|n IH]; intros data Hlen; [by destruct data|].
  destruct data as [|a [|b [|c [|d data]]]]; cbn [length] in Hlen; try lia.
  cbn [compress_blocks compress4 app length]. rewrite IH; lia.
Qed.

(** C37.  Compressed sensor data comes back: what the host writes for a half of
    the sensor buffer that the controller compressed is every sample of that
    half, in order, with its two low bits cleared. *)
Theorem compress_roundtrip dma comp half : bytes dma → length dma = 240%nat → length comp = 180%nat →
  let i := if c_true half then 0%nat else 30%nat in
  write_data (take 90 (drop (i * 3) (knob_encoder_compress_data dma comp half).1))
  = drop_low <$> take 120 (drop (i * 4) dma).
Proof.
  intros Hb Hd Hc i. unfold knob_encoder_compress_data, write_data. fold i. cbn [fst].
  set (data := take 120 (drop (i * 4) dma)).
  assert (Hi : (i * 4 + 120 <= 240)%nat ∧ (i * 3 + 90 <= 180)%nat) by (unfold i; destruct (c_true half); lia).
  assert (Hdata : length data = (4 * 30)%nat) by (unfold data; rewrite length_take, length_drop; lia).
  pose proof (length_compress 30 data Hdata) as Hcl.
  replace (take 90 (drop (i * 3) (list_inserts (i * 3) (compress_blocks data) comp))) with (compress_blocks data).
  - apply expand_compress; [|done]. unfold data. by apply Forall_take, Forall_drop.
  - apply list_eq. intros j. destruct (decide (j < 90)%nat).
    + rewrite lookup_take_lt, lookup_drop, list_lookup_inserts by lia. f_equal. lia.
    + rewrite lookup_take_ge, lookup_ge_None_2 by lia. done.
Qed.

Lemma compress_roundtrip_witness :
  write_data (take 90 (drop 90 (knob_encoder_compress_data (seqZ 0 240) (replicate 180 0) 0).1))
  = drop_low <$> seqZ 120 120.
Proof.
  assert (H := compress_roundtrip (seqZ 0 240) (replicate 180 0) 0
    ltac:(apply Forall_seqZ; unfold is_u8; lia) eq_refl eq_refl). exact H.
Defined.
