(* ===== verification/Controller.v ===== *)
(** The controller firmware of the I/O processor: the DMA-driven I2C register
    machine of iomcu/controller/stm8l15x_it.c, the knob report of
    iomcu/controller/i2c.c and the main loop of iomcu/controller/main.c.  One
    event is one interrupt (with the bytes the DMA moved before it) or one
    pass of the main loop. *)

From S2P Require Import Prelude Checksum Knob.

(** Registers, sizes and flags of controller.h. *)
Abbreviation I2C_REG_RW_MASK := 0x80.
Abbreviation I2C_REG_READ_SYS_STAT := 0x00.
Abbreviation I2C_REG_READ_KNOB_STAT := 0x01.
Abbreviation I2C_REG_WRITE_PWM := 0x80.
Abbreviation I2C_REG_WRITE_RESTART_KEY := 0x81.
Abbreviation I2C_REG_ENTER_STANDALONE_MODE := 0x82.
Abbreviation I2C_REG_EXIT_STANDALONE_MODE := 0x83.
Abbreviation I2C_REG_RESERVED := 0xff.
Abbreviation I2C_READ_KNOB_ACK := 0xaa.
Abbreviation LED_TOT_SIZE := 24%nat.
Abbreviation LED_STATE_PWM_READY := 1.
Abbreviation LED_STATE_OPS_READY := 2.

(** The buffers a DMA channel can be pointed at. *)
Inductive buffer := RecvBuf | SendBuf | KnobBuf | PwmTable | RestartKeyBuf | StandaloneBuf.

Definition buffer_size (b : buffer) : Z :=
  match b with RecvBuf => 1 | SendBuf => 4 | KnobBuf => 5 | PwmTable => 25 | RestartKeyBuf => 5 | StandaloneBuf => 4 end.

Inductive dma_state := WAIT_FOR_REG | RECEIVING | TRANSMITTING.

Record ctrl := mk_ctrl {
  c_knob : knob;
  psense_dma_buf : list Z;
  adc_proc_state : Z;
  dropped_adc_frames : Z;
  read_knob_buf : list Z;
  read_knob_ready : bool;
  i2c_state : dma_state;
  i2c_reg : Z;
  recv_buf : Z;
  send_buf : list Z;
  pwm_table : list Z;
  restart_key_buf : list Z;
  restart_key_ready : bool;
  standalone_ready : bool;
  startup_mode : bool;
  led_state : Z;
  chan0 : buffer * Z;
  chan3 : buffer * Z;
  was_reset : bool
}.

Definition ctrl_init : ctrl :=
  mk_ctrl knob_init (replicate 240 0) 0 0 (replicate 5 0) false WAIT_FOR_REG 0 0 (replicate 4 0) (replicate 25 0)
    (replicate 5 0) false false true 0 (RecvBuf, 1) (SendBuf, 1) false.

(** The firmware part of the state that the knob code and the report use. *)
Definition set_knob k p d b r s := mk_ctrl k (psense_dma_buf s) p d b r (i2c_state s) (i2c_reg s) (recv_buf s)
  (send_buf s) (pwm_table s) (restart_key_buf s) (restart_key_ready s) (standalone_ready s) (startup_mode s)
  (led_state s) (chan0 s) (chan3 s) (was_reset s).
Definition set_psense v s := mk_ctrl (c_knob s) v (adc_proc_state s) (dropped_adc_frames s) (read_knob_buf s)
  (read_knob_ready s) (i2c_state s) (i2c_reg s) (recv_buf s) (send_buf s) (pwm_table s) (restart_key_buf s)
  (restart_key_ready s) (standalone_ready s) (startup_mode s) (led_state s) (chan0 s) (chan3 s) (was_reset s).
Definition set_reg st rg s := mk_ctrl (c_knob s) (psense_dma_buf s) (adc_proc_state s) (dropped_adc_frames s)
  (read_knob_buf s) (read_knob_ready s) st rg (recv_buf s) (send_buf s) (pwm_table s) (restart_key_buf s)
  (restart_key_ready s) (standalone_ready s) (startup_mode s) (led_state s) (chan0 s) (chan3 s) (was_reset s).
Definition set_chans c0 c3 s := mk_ctrl (c_knob s) (psense_dma_buf s) (adc_proc_state s) (dropped_adc_frames s)
  (read_knob_buf s) (read_knob_ready s) (i2c_state s) (i2c_reg s) (recv_buf s) (send_buf s) (pwm_table s)
  (restart_key_buf s) (restart_key_ready s) (standalone_ready s) (startup_mode s) (led_state s) c0 c3 (was_reset s).
Definition set_bufs rb sb pw rk s := mk_ctrl (c_knob s) (psense_dma_buf s) (adc_proc_state s) (dropped_adc_frames s)
  (read_knob_buf s) (read_knob_ready s) (i2c_state s) (i2c_reg s) rb sb pw rk (restart_key_ready s)
  (standalone_ready s) (startup_mode s) (led_state s) (chan0 s) (chan3 s) (was_reset s).
Definition set_flags rk sa su ld wr s := mk_ctrl (c_knob s) (psense_dma_buf s) (adc_proc_state s)
  (dropped_adc_frames s) (read_knob_buf s) (read_knob_ready s) (i2c_state s) (i2c_reg s) (recv_buf s) (send_buf s)
  (pwm_table s) (restart_key_buf s) rk sa su ld (chan0 s) (chan3 s) wr.
Definition set_ready r s := set_knob (c_knob s) (adc_proc_state s) (dropped_adc_frames s) (read_knob_buf s) r s.

(** ** The knob report (i2c.c) *)

Definition i2c_update_read_knob_buf (s : ctrl) : ctrl :=
  if read_knob_ready s then s else
  let '(enc, k) := knob_encoder_read_count (c_knob s) in
  let '(down, k) := knob_switch_read_down_count k in
  let '(up, k) := knob_switch_read_up_count k in
  let b0 := u8 enc in
  let b3 := dropped_adc_frames s in
  let dropped := u8 (dropped_adc_frames s - b3) in
  let b4 := if c_true b0 || c_true down || c_true up || c_true b3 then crc8 0 [b0; down; up; b3] else 0 in
  set_knob k (adc_proc_state s) dropped [b0; down; up; b3; b4] true s.

(** ** The interrupts (stm8l15x_it.c) *)

(** ADC half transfer (HT1) and transfer complete (TC1). *)
Definition adc_irq (s : ctrl) (complete : bool) : ctrl :=
  if adc_proc_state s =? 0
  then set_knob (c_knob s) (if complete then 2 else 1) (dropped_adc_frames s) (read_knob_buf s) (read_knob_ready s) s
  else set_knob (c_knob s) (adc_proc_state s) (u8 (dropped_adc_frames s + 1)) (read_knob_buf s) (read_knob_ready s) s.

Definition i2c_dma_read_params : list (buffer * Z) := [(SendBuf, 3); (KnobBuf, 5)].
Definition i2c_dma_write_params : list (buffer * Z) :=
  [(PwmTable, 25); (RestartKeyBuf, 5); (StandaloneBuf, 4); (StandaloneBuf, 4)].

(** The register byte: validated, then the DMA is pointed at its buffer.  A
    table index out of range would be undefined ([None]). *)
Definition i2c_select (s : ctrl) : option ctrl :=
  let reg := recv_buf s in
  let '(reg, s) :=
    if reg =? I2C_REG_READ_SYS_STAT then (reg, set_bufs (recv_buf s) (list_inserts 0 [0; 0; 1] (send_buf s)) (pwm_table s) (restart_key_buf s) s)
    else if reg =? I2C_REG_READ_KNOB_STAT then (reg, i2c_update_read_knob_buf s)
    else if (reg =? I2C_REG_WRITE_RESTART_KEY) || (reg =? I2C_REG_WRITE_PWM)
         || (reg =? I2C_REG_ENTER_STANDALONE_MODE) || (reg =? I2C_REG_EXIT_STANDALONE_MODE) then (reg, s)
    else (I2C_REG_RESERVED, s) in
  let s := set_reg (i2c_state s) reg s in
  if reg =? I2C_REG_RESERVED then Some s
  else if Z.land reg I2C_REG_RW_MASK =? 0x80 then
    p ← i2c_dma_write_params !! Z.to_nat (Z.land reg 0x7f);
    Some (set_chans p (chan3 s) (set_reg RECEIVING reg s))
  else
    p ← i2c_dma_read_params !! Z.to_nat reg;
    Some (set_chans (chan0 s) p (set_reg TRANSMITTING reg s)).

(** Any write leaves start-up and standalone mode; two registers set the
    latter. *)
Definition received_modes (s : ctrl) : ctrl :=
  let s := set_flags (restart_key_ready s) false false (led_state s) (was_reset s) s in
  let s := if i2c_reg s =? I2C_REG_ENTER_STANDALONE_MODE
           then set_flags (restart_key_ready s) true (startup_mode s) (led_state s) (was_reset s) s else s in
  if i2c_reg s =? I2C_REG_EXIT_STANDALONE_MODE
  then set_flags (restart_key_ready s) false (startup_mode s) (led_state s) (was_reset s) s else s.

(** What the data triggers. *)
Definition received_trigger (s : ctrl) : ctrl :=
  if (i2c_reg s =? I2C_REG_WRITE_PWM) && negb (standalone_ready s) then
    let s := set_flags (restart_key_ready s) (standalone_ready s) (startup_mode s)
               (Z.lor (led_state s) LED_STATE_PWM_READY) (was_reset s) s in
    if pwm_table s !!! LED_TOT_SIZE =? I2C_READ_KNOB_ACK then set_ready false s else s
  else if i2c_reg s =? I2C_REG_WRITE_RESTART_KEY then
    set_flags true (standalone_ready s) (startup_mode s) (led_state s) (was_reset s) s
  else s.

(** The end of a write. *)
Definition i2c_received (s : ctrl) : ctrl :=
  let s := received_modes s in
  let s := set_chans (RecvBuf, 1) (chan3 s) s in
  let s := set_reg WAIT_FOR_REG (i2c_reg s) s in
  let s := received_trigger s in
  set_reg (i2c_state s) I2C_REG_RESERVED s.

(** Channel 0 complete. *)
Definition dma_in_irq (s : ctrl) : option ctrl :=
  match i2c_state s with
  | WAIT_FOR_REG => i2c_select s
  | RECEIVING => Some (i2c_received s)
  | TRANSMITTING => Some (set_reg WAIT_FOR_REG (i2c_reg s) s)
  end.

(** Channel 3 complete. *)
Definition dma_out_irq (s : ctrl) : ctrl :=
  match i2c_state s with
  | TRANSMITTING => set_reg WAIT_FOR_REG I2C_REG_RESERVED (set_chans (chan0 s) (SendBuf, 1) s)
  | _ => set_reg WAIT_FOR_REG (i2c_reg s) s
  end.

(** What the DMA stores before the interrupt: as many bytes as it was set up
    for. *)
Definition dma_store (s : ctrl) (data : list Z) : ctrl :=
  let d := take (Z.to_nat (chan0 s).2) data in
  match (chan0 s).1 with
  | RecvBuf => set_bufs (list_inserts 0 d [recv_buf s] !!! 0%nat) (send_buf s) (pwm_table s) (restart_key_buf s) s
  | SendBuf => set_bufs (recv_buf s) (list_inserts 0 d (send_buf s)) (pwm_table s) (restart_key_buf s) s
  | KnobBuf => set_knob (c_knob s) (adc_proc_state s) (dropped_adc_frames s) (list_inserts 0 d (read_knob_buf s)) (read_knob_ready s) s
  | PwmTable => set_bufs (recv_buf s) (send_buf s) (list_inserts 0 d (pwm_table s)) (restart_key_buf s) s
  | RestartKeyBuf => set_bufs (recv_buf s) (send_buf s) (pwm_table s) (list_inserts 0 d (restart_key_buf s)) s
  | StandaloneBuf => s
  end.

(** ** The main loop (main.c) *)

(** The key, most significant byte first, and its checksum. *)
Definition controller_restart_key : list Z := [0xc0; 0xaa; 0xaa; 0xa4; 0xed].

Definition check_restart (s : ctrl) : ctrl :=
  if restart_key_ready s then
    let s := set_flags false (standalone_ready s) (startup_mode s) (led_state s) (was_reset s) s in
    if (restart_key_buf s !!! 0%nat =? 0xc0) && (restart_key_buf s !!! 1%nat =? 0xaa)
       && (restart_key_buf s !!! 2%nat =? 0xaa) && (restart_key_buf s !!! 3%nat =? 0xa4)
       && (restart_key_buf s !!! 4%nat =? 0xed)
    then set_flags (restart_key_ready s) (standalone_ready s) (startup_mode s) (led_state s) true s
    else s
  else s.

(** [led_update_arr] leaves the new schedule ready. *)
Definition check_led (s : ctrl) : ctrl :=
  if Z.land (led_state s) (Z.lor LED_STATE_PWM_READY LED_STATE_OPS_READY) =? LED_STATE_PWM_READY
  then set_flags (restart_key_ready s) (standalone_ready s) (startup_mode s) (Z.lor (led_state s) LED_STATE_OPS_READY) (was_reset s) s
  else s.

Definition check_adc (s : ctrl) : ctrl :=
  if c_true (adc_proc_state s)
  then set_knob (knob_encoder_proc_data (c_knob s) (psense_dma_buf s) (Z.shiftr (adc_proc_state s) 1)) 0
         (dropped_adc_frames s) (read_knob_buf s) (read_knob_ready s) s
  else s.

(** While starting up the LEDs show the pattern [lut]. *)
Definition draw_startup_pattern (s : ctrl) (lut : list Z) : ctrl :=
  let s := set_bufs (recv_buf s) (send_buf s) (list_inserts 0 (take LED_TOT_SIZE lut) (pwm_table s)) (restart_key_buf s) s in
  set_flags (restart_key_ready s) (standalone_ready s) (startup_mode s) (Z.lor (led_state s) LED_STATE_PWM_READY) (was_reset s) s.

(** One pass of whichever of the two loops of [main] runs. *)
Definition main_pass (s : ctrl) (lut : list Z) : ctrl :=
  if startup_mode s then check_led (draw_startup_pattern s lut)
  else check_adc (check_led (check_restart s)).

(** ** Events *)

(** [EvRecv data]: the master wrote and channel 0 took from [data] as many
    bytes as it was set up for; [EvAdc]: the ADC filled a half with [samples]. *)
Inductive event :=
  | EvRecv (data : list Z)
  | EvSent
  | EvAdc (complete : bool) (samples : list Z)
  | EvSwitch (pin : Z)
  | EvMain (lut : list Z).

Definition step (s : ctrl) (ev : event) : option ctrl :=
  match ev with
  | EvRecv data => dma_in_irq (dma_store s data)
  | EvSent => Some (dma_out_irq s)
  | EvAdc complete samples =>
      let s := set_psense (list_inserts (if complete then 120 else 0) (take 120 samples) (psense_dma_buf s)) s in
      Some (adc_irq s complete)
  | EvSwitch pin => Some (set_knob (knob_switch_read (c_knob s) pin) (adc_proc_state s) (dropped_adc_frames s)
                            (read_knob_buf s) (read_knob_ready s) s)
  | EvMain lut => Some (main_pass s lut)
  end.

Fixpoint run (s : ctrl) (evs : list event) : option ctrl :=
  match evs with
  | [] => Some s
  | ev :: evs' => s ← step s ev; run s evs'
  end.
