(* ===== verification/ControllerProps.v ===== *)
(** Properties of the controller firmware for every sequence of interrupts and
    main-loop passes: DMA transfers stay inside their buffers, knob events are
    reported without loss or duplication, only the restart key resets. *)

From S2P Require Import Prelude Checksum Knob Controller.

(** The master always has enough bytes for what the DMA was set up for. *)
Definition event_ok (ev : event) : Prop :=
  match ev with EvRecv data => bytes data ∧ (25 <= length data)%nat | _ => True end.

(** ** The state of the register machine *)

Definition in_channels : list (buffer * Z) := (RecvBuf, 1) :: i2c_dma_write_params.
Definition out_channels : list (buffer * Z) := (SendBuf, 1) :: i2c_dma_read_params.

Ltac channel := apply list_elem_of_In; cbn; tauto.

Record ctrl_inv (s : ctrl) : Prop := {
  ci_pwm : length (pwm_table s) = 25%nat;
  ci_key : length (restart_key_buf s) = 5%nat;
  ci_send : length (send_buf s) = 4%nat;
  ci_knob : length (read_knob_buf s) = 5%nat;
  ci_recv : is_u8 (recv_buf s);
  ci_in : chan0 s ∈ in_channels;
  ci_out : chan3 s ∈ out_channels;
  ci_receiving : i2c_state s = RECEIVING → i2c_dma_write_params !! Z.to_nat (Z.land (i2c_reg s) 0x7f) = Some (chan0 s)
}.

Lemma init_inv : ctrl_inv ctrl_init.
Proof. constructor; try done; channel. Qed.

(** Parts of the state that a handler leaves alone. *)
Definition same_io (s s' : ctrl) : Prop :=
  pwm_table s' = pwm_table s ∧ restart_key_buf s' = restart_key_buf s ∧ send_buf s' = send_buf s
  ∧ recv_buf s' = recv_buf s ∧ chan0 s' = chan0 s ∧ chan3 s' = chan3 s ∧ i2c_state s' = i2c_state s
  ∧ i2c_reg s' = i2c_reg s.

Lemma same_io_inv s s' : ctrl_inv s → same_io s s' → length (read_knob_buf s') = 5%nat → ctrl_inv s'.
Proof.
  intros [] (H1 & H2 & H3 & H4 & H5 & H6 & H7 & H8) Hb. constructor; rewrite ?H1, ?H2, ?H3, ?H4, ?H5, ?H6, ?H7, ?H8; done.
Qed.

Lemma update_knob_io s : same_io s (i2c_update_read_knob_buf s)
  ∧ (length (read_knob_buf s) = 5%nat → length (read_knob_buf (i2c_update_read_knob_buf s)) = 5%nat).
Proof.
  unfold i2c_update_read_knob_buf. destruct (read_knob_ready s); [done|].
  destruct (knob_encoder_read_count _) as [e k1], (knob_switch_read_down_count k1) as [d k2],
    (knob_switch_read_up_count k2) as [u k3]. done.
Qed.

Lemma main_pass_io s lut : startup_mode s = false → same_io s (main_pass s lut)
  ∧ read_knob_buf (main_pass s lut) = read_knob_buf s ∧ read_knob_ready (main_pass s lut) = read_knob_ready s.
Proof.
  intros Hs. unfold main_pass. rewrite Hs. unfold check_adc, check_led, check_restart. by split_ifs.
Qed.

(** The knob and the report after a pass that decodes sensor data. *)
Lemma main_decodes s lut : startup_mode s = false → c_true (adc_proc_state s) = true →
  c_knob (main_pass s lut) = knob_encoder_proc_data (c_knob s) (psense_dma_buf s) (Z.shiftr (adc_proc_state s) 1)
  ∧ dropped_adc_frames (main_pass s lut) = dropped_adc_frames s
  ∧ psense_dma_buf (main_pass s lut) = psense_dma_buf s.
Proof.
  intros H1 H2. unfold main_pass. rewrite H1. unfold check_adc, check_led, check_restart.
  split_ifs; cbn in *; try done; congruence.
Qed.

Lemma main_reset s lut : startup_mode s = false → was_reset (main_pass s lut) = was_reset (check_restart s).
Proof. intros H. unfold main_pass. rewrite H. unfold check_adc, check_led. by split_ifs. Qed.

Lemma list_inserts_full (d l : list Z) : (length l <= length d)%nat → list_inserts 0 (take (length l) d) l = take (length l) d.
Proof.
  intros H. rewrite list_inserts_0 by (rewrite length_take; lia). rewrite length_take, Nat.min_l, drop_all by lia. apply app_nil_r.
Qed.

Lemma store_inv s data : ctrl_inv s → bytes data → (25 <= length data)%nat → ctrl_inv (dma_store s data).
Proof.
  intros H Hb Hl. pose proof H as [Hp Hk Hs Hn Hr Hi Ho Hw]. unfold dma_store. unfold in_channels in Hi.
  destruct (chan0 s) as [b n] eqn:E. apply list_elem_of_In in Hi. cbn in Hi.
  destruct Hi as [[= <- <-]|[[= <- <-]|[[= <- <-]|[[= <- <-]|[[= <- <-]|[]]]]]]; cbn [fst snd];
    [|constructor; cbn [pwm_table restart_key_buf send_buf read_knob_buf recv_buf chan0 chan3 i2c_state i2c_reg set_bufs];
      rewrite ?length_inserts, ?E; try done; channel..].
  constructor; cbn [pwm_table restart_key_buf send_buf read_knob_buf recv_buf chan0 chan3 i2c_state i2c_reg set_bufs];
    rewrite ?E; try done; [|channel].
  destruct data as [|x data]; [cbn in Hl; lia|]. by inversion Hb.
Qed.

Lemma select_inv s : ctrl_inv s → i2c_state s = WAIT_FOR_REG → ∃ s', i2c_select s = Some s' ∧ ctrl_inv s'.
Proof.
  intros H Hst. unfold i2c_select.
  destruct (Z.eqb_spec (recv_buf s) I2C_REG_READ_SYS_STAT) as [->|].
  { eexists. split; [reflexivity|]. destruct H. constructor; cbn; rewrite ?length_insert; try done. channel. }
  destruct (Z.eqb_spec (recv_buf s) I2C_REG_READ_KNOB_STAT) as [Er|].
  { destruct (update_knob_io s) as [Hio Hlen]. rewrite Er. eexists. split; [reflexivity|].
    pose proof (same_io_inv _ _ H Hio (Hlen (ci_knob _ H))) as []. constructor; cbn; try done. channel. }
  destruct (Z.eqb_spec (recv_buf s) I2C_REG_WRITE_RESTART_KEY) as [->|];
    [|destruct (Z.eqb_spec (recv_buf s) I2C_REG_WRITE_PWM) as [->|];
      [|destruct (Z.eqb_spec (recv_buf s) I2C_REG_ENTER_STANDALONE_MODE) as [->|];
        [|destruct (Z.eqb_spec (recv_buf s) I2C_REG_EXIT_STANDALONE_MODE) as [->|]]]];
    cbn [orb]; (eexists; split; [reflexivity|]); destruct H; constructor; cbn; try done; try channel.
  by rewrite Hst.
Qed.

(** The modes change only flags. *)
Lemma received_modes_cases s : ∃ sa, received_modes s = set_flags (restart_key_ready s) sa false (led_state s) (was_reset s) s.
Proof.
  unfold received_modes. cbv zeta. change (i2c_reg (set_flags _ _ _ _ _ s)) with (i2c_reg s).
  destruct (i2c_reg s =? I2C_REG_ENTER_STANDALONE_MODE); change (i2c_reg (set_flags _ _ _ _ _ _)) with (i2c_reg s);
    destruct (i2c_reg s =? I2C_REG_EXIT_STANDALONE_MODE); eexists; reflexivity.
Qed.

Lemma received_inv s : ctrl_inv s → ctrl_inv (i2c_received s).
Proof.
  intros []. unfold i2c_received. destruct (received_modes_cases s) as [sa ->]. cbv zeta. unfold received_trigger. cbv zeta.
  split_ifs; constructor; cbn; try done; channel.
Qed.

Lemma main_inv s lut : ctrl_inv s → ctrl_inv (main_pass s lut).
Proof.
  intros H. destruct (startup_mode s) eqn:E.
  - unfold main_pass, check_led. rewrite E. destruct H. split_ifs; constructor; cbn; by rewrite ?length_inserts.
  - destruct (main_pass_io s lut E) as (? & Hb & _). eapply same_io_inv; eauto. rewrite Hb. apply H.
Qed.

(** Every event is defined and preserves the invariant. *)
Lemma step_inv s ev : ctrl_inv s → event_ok ev → ∃ s', step s ev = Some s' ∧ ctrl_inv s'.
Proof.
  intros H Hev. destruct ev as [data| |c smp|pin|lut]; cbn [step event_ok] in *.
  - destruct Hev as [Hb Hl]. pose proof (store_inv s data H Hb Hl) as Hs. unfold dma_in_irq.
    destruct (i2c_state (dma_store s data)) eqn:E; [by apply select_inv|eexists; split; [done|by apply received_inv]|].
    eexists. split; [done|]. destruct Hs. by constructor.
  - eexists. split; [done|]. unfold dma_out_irq. destruct H.
    destruct (i2c_state s); constructor; cbn; try done; channel.
  - eexists. split; [done|]. destruct H. unfold adc_irq. split_ifs; by constructor.
  - eexists. split; [done|]. destruct H. by constructor.
  - eexists. split; [done|]. by apply main_inv.
Qed.

Lemma run_inv evs : ∀ s, ctrl_inv s → Forall event_ok evs → ∃ s', run s evs = Some s' ∧ ctrl_inv s'.
Proof.
  induction evs as [|ev evs IH]; intros s H Hev; [by exists s|]. inversion Hev as [|?? He Hes]; subst.
  destruct (step_inv s ev H He) as (s1 & E1 & H1). destruct (IH s1 H1 Hes) as (s2 & E2 & H2).
  exists s2. cbn. by rewrite E1.
Qed.

(** C26.  The DMA never leaves its buffers: for every sequence of interrupts and
    main-loop passes from reset every handler is defined (each register the
    firmware accepts has an entry in the parameter tables) and both channels
    are always set up with at most as many bytes as their buffer holds, also
    after interrupts that come in an unexpected order. *)
Theorem dma_in_bounds evs :
  Forall event_ok evs →
  ∃ s, run ctrl_init evs = Some s ∧ (chan0 s).2 <= buffer_size (chan0 s).1 ∧ (chan3 s).2 <= buffer_size (chan3 s).1.
Proof.
  intros Hev. destruct (run_inv evs ctrl_init init_inv Hev) as (s & E & []). exists s. split; [done|].
  apply list_elem_of_In in ci_in0, ci_out0. cbn in ci_in0, ci_out0.
  split; [repeat destruct ci_in0 as [<-|ci_in0]|repeat destruct ci_out0 as [<-|ci_out0]]; cbn; (lia || done).
Qed.

Lemma dma_in_bounds_witness :
  ∃ s, run ctrl_init [EvRecv (replicate 25 0x80); EvSent; EvRecv (replicate 25 7)] = Some s
       ∧ (chan0 s).2 <= buffer_size (chan0 s).1 ∧ (chan3 s).2 <= buffer_size (chan3 s).1.
Proof.
  apply (dma_in_bounds [EvRecv (replicate 25 0x80); EvSent; EvRecv (replicate 25 7)]).
  repeat constructor; cbn; lia.
Defined.

(** ** The restart key *)

(** The first five bytes of what the master wrote at some point of [evs]. *)
Definition written (evs : list event) (key : list Z) : Prop := ∃ data, EvRecv data ∈ evs ∧ key = take 5 data.

(** The key buffer is its initial contents or was received whole. *)
Definition key_inv (evs : list event) (s : ctrl) : Prop :=
  (restart_key_buf s = replicate 5 0 ∨ written evs (restart_key_buf s))
  ∧ (was_reset s = true → written evs controller_restart_key).

Lemma written_mono evs ev key : written evs key → written (evs ++ [ev]) key.
Proof. intros (d & Hin & ->). exists d. split; [apply elem_of_app; by left|done]. Qed.

(** A handler that leaves the key buffer and the reset alone. *)
Lemma key_inv_same evs s s' :
  restart_key_buf s' = restart_key_buf s → was_reset s' = was_reset s → key_inv evs s → key_inv evs s'.
Proof. intros E1 E2 [H1 H2]. split; by rewrite ?E1, ?E2. Qed.

Lemma update_knob_key s : restart_key_buf (i2c_update_read_knob_buf s) = restart_key_buf s
  ∧ was_reset (i2c_update_read_knob_buf s) = was_reset s.
Proof.
  unfold i2c_update_read_knob_buf. destruct (read_knob_ready s); [done|].
  destruct (knob_encoder_read_count _) as [e k1], (knob_switch_read_down_count k1) as [d k2],
    (knob_switch_read_up_count k2) as [u k3]. done.
Qed.

Lemma select_key s s' : i2c_select s = Some s' → restart_key_buf s' = restart_key_buf s ∧ was_reset s' = was_reset s.
Proof.
  unfold i2c_select. intros H. destruct (if _ =? I2C_REG_READ_SYS_STAT then _ else _) as [reg s0] eqn:E.
  assert (restart_key_buf s0 = restart_key_buf s ∧ was_reset s0 = was_reset s) as [<- <-].
  { repeat case_match; simplify_eq; auto using update_knob_key. }
  repeat case_match; simplify_option_eq; done.
Qed.

Lemma ctrl_received_key s : restart_key_buf (i2c_received s) = restart_key_buf s ∧ was_reset (i2c_received s) = was_reset s.
Proof.
  unfold i2c_received. destruct (received_modes_cases s) as [sa ->]. cbv zeta. unfold received_trigger. cbv zeta. by split_ifs.
Qed.

Lemma store_key evs s data :
  ctrl_inv s → (25 <= length data)%nat → key_inv evs s → key_inv (evs ++ [EvRecv data]) (dma_store s data).
Proof.
  intros H Hl [H1 H2].
  assert (Hm : key_inv (evs ++ [EvRecv data]) s).
  { destruct H1 as [H1|H1]; (split; [|intros ?]); eauto using written_mono. }
  unfold dma_store. destruct (chan0 s) as [b n] eqn:E. destruct b; try exact Hm; cbn [fst snd].
  split; [right|apply Hm].
  assert (n = 5) as ->.
  { pose proof (ci_in _ H) as Hi. rewrite E in Hi. apply list_elem_of_In in Hi. cbn in Hi. intuition congruence. }
  exists data. split; [apply elem_of_app; right; by constructor|]. cbn [set_bufs restart_key_buf].
  change (Z.to_nat 5) with 5%nat. rewrite <- (ci_key _ H). apply list_inserts_full. rewrite (ci_key _ H). lia.
Qed.

(** The comparison in the main loop. *)
Lemma key_match l : length l = 5%nat →
  (l !!! 0%nat =? 0xc0) && (l !!! 1%nat =? 0xaa) && (l !!! 2%nat =? 0xaa) && (l !!! 3%nat =? 0xa4) && (l !!! 4%nat =? 0xed) = true
  → l = controller_restart_key.
Proof.
  intros Hl. do 6 (destruct l as [|? l]; try discriminate). cbn. rewrite !andb_true_iff, !Z.eqb_eq. by intros [[[[-> ->] ->] ->] ->].
Qed.

Lemma main_key evs s lut : ctrl_inv s → key_inv evs s → key_inv evs (main_pass s lut).
Proof.
  intros H Hk. unfold main_pass. destruct (startup_mode s).
  { unfold check_led. split_ifs; by eapply key_inv_same; [| |exact Hk]. }
  eapply (key_inv_same _ (check_restart s)); [unfold check_adc, check_led; by split_ifs..|].
  unfold check_restart. destruct (restart_key_ready s); [|done].
  destruct (_ && _) eqn:E; [|by eapply key_inv_same; [| |exact Hk]].
  apply key_match in E; [|apply H]. cbn in E. destruct Hk as [H1 H2]. split; [exact H1|].
  intros _. destruct H1 as [H1|H1]; rewrite E in H1; [discriminate|exact H1].
Qed.

Lemma step_key evs s ev s' :
  ctrl_inv s → event_ok ev → key_inv evs s → step s ev = Some s' → key_inv (evs ++ [ev]) s'.
Proof.
  intros H Hev Hk Hs.
  assert (Hm : key_inv (evs ++ [ev]) s).
  { destruct Hk as [[H1|H1] H2]; (split; [|intros ?]); eauto using written_mono. }
  destruct ev as [data| |c smp|pin|lut]; cbn [step] in Hs.
  - destruct Hev as [Hb Hl]. pose proof (store_key evs s data H Hl Hk) as Hd. unfold dma_in_irq in Hs.
    destruct (i2c_state _); simplify_eq; [|by eapply key_inv_same; [apply ctrl_received_key..|]|by eapply key_inv_same; [..|exact Hd]].
    apply select_key in Hs as [??]. by eapply key_inv_same.
  - simplify_eq. unfold dma_out_irq. destruct (i2c_state s); by eapply key_inv_same; [..|exact Hm].
  - simplify_eq. unfold adc_irq. split_ifs; by eapply key_inv_same; [..|exact Hm].
  - simplify_eq. by eapply key_inv_same; [..|exact Hm].
  - simplify_eq. by apply main_key.
Qed.

Lemma run_key evs : ∀ evs0 s s',
  ctrl_inv s → Forall event_ok evs → key_inv evs0 s → run s evs = Some s' → key_inv (evs0 ++ evs) s'.
Proof.
  induction evs as [|ev evs IH]; intros evs0 s s' H Hev Hk Hr; [cbn in Hr; simplify_eq; by rewrite app_nil_r|].
  inversion Hev; subst. destruct (step_inv s ev H) as (s1 & E1 & H1); [done|]. cbn in Hr. rewrite E1 in Hr. cbn in Hr.
  change (ev :: evs) with ([ev] ++ evs). rewrite (assoc_L (++)). eapply IH; eauto using step_key.
Qed.

(** C31.  Only the restart key resets the controller: whatever interrupts and
    main-loop passes happened, if the watchdog reset was triggered then the
    master wrote, in one transfer, the four key bytes and their checksum. *)
Theorem reset_only_by_key evs s :
  Forall event_ok evs → run ctrl_init evs = Some s → was_reset s = true → written evs controller_restart_key.
Proof.
  intros Hev Hr Hw. apply (run_key evs [] ctrl_init s init_inv Hev); [|done..]. split; [by left|done].
Qed.

Definition restart_events : list event :=
  [EvMain []; EvRecv (replicate 25 0x81); EvRecv (controller_restart_key ++ replicate 20 0); EvMain []].

Lemma reset_only_by_key_witness : written restart_events controller_restart_key.
Proof.
  eapply (reset_only_by_key restart_events); [repeat constructor; cbn; lia|vm_compute; reflexivity|reflexivity].
Defined.

(** The master can always restart an idle controller: from any state in
    which the firmware waits for a register byte, also while the start-up
    pattern is shown, writing the four key bytes and the message checksum of
    the register protocol to the restart register makes the next pass of the
    main loop reset the chip. *)
Theorem restart_by_host s lut :
  ctrl_inv s → i2c_state s = WAIT_FOR_REG → chan0 s = (RecvBuf, 1) →
  let key := [0xc0; 0xaa; 0xaa; 0xa4] in
  ∃ s', run s [EvRecv [I2C_REG_WRITE_RESTART_KEY];
               EvRecv (key ++ [i2c_message_checksum key I2C_REG_WRITE_RESTART_KEY]); EvMain lut] = Some s'
        ∧ was_reset s' = true.
Proof.
  intros H Hst Hc key. pose proof (ci_key _ H) as Hk.
  destruct s as [k ps ad dr kb kr st rg rb sb pw rk rr sa su ld c0 c3 wr]. cbn in Hst, Hc, Hk. subst st c0.
  destruct rk as [|? [|? [|? [|? [|? [|]]]]]]; try discriminate Hk.
  eexists. split; [reflexivity|]. rewrite main_reset; reflexivity.
Qed.

Lemma restart_by_host_witness :
  let key := [0xc0; 0xaa; 0xaa; 0xa4] in
  ∃ s', run ctrl_init [EvRecv [I2C_REG_WRITE_RESTART_KEY];
               EvRecv (key ++ [i2c_message_checksum key I2C_REG_WRITE_RESTART_KEY]); EvMain []] = Some s'
        ∧ was_reset s' = true.
Proof. apply (restart_by_host ctrl_init []); [apply init_inv|reflexivity..]. Defined.

(** ** The sensor buffer *)

(** The sensor buffer after a half was filled, and the other half. *)
Definition half_filled (complete : bool) (buf samples : list Z) : list Z :=
  if complete then take 120 buf ++ samples else samples ++ drop 120 buf.
Definition other_half (complete : bool) (buf : list Z) : list Z := if complete then take 120 buf else drop 120 buf.

(** The main loop decodes the half of the sensor buffer that the ADC did
    not just fill: after a half-transfer interrupt it reads entries 120 to 239
    and after a transfer-complete interrupt entries 0 to 119, so the samples
    whose arrival was signalled do not influence the count of that pass, and
    the half that is read is the one the DMA is writing next. *)
Theorem adc_decodes_other_half s complete samples lut :
  startup_mode s = false → adc_proc_state s = 0 → length (psense_dma_buf s) = 240%nat → length samples = 120%nat →
  ∃ s', run s [EvAdc complete samples; EvMain lut] = Some s'
        ∧ psense_dma_buf s' = half_filled complete (psense_dma_buf s) samples
        ∧ c_knob s' = proc_points (other_half complete (psense_dma_buf s)) (if complete then 0 else 120) (c_knob s).
Proof.
  unfold half_filled, other_half. intros Hsu Had Hl Hs. eexists. split; [reflexivity|].
  set (s1 := adc_irq _ complete).
  assert (H1 : startup_mode s1 = false ∧ adc_proc_state s1 = (if complete then 2 else 1) ∧ c_knob s1 = c_knob s
    ∧ psense_dma_buf s1 = (if complete then take 120 (psense_dma_buf s) ++ samples else samples ++ drop 120 (psense_dma_buf s))).
  { subst s1. unfold adc_irq. cbn. rewrite Had. cbn. do 3 (split; [done|]). rewrite take_ge by lia.
    destruct complete.
    - rewrite <- (take_drop 120 (psense_dma_buf s)) at 1.
      assert (Ht : (length (take 120 (psense_dma_buf s)) + 0)%nat = 120%nat) by (rewrite length_take; lia).
      rewrite <- Ht at 1. rewrite list_inserts_app_r, list_inserts_0 by (rewrite length_drop; lia).
      rewrite (drop_ge (drop _ _)) by (rewrite length_drop; lia). by rewrite app_nil_r.
    - rewrite list_inserts_0 by lia. by rewrite Hs. }
  destruct H1 as (E1 & E2 & E3 & E4). destruct (main_decodes s1 lut E1) as (Hk & _ & ->); [by rewrite E2; destruct complete|].
  split; [exact E4|]. rewrite Hk, E2, E3, E4. unfold knob_encoder_proc_data. destruct complete; cbn -[take drop].
  - rewrite drop_0, take_app_le, take_take by (rewrite length_take; lia). done.
  - change (Pos.to_nat 120) with 120%nat. rewrite drop_app_length' by done.
    by rewrite take_ge by (rewrite length_drop; lia).
Qed.

Definition ready_ctrl : ctrl := set_flags false false false 0 false ctrl_init.

Lemma adc_decodes_other_half_witness :
  ∃ s', run ready_ctrl [EvAdc false (replicate 120 200); EvMain []] = Some s'
        ∧ psense_dma_buf s' = half_filled false (psense_dma_buf ready_ctrl) (replicate 120 200)
        ∧ c_knob s' = proc_points (other_half false (psense_dma_buf ready_ctrl)) 120 (c_knob ready_ctrl).
Proof. apply (adc_decodes_other_half ready_ctrl false (replicate 120 200) []); reflexivity. Defined.
