(* ===== verification/ControllerReport.v ===== *)
(** The knob report of the controller firmware over whole event sequences:
    what the switch, the encoder and the ADC produced is what the reports
    carry, and the report that waits for the master does not change. *)

From S2P Require Import Prelude Checksum Knob KnobProps Controller ControllerProps.

(** ** Books *)

(** Turns, presses, releases, dropped frames; all counted modulo 256. *)
Definition zero4 : list Z := [0; 0; 0; 0].
Definition add4 : list Z → list Z → list Z := zip_with Z.add.

(** Counted and not yet in a report. *)
Definition pending (s : ctrl) : list Z :=
  [knob_encoder_count (c_knob s); (knob_switch_count (c_knob s)).1; (knob_switch_count (c_knob s)).2; dropped_adc_frames s].

(** In the report that waits to be acknowledged. *)
Definition held (s : ctrl) : list Z := if read_knob_ready s then take 4 (read_knob_buf s) else zero4.

(** In a report that was acknowledged between [s] and [s']. *)
Definition acked (s s' : ctrl) : list Z := if read_knob_ready s && negb (read_knob_ready s') then take 4 (read_knob_buf s) else zero4.

(** The knob with its counters cleared: what an event adds to them shows. *)
Definition cleared (k : knob) : knob := mk_knob (knob_switch_state k) (0, 0) 0 (knob_encoder k).

(** What one event counts: a sample of the switch pin, a half buffer of sensor
    data that the main loop decodes, a half buffer that comes too soon. *)
Definition produced (s : ctrl) (ev : event) : list Z :=
  match ev with
  | EvSwitch pin => let c := knob_switch_count (knob_switch_read (cleared (c_knob s)) pin) in [0; c.1; c.2; 0]
  | EvMain _ =>
      if negb (startup_mode s) && c_true (adc_proc_state s)
      then [knob_encoder_count (knob_encoder_proc_data (cleared (c_knob s)) (psense_dma_buf s) (Z.shiftr (adc_proc_state s) 1)); 0; 0; 0]
      else zero4
  | EvAdc _ _ => [0; 0; 0; c_bool (c_true (adc_proc_state s))]
  | _ => zero4
  end.

(** The totals over a run. *)
Fixpoint ledger (s : ctrl) (evs : list event) (a p : list Z) : option (list Z * list Z * ctrl) :=
  match evs with
  | [] => Some (a, p, s)
  | ev :: evs' => s' ← step s ev; ledger s' evs' (add4 a (acked s s')) (add4 p (produced s ev))
  end.

(** ** Congruence modulo 256 *)

Definition same256 (x y : Z) : Prop := ∃ q, x = y + 256 * q.
Infix "≡256" := same256 (at level 70).
Definition bal (l k : list Z) : Prop := Forall2 same256 l k.

#[export] Instance same256_equiv : Equivalence same256.
Proof.
  split; [intros x; exists 0; lia|intros x y [q ->]; exists (- q); lia|].
  intros x y z [q ->] [r ->]. exists (q + r). lia.
Qed.

#[export] Instance same256_add : Proper (same256 ==> same256 ==> same256) Z.add.
Proof. intros x x' [q ->] y y' [r ->]. exists (q + r). lia. Qed.

Lemma same256_u8 x : u8 x ≡256 x.
Proof. exists (- (x / 256)). unfold u8. pose proof (Z.div_mod x 256). lia. Qed.

Lemma same256_s8 x : s8 x ≡256 x.
Proof. exists (- ((x + 128) / 256)). unfold s8. pose proof (Z.div_mod (x + 128) 256). lia. Qed.

(** ** The counters of the knob *)

(** Decoding does not look at the count it adds to. *)
Lemma proc_points_count buf : ∀ i k,
  knob_encoder (proc_points buf i k) = knob_encoder (proc_points buf i (cleared k))
  ∧ knob_encoder_count (proc_points buf i k) ≡256 knob_encoder_count k + knob_encoder_count (proc_points buf i (cleared k))
  ∧ knob_switch_count (proc_points buf i k) = knob_switch_count k.
Proof.
  assert (G : ∀ i k c sw, let k' := mk_knob (knob_switch_state k) sw c (knob_encoder k) in
    knob_encoder (proc_points buf i k) = knob_encoder (proc_points buf i k')
    ∧ knob_encoder_count (proc_points buf i k) + c ≡256 knob_encoder_count k + knob_encoder_count (proc_points buf i k')
    ∧ knob_switch_count (proc_points buf i k) = knob_switch_count k).
  { induction buf as [|x buf IH]; intros i k c sw k'; cbn; [split; [done|split; [by rewrite Z.add_comm|done]]|].
    destruct (add_point (knob_encoder k) (Z.land i 1) x) as [v e].
    set (k1 := mk_knob (knob_switch_state k) (knob_switch_count k) _ e).
    set (c1 := if c_true v then _ else c).
    destruct (IH (i + 1) k1 c1 sw) as (H1 & H2 & H3). split; [exact H1|split; [|exact H3]].
    subst k1 c1. cbn in *. destruct (c_true v) eqn:Ev; [|exact H2].
    destruct H2 as [q H2], (same256_s8 (c + v)) as [q1 E1], (same256_s8 (knob_encoder_count k + v)) as [q2 E2].
    exists (q - q1 + q2). lia. }
  intros i k. destruct (G i k 0 (0, 0)) as (H1 & H2 & H3). rewrite Z.add_0_r in H2. done.
Qed.

Lemma switch_read_count k pin :
  let c := knob_switch_count (knob_switch_read k pin) in
  let d := knob_switch_count (knob_switch_read (cleared k) pin) in
  c.1 ≡256 (knob_switch_count k).1 + d.1 ∧ c.2 ≡256 (knob_switch_count k).2 + d.2.
Proof.
  unfold knob_switch_read. destruct k as [st [c1 c2] enc e]. cbn.
  split_ifs; cbn; rewrite ?same256_u8; split; apply reflexive_eq; lia.
Qed.

(** ** One event keeps the books *)

Ltac books := unfold bal, add4, zero4; cbn [zip_with];
  repeat (constructor; [rewrite ?same256_u8, ?same256_s8; apply reflexive_eq; lia|]); constructor.

Definition balanced (s : ctrl) (ev : event) (s' : ctrl) : Prop :=
  bal (add4 (acked s s') (add4 (held s') (pending s'))) (add4 (produced s ev) (add4 (held s) (pending s))).

Lemma acked_same s s' : read_knob_ready s' = read_knob_ready s → acked s s' = zero4.
Proof. unfold acked. intros ->. by destruct (read_knob_ready s). Qed.

(** Handlers that touch neither the knob nor the report. *)
Definition same_books (s s' : ctrl) : Prop :=
  c_knob s' = c_knob s ∧ dropped_adc_frames s' = dropped_adc_frames s
  ∧ read_knob_buf s' = read_knob_buf s ∧ read_knob_ready s' = read_knob_ready s.

Lemma same_books_balanced s s' ev : length (read_knob_buf s) = 5%nat → same_books s s' → produced s ev = zero4 → balanced s ev s'.
Proof.
  intros Hl (E1 & E2 & E3 & E4) Ep. unfold balanced. rewrite Ep, (acked_same _ _ E4). unfold held, pending.
  rewrite E1, E2, E3, E4. destruct (read_knob_buf s) as [|b0 [|b1 [|b2 [|b3 b]]]]; try discriminate Hl.
  destruct (read_knob_ready s); books.
Qed.

Lemma store_books s data : ctrl_inv s → same_books s (dma_store s data).
Proof.
  intros H. pose proof (ci_in _ H) as Hi. apply list_elem_of_In in Hi. cbn in Hi. unfold dma_store.
  by destruct Hi as [<-|[<-|[<-|[<-|[<-|[]]]]]].
Qed.

(** Selecting the report: what was pending is held. *)
Lemma update_books s : bal (add4 (held (i2c_update_read_knob_buf s)) (pending (i2c_update_read_knob_buf s))) (add4 (held s) (pending s)).
Proof.
  unfold i2c_update_read_knob_buf. destruct (read_knob_ready s) eqn:E; [unfold bal; reflexivity|].
  unfold held, pending. rewrite E. unfold knob_encoder_read_count.
  destruct (c_knob s) as [st [c1 c2] enc e]. cbn. destruct (c_true enc) eqn:Ez; cbn; [books|].
  unfold c_true in Ez. apply negb_false_iff, Z.eqb_eq in Ez. subst. books.
Qed.

(** Selecting a register changes the books only by filling the report. *)
Lemma select_books s s' : i2c_select s = Some s' → same_books s s' ∨ same_books (i2c_update_read_knob_buf s) s'.
Proof.
  unfold i2c_select. intros H. destruct (if _ =? I2C_REG_READ_SYS_STAT then _ else _) as [reg s0] eqn:E.
  assert (Hs : same_books s0 s') by (unfold same_books; repeat case_match; simplify_option_eq; done).
  destruct (recv_buf s =? I2C_REG_READ_SYS_STAT); [simplify_eq; by left|].
  destruct (recv_buf s =? I2C_REG_READ_KNOB_STAT); [simplify_eq; by right|].
  destruct (_ || _); simplify_eq; by left.
Qed.

(** The end of a write releases the report only by a PWM write that ends in
    the acknowledgement. *)
Lemma received_books s :
  same_books s (i2c_received s)
  ∨ (i2c_reg s = I2C_REG_WRITE_PWM ∧ pwm_table s !!! LED_TOT_SIZE = I2C_READ_KNOB_ACK
     ∧ same_books (set_ready false s) (i2c_received s)).
Proof.
  unfold i2c_received. destruct (received_modes_cases s) as [sa ->]. cbv zeta. unfold received_trigger. cbv zeta.
  cbn [set_reg set_chans set_flags i2c_reg pwm_table standalone_ready].
  destruct (Z.eqb_spec (i2c_reg s) I2C_REG_WRITE_PWM) as [E|E]; cbn [andb].
  - destruct (negb sa).
    + destruct (Z.eqb_spec (pwm_table s !!! LED_TOT_SIZE) I2C_READ_KNOB_ACK) as [Ea|Ea]; [right|left]; done.
    + left. by destruct (i2c_reg s =? I2C_REG_WRITE_RESTART_KEY).
  - left. by destruct (i2c_reg s =? I2C_REG_WRITE_RESTART_KEY).
Qed.

Lemma held_books s s' : same_books s s' → held s' = held s.
Proof. intros (E1 & E2 & E3 & E4). unfold held. by rewrite E3, E4. Qed.

Lemma pending_books s s' : same_books s s' → pending s' = pending s.
Proof. intros (E1 & E2 & E3 & E4). unfold pending. by rewrite E1, E2. Qed.

Lemma same_books_trans s1 s2 s3 : same_books s1 s2 → same_books s2 s3 → same_books s1 s3.
Proof. intros (?&?&?&?) (?&?&?&?). repeat split; etrans; done. Qed.

Lemma add4_zero l : length l = 4%nat → add4 zero4 l = l.
Proof. intros Hl. do 5 (destruct l; try discriminate Hl). done. Qed.

Lemma ledger_length s : ctrl_inv s → length (held s) = 4%nat ∧ length (pending s) = 4%nat.
Proof.
  intros H. unfold held. split; [|done]. destruct (read_knob_ready s); [|done].
  rewrite length_take, (ci_knob _ H). done.
Qed.

Lemma add4_length a b : length a = 4%nat → length b = 4%nat → length (add4 a b) = 4%nat.
Proof. intros Ha Hb. unfold add4. rewrite length_zip_with. lia. Qed.

Lemma books_length s : ctrl_inv s → length (add4 (held s) (pending s)) = 4%nat.
Proof. intros H. destruct (ledger_length s H). by apply add4_length. Qed.

Lemma main_books s lut : startup_mode s = true ∨ c_true (adc_proc_state s) = false → same_books s (main_pass s lut).
Proof.
  intros H. unfold main_pass, same_books. destruct (startup_mode s); [unfold check_led; by split_ifs|].
  destruct H as [H|H]; [done|]. unfold check_adc, check_led, check_restart. cbn. split_ifs; try done; cbn in *; congruence.
Qed.

(** ** Each event *)

Lemma bal_refl l : bal l l.
Proof. unfold bal. reflexivity. Qed.

Lemma balanced_recv s data s' :
  ctrl_inv s → event_ok (EvRecv data) → step s (EvRecv data) = Some s' → balanced s (EvRecv data) s'.
Proof.
  intros H Hev Hs. pose proof Hev as [Hb Hl]. pose proof (store_books s data H) as Hd.
  pose proof (store_inv s data H Hb Hl) as Hi. pose proof (books_length s H) as Hbl. cbn [step] in Hs. unfold dma_in_irq in Hs.
  assert (Hsame : same_books (dma_store s data) s' → balanced s (EvRecv data) s').
  { intros Hs'. apply same_books_balanced; [apply H|by eapply same_books_trans|done]. }
  destruct (i2c_state (dma_store s data)); simplify_eq; [|destruct (received_books (dma_store s data)) as [?|(_ & _ & Hr)]|]; auto.
  - destruct (select_books _ _ Hs) as [Hs'|Hs']; [auto|]. unfold balanced.
    rewrite (held_books _ _ Hs'), (pending_books _ _ Hs').
    assert (acked s s' = zero4) as ->.
    { unfold acked. destruct Hd as (_ & _ & _ & Hd), Hs' as (_ & _ & _ & Hs'). rewrite <- Hd, Hs'.
      unfold i2c_update_read_knob_buf. destruct (read_knob_ready (dma_store s data)) eqn:E; [by rewrite E|done]. }
    destruct (update_knob_io (dma_store s data)) as [Hio Hlen].
    pose proof (books_length _ (same_io_inv _ _ Hi Hio (Hlen (ci_knob _ Hi)))) as Hul.
    cbn [produced]. rewrite !add4_zero by done.
    rewrite <- (held_books _ _ Hd), <- (pending_books _ _ Hd). apply update_books.
  - unfold balanced. rewrite (held_books _ _ Hr), (pending_books _ _ Hr). cbn [produced].
    pose proof (ledger_length s H) as [Hl1 Hl2]. unfold acked.
    destruct Hr as (_ & _ & _ & ->). cbn [set_ready set_knob read_knob_ready negb]. rewrite andb_true_r.
    fold (held s). rewrite add4_zero by done. unfold held at 2. cbn [set_ready set_knob read_knob_ready].
    change (pending (set_ready false (dma_store s data))) with (pending (dma_store s data)).
    rewrite (pending_books _ _ Hd), add4_zero by done. apply bal_refl.
  - by apply Hsame.
Qed.

Lemma books_change (s s' : ctrl) ev : length (read_knob_buf s) = 5%nat →
  read_knob_ready s' = read_knob_ready s → read_knob_buf s' = read_knob_buf s →
  bal (pending s') (add4 (produced s ev) (pending s)) → length (produced s ev) = 4%nat → balanced s ev s'.
Proof.
  intros Hl E1 E2 Hp Hlen. unfold balanced. rewrite (acked_same _ _ E1). unfold held. rewrite E1, E2.
  remember (produced s ev) as p eqn:Ep. clear Ep. do 5 (destruct p as [|? p]; try discriminate Hlen).
  destruct (read_knob_buf s) as [|b0 [|b1 [|b2 [|b3 b]]]]; try discriminate Hl.
  unfold bal, add4, zero4, pending in *. cbn [zip_with] in *. rewrite !Forall2_cons in Hp. destruct Hp as ([q1 ->] & [q2 ->] & [q3 ->] & [q4 ->] & _).
  destruct (read_knob_ready s); cbn [take zip_with]; repeat constructor;
    ((exists q1; lia) || (exists q2; lia) || (exists q3; lia) || (exists q4; lia)).
Qed.

Lemma step_balanced s ev s' : ctrl_inv s → event_ok ev → step s ev = Some s' → balanced s ev s'.
Proof.
  intros H Hev Hs. destruct ev as [data| |c smp|pin|lut]; [by apply balanced_recv|cbn [step] in Hs; simplify_eq..].
  - apply same_books_balanced; [apply H| |done]. unfold dma_out_irq. by destruct (i2c_state s).
  - apply books_change; [apply H|by unfold adc_irq; split_ifs..| |done].
    unfold adc_irq. cbn. unfold c_true. destruct (adc_proc_state s =? 0); unfold pending; cbn; books.
  - apply books_change; [apply H|done|done| |done].
    destruct (switch_read_count (c_knob s) pin) as [E1 E2]. unfold bal, pending.
    cbn [produced set_knob c_knob dropped_adc_frames]. unfold add4. cbn [zip_with].
    change (knob_encoder_count (knob_switch_read (c_knob s) pin)) with (knob_encoder_count (c_knob s)).
    repeat (constructor; [rewrite ?E1, ?E2; apply reflexive_eq; lia|]). constructor.
  - destruct (startup_mode s) eqn:E1.
    { apply same_books_balanced; [apply H|apply main_books; by left|]. cbn. by rewrite E1. }
    destruct (c_true (adc_proc_state s)) eqn:E2; [|apply same_books_balanced; [apply H|apply main_books; by right|cbn; by rewrite E1, E2]].
    destruct (main_pass_io s lut E1) as (_ & Hb & Hr). destruct (main_decodes s lut E1 E2) as (Hk & Hd & _).
    apply books_change; [apply H|done|done| |cbn; by rewrite E1, E2].
    cbn. rewrite E1, E2. unfold pending. rewrite Hk, Hd. unfold knob_encoder_proc_data.
    destruct (proc_points_count (take 120 (drop (Z.to_nat (if c_true (Z.shiftr (adc_proc_state s) 1) then 0 else 120)) (psense_dma_buf s)))
      (if c_true (Z.shiftr (adc_proc_state s) 1) then 0 else 120) (c_knob s)) as (_ & Hc & Hsw).
    cbn [negb andb]. unfold bal, add4. cbn [zip_with]. rewrite Hsw.
    repeat (constructor; [rewrite ?Hc; apply reflexive_eq; lia|]). constructor.
Qed.

Lemma bal_chain p a b c q b' : bal p (add4 a b) → bal (add4 c b') (add4 q b) →
  length p = 4%nat → length a = 4%nat → length b = 4%nat → length c = 4%nat → length q = 4%nat → length b' = 4%nat →
  bal (add4 p q) (add4 (add4 a c) b').
Proof.
  intros H1 H2 Lp La Lb Lc Lq Lb'. unfold bal, add4 in *. rewrite Forall2_lookup in *. intros i.
  destruct (decide (i < 4)%nat) as [Hi|Hi].
  2:{ rewrite !lookup_ge_None_2 by (rewrite ?length_zip_with; lia). constructor. }
  destruct (lookup_lt_is_Some_2 p i) as [xp Ep]; [lia|]. destruct (lookup_lt_is_Some_2 a i) as [xa Ea]; [lia|].
  destruct (lookup_lt_is_Some_2 b i) as [xb Eb]; [lia|]. destruct (lookup_lt_is_Some_2 c i) as [xc Ec]; [lia|].
  destruct (lookup_lt_is_Some_2 q i) as [xq Eq]; [lia|]. destruct (lookup_lt_is_Some_2 b' i) as [xb' Eb']; [lia|].
  specialize (H1 i). specialize (H2 i). repeat rewrite ?lookup_zip_with, ?Ep, ?Ea, ?Eb, ?Ec, ?Eq, ?Eb' in *. cbn in *.
  inversion H1 as [?? [r1 E1]|]; inversion H2 as [?? [r2 E2]|]; subst. constructor. exists (r1 - r2). lia.
Qed.

Lemma acked_length s s' : ctrl_inv s → length (acked s s') = 4%nat.
Proof. intros H. unfold acked. destruct (_ && _); [|done]. by rewrite length_take, (ci_knob _ H). Qed.

Lemma produced_length s ev : length (produced s ev) = 4%nat.
Proof. destruct ev; cbn; split_ifs; done. Qed.

(** The two running totals differ by what is held and pending. *)
Lemma ledger_balanced evs : ∀ s a p,
  ctrl_inv s → Forall event_ok evs → length a = 4%nat → length p = 4%nat →
  bal p (add4 a (add4 (held s) (pending s))) →
  ∃ a' p' s', ledger s evs a p = Some (a', p', s') ∧ run s evs = Some s' ∧ bal p' (add4 a' (add4 (held s') (pending s'))).
Proof.
  induction evs as [|ev evs IH]; intros s a p H Hev Ha Hp Hb; [by exists a, p, s|].
  inversion Hev as [|?? He Hes]; subst. destruct (step_inv s ev H He) as (s1 & E1 & H1). cbn [ledger run]. rewrite E1. cbn [mbind option_bind].
  apply IH; auto using add4_length, acked_length, produced_length.
  eapply bal_chain; [exact Hb|by apply step_balanced|auto using acked_length, produced_length, books_length..].
Qed.

(** C19.  Knob events are neither lost nor reported twice: for every sequence of
    interrupts and main-loop passes from reset, the turns, presses, releases
    and dropped frames counted so far are, modulo 256, those of the reports
    the master has acknowledged, plus the report that waits, plus the
    counters. *)
Theorem report_conservation evs :
  Forall event_ok evs →
  ∃ a p s, ledger ctrl_init evs zero4 zero4 = Some (a, p, s) ∧ run ctrl_init evs = Some s
           ∧ bal p (add4 a (add4 (held s) (pending s))).
Proof.
  intros Hev. apply ledger_balanced; [apply init_inv|done..|]. apply bal_refl.
Qed.

(** A press and a release, a report, an acknowledgement, another press. *)
Definition press : list event := [EvSwitch 0; EvSwitch 0].
Definition release : list event := [EvSwitch 1; EvSwitch 1].
Definition report_events : list event :=
  press ++ release ++ [EvRecv (replicate 25 1); EvSent]
  ++ press ++ [EvRecv (replicate 25 0x80); EvRecv (replicate 25 0xaa)] ++ [EvRecv (replicate 25 1)].

Lemma report_conservation_witness :
  ∃ a p s, ledger ctrl_init report_events zero4 zero4 = Some (a, p, s) ∧ run ctrl_init report_events = Some s
           ∧ bal p (add4 a (add4 (held s) (pending s))).
Proof. apply (report_conservation report_events). repeat constructor; cbn; lia. Defined.

Example report_totals : ∃ s, ledger ctrl_init report_events zero4 zero4 = Some ([0; 1; 1; 0], [0; 2; 1; 0], s)
  ∧ held s = [0; 1; 0; 0].
Proof. eexists. split; vm_compute; reflexivity. Qed.

(** ** The report that waits *)

Lemma same_books_report s s' : same_books s s' → read_knob_ready s' = read_knob_ready s ∧ read_knob_buf s' = read_knob_buf s.
Proof. by intros (?&?&?&?). Qed.

(** The end of a PWM write whose last byte is the acknowledgement. *)
Definition acknowledges (s : ctrl) (ev : event) : Prop :=
  ∃ data, ev = EvRecv data ∧ i2c_state s = RECEIVING ∧ i2c_reg s = I2C_REG_WRITE_PWM ∧ data !!! LED_TOT_SIZE = I2C_READ_KNOB_ACK.

(** A report that is ready stays as it is, whatever happens, until the
    master acknowledges it: the one event that releases it is the end of a
    write to the PWM register whose last byte is the acknowledgement.  So a
    report whose transfer was disturbed can be read again. *)
Theorem report_stable evs s ev s' :
  Forall event_ok (evs ++ [ev]) → run ctrl_init evs = Some s → step s ev = Some s' → read_knob_ready s = true →
  (read_knob_ready s' = true ∧ read_knob_buf s' = read_knob_buf s) ∨ acknowledges s ev.
Proof.
  intros [Hevs Hev]%Forall_app Hr Hs Hrd. rewrite Forall_singleton in Hev.
  destruct (run_inv evs ctrl_init init_inv Hevs) as (s0 & E0 & H). assert (s0 = s) as -> by congruence.
  destruct ev as [data| |c smp|pin|lut]; cbn [step] in Hs; simplify_eq.
  - destruct (same_books_report _ _ (store_books s data H)) as [Er Eb]. pose proof Hev as [Hb Hl]. unfold dma_in_irq in Hs.
    destruct (i2c_state (dma_store s data)) eqn:Est; simplify_eq; [left|..|left; by rewrite <- Hrd].
    + apply select_books in Hs as [Hs|Hs]; apply same_books_report in Hs as [-> ->]; [by rewrite Er, Eb|].
      unfold i2c_update_read_knob_buf. rewrite Er, Hrd. by rewrite Er, Eb.
    + destruct (received_books (dma_store s data)) as [Hk|(Hg & Ha & _)];
        [left; apply same_books_report in Hk as [-> ->]; by rewrite Er, Eb|right].
      assert (Hst : i2c_state s = RECEIVING ∧ i2c_reg s = I2C_REG_WRITE_PWM).
      { rewrite <- Est, <- Hg. unfold dma_store. by destruct (chan0 s) as [[] n]. }
      destruct Hst as [Hst Hrg]. exists data. do 3 (split; [done|]).
      pose proof (ci_receiving _ H Hst) as Hc. rewrite Hrg in Hc. cbn in Hc. injection Hc as Hc.
      unfold dma_store in Ha. rewrite <- Hc in Ha. cbn [fst snd set_bufs pwm_table] in Ha.
      change (Z.to_nat 25) with 25%nat in Ha. rewrite <- (ci_pwm _ H) in Ha.
      rewrite list_inserts_full in Ha by (rewrite (ci_pwm _ H); lia). rewrite (ci_pwm _ H) in Ha.
      rewrite <- Ha. symmetry. apply lookup_total_take_lt. lia.
  - left. unfold dma_out_irq. by destruct (i2c_state s).
  - left. unfold adc_irq. by split_ifs.
  - by left.
  - left. destruct (startup_mode s) eqn:E1; [|destruct (main_pass_io s lut E1) as (_ & -> & ->); done].
    destruct (same_books_report _ _ (main_books s lut (or_introl E1))) as [-> ->]. done.
Qed.

Lemma report_stable_witness :
  let s := from_option id ctrl_init (run ctrl_init (press ++ [EvRecv (replicate 25 1); EvSent])) in
  let s' := main_pass s [] in
  (read_knob_ready s' = true ∧ read_knob_buf s' = read_knob_buf s) ∨ acknowledges s (EvMain []).
Proof.
  apply (report_stable (press ++ [EvRecv (replicate 25 1); EvSent]) _ (EvMain [])); [|vm_compute; reflexivity..].
  repeat constructor; cbn; lia.
Defined.
