(* ===== verification/Led.v ===== *)
(** The LED matrix of the controller firmware: iomcu/controller/led.c turns 24
    brightness values into a schedule of timer periods, and the TIM4 interrupt
    of iomcu/controller/stm8l15x_it.c plays the schedule on the row and column
    pins.  Default configuration: four rows of six columns, 8-bit PWM. *)

From S2P Require Import Prelude.

Abbreviation LED_ROW_SIZE := 4%nat.
Abbreviation LED_COL_SIZE := 6%nat.
Abbreviation LED_TOT_SIZE := 24%nat.
Abbreviation LED_OP_COUNT := 28%nat.
Abbreviation LED_COL_ALL := 0x3f.
Abbreviation LED_OP_COL_MASK := 0x3f.
Abbreviation LED_OP_ROW_INC := 0x40.
Abbreviation LED_OP_LOOP := 0x80.
Abbreviation LED_STATE_PWM_READY := 1.
Abbreviation LED_STATE_OPS_READY := 2.
Abbreviation LED_STATE_OFF_TIME := 4.
Abbreviation LED_OFF_TIME_ARR := 25.
Abbreviation LED_ARR_DELTA_MIN := 1.
Abbreviation LED_MAX_ROW_ARR := 255.
Abbreviation LED_ROW_0 := 1.

(** An element of a schedule. *)
Record led_op := mk_op { o_arr : Z; o_op : Z }.

(** ** led.c *)

Definition led_lut : list nat :=
  [9; 13; 17; 21; 1; 5;
   8; 12; 16; 20; 0; 4;
   7; 11; 15; 19; 23; 3;
   6; 10; 14; 18; 22; 2]%nat.

(** One row of LedArrayCalc. *)
Record row := mk_row { r_arr : list Z; r_idx : list Z; r_rarr : Z }.

(** LED_ARR_IDX at column [j] of a row. *)
Definition LED_ARR_IDX (r : row) (j : nat) : Z := r_arr r !!! Z.to_nat (r_idx r !!! j).
Definition set_ARR_IDX (r : row) (j : nat) (v : Z) : row :=
  mk_row (<[Z.to_nat (r_idx r !!! j) := v]> (r_arr r)) (r_idx r) (r_rarr r).

(** The exchange by three exclusive ors. *)
Definition SWAP_IDX (D : list Z) (I : list Z) (a b : nat) : list Z :=
  if D !!! Z.to_nat (I !!! b) <? D !!! Z.to_nat (I !!! a) then
    let I := <[a := Z.lxor (I !!! a) (I !!! b)]> I in
    let I := <[b := Z.lxor (I !!! b) (I !!! a)]> I in
    <[a := Z.lxor (I !!! a) (I !!! b)]> I
  else I.

(** The comparators of the Bose-Nelson network for six keys. *)
Definition network : list (nat * nat) :=
  [(1, 2); (0, 2); (0, 1); (4, 5); (3, 5); (3, 4); (0, 3); (1, 4); (2, 5); (2, 4); (1, 3); (2, 3)]%nat.

Definition swap_row (arr idx : list Z) : list Z := foldl (λ I p, SWAP_IDX arr I p.1 p.2) idx network.

Definition init_row (pwm : list Z) (i : nat) : row :=
  mk_row ((λ k, pwm !!! k) <$> take LED_COL_SIZE (drop (LED_COL_SIZE * i) led_lut)) [0; 1; 2; 3; 4; 5] 0.

Definition sort_row (r : row) : row :=
  let r := mk_row (r_arr r) (swap_row (r_arr r) (r_idx r)) (r_rarr r) in
  mk_row (r_arr r) (r_idx r) (u8 (LED_MAX_ROW_ARR - LED_ARR_IDX r 5)).

Definition columns : list nat := [0; 1; 2; 3; 4; 5]%nat.

(** Values closer than LED_ARR_DELTA_MIN to their predecessor take its value. *)
Definition combine_cell (acc : Z * row) (j : nat) : Z * row :=
  let '(t, r) := acc in
  if LED_ARR_DELTA_MIN <=? LED_ARR_IDX r j - t then (LED_ARR_IDX r j, r) else (t, set_ARR_IDX r j t).

Definition combine_row (r : row) : row := (foldl combine_cell (0, r) columns).2.

(** Absolute values become differences. *)
Definition delta_cell (acc : Z * row) (j : nat) : Z * row :=
  let '(t, r) := acc in
  let r := set_ARR_IDX r j (u8 (LED_ARR_IDX r j - t)) in
  (u8 (LED_ARR_IDX r j + t), r).

Definition delta_row (r : row) : row := (foldl delta_cell (0, r) columns).2.

(** Storing at [p++]; there are LED_OP_COUNT places. *)
Definition push_op (ops : list led_op) (o : led_op) : option (list led_op) :=
  if (length ops <? LED_OP_COUNT)%nat then Some (ops ++ [o]) else None.

(** [(p - 1)->op |= bit]; the place before the table is not ours. *)
Definition or_last (bit : Z) (ops : list led_op) : option (list led_op) :=
  o ← last ops; Some (removelast ops ++ [mk_op (o_arr o) (Z.lor (o_op o) bit)]).

Definition emit_cell (r : row) (j : nat) (t : Z) (ops : list led_op) : option (Z * list led_op) :=
  '(t, ops) ← (if c_true (LED_ARR_IDX r j)
               then ops ← push_op ops (mk_op (LED_ARR_IDX r j) t); Some (0, ops) else Some (t, ops));
  Some (u8 (Z.lor t (Z.shiftl 1 (r_idx r !!! j))), ops).

Fixpoint emit_cells (r : row) (js : list nat) (t : Z) (ops : list led_op) : option (Z * list led_op) :=
  match js with
  | [] => Some (t, ops)
  | j :: js' => '(t, ops) ← emit_cell r j t ops; emit_cells r js' t ops
  end.

Definition emit_row (r : row) (ops : list led_op) : option (list led_op) :=
  '(t, ops) ← emit_cells r columns 0 ops;
  if c_true (r_rarr r) then push_op ops (mk_op (r_rarr r) (Z.lor LED_OP_ROW_INC t)) else or_last LED_OP_ROW_INC ops.

Fixpoint emit_rows (rs : list row) (ops : list led_op) : option (list led_op) :=
  match rs with
  | [] => Some ops
  | r :: rs' => ops ← emit_row r ops; emit_rows rs' ops
  end.

(** The rows after the first four loops of [led_update_arr]. *)
Definition calc_rows (pwm : list Z) : list row :=
  delta_row <$> (combine_row <$> (sort_row <$> (init_row pwm <$> seq 0 LED_ROW_SIZE))).

(** The schedule that [led_update_arr] writes. *)
Definition led_schedule (pwm : list Z) : option (list led_op) :=
  ops ← emit_rows (calc_rows pwm) []; or_last LED_OP_LOOP ops.

(** ** The state of the display *)

Record leds := mk_leds {
  ops_a : list led_op;
  ops_b : list led_op;
  use_b : bool;
  led_current_op : Z;
  led_state : Z;
  active_row : Z;
  inactive_cols : Z;
  row_port : Z;
  col_port : Z
}.

Definition led_ops_table (s : leds) : list led_op := if use_b s then ops_b s else ops_a s.

(** The boot picture (LED_SPLASH_BOOT). *)
Definition splash : list led_op := [mk_op 255 0x74; mk_op 255 0x78; mk_op 255 0x78; mk_op 255 0xd9].

Definition led_data_init : leds :=
  mk_leds (replicate LED_OP_COUNT (mk_op 0 0)) (splash ++ replicate (LED_OP_COUNT - 4) (mk_op 0 0)) true 0 0 LED_ROW_0 0 0 LED_COL_ALL.

Definition set_state v s := mk_leds (ops_a s) (ops_b s) (use_b s) (led_current_op s) v (active_row s) (inactive_cols s) (row_port s) (col_port s).
Definition set_op tb cur s := mk_leds (ops_a s) (ops_b s) tb cur (led_state s) (active_row s) (inactive_cols s) (row_port s) (col_port s).
Definition set_active ar ic s := mk_leds (ops_a s) (ops_b s) (use_b s) (led_current_op s) (led_state s) ar ic (row_port s) (col_port s).
Definition set_ports rp cp s := mk_leds (ops_a s) (ops_b s) (use_b s) (led_current_op s) (led_state s) (active_row s) (inactive_cols s) rp cp.

(** The new schedule goes to the table that is not shown. *)
Definition led_update_arr (s : leds) (pwm : list Z) : option leds :=
  ops ← led_schedule pwm;
  let s := if use_b s
           then mk_leds (list_inserts 0 ops (ops_a s)) (ops_b s) (use_b s) (led_current_op s) (led_state s) (active_row s) (inactive_cols s) (row_port s) (col_port s)
           else mk_leds (ops_a s) (list_inserts 0 ops (ops_b s)) (use_b s) (led_current_op s) (led_state s) (active_row s) (inactive_cols s) (row_port s) (col_port s) in
  Some (set_state (Z.lor (led_state s) LED_STATE_OPS_READY) s).

(** The check of the main loop. *)
Definition led_main (s : leds) (pwm : list Z) : option leds :=
  if Z.land (led_state s) (Z.lor LED_STATE_PWM_READY LED_STATE_OPS_READY) =? LED_STATE_PWM_READY
  then led_update_arr s pwm else Some s.

(** ** The pins *)

(** GPIO_HIGH and GPIO_LOW on an 8-bit output register. *)
Definition gpio_high (port pins : Z) : Z := Z.lor port pins.
Definition gpio_low (port pins : Z) : Z := Z.land port (Z.lxor pins 0xff).

Definition LED_ROW_ON (rows : Z) (s : leds) : leds := set_ports (gpio_high (row_port s) rows) (col_port s) s.
Definition LED_ROW_OFF (rows : Z) (s : leds) : leds := set_ports (gpio_low (row_port s) rows) (col_port s) s.
Definition LED_COL_ON (cols : Z) (s : leds) : leds := set_ports (row_port s) (gpio_low (col_port s) cols) s.
Definition LED_COL_OFF (cols : Z) (s : leds) : leds := set_ports (row_port s) (gpio_high (col_port s) cols) s.

(** The LED at [r], [c] has current. *)
Definition lit (s : leds) (r c : Z) : bool := Z.testbit (row_port s) r && negb (Z.testbit (col_port s) c).

(** ** The TIM4 interrupt *)

(** How the handler makes the time to its next run pass: a period written to
    TIM4's ARR register, or passes of the busy loop before the handler is
    entered again. *)
Inductive wait := Timer (arr : Z) | Burn (passes : Z).

Definition burn_arr_table : list Z := [18; 37; 55; 73; 91].
Abbreviation RESTART_INTERRUPT_ARR := 5.

(** [led_current_op[k]]; outside the table there is nothing to read. *)
Definition op_at (s : leds) (i : Z) : option led_op := if i <? 0 then None else led_ops_table s !! Z.to_nat i.

Definition LED_TABLE_OPS_SWAP (s : leds) : leds := set_state 0 (set_op (negb (use_b s)) (led_current_op s) s).

(** The second half of the interrupt: the operation becomes current.  The
    result is the state with the wait for the next run. *)
Definition tim4_next (s : leds) : option (leds * wait) :=
  let s := set_op (use_b s) (led_current_op s + 1) s in
  o ← op_at s (led_current_op s);
  let cols := Z.land (o_op o) LED_OP_COL_MASK in
  let s := LED_COL_OFF cols s in
  let s := set_active (active_row s) (Z.lor (inactive_cols s) cols) s in
  let s := if negb (inactive_cols s =? LED_COL_ALL) then LED_ROW_ON (active_row s) s else s in
  if o_arr o <=? RESTART_INTERRUPT_ARR then
    burn_counter ← (if o_arr o <? 1 then None else burn_arr_table !! Z.to_nat (o_arr o - 1));
    Some (s, Burn burn_counter)
  else Some (s, Timer (o_arr o)).

Definition tim4_irq (s : leds) : option (leds * wait) :=
  let s := LED_ROW_OFF (active_row s) s in
  o ← op_at s (led_current_op s);
  if c_true (Z.land (o_op o) LED_OP_ROW_INC) then
    if negb (c_true (Z.land (led_state s) LED_STATE_OFF_TIME)) then
      let s := LED_COL_OFF LED_COL_ALL s in
      let s := set_state (Z.lor (led_state s) LED_STATE_OFF_TIME) s in
      Some (s, Timer (if o_arr o <? LED_OFF_TIME_ARR then o_arr o else LED_OFF_TIME_ARR))
    else
      let s := set_state (Z.land (led_state s) (Z.lxor LED_STATE_OFF_TIME 0xff)) s in
      let s := set_active (active_row s) 0 s in
      let s :=
        if c_true (Z.land (o_op o) LED_OP_LOOP) then
          let s := if Z.land (led_state s) (Z.lor LED_STATE_PWM_READY LED_STATE_OPS_READY)
                      =? Z.lor LED_STATE_PWM_READY LED_STATE_OPS_READY
                   then LED_TABLE_OPS_SWAP s else s in
          set_active LED_ROW_0 (inactive_cols s) (set_op (use_b s) (-1) s)
        else set_active (u8 (Z.shiftl (active_row s) 1)) (inactive_cols s) s in
      o1 ← op_at s (led_current_op s + 1);
      tim4_next (LED_COL_ON (Z.land (Z.lxor (o_op o1) 0xff) LED_OP_COL_MASK) s)
  else tim4_next s.

(** ** Playing the schedule *)

(** [n] runs of the handler, with the wait after each. *)
Fixpoint play (n : nat) (s : leds) : option (list (leds * wait) * leds) :=
  match n with
  | O => Some ([], s)
  | S n' => '(s1, d) ← tim4_irq s; '(l, s2) ← play n' s1; Some ((s1, d) :: l, s2)
  end.

(** The waits during which an LED has current. *)
Definition lit_waits (l : list (leds * wait)) (r c : Z) : list wait :=
  foldr (λ '(s, d) acc, if lit s r c then d :: acc else acc) [] l.
