(* ===== verification/LedSort.v ===== *)
(** The sorting network of iomcu/controller/led.c sorts: six keys are put in
    ascending order by twelve comparators, proved by the 0-1 principle. *)

From Stdlib Require Import Sorted.
From S2P Require Import Prelude Led.

(** ** Comparators on values *)

(** The keys in the order of the index. *)
Definition vals (D I : list Z) : list Z := (λ k, D !!! Z.to_nat k) <$> I.

Definition cswap (l : list Z) (a b : nat) : list Z :=
  if l !!! b <? l !!! a then <[a := l !!! b]> (<[b := l !!! a]> l) else l.

Definition cnet (l : list Z) : list Z := foldl (λ l p, cswap l p.1 p.2) l network.

Lemma cswap_length l a b : length (cswap l a b) = length l.
Proof. unfold cswap. destruct (_ <? _); by rewrite ?length_insert. Qed.

Lemma fmap_lookup_total (f : Z → Z) (l : list Z) i : (i < length l)%nat → (f <$> l) !!! i = f (l !!! i).
Proof. intros [x Hx]%lookup_lt_is_Some. by rewrite !list_lookup_total_alt, list_lookup_fmap, Hx. Qed.

(** The three exclusive ors exchange two places. *)
Lemma SWAP_IDX_swap D I a b : (a < length I)%nat → (b < length I)%nat → a ≠ b →
  SWAP_IDX D I a b =
    if D !!! Z.to_nat (I !!! b) <? D !!! Z.to_nat (I !!! a) then <[a := I !!! b]> (<[b := I !!! a]> I) else I.
Proof.
  intros Ha Hb Hab. unfold SWAP_IDX. destruct (_ <? _); [|done]. cbv zeta.
  set (x := I !!! a). set (y := I !!! b).
  set (I1 := <[a := Z.lxor x y]> I).
  assert (E1 : I1 !!! b = y) by (subst I1; by rewrite list_lookup_total_insert_ne by done).
  assert (E2 : I1 !!! a = Z.lxor x y) by (subst I1; by rewrite list_lookup_total_insert_eq by done).
  rewrite E1, E2. set (I2 := <[b := _]> I1).
  assert (Hx : Z.lxor y (Z.lxor x y) = x).
  { by rewrite (Z.lxor_comm x y), <- Z.lxor_assoc, Z.lxor_nilpotent, Z.lxor_0_l. }
  assert (Hy : Z.lxor (Z.lxor x y) x = y).
  { by rewrite (Z.lxor_comm x y), Z.lxor_assoc, Z.lxor_nilpotent, Z.lxor_0_r. }
  assert (E3 : I2 !!! a = Z.lxor x y) by (subst I2; by rewrite list_lookup_total_insert_ne by done).
  assert (E4 : I2 !!! b = x) by (subst I2; rewrite list_lookup_total_insert_eq by (subst I1; by rewrite length_insert); done).
  rewrite E3, E4, Hy. subst I2 I1. rewrite Hx. rewrite (list_insert_insert_ne _ a b) by done.
  rewrite list_insert_insert_eq by done. by rewrite list_insert_insert_ne by done.
Qed.

Lemma SWAP_IDX_vals D I a b : (a < length I)%nat → (b < length I)%nat → a ≠ b →
  vals D (SWAP_IDX D I a b) = cswap (vals D I) a b.
Proof.
  intros Ha Hb Hab. rewrite SWAP_IDX_swap by done. unfold cswap, vals.
  rewrite !fmap_lookup_total by done. destruct (_ <? _); [|done]. by rewrite !list_fmap_insert.
Qed.

(** ** The 0-1 principle *)

Section mono.
Context (f : Z → Z) (Hf : ∀ x y, x <= y → f x <= f y).

Lemma cswap_mono l a b : (a < length l)%nat → (b < length l)%nat → cswap (f <$> l) a b = f <$> cswap l a b.
Proof.
  intros Ha Hb. unfold cswap. rewrite !fmap_lookup_total by done.
  destruct (Z.ltb_spec (l !!! b) (l !!! a)) as [H|H], (Z.ltb_spec (f (l !!! b)) (f (l !!! a))) as [H'|H'].
  - by rewrite !list_fmap_insert.
  - rewrite !list_fmap_insert. assert (E : f (l !!! a) = f (l !!! b)) by (specialize (Hf (l !!! b) (l !!! a)); lia).
    rewrite (list_insert_id _ b); [|rewrite E; by rewrite list_lookup_fmap, (list_lookup_lookup_total_lt l b)].
    rewrite list_insert_id; [done|]. rewrite <- E. by rewrite list_lookup_fmap, (list_lookup_lookup_total_lt l a).
  - specialize (Hf _ _ H). lia.
  - done.
Qed.

Lemma cnet_mono l : length l = 6%nat → cnet (f <$> l) = f <$> cnet l.
Proof.
  intros Hl. unfold cnet. assert (Hn : Forall (λ p, p.1 < 6 ∧ p.2 < 6)%nat network) by (repeat constructor; cbn; lia).
  revert l Hl. induction Hn as [|p ps [H1 H2] Hn IH]; intros l Hl; [done|]. cbn [foldl].
  rewrite cswap_mono by lia. apply IH. by rewrite cswap_length.
Qed.
End mono.

(** All inputs of zeros and ones. *)
Definition sorted6 (l : list Z) : bool :=
  forallb (λ i, l !!! i <=? l !!! S i) [0; 1; 2; 3; 4]%nat.

Fixpoint bits01 (n : nat) : list (list Z) :=
  match n with O => [[]] | S n' => l ← bits01 n'; [0 :: l; 1 :: l] end.

Lemma bits01_all l : Forall (λ x, x = 0 ∨ x = 1) l → l ∈ bits01 (length l).
Proof.
  induction 1 as [|x l Hx Hl IH]; [by constructor|]. cbn [length bits01]. apply list_elem_of_bind. exists l.
  split; [|done]. destruct Hx as [-> | ->]; [apply elem_of_cons; by left|]. apply elem_of_cons. right. by apply list_elem_of_singleton.
Qed.

Lemma net01 : forallb (λ l, sorted6 (cnet l)) (bits01 6) = true.
Proof. vm_compute. reflexivity. Qed.

Lemma sorted6_spec l i : sorted6 l = true → (i < 5)%nat → l !!! i <= l !!! S i.
Proof.
  unfold sorted6. rewrite forallb_forall. intros H Hi. apply Z.leb_le. apply H.
  do 5 (destruct i as [|i]; [cbn; tauto|]). lia.
Qed.

Lemma net01_sorted l : length l = 6%nat → Forall (λ x, x = 0 ∨ x = 1) l → sorted6 (cnet l) = true.
Proof.
  intros Hl Hb. apply bits01_all in Hb. rewrite Hl in Hb. apply list_elem_of_In in Hb. clear Hl. revert l Hb.
  apply forallb_forall, net01.
Qed.

Lemma cnet_length l : length (cnet l) = length l.
Proof.
  unfold cnet. generalize network. intros ps. revert l. induction ps as [|p ps IH]; intros l; [done|]. cbn. rewrite IH. apply cswap_length.
Qed.

Lemma cnet_sorted l i : length l = 6%nat → (i < 5)%nat → cnet l !!! i <= cnet l !!! S i.
Proof.
  intros Hl Hi. set (t := cnet l !!! S i). set (f := λ x, if x <=? t then 0 else 1).
  assert (Hf : ∀ x y, x <= y → f x <= f y).
  { intros x y H. unfold f. destruct (Z.leb_spec x t), (Z.leb_spec y t); lia. }
  assert (Hb : Forall (λ x, x = 0 ∨ x = 1) (f <$> l)).
  { apply Forall_fmap, Forall_true. intros x. unfold compose, f. destruct (x <=? t); [by left|by right]. }
  pose proof (sorted6_spec _ i (net01_sorted (f <$> l) ltac:(by rewrite length_fmap) Hb) Hi) as Hs.
  rewrite cnet_mono, !fmap_lookup_total in Hs by (rewrite ?cnet_length; lia || done). fold t in Hs.
  unfold f in Hs. destruct (Z.leb_spec (cnet l !!! i) t), (Z.leb_spec t t); lia.
Qed.

(** ** The index *)

Lemma swap_row_spec D I : length I = 6%nat → swap_row D I ≡ₚ I ∧ vals D (swap_row D I) = cnet (vals D I).
Proof.
  intros Hl. unfold swap_row, cnet.
  assert (Hn : Forall (λ p, p.1 < 6 ∧ p.2 < 6 ∧ p.1 ≠ p.2)%nat network) by (repeat constructor; cbn; lia).
  revert I Hl. induction Hn as [|p ps (H1 & H2 & H3) Hn IH]; intros I Hl; [done|]. cbn [foldl].
  assert (Hp : SWAP_IDX D I p.1 p.2 ≡ₚ I).
  { rewrite SWAP_IDX_swap by lia. destruct (_ <? _); [|done].
    apply Permutation_insert_swap; apply list_lookup_lookup_total_lt; lia. }
  destruct (IH (SWAP_IDX D I p.1 p.2)) as [E1 E2]; [by rewrite Hp|]. rewrite <- SWAP_IDX_vals by lia. split; [by rewrite E1|done].
Qed.

(** The sorting network sorts: for every row of six values, the index that
    [swap_row] leaves is a permutation of the columns, and the values in the
    order of that index do not decrease. *)
Theorem swap_row_sorts D :
  swap_row D [0; 1; 2; 3; 4; 5] ≡ₚ [0; 1; 2; 3; 4; 5]
  ∧ Sorted Z.le (vals D (swap_row D [0; 1; 2; 3; 4; 5])).
Proof.
  destruct (swap_row_spec D [0; 1; 2; 3; 4; 5] eq_refl) as [Hp Hv]. split; [done|]. rewrite Hv.
  assert (H6 : length (vals D [0; 1; 2; 3; 4; 5]) = 6%nat) by done.
  pose proof (λ i, cnet_sorted _ i H6) as Hs. assert (Hl := cnet_length (vals D [0; 1; 2; 3; 4; 5])). rewrite H6 in Hl.
  destruct (cnet _) as [|x0 [|x1 [|x2 [|x3 [|x4 [|x5 [|]]]]]]]; try discriminate Hl.
  pose proof (Hs 0%nat ltac:(lia)); pose proof (Hs 1%nat ltac:(lia)); pose proof (Hs 2%nat ltac:(lia));
    pose proof (Hs 3%nat ltac:(lia)); pose proof (Hs 4%nat ltac:(lia)). cbn in *. repeat constructor; done.
Qed.
