(* ===== verification/LedRows.v ===== *)
(** The schedule that [led_update_arr] computes: for each row a list of periods
    that fills the row time, in which every column is switched off after
    exactly its brightness. *)

From Stdlib Require Import Sorted.
From S2P Require Import Prelude Led LedSort.

(** ** A row and its values in the order of the index *)

Definition row_vals (r : row) : list Z := vals (r_arr r) (r_idx r).

Definition wf_row (r : row) : Prop := length (r_arr r) = 6%nat ∧ r_idx r ≡ₚ [0; 1; 2; 3; 4; 5].

Lemma wf_idx r : wf_row r → length (r_idx r) = 6%nat ∧ NoDup (r_idx r) ∧ Forall (λ i, 0 <= i < 6) (r_idx r).
Proof.
  intros [_ H]. rewrite !H. split; [done|]. split; [|repeat constructor; lia].
  apply (bool_decide_unpack _). vm_compute. exact I.
Qed.

Lemma wf_length r : wf_row r → length (row_vals r) = 6%nat.
Proof. intros H. unfold row_vals, vals. rewrite length_fmap. apply (wf_idx r H). Qed.

Lemma wf_at r j : wf_row r → (j < 6)%nat → ∃ i, r_idx r !! j = Some i ∧ 0 <= i < 6.
Proof.
  intros H Hj. destruct (wf_idx r H) as (Hl & _ & Hf). destruct (lookup_lt_is_Some_2 (r_idx r) j) as [i Hi]; [lia|].
  exists i. split; [done|]. by eapply Forall_lookup_1 in Hf.
Qed.

Lemma ARR_IDX_vals r j : wf_row r → (j < 6)%nat → LED_ARR_IDX r j = row_vals r !!! j.
Proof.
  intros H Hj. unfold LED_ARR_IDX, row_vals, vals. by rewrite fmap_lookup_total by (destruct (wf_idx r H); lia).
Qed.

Lemma set_ARR_IDX_wf r j v : wf_row r → wf_row (set_ARR_IDX r j v).
Proof. intros [H1 H2]. split; [|done]. cbn. by rewrite length_insert. Qed.

Lemma set_ARR_IDX_vals r j v : wf_row r → (j < 6)%nat → row_vals (set_ARR_IDX r j v) = <[j := v]> (row_vals r).
Proof.
  intros H Hj. destruct (wf_idx r H) as (Hl & Hnd & Hf). destruct (wf_at r j H Hj) as (i & Hi & Hr).
  apply list_eq. intros k. unfold row_vals, vals, set_ARR_IDX. cbn. rewrite list_lookup_fmap.
  rewrite (list_lookup_total_correct _ _ _ Hi).
  destruct (decide (k = j)) as [->|Hk].
  - rewrite list_lookup_insert_eq by (rewrite length_fmap; lia). rewrite Hi. cbn. f_equal.
    apply list_lookup_total_insert_eq. destruct H. lia.
  - rewrite list_lookup_insert_ne, list_lookup_fmap by done. destruct (r_idx r !! k) as [i'|] eqn:Ek; [|done].
    cbn. f_equal. apply list_lookup_total_insert_ne. intros E. apply Hk. eapply NoDup_lookup; [done|done|].
    rewrite Hi. f_equal. pose proof (Forall_lookup_1 _ _ _ _ Hf Ek). cbn in *. lia.
Qed.

(** ** The passes over a sorted row *)

Lemma combine_step r t j : wf_row r → (j < 6)%nat → t <= row_vals r !!! j →
  combine_cell (t, r) j = (row_vals r !!! j, r).
Proof.
  intros H Hj Ht. unfold combine_cell. rewrite ARR_IDX_vals by done. destruct (Z.leb_spec 1 (row_vals r !!! j - t)); [done|].
  assert (E : t = row_vals r !!! j) by lia. rewrite <- E. f_equal. unfold set_ARR_IDX. destruct r as [D I ra]. cbn. f_equal.
  destruct (wf_at _ _ H Hj) as (i & Hi & Hr). cbn in *. rewrite (list_lookup_total_correct _ _ _ Hi).
  apply list_insert_id. rewrite E. unfold row_vals, vals. cbn. rewrite fmap_lookup_total by (destruct (wf_idx _ H); cbn in *; lia).
  rewrite (list_lookup_total_correct _ _ _ Hi). apply list_lookup_lookup_total_lt. destruct H. cbn in *. lia.
Qed.

Ltac chain :=
  repeat match goal with
  | H : Sorted _ (_ :: _) |- _ => inversion H; clear H; subst
  | H : HdRel _ _ (_ :: _) |- _ => inversion H; clear H; subst
  end.

(** Combining leaves a sorted row alone: LED_ARR_DELTA_MIN is one tick. *)
Lemma combine_row_id r : wf_row r → Sorted Z.le (0 :: row_vals r) → combine_row r = r.
Proof.
  intros H Hs. unfold combine_row, columns. cbn [foldl].
  pose proof (wf_length r H) as Hl. pose proof (λ t j, combine_step r t j H) as Hc.
  destruct (row_vals r) as [|x0 [|x1 [|x2 [|x3 [|x4 [|x5 [|]]]]]]]; try discriminate Hl.
  chain.
  rewrite (Hc 0 0%nat) by (cbn; lia). cbn [lookup_total list_lookup_total].
  rewrite (Hc x0 1%nat) by (cbn; lia). cbn [lookup_total list_lookup_total].
  rewrite (Hc x1 2%nat) by (cbn; lia). cbn [lookup_total list_lookup_total].
  rewrite (Hc x2 3%nat) by (cbn; lia). cbn [lookup_total list_lookup_total].
  rewrite (Hc x3 4%nat) by (cbn; lia). cbn [lookup_total list_lookup_total].
  rewrite (Hc x4 5%nat) by (cbn; lia). done.
Qed.

Lemma delta_step r t j : wf_row r → (j < 6)%nat → 0 <= t <= row_vals r !!! j → row_vals r !!! j < 256 →
  delta_cell (t, r) j = (row_vals r !!! j, set_ARR_IDX r j (row_vals r !!! j - t)).
Proof.
  intros H Hj Ht Hb. unfold delta_cell. rewrite (ARR_IDX_vals r) by done.
  rewrite (u8_small (row_vals r !!! j - t)) by (unfold is_u8; lia).
  rewrite ARR_IDX_vals, set_ARR_IDX_vals by auto using set_ARR_IDX_wf.
  rewrite list_lookup_total_insert_eq by (by rewrite wf_length). f_equal. rewrite u8_small by (unfold is_u8; lia). lia.
Qed.

(** Differences of neighbours, starting from [t]. *)
Fixpoint deltas (t : Z) (l : list Z) : list Z :=
  match l with [] => [] | x :: l' => x - t :: deltas x l' end.

Lemma delta_row_spec r : wf_row r → Sorted Z.le (0 :: row_vals r) → bytes (row_vals r) →
  wf_row (delta_row r) ∧ row_vals (delta_row r) = deltas 0 (row_vals r)
  ∧ r_idx (delta_row r) = r_idx r ∧ r_rarr (delta_row r) = r_rarr r.
Proof.
  intros H Hs Hb. pose proof (wf_length r H) as Hl. destruct (row_vals r) as [|x0 [|x1 [|x2 [|x3 [|x4 [|x5 [|]]]]]]] eqn:E; try discriminate Hl.
  repeat (apply Forall_cons in Hb as [? Hb]). unfold is_u8 in *. chain. unfold delta_row, columns. cbn [foldl].
  assert (G : ∀ r' t j l, wf_row r' → row_vals r' = l → (j < 6)%nat → 0 <= t <= l !!! j → l !!! j < 256 →
    ∃ r1, delta_cell (t, r') j = (l !!! j, r1) ∧ wf_row r1 ∧ row_vals r1 = <[j := l !!! j - t]> l ∧ r_idx r1 = r_idx r' ∧ r_rarr r1 = r_rarr r').
  { intros r' t j l H' <- Hj Ht Hlt. eexists. split; [by apply delta_step|]. split; [by apply set_ARR_IDX_wf|]. split; [by apply set_ARR_IDX_vals|done]. }
  destruct (G r 0 0%nat _ H E) as (r1 & -> & W1 & V1 & I1 & R1); [cbn; lia..|]. cbn [lookup_total list_lookup_total] in *.
  destruct (G r1 x0 1%nat _ W1 V1) as (r2 & -> & W2 & V2 & I2 & R2); [cbn; lia..|]. cbn [lookup_total list_lookup_total insert list_insert] in *.
  destruct (G r2 x1 2%nat _ W2 V2) as (r3 & -> & W3 & V3 & I3 & R3); [cbn; lia..|]. cbn [lookup_total list_lookup_total insert list_insert] in *.
  destruct (G r3 x2 3%nat _ W3 V3) as (r4 & -> & W4 & V4 & I4 & R4); [cbn; lia..|]. cbn [lookup_total list_lookup_total insert list_insert] in *.
  destruct (G r4 x3 4%nat _ W4 V4) as (r5 & -> & W5 & V5 & I5 & R5); [cbn; lia..|]. cbn [lookup_total list_lookup_total insert list_insert] in *.
  destruct (G r5 x4 5%nat _ W5 V5) as (r6 & -> & W6 & V6 & I6 & R6); [cbn; lia..|]. cbn [snd]. split; [done|].
  split; [|split; congruence]. rewrite V6. done.
Qed.

(** ** The periods of a row *)

(** Pairs of a length and the columns switched off at its start. *)
Fixpoint periods (t : Z) (l : list (Z * Z)) (rest : Z) : list (Z * Z) :=
  match l with
  | [] => if c_true rest then [(rest, t)] else []
  | (d, i) :: l' =>
      if c_true d then (d, t) :: periods (Z.shiftl 1 i) l' rest else periods (Z.lor t (Z.shiftl 1 i)) l' rest
  end.

(** As operations: the last one carries the flags. *)
Fixpoint encode (flags : Z) (l : list (Z * Z)) : list led_op :=
  match l with
  | [] => []
  | [(a, c)] => [mk_op a (Z.lor c flags)]
  | (a, c) :: l' => mk_op a c :: encode flags l'
  end.

(** The periods in which column [c] is on, and how long they are. *)
Fixpoint on_periods (l : list (Z * Z)) (c : Z) : list Z :=
  match l with [] => [] | (a, o) :: l' => if Z.testbit o c then [] else a :: on_periods l' c end.

Fixpoint on_time (l : list (Z * Z)) (c : Z) : Z :=
  match l with [] => 0 | (a, o) :: l' => if Z.testbit o c then 0 else a + on_time l' c end.

Definition total (l : list Z) : Z := foldr Z.add 0 l.

Lemma on_periods_total l c : total (on_periods l c) = on_time l c.
Proof.
  induction l as [|[a o] l IH]; [done|]. cbn [on_periods on_time]. destruct (Z.testbit o c); [done|].
  cbn [total foldr]. fold (total (on_periods l c)). by rewrite IH.
Qed.

Lemma on_periods_prefix l c : on_periods l c `prefix_of` l.*1.
Proof.
  induction l as [|[a o] l IH]; [done|]. cbn [on_periods]. destruct (Z.testbit o c); [apply prefix_nil|].
  by apply prefix_cons.
Qed.

(** Of two beginnings of a list of lengths the shorter time is the beginning
    of the other. *)
Lemma prefix_total l : Forall (λ a, 1 <= a) l → ∀ l1 l2, l1 `prefix_of` l → l2 `prefix_of` l → total l1 <= total l2 → l1 `prefix_of` l2.
Proof.
  induction 1 as [|a l Ha Hl IH]; intros l1 l2 H1 H2 Hle.
  - apply prefix_nil_inv in H1 as ->. apply prefix_nil.
  - assert (Hpos : ∀ k, k `prefix_of` l → 0 <= total k).
    { intros k [k' ->]. apply Forall_app in Hl as [Hl _]. clear -Hl. induction Hl; [done|]. cbn [total foldr] in *. unfold total in *. lia. }
    destruct l1 as [|a1 l1]; [apply prefix_nil|]. apply prefix_cons_inv_1 in H1 as H1a. apply prefix_cons_inv_2 in H1. subst a1.
    destruct l2 as [|a2 l2]; [cbn [total foldr] in Hle; specialize (Hpos l1 H1); unfold total in *; lia|].
    apply prefix_cons_inv_1 in H2 as H2a. apply prefix_cons_inv_2 in H2. subst a2.
    apply prefix_cons. apply IH; [done|done|]. cbn [total foldr] in Hle. unfold total in *. lia.
Qed.

Lemma testbit_one i c : 0 <= i → 0 <= c → Z.testbit (Z.shiftl 1 i) c = (i =? c).
Proof.
  intros Hi Hc. rewrite Z.shiftl_spec by done. destruct (Z.eqb_spec i c) as [->|]; [by rewrite Z.sub_diag|].
  destruct (Z.ltb_spec c i); [by rewrite Z.testbit_neg_r by lia|].
  change 1 with (2 ^ 0). rewrite Z.pow2_bits_false by lia. done.
Qed.

Lemma periods_total l : ∀ t rest, total (periods t l rest).*1 = total l.*1 + rest.
Proof.
  induction l as [|[d i] l IH]; intros t rest; cbn [periods].
  - unfold c_true. destruct (Z.eqb_spec rest 0); cbn; lia.
  - unfold c_true. destruct (Z.eqb_spec d 0) as [->|]; cbn [negb]; rewrite ?fmap_cons; cbn [total foldr fst];
      fold (total (periods (Z.shiftl 1 i) l rest).*1); rewrite IH; fold (total l.*1); cbn; lia.
Qed.

Lemma periods_marked c l : ∀ t rest, 0 <= c → Z.testbit t c = true → on_time (periods t l rest) c = 0.
Proof.
  induction l as [|[d i] l IH]; intros t rest Hc Ht; cbn [periods].
  - destruct (c_true rest); cbn; by rewrite ?Ht.
  - destruct (c_true d); cbn [on_time]; [by rewrite Ht|]. apply IH; [done|]. by rewrite Z.lor_spec, Ht.
Qed.

Lemma periods_cell d i l1 l2 rest : ∀ t, Forall (λ p, 0 <= p.2) l1 → 0 <= i → i ∉ l1.*2 → Z.testbit t i = false →
  on_time (periods t (l1 ++ (d, i) :: l2) rest) i = total l1.*1 + d.
Proof.
  induction l1 as [|[d' i'] l1 IH]; intros t Hl Hi Hni Ht; cbn [periods app].
  - unfold c_true. destruct (Z.eqb_spec d 0) as [->|]; cbn [negb on_time].
    + apply periods_marked; [done|]. by rewrite Z.lor_spec, testbit_one, Z.eqb_refl, orb_true_r by done.
    + rewrite Ht, periods_marked; [cbn; lia|done|]. by rewrite testbit_one, Z.eqb_refl by done.
  - apply Forall_cons in Hl as [Hi' Hl]. rewrite fmap_cons in Hni. apply not_elem_of_cons in Hni as [Hne Hni]. cbn in Hi', Hne.
    assert (Hb : Z.testbit (Z.shiftl 1 i') i = false) by (rewrite testbit_one by done; lia).
    rewrite fmap_cons. cbn [total foldr fst]. fold (total l1.*1).
    unfold c_true. destruct (Z.eqb_spec d' 0) as [->|]; cbn [negb on_time].
    + rewrite IH; [done..|]. by rewrite Z.lor_spec, Ht, Hb.
    + rewrite Ht, IH by done. lia.
Qed.

Lemma one_range i : 0 <= i < 6 → 0 <= Z.shiftl 1 i < 64.
Proof.
  intros H. rewrite Z.shiftl_1_l. split; [apply Z.pow_nonneg; lia|]. change 64 with (2 ^ 6). apply Z.pow_lt_mono_r; lia.
Qed.

Lemma mark_range t i : 0 <= t < 64 → 0 <= i < 6 → 0 <= Z.lor t (Z.shiftl 1 i) < 64.
Proof. intros Ht Hi. apply (lor_range 6 t); [lia|done|by apply one_range]. Qed.

Definition ok_period (p : Z * Z) : Prop := 1 <= p.1 <= 255 ∧ 0 <= p.2 < 64.

Lemma periods_ok l : ∀ t rest, 0 <= t < 64 → 0 <= rest <= 255 → Forall (λ p, 0 <= p.1 <= 255 ∧ 0 <= p.2 < 6) l →
  Forall ok_period (periods t l rest) ∧ (length (periods t l rest) <= S (length l))%nat.
Proof.
  induction l as [|[d i] l IH]; intros t rest Ht Hr Hl; cbn [periods].
  - unfold c_true. destruct (Z.eqb_spec rest 0); cbn; [split; [constructor|lia]|split; [|lia]].
    constructor; [|constructor]. unfold ok_period. cbn. lia.
  - apply Forall_cons in Hl as [[Hd Hi] Hl]. cbn in Hd, Hi. unfold c_true. destruct (Z.eqb_spec d 0); cbn [negb length].
    + destruct (IH (Z.lor t (Z.shiftl 1 i)) rest) as [H1 H2]; [by apply mark_range|done..|]. split; [done|lia].
    + destruct (IH (Z.shiftl 1 i) rest) as [H1 H2]; [by apply one_range|done..|]. split; [|lia]. constructor; [|done].
      unfold ok_period. cbn. lia.
Qed.

(** ** What is written to the table *)

Definition op_pair (o : led_op) : Z * Z := (o_arr o, o_op o).

Lemma encode_snoc f ops a c : encode f ((op_pair <$> ops) ++ [(a, c)]) = ops ++ [mk_op a (Z.lor c f)].
Proof.
  induction ops as [|[a' c'] ops IH]; [done|]. rewrite fmap_cons, <- app_comm_cons. cbn [op_pair o_arr o_op encode]. rewrite IH.
  by destruct ops.
Qed.

Definition cell (r : row) (j : nat) : Z * Z := (row_vals r !!! j, r_idx r !!! j).

Lemma emit_cells_spec r js : wf_row r → ∀ t ops,
  Forall (λ j, j < 6)%nat js → 0 <= t < 64 → (length ops + length js <= LED_OP_COUNT)%nat →
  ∃ t' ops', emit_cells r js t ops = Some (t', ops ++ ops') ∧ (length ops' <= length js)%nat
    ∧ ∀ rest, periods t (cell r <$> js) rest = (op_pair <$> ops') ++ (if c_true rest then [(rest, t')] else []).
Proof.
  intros H. induction js as [|j js IH]; intros t ops Hjs Ht Hl.
  { exists t, []. rewrite app_nil_r. done. }
  apply Forall_cons in Hjs as [Hj Hjs]. cbn [length] in Hl. cbn [emit_cells]. unfold emit_cell. rewrite ARR_IDX_vals by done.
  destruct (wf_at r j H Hj) as (i & Hi & Hr). pose proof (list_lookup_total_correct _ _ _ Hi) as Ei.
  rewrite fmap_cons. unfold cell at 1. cbn [periods]. rewrite Ei.
  destruct (c_true (row_vals r !!! j)) eqn:Ed.
  - unfold push_op. rewrite (proj2 (Nat.ltb_lt _ _)) by lia. cbn [mbind option_bind].
    rewrite Z.lor_0_l, u8_small by (pose proof (one_range i Hr); unfold is_u8; lia).
    destruct (IH (Z.shiftl 1 i) (ops ++ [mk_op (row_vals r !!! j) t])) as (t' & ops' & E & Hlen & Hp);
      [done|by apply one_range|rewrite length_app; cbn; lia|].
    exists t', (mk_op (row_vals r !!! j) t :: ops'). rewrite E. split; [by rewrite <- (assoc_L (++))|]. split; [cbn; lia|].
    intros rest. rewrite Hp. done.
  - cbn [mbind option_bind]. rewrite u8_small by (pose proof (mark_range t i Ht Hr); unfold is_u8; lia).
    destruct (IH (Z.lor t (Z.shiftl 1 i)) ops) as (t' & ops' & E & Hlen & Hp); [done|by apply mark_range|lia|].
    exists t', ops'. split; [done|]. split; [cbn; lia|done].
Qed.

Lemma emit_row_spec r ops : wf_row r → (length ops + 7 <= LED_OP_COUNT)%nat →
  periods 0 (cell r <$> columns) (r_rarr r) ≠ [] →
  emit_row r ops = Some (ops ++ encode LED_OP_ROW_INC (periods 0 (cell r <$> columns) (r_rarr r))).
Proof.
  intros H Hl Hne. unfold emit_row.
  destruct (emit_cells_spec r columns H 0 ops) as (t' & ops' & E & Hlen & Hp); [repeat constructor; lia|lia|cbn; lia|].
  rewrite E. cbn [mbind option_bind]. rewrite Hp in Hne |- *. destruct (c_true (r_rarr r)).
  - rewrite encode_snoc. unfold push_op. rewrite (proj2 (Nat.ltb_lt _ _)) by (rewrite length_app; cbn in Hlen; lia).
    by rewrite (assoc_L (++)), (Z.lor_comm LED_OP_ROW_INC).
  - rewrite app_nil_r in Hne |- *. destruct ops' as [|o ops'' _] using rev_ind; [done|].
    unfold or_last. rewrite (assoc_L (++)), last_snoc. cbn [mbind option_bind]. rewrite removelast_last.
    rewrite fmap_app. change (op_pair <$> [o]) with [(o_arr o, o_op o)]. by rewrite encode_snoc, (assoc_L (++)).
Qed.

(** ** One row, all passes *)

Definition calc_row (D : list Z) : row := delta_row (combine_row (sort_row (mk_row D [0; 1; 2; 3; 4; 5] 0))).

Definition row_periods (D : list Z) : list (Z * Z) :=
  periods 0 (cell (calc_row D) <$> columns) (r_rarr (calc_row D)).

Lemma perm6 (I : list Z) : I ≡ₚ [0; 1; 2; 3; 4; 5] →
  ∃ i0 i1 i2 i3 i4 i5, I = [i0; i1; i2; i3; i4; i5] ∧ NoDup I ∧ Forall (λ i, 0 <= i < 6) I.
Proof.
  intros H. assert (Hw : wf_row (mk_row [0; 0; 0; 0; 0; 0] I 0)) by done.
  destruct (wf_idx _ Hw) as (Hl & Hn & Hf). cbn in *.
  destruct I as [|i0 [|i1 [|i2 [|i3 [|i4 [|i5 [|]]]]]]]; try discriminate Hl. by exists i0, i1, i2, i3, i4, i5.
Qed.

(** The sorted row: its columns in the order of brightness. *)
Lemma calc_row_spec D : bytes D → length D = 6%nat →
  wf_row (calc_row D) ∧ ∃ i0 i1 i2 i3 i4 i5 x0 x1 x2 x3 x4 x5,
    NoDup [i0; i1; i2; i3; i4; i5] ∧ Forall (λ i, 0 <= i < 6) [i0; i1; i2; i3; i4; i5]
    ∧ [i0; i1; i2; i3; i4; i5] ≡ₚ [0; 1; 2; 3; 4; 5]
    ∧ [x0; x1; x2; x3; x4; x5] = (λ k, D !!! Z.to_nat k) <$> [i0; i1; i2; i3; i4; i5]
    ∧ (0 <= x0 /\ x0 <= x1 /\ x1 <= x2 /\ x2 <= x3 /\ x3 <= x4 /\ x4 <= x5 /\ x5 <= 255)
    ∧ cell (calc_row D) <$> columns = [(x0, i0); (x1 - x0, i1); (x2 - x1, i2); (x3 - x2, i3); (x4 - x3, i4); (x5 - x4, i5)]
    ∧ r_rarr (calc_row D) = 255 - x5.
Proof.
  intros Hb Hl. destruct (swap_row_spec D [0; 1; 2; 3; 4; 5] eq_refl) as [Hp Hv].
  pose proof (cnet_sorted (vals D [0; 1; 2; 3; 4; 5])) as Hs. rewrite <- Hv in Hs.
  set (I := swap_row D [0; 1; 2; 3; 4; 5]) in *. set (r := sort_row (mk_row D [0; 1; 2; 3; 4; 5] 0)).
  assert (Hw : wf_row r) by done. assert (Hvr : row_vals r = vals D I) by done. assert (Hir : r_idx r = I) by done.
  assert (Hbv : bytes (row_vals r)).
  { rewrite Hvr. unfold vals. apply Forall_fmap. eapply Forall_impl; [apply (wf_idx r Hw)|]. intros i Hi. cbv beta in Hi. unfold compose.
    destruct (lookup_lt_is_Some_2 D (Z.to_nat i)) as [x Hx]; [lia|]. rewrite (list_lookup_total_correct _ _ _ Hx).
    by eapply Forall_lookup_1 in Hb. }
  pose proof (wf_length r Hw) as Hlen. rewrite Hvr in Hlen, Hbv.
  destruct (perm6 I Hp) as (i0 & i1 & i2 & i3 & i4 & i5 & EI & Hnd & Hf).
  destruct (vals D I) as [|x0 [|x1 [|x2 [|x3 [|x4 [|x5 [|]]]]]]] eqn:Ev; try discriminate Hlen.
  assert (Hx : 0 <= x0 /\ x0 <= x1 /\ x1 <= x2 /\ x2 <= x3 /\ x3 <= x4 /\ x4 <= x5 /\ x5 <= 255).
  { repeat (apply Forall_cons in Hbv as [? Hbv]). unfold is_u8 in *.
    pose proof (Hs 0%nat eq_refl ltac:(lia)); pose proof (Hs 1%nat eq_refl ltac:(lia)); pose proof (Hs 2%nat eq_refl ltac:(lia));
      pose proof (Hs 3%nat eq_refl ltac:(lia)); pose proof (Hs 4%nat eq_refl ltac:(lia)). cbn in *. lia. }
  assert (Hsort : Sorted Z.le (0 :: row_vals r)) by (rewrite Hvr; repeat constructor; lia).
  assert (Hc : combine_row r = r) by (by apply combine_row_id).
  assert (Hr : r_rarr r = 255 - x5).
  { change (r_rarr r) with (u8 (255 - LED_ARR_IDX (mk_row D I 0) 5)). rewrite ARR_IDX_vals by (done || lia).
    change (row_vals (mk_row D I 0)) with (vals D I). rewrite Ev. cbn [lookup_total list_lookup_total]. apply u8_small. unfold is_u8. lia. }
  destruct (delta_row_spec r Hw Hsort) as (W & V & Ix & R); [by rewrite Hvr|]. rewrite Hvr in V.
  unfold calc_row. fold r. rewrite Hc. split; [exact W|].
  exists i0, i1, i2, i3, i4, i5, x0, x1, x2, x3, x4, x5. rewrite <- EI. split; [done|]. split; [done|]. split; [done|]. split; [by rewrite <- Ev|].
  split; [done|]. split; [|by rewrite R]. unfold cell. rewrite V, Ix, Hir, EI. cbn. by rewrite Z.sub_0_r.
Qed.

(** A row of a schedule: periods in range that fill the row time. *)
Definition ok_row (l : list (Z * Z)) : Prop :=
  l ≠ [] ∧ Forall ok_period l ∧ (length l <= 7)%nat ∧ total l.*1 = LED_MAX_ROW_ARR.

Lemma row_periods_ok D : bytes D → length D = 6%nat → ok_row (row_periods D).
Proof.
  intros Hb Hl. destruct (calc_row_spec D Hb Hl) as (Hw & i0 & i1 & i2 & i3 & i4 & i5 & x0 & x1 & x2 & x3 & x4 & x5 & _ & Hf & _ & _ & Hx & Hc & Hr).
  unfold ok_row, row_periods. rewrite Hc, Hr.
  repeat (apply Forall_cons in Hf as [? Hf]). cbv beta in *.
  set (l := [(x0, i0); (x1 - x0, i1); (x2 - x1, i2); (x3 - x2, i3); (x4 - x3, i4); (x5 - x4, i5)]).
  assert (Ht : total (periods 0 l (255 - x5)).*1 = 255) by (rewrite periods_total; cbn; lia).
  destruct (periods_ok l 0 (255 - x5)) as [Hok Hlen]; [lia|lia|repeat (constructor; [cbn; lia|]); constructor|].
  split; [|by split; [|split]]. intros E. rewrite E in Ht. discriminate Ht.
Qed.

Ltac not_in := cbn [fmap list_fmap snd]; repeat (apply not_elem_of_cons; split; [congruence|]); apply not_elem_of_nil.

(** Every column is on for its brightness. *)
Lemma row_periods_on D c : bytes D → length D = 6%nat → 0 <= c < 6 → on_time (row_periods D) c = D !!! Z.to_nat c.
Proof.
  intros Hb Hl Hc6. destruct (calc_row_spec D Hb Hl) as (Hw & i0 & i1 & i2 & i3 & i4 & i5 & x0 & x1 & x2 & x3 & x4 & x5 & Hnd & Hf & Hp & Hv & Hx & Hc & Hr).
  unfold row_periods. rewrite Hc, Hr. clear Hc Hr.
  assert (Hin : c ∈ [i0; i1; i2; i3; i4; i5]).
  { rewrite Hp. assert (c = 0 ∨ c = 1 ∨ c = 2 ∨ c = 3 ∨ c = 4 ∨ c = 5) by lia. apply list_elem_of_In. cbn. lia. }
  cbn in Hv. injection Hv as E0 E1 E2 E3 E4 E5. repeat (apply Forall_cons in Hf as [? Hf]). cbv beta in *. clear Hf.
  repeat (apply NoDup_cons in Hnd as [?Hni Hnd]). clear Hnd. rewrite ?not_elem_of_cons in *. destruct_and?.
  assert (G : ∀ l1 d l2, Forall (λ p, 0 <= p.2) l1 → c ∉ l1.*2 → on_time (periods 0 (l1 ++ (d, c) :: l2) (255 - x5)) c = total l1.*1 + d).
  { intros l1 d l2 ??. apply periods_cell; [done|lia|done|]. apply Z.testbit_0_l. }
  apply list_elem_of_In in Hin. destruct Hin as [<-|[<-|[<-|[<-|[<-|[<-|[]]]]]]].
  - etrans; [apply (G []); [constructor|not_in]|cbn; subst; ring].
  - etrans; [apply (G [(x0, i0)]); [repeat constructor; assumption|not_in]|cbn; subst; ring].
  - etrans; [apply (G [(x0, i0); (x1 - x0, i1)]); [repeat constructor; assumption|not_in]|cbn; subst; ring].
  - etrans; [apply (G [(x0, i0); (x1 - x0, i1); (x2 - x1, i2)]); [repeat constructor; assumption|not_in]|cbn; subst; ring].
  - etrans; [apply (G [(x0, i0); (x1 - x0, i1); (x2 - x1, i2); (x3 - x2, i3)]); [repeat constructor; assumption|not_in]|cbn; subst; ring].
  - etrans; [apply (G [(x0, i0); (x1 - x0, i1); (x2 - x1, i2); (x3 - x2, i3); (x4 - x3, i4)]); [repeat constructor; assumption|not_in]|cbn; subst; ring].
Qed.

Lemma emit_calc_row D ops : bytes D → length D = 6%nat → (length ops + 7 <= LED_OP_COUNT)%nat → row_periods D ≠ [] →
  emit_row (calc_row D) ops = Some (ops ++ encode LED_OP_ROW_INC (row_periods D)).
Proof. unfold row_periods. intros Hb Hl Ho Hne. apply emit_row_spec; [by apply calc_row_spec|done|done]. Qed.

(** ** The schedule *)

(** The brightness values of row [i]. *)
Definition row_pwm (pwm : list Z) (i : nat) : list Z := (λ k, pwm !!! k) <$> take LED_COL_SIZE (drop (LED_COL_SIZE * i) led_lut).

Lemma row_pwm_ok pwm i : bytes pwm → (24 <= length pwm)%nat → (i < 4)%nat → bytes (row_pwm pwm i) ∧ length (row_pwm pwm i) = 6%nat.
Proof.
  intros Hb Hl Hi.
  assert (G : ∀ k, (k < 24)%nat → is_u8 (pwm !!! k)).
  { intros k Hk. destruct (lookup_lt_is_Some_2 pwm k) as [x Hx]; [lia|]. rewrite (list_lookup_total_correct _ _ _ Hx).
    by eapply Forall_lookup_1 in Hb. }
  do 4 (destruct i as [|i]; [split; [repeat (constructor; [apply G; lia|]); constructor|done]|]). lia.
Qed.

Lemma encode_length f l : length (encode f l) = length l.
Proof. induction l as [|[a c] l IH]; [done|]. cbn [encode]. destruct l; cbn [length] in *; [done|]. by rewrite IH. Qed.

Lemma or_last_encode f l ops : l ≠ [] → or_last LED_OP_LOOP (ops ++ encode f l) = Some (ops ++ encode (Z.lor f LED_OP_LOOP) l).
Proof.
  intros Hl. destruct l as [|[a c] l _] using rev_ind; [done|].
  assert (E : l = op_pair <$> ((λ p, mk_op p.1 p.2) <$> l)).
  { rewrite <- list_fmap_compose. symmetry. rewrite <- (list_fmap_id l) at 2. apply list_fmap_ext. by intros ? [] ?. }
  rewrite E, !encode_snoc. unfold or_last. rewrite (assoc_L (++)), last_snoc. cbn [mbind option_bind o_arr o_op].
  rewrite removelast_last, Z.lor_assoc. by rewrite (assoc_L (++)).
Qed.

(** The rows one after the other; the last one carries LOOP. *)
Definition schedule_of (l0 l1 l2 l3 : list (Z * Z)) : list led_op :=
  encode LED_OP_ROW_INC l0 ++ encode LED_OP_ROW_INC l1 ++ encode LED_OP_ROW_INC l2 ++ encode (Z.lor LED_OP_ROW_INC LED_OP_LOOP) l3.

Lemma emit_rows_spec Ds : ∀ ops, Forall (λ D, bytes D ∧ length D = 6%nat) Ds → (length ops + 7 * length Ds <= LED_OP_COUNT)%nat →
  emit_rows (calc_row <$> Ds) ops = Some (ops ++ concat ((λ D, encode LED_OP_ROW_INC (row_periods D)) <$> Ds)).
Proof.
  induction Ds as [|D Ds IH]; intros ops HD Hl; [cbn; by rewrite app_nil_r|].
  apply Forall_cons in HD as [[Hb H6] HD]. rewrite !fmap_cons. cbn [emit_rows concat length] in *.
  destruct (row_periods_ok D Hb H6) as (Hne & _ & Hlen & _).
  rewrite emit_calc_row by (done || lia). cbn [mbind option_bind]. rewrite IH; [by rewrite (assoc_L (++))|done|].
  rewrite length_app, encode_length. lia.
Qed.

Lemma calc_rows_eq pwm : calc_rows pwm = calc_row <$> (row_pwm pwm <$> seq 0 LED_ROW_SIZE).
Proof. unfold calc_rows. rewrite <- !list_fmap_compose. reflexivity. Qed.

Lemma led_schedule_spec pwm : bytes pwm → (24 <= length pwm)%nat →
  led_schedule pwm = Some (schedule_of (row_periods (row_pwm pwm 0)) (row_periods (row_pwm pwm 1))
                             (row_periods (row_pwm pwm 2)) (row_periods (row_pwm pwm 3))).
Proof.
  intros Hb Hl. pose proof (λ i, row_pwm_ok pwm i Hb Hl) as Hok.
  unfold led_schedule. rewrite calc_rows_eq, emit_rows_spec.
  - cbn [seq fmap list_fmap concat mbind option_bind]. generalize dependent (row_pwm pwm). intros f Hok.
    destruct (Hok 3%nat) as [Hb3 Hl3]; [lia|]. destruct (row_periods_ok _ Hb3 Hl3) as (Hne & _).
    rewrite !app_nil_r, app_nil_l, !(assoc_L (++)), or_last_encode by done. unfold schedule_of. by rewrite !(assoc_L (++)).
  - apply Forall_fmap, Forall_seq. intros i Hi. apply Hok. lia.
  - rewrite length_fmap, length_seq. cbn. lia.
Qed.
