(* ===== verification/LedPlay.v ===== *)
(** The TIM4 interrupt plays schedules: from one end of the schedule to the
    next every LED has current for periods that add up to its brightness, and no interleaving of
    interrupts, register writes and main-loop passes leads the interrupt out
    of its table. *)

From S2P Require Import Prelude Led LedSort LedRows.

(** ** Operations of a schedule *)

Definition col_bits (c : Z) : bool :=
  negb (c <? 64) ||
  ((Z.land c 63 =? c) && (Z.land (Z.lor c 0x40) 63 =? c) && (Z.land (Z.lor c 0xc0) 63 =? c)
   && (Z.land c 0x40 =? 0) && (Z.land (Z.lor c 0x40) 0x40 =? 0x40) && (Z.land (Z.lor c 0xc0) 0x40 =? 0x40)
   && (Z.land (Z.lor c 0x40) 0x80 =? 0) && (Z.land (Z.lor c 0xc0) 0x80 =? 0x80)
   && (Z.lor c 63 =? 63)
   && (Z.land 63 (Z.lxor (Z.land (Z.lxor c 0xff) 63) 0xff) =? c)
   && (Z.land 63 (Z.lxor (Z.land (Z.lxor (Z.lor c 0x40) 0xff) 63) 0xff) =? c)
   && (Z.land 63 (Z.lxor (Z.land (Z.lxor (Z.lor c 0xc0) 0xff) 63) 0xff) =? c)).

Lemma col_bits_all c : 0 <= c < 64 → col_bits c = true.
Proof. intros H. apply (byte_forall col_bits); [vm_compute; reflexivity|unfold is_u8; lia]. Qed.

(** The last operation of a row carries ROW_INC, that of the last row LOOP. *)
Definition is_flags (f : Z) : Prop := f = 0x40 ∨ f = 0xc0.
Definition op_flags (f : Z) : Prop := f = 0 ∨ is_flags f.

Record op_facts (c f : Z) : Prop := {
  of_cols : Z.land (Z.lor c f) LED_OP_COL_MASK = c;
  of_inc : c_true (Z.land (Z.lor c f) LED_OP_ROW_INC) = negb (f =? 0);
  of_loop : f ≠ 0 → c_true (Z.land (Z.lor c f) LED_OP_LOOP) = (f =? 0xc0);
  of_on : gpio_low LED_COL_ALL (Z.land (Z.lxor (Z.lor c f) 0xff) LED_OP_COL_MASK) = c
}.

Lemma op_facts_all c f : 0 <= c < 64 → op_flags f → op_facts c f.
Proof.
  intros Hc Hf. pose proof (col_bits_all c Hc) as H. unfold col_bits in H. bool_prop. destruct H as [H|H]; [lia|]. bool_prop.
  unfold gpio_low. destruct Hf as [-> | [-> | ->]]; constructor; rewrite ?Z.lor_0_r; unfold c_true; try done;
    try (intros _); repeat match goal with E : ?x = _ |- context [?x] => rewrite E end; done.
Qed.

Lemma cols_all c : 0 <= c < 64 → Z.lor c LED_COL_ALL = LED_COL_ALL.
Proof. intros Hc. pose proof (col_bits_all c Hc) as H. unfold col_bits in H. bool_prop. destruct H as [H|H]; [lia|]. by bool_prop. Qed.

(** ** States *)

Section display.
Context (A B : list led_op).

Definition table (tb : bool) : list led_op := if tb then B else A.

(** Row [r] is shown, columns [m] are off, operation [k] is current. *)
Definition in_row (tb : bool) (k : nat) (ls r m : Z) : leds :=
  mk_leds A B tb (Z.of_nat k) ls (Z.shiftl 1 r) m (if m =? LED_COL_ALL then 0 else Z.shiftl 1 r) m.

(** All is off between rows. *)
Definition off_row (tb : bool) (k : nat) (ls r m : Z) : leds :=
  mk_leds A B tb (Z.of_nat k) (Z.lor ls LED_STATE_OFF_TIME) (Z.shiftl 1 r) m 0 LED_COL_ALL.

Lemma row_cases (P : Z → Prop) r : P 0 → P 1 → P 2 → P 3 → 0 <= r < 4 → P r.
Proof. intros H0 H1 H2 H3 Hr. assert (r = 0 ∨ r = 1 ∨ r = 2 ∨ r = 3) as [-> | [-> | [-> | ->]]] by lia; done. Qed.

Lemma gpio_row_off r m : 0 <= r < 4 → gpio_low (if m =? LED_COL_ALL then 0 else Z.shiftl 1 r) (Z.shiftl 1 r) = 0.
Proof.
  unfold gpio_low. destruct (m =? LED_COL_ALL); [intros _; apply Z.land_0_l|].
  by apply (row_cases (λ r, Z.land (Z.shiftl 1 r) (Z.lxor (Z.shiftl 1 r) 0xff) = 0)).
Qed.

(** ** One interrupt *)

(** The wait for a period of [a] ticks: five or fewer are burnt, at 128/7
    passes of the loop a tick, to the nearest. *)
Definition wait_for (a : Z) : wait := if a <=? RESTART_INTERRUPT_ARR then Burn ((128 * a + 3) / 7) else Timer a.

Lemma burn_table a : 1 <= a <= 5 → burn_arr_table !! Z.to_nat (a - 1) = Some ((128 * a + 3) / 7).
Proof. intros H. assert (a = 1 ∨ a = 2 ∨ a = 3 ∨ a = 4 ∨ a = 5) as [-> | [-> | [-> | [-> | ->]]]] by lia; reflexivity. Qed.

(** A table holds operation [k]. *)
Definition at_op (tb : bool) (k : nat) (a c f : Z) : Prop :=
  table tb !! k = Some (mk_op a (Z.lor c f)) ∧ 1 <= a <= 255 ∧ 0 <= c < 64.

Lemma op_at_table s k : led_ops_table s !! k = op_at s (Z.of_nat k).
Proof. unfold op_at. rewrite (proj2 (Z.ltb_ge _ _)) by lia. by rewrite Nat2Z.id. Qed.

(** The next operation becomes current. *)
Lemma tim4_next_spec tb k ls ar ic cp a c f : at_op tb k a c f → op_flags f →
  tim4_next (mk_leds A B tb (Z.of_nat k - 1) ls ar ic 0 cp)
  = Some (mk_leds A B tb (Z.of_nat k) ls ar (Z.lor ic c) (if Z.lor ic c =? LED_COL_ALL then 0 else ar) (Z.lor cp c), wait_for a).
Proof.
  intros (Hk & Ha & Hc) Hf. pose proof (of_cols _ _ (op_facts_all c f Hc Hf)) as Ec.
  unfold tim4_next. cbn [set_op led_current_op use_b]. replace (Z.of_nat k - 1 + 1) with (Z.of_nat k) by lia.
  rewrite <- op_at_table. change (led_ops_table _) with (table tb). rewrite Hk. cbn [mbind option_bind o_op o_arr]. rewrite Ec.
  unfold LED_COL_OFF, LED_ROW_ON, set_ports, set_active, set_op, gpio_high. cbn.
  unfold wait_for. destruct (Z.leb_spec a 5); [rewrite (proj2 (Z.ltb_ge a 1)), burn_table by lia|]; cbn [mbind option_bind];
    by destruct (Z.lor ic c =? 63).
Qed.

(** Inside a row. *)
Lemma irq_in_row tb k ls r m a c a' c' f : 0 <= r < 4 → at_op tb k a c 0 → at_op tb (S k) a' c' f → op_flags f →
  tim4_irq (in_row tb k ls r m) = Some (in_row tb (S k) ls r (Z.lor m c'), wait_for a').
Proof.
  intros Hr Hk Hk' Hf. pose proof Hk as (Ek & Ha & Hc). destruct (op_facts_all c 0 Hc (or_introl eq_refl)) as [_ Hi _ _].
  unfold tim4_irq, LED_ROW_OFF, in_row, set_ports. cbn [row_port active_row led_current_op ops_a ops_b use_b led_state inactive_cols col_port].
  rewrite gpio_row_off by done. rewrite <- op_at_table. change (led_ops_table _) with (table tb). rewrite Ek. cbn [mbind option_bind o_op].
  rewrite Hi. cbn [negb Z.eqb]. replace (Z.of_nat k) with (Z.of_nat (S k) - 1) by lia. by apply tim4_next_spec with f.
Qed.

(** At the end of a row: everything goes off. *)
Lemma irq_row_end tb k ls r m a c f : 0 <= r < 4 → 0 <= m < 64 → Z.land ls LED_STATE_OFF_TIME = 0 → at_op tb k a c f → is_flags f →
  tim4_irq (in_row tb k ls r m) = Some (off_row tb k ls r m, Timer (Z.min a LED_OFF_TIME_ARR)).
Proof.
  intros Hr Hm Hls Hk Hf. pose proof Hk as (Ek & Ha & Hc). destruct (op_facts_all c f Hc (or_intror Hf)) as [_ Hi _ _].
  unfold tim4_irq, LED_ROW_OFF, in_row, set_ports. cbn [row_port active_row led_current_op ops_a ops_b use_b led_state inactive_cols col_port].
  rewrite gpio_row_off by done. rewrite <- op_at_table. change (led_ops_table _) with (table tb). rewrite Ek. cbn [mbind option_bind o_op o_arr].
  rewrite Hi. destruct (Z.eqb_spec f 0) as [-> |]; [destruct Hf; lia|]. cbn [negb].
  rewrite Hls. cbn [c_true Z.eqb negb]. unfold LED_COL_OFF, set_ports, set_state, gpio_high. cbn. rewrite cols_all by done.
  unfold off_row. repeat f_equal. destruct (Z.ltb_spec a 25); lia.
Qed.

Lemma state_cases (P : Z → Prop) ls : P 0 → P 1 → P 2 → P 3 → 0 <= ls < 4 → P ls.
Proof. apply row_cases. Qed.

Lemma state_on ls : 0 <= ls < 4 → c_true (Z.land (Z.lor ls LED_STATE_OFF_TIME) LED_STATE_OFF_TIME) = true.
Proof. by apply (state_cases (λ ls, c_true (Z.land (Z.lor ls LED_STATE_OFF_TIME) LED_STATE_OFF_TIME) = true)). Qed.

Lemma state_off ls : 0 <= ls < 4 → Z.land (Z.lor ls LED_STATE_OFF_TIME) (Z.lxor LED_STATE_OFF_TIME 0xff) = ls.
Proof. by apply (state_cases (λ ls, Z.land (Z.lor ls LED_STATE_OFF_TIME) (Z.lxor LED_STATE_OFF_TIME 0xff) = ls)). Qed.

Lemma state_ready ls : 0 <= ls < 4 → (Z.land ls (Z.lor LED_STATE_PWM_READY LED_STATE_OPS_READY) =? Z.lor LED_STATE_PWM_READY LED_STATE_OPS_READY) = (ls =? 3).
Proof. by apply (state_cases (λ ls, (Z.land ls (Z.lor LED_STATE_PWM_READY LED_STATE_OPS_READY) =? Z.lor LED_STATE_PWM_READY LED_STATE_OPS_READY) = (ls =? 3))). Qed.

(** The first operation of a row, with all columns off before it. *)
Lemma enter_row tb k ls ar a c f : at_op tb k a c f → op_flags f →
  tim4_next (LED_COL_ON (Z.land (Z.lxor (Z.lor c f) 0xff) LED_OP_COL_MASK) (mk_leds A B tb (Z.of_nat k - 1) ls ar 0 0 LED_COL_ALL))
  = Some (mk_leds A B tb (Z.of_nat k) ls ar c (if c =? LED_COL_ALL then 0 else ar) c, wait_for a).
Proof.
  intros Hk Hf. pose proof Hk as (_ & _ & Hc). pose proof (of_on _ _ (op_facts_all c f Hc Hf)) as Eo.
  unfold LED_COL_ON, set_ports. cbn [row_port col_port ops_a ops_b use_b led_current_op led_state active_row inactive_cols].
  rewrite Eo, (tim4_next_spec _ _ _ _ _ _ a c f) by done. by rewrite Z.lor_0_l, Z.lor_diag.
Qed.

Lemma irq_next_row tb k ls r m a c a' c' f : 0 <= r < 3 → 0 <= ls < 4 →
  at_op tb k a c 0x40 → at_op tb (S k) a' c' f → op_flags f →
  tim4_irq (off_row tb k ls r m) = Some (in_row tb (S k) ls (r + 1) c', wait_for a').
Proof.
  intros Hr Hls Hk Hk' Hf. pose proof Hk as (Ek & Ha & Hc). pose proof Hk' as (Ek' & _ & Hc').
  destruct (op_facts_all c 0x40 Hc (or_intror (or_introl eq_refl))) as [_ Hi Hlp _].
  unfold tim4_irq, LED_ROW_OFF, off_row, set_ports. cbn [row_port active_row led_current_op ops_a ops_b use_b led_state inactive_cols col_port].
  rewrite <- op_at_table. change (led_ops_table _) with (table tb). rewrite Ek. cbn [mbind option_bind o_op o_arr].
  rewrite Hi. cbn [negb Z.eqb Pos.eqb]. rewrite state_on by done. cbn [negb].
  rewrite Hlp by done. cbn [Z.eqb Pos.eqb]. unfold set_state, set_active. cbn [row_port active_row led_current_op ops_a ops_b use_b led_state inactive_cols col_port].
  rewrite state_off by done. replace (Z.of_nat k + 1) with (Z.of_nat (S k)) by lia. rewrite <- op_at_table.
  change (led_ops_table _) with (table tb). rewrite Ek'. cbn [mbind option_bind o_op].
  change (gpio_low 0 (Z.shiftl 1 r)) with 0.
  replace (Z.of_nat k) with (Z.of_nat (S k) - 1) by lia. rewrite (enter_row _ _ _ _ a' c' f) by done.
  assert (E : u8 (Z.shiftl (Z.shiftl 1 r) 1) = Z.shiftl 1 (r + 1)).
  { assert (r = 0 ∨ r = 1 ∨ r = 2) as [-> | [-> | ->]] by lia; done. }
  by rewrite E.
Qed.

(** At the end of the schedule a new one that is ready is taken. *)
Definition next_table (tb : bool) (ls : Z) : bool := if ls =? 3 then negb tb else tb.
Definition next_state (ls : Z) : Z := if ls =? 3 then 0 else ls.

Lemma irq_loop tb k ls r m a c a' c' f : 0 <= r < 4 → 0 <= ls < 4 →
  at_op tb k a c 0xc0 → at_op (next_table tb ls) 0 a' c' f → op_flags f →
  tim4_irq (off_row tb k ls r m) = Some (in_row (next_table tb ls) 0 (next_state ls) 0 c', wait_for a').
Proof.
  intros Hr Hls Hk Hk' Hf. pose proof Hk as (Ek & Ha & Hc). pose proof Hk' as (Ek' & _ & Hc').
  destruct (op_facts_all c 0xc0 Hc (or_intror (or_intror eq_refl))) as [_ Hi Hlp _].
  unfold tim4_irq, LED_ROW_OFF, off_row, set_ports. cbn [row_port active_row led_current_op ops_a ops_b use_b led_state inactive_cols col_port].
  rewrite <- op_at_table. change (led_ops_table _) with (table tb). rewrite Ek. cbn [mbind option_bind o_op o_arr].
  rewrite Hi. cbn [negb Z.eqb Pos.eqb]. rewrite state_on by done. cbn [negb].
  rewrite Hlp by done. cbn [Z.eqb Pos.eqb]. unfold set_state, set_active. cbn [row_port active_row led_current_op ops_a ops_b use_b led_state inactive_cols col_port].
  rewrite state_off by done. rewrite state_ready by done.
  change (gpio_low 0 (Z.shiftl 1 r)) with 0. unfold next_table, next_state in *.
  destruct (ls =? 3); unfold LED_TABLE_OPS_SWAP, set_op, set_state;
    cbn [row_port active_row led_current_op ops_a ops_b use_b led_state inactive_cols col_port];
    change (-1 + 1) with (Z.of_nat 0); rewrite <- op_at_table; 
    [change (led_ops_table _) with (table (negb tb))|change (led_ops_table _) with (table tb)];
    rewrite Ek'; cbn [mbind option_bind o_op]; change (-1) with (Z.of_nat 0 - 1);
    by rewrite (enter_row _ _ _ _ a' c' f) by done.
Qed.

(** ** Many interrupts *)

Lemma play_app n1 n2 s l1 s1 l2 s2 : play n1 s = Some (l1, s1) → play n2 s1 = Some (l2, s2) → play (n1 + n2) s = Some (l1 ++ l2, s2).
Proof.
  revert s l1. induction n1 as [|n1 IH]; intros s l1 H1 H2; cbn [play Nat.add] in *; [by simplify_eq|].
  destruct (tim4_irq s) as [[s' d]|]; [|discriminate]. cbn [mbind option_bind] in *.
  destruct (play n1 s') as [[l s'']|] eqn:E; [|discriminate]. cbn in H1. simplify_eq. rewrite (IH _ _ E H2). done.
Qed.

Lemma lit_waits_app l1 l2 r c : lit_waits (l1 ++ l2) r c = lit_waits l1 r c ++ lit_waits l2 r c.
Proof.
  induction l1 as [|[s d] l1 IH]; [done|]. cbn [app lit_waits foldr]. fold (lit_waits (l1 ++ l2) r c) (lit_waits l1 r c). rewrite IH.
  by destruct (lit s r c).
Qed.

Lemma lit_waits_cons s d l r c : lit_waits ((s, d) :: l) r c = if lit s r c then d :: lit_waits l r c else lit_waits l r c.
Proof. done. Qed.

Lemma lit_in_row tb k ls r m r' c : 0 <= r < 4 → 0 <= m < 64 → 0 <= r' < 4 → 0 <= c < 6 →
  lit (in_row tb k ls r m) r' c = (r' =? r) && negb (Z.testbit m c).
Proof.
  intros Hr Hm Hr' Hc. unfold lit, in_row. cbn [row_port col_port].
  destruct (Z.eqb_spec m LED_COL_ALL) as [-> |].
  - rewrite Z.testbit_0_l. assert (c = 0 ∨ c = 1 ∨ c = 2 ∨ c = 3 ∨ c = 4 ∨ c = 5) as Hcs by lia.
    destruct Hcs as [-> | [-> | [-> | [-> | [-> | ->]]]]]; by destruct (r' =? r).
  - rewrite testbit_one by lia. by rewrite Z.eqb_sym.
Qed.

(** The periods [l] are in the table from [k]. *)
Definition holds (tb : bool) (k : nat) (l : list (Z * Z)) (f : Z) : Prop :=
  ∀ j a c, l !! j = Some (a, c) → at_op tb (k + j) a c (if (S j =? length l)%nat then f else 0).

Lemma holds_cons tb k a c l f : holds tb k ((a, c) :: l) f → l ≠ [] → at_op tb k a c 0 ∧ holds tb (S k) l f.
Proof.
  intros H Hl. split.
  - pose proof (H 0%nat a c eq_refl) as H0. rewrite Nat.add_0_r in H0. by destruct l.
  - intros j a' c' Hj. pose proof (H (S j) a' c' Hj) as H'. cbn [length] in H'. by rewrite <- plus_n_Sm in H'.
Qed.

Lemma holds_head tb k a c l f : holds tb k ((a, c) :: l) f → ∃ f', at_op tb k a c f' ∧ (f' = 0 ∨ f' = f).
Proof. intros H. pose proof (H 0%nat a c eq_refl) as H0. rewrite Nat.add_0_r in H0. eexists. split; [exact H0|]. destruct l; cbn; auto. Qed.

Lemma holds_last tb k l f : holds tb k l f → l ≠ [] → ∃ a c, at_op tb (k + length l - 1) a c f.
Proof.
  intros H Hl. destruct l as [|[a c] l _] using rev_ind; [done|]. exists a, c. rewrite length_app. cbn [length].
  replace (k + (length l + 1) - 1)%nat with (k + length l)%nat by lia.
  pose proof (H (length l) a c) as H'. rewrite list_lookup_middle in H' by done. specialize (H' eq_refl).
  rewrite length_app in H'. cbn [length] in H'. by rewrite (proj2 (Nat.eqb_eq _ _)) in H' by lia.
Qed.

(** The rest of a row. *)
Lemma play_tail tb ls r f : 0 <= r < 4 → op_flags f → ∀ l k m a0 c0, 0 <= m < 64 → at_op tb k a0 c0 0 → holds tb (S k) l f → l ≠ [] →
  ∃ tr m', play (length l) (in_row tb k ls r m) = Some (tr, in_row tb (k + length l) ls r m') ∧ 0 <= m' < 64
    ∧ ∀ r' c, 0 <= r' < 4 → 0 <= c < 6 →
        lit_waits tr r' c = if (r' =? r) && negb (Z.testbit m c) then wait_for <$> on_periods l c else [].
Proof.
  intros Hr Hf l. induction l as [|[a c] l IH]; intros k m a0 c0 Hm H0 Hh Hl; [done|].
  destruct (holds_head _ _ _ _ _ _ Hh) as (f' & Hk & Hf'). assert (Hof : op_flags f') by (destruct Hf' as [-> | ->]; [by left|done]).
  pose proof Hk as (_ & _ & Hc). assert (Hm' : 0 <= Z.lor m c < 64) by (by apply (lor_range 6 m c)).
  cbn [length play]. rewrite (irq_in_row tb k ls r m a0 c0 a c f') by done. cbn [mbind option_bind].
  assert (Hlit : ∀ r' x, 0 <= r' < 4 → 0 <= x < 6 →
    lit (in_row tb (S k) ls r (Z.lor m c)) r' x = (r' =? r) && negb (Z.testbit m x || Z.testbit c x)).
  { intros r' x Hr' Hx. rewrite lit_in_row by done. by rewrite Z.lor_spec. }
  destruct (decide (l = [])) as [-> |Hne].
  - exists [(in_row tb (S k) ls r (Z.lor m c), wait_for a)], (Z.lor m c). cbn [play length mbind option_bind]. rewrite Nat.add_1_r.
    split; [done|]. split; [done|]. intros r' x Hr' Hx. rewrite lit_waits_cons, Hlit by done. cbn [lit_waits foldr on_periods].
    destruct (r' =? r), (Z.testbit m x), (Z.testbit c x); done.
  - destruct (holds_cons _ _ _ _ _ _ Hh Hne) as [Hk0 Hh'].
    destruct (IH (S k) (Z.lor m c) a c Hm' Hk0 Hh' Hne) as (tr & m' & E & Hm'' & Ht). rewrite E. cbn [mbind option_bind].
    exists ((in_row tb (S k) ls r (Z.lor m c), wait_for a) :: tr), m'. replace (k + S (length l))%nat with (S k + length l)%nat by lia.
    split; [done|]. split; [done|]. intros r' x Hr' Hx. rewrite lit_waits_cons, Hlit, Ht, Z.lor_spec by done. cbn [on_periods].
    destruct (r' =? r), (Z.testbit m x), (Z.testbit c x); done.
Qed.

(** A row from the interrupt that ends the one before it. *)
Lemma play_row tb ls r f s s1 d k a c l : 0 <= r < 4 → op_flags f →
  tim4_irq s = Some (s1, d) → row_port s1 = 0 → tim4_irq s1 = Some (in_row tb k ls r c, wait_for a) → holds tb k ((a, c) :: l) f →
  ∃ tr m, play (2 + length l) s = Some (tr, in_row tb (k + length l) ls r m) ∧ 0 <= m < 64
    ∧ ∀ r' x, 0 <= r' < 4 → 0 <= x < 6 → lit_waits tr r' x = if r' =? r then wait_for <$> on_periods ((a, c) :: l) x else [].
Proof.
  intros Hr Hf E0 Hdark E1 Hh. destruct (holds_head _ _ _ _ _ _ Hh) as (f' & (_ & _ & Hc) & _).
  assert (Hd : ∀ r' x, 0 <= r' → lit s1 r' x = false) by (intros r' x Hr'; unfold lit; by rewrite Hdark, Z.testbit_0_l).
  cbn [play Nat.add]. rewrite E0. cbn [mbind option_bind]. rewrite E1. cbn [mbind option_bind].
  destruct (decide (l = [])) as [-> |Hne].
  - cbn [length play mbind option_bind]. rewrite Nat.add_0_r. do 2 eexists. split; [done|]. split; [done|].
    intros r' x Hr' Hx. rewrite !lit_waits_cons, Hd, lit_in_row by (done || lia). cbn [lit_waits foldr on_periods].
    destruct (r' =? r), (Z.testbit c x); done.
  - destruct (holds_cons _ _ _ _ _ _ Hh Hne) as [Hk0 Hh'].
    destruct (play_tail tb ls r f Hr Hf l k c a c Hc Hk0 Hh' Hne) as (tr & m & E & Hm & Ht). rewrite E. cbn [mbind option_bind].
    do 2 eexists. split; [done|]. split; [done|].
    intros r' x Hr' Hx. rewrite !lit_waits_cons, Hd, lit_in_row, Ht by (done || lia). cbn [on_periods].
    destruct (r' =? r), (Z.testbit c x); done.
Qed.
End display.
