(* ===== verification/LedProps.v ===== *)
(** The display as a whole: a brightness table that arrives is shown,
    and the timer interrupt stays inside its tables for every interleaving of
    register writes, main-loop passes and interrupts. *)

From S2P Require Import Prelude Led LedSort LedRows LedPlay.

(** ** Schedules in a table *)

Lemma encode_lookup f l j : encode f l !! j = (λ p, mk_op p.1 (Z.lor p.2 (if (S j =? length l)%nat then f else 0))) <$> l !! j.
Proof.
  revert j. induction l as [|[a c] l IH]; intros j; [done|]. destruct l as [|p l].
  - destruct j as [|j]; done.
  - change (encode f ((a, c) :: p :: l)) with (mk_op a c :: encode f (p :: l)).
    destruct j as [|j]; [cbn; by rewrite Z.lor_0_r|]. cbn [lookup list_lookup]. rewrite IH. done.
Qed.

Lemma holds_encode A B tb pre l f post : table A B tb = pre ++ encode f l ++ post → Forall ok_period l → holds A B tb (length pre) l f.
Proof.
  intros E Hok j a c Hj. pose proof (Forall_lookup_1 _ _ _ _ Hok Hj) as [Ha Hc]. cbn in Ha, Hc. split; [|done].
  rewrite E, lookup_app_r, lookup_app_l by (rewrite ?encode_length; apply lookup_lt_Some in Hj; lia).
  replace (length pre + j - length pre)%nat with j by lia. rewrite encode_lookup, Hj. done.
Qed.

(** The four rows of a schedule. *)
Lemma holds_schedule A B tb l0 l1 l2 l3 rest : table A B tb = schedule_of l0 l1 l2 l3 ++ rest →
  ok_row l0 → ok_row l1 → ok_row l2 → ok_row l3 →
  holds A B tb 0 l0 0x40 ∧ holds A B tb (length l0) l1 0x40 ∧ holds A B tb (length l0 + length l1) l2 0x40
  ∧ holds A B tb (length l0 + length l1 + length l2) l3 0xc0.
Proof.
  unfold schedule_of. intros E (_ & K0 & _) (_ & K1 & _) (_ & K2 & _) (_ & K3 & _).
  rewrite <- !(assoc_L (++)) in E.
  split; [|split; [|split]].
  - by apply (holds_encode A B tb [] l0 0x40) in E.
  - rewrite <- (encode_length 0x40 l0). by eapply holds_encode.
  - rewrite <- (encode_length 0x40 l0), <- (encode_length 0x40 l1), <- length_app. eapply holds_encode; [|done].
    rewrite E. by rewrite <- !(assoc_L (++)).
  - rewrite <- (encode_length 0x40 l0), <- (encode_length 0x40 l1), <- (encode_length 0x40 l2), <- !length_app. eapply holds_encode; [|done].
    rewrite E. by rewrite <- !(assoc_L (++)).
Qed.

(** ** A frame *)

Lemma holds_cons_inv (l : list (Z * Z)) : l ≠ [] → ∃ a c l', l = (a, c) :: l'.
Proof. destruct l as [|[a c] l']; [done|]. by exists a, c, l'. Qed.

(** From the end of a row that is not the last to the end of the next one. *)
Lemma play_next_row A B tb ls r m k a c l f : 0 <= r < 3 → 0 <= m < 64 → 0 <= ls < 4 → l ≠ [] → is_flags f →
  at_op A B tb k a c 0x40 → holds A B tb (S k) l f →
  ∃ tr m', play (1 + length l) (in_row A B tb k ls r m) = Some (tr, in_row A B tb (k + length l) ls (r + 1) m') ∧ 0 <= m' < 64
    ∧ ∀ r' x, 0 <= r' < 4 → 0 <= x < 6 → lit_waits tr r' x = if r' =? r + 1 then wait_for <$> on_periods l x else [].
Proof.
  intros Hr Hm Hls Hl Hf Hk Hh. destruct (holds_cons_inv l Hl) as (a' & c' & l' & ->).
  destruct (holds_head _ _ _ _ _ _ _ _ Hh) as (f' & Hk' & Hf').
  assert (Hof : op_flags f') by (destruct Hf' as [-> | ->]; [by left|by right]).
  destruct (play_row A B tb ls (r + 1) f (in_row A B tb k ls r m) (off_row A B tb k ls r m) (Timer (Z.min a LED_OFF_TIME_ARR)) (S k) a' c' l')
    as (tr & m' & E & Hm' & Ht); [lia|by right| |done| |done|].
  - apply (irq_row_end A B tb k ls r m a c 0x40); [lia|done| |done|by left].
    by apply (state_cases (λ ls, Z.land ls LED_STATE_OFF_TIME = 0)).
  - by apply (irq_next_row A B tb k ls r m a c a' c' f').
  - exists tr, m'. cbn [length]. replace (k + S (length l'))%nat with (S k + length l')%nat by lia. done.
Qed.

(** From the end of the schedule to the end of the first row. *)
Lemma play_first_row A B tb ls r m k a c l : 0 <= r < 4 → 0 <= m < 64 → 0 <= ls < 4 → l ≠ [] →
  at_op A B tb k a c 0xc0 → holds A B (next_table tb ls) 0 l 0x40 →
  ∃ tr m', play (1 + length l) (in_row A B tb k ls r m)
      = Some (tr, in_row A B (next_table tb ls) (length l - 1) (next_state ls) 0 m') ∧ 0 <= m' < 64
    ∧ ∀ r' x, 0 <= r' < 4 → 0 <= x < 6 → lit_waits tr r' x = if r' =? 0 then wait_for <$> on_periods l x else [].
Proof.
  intros Hr Hm Hls Hl Hk Hh. destruct (holds_cons_inv l Hl) as (a' & c' & l' & ->).
  destruct (holds_head _ _ _ _ _ _ _ _ Hh) as (f' & Hk' & Hf').
  assert (Hof : op_flags f') by (destruct Hf' as [-> | ->]; [by left|right; by left]).
  destruct (play_row A B (next_table tb ls) (next_state ls) 0 0x40 (in_row A B tb k ls r m) (off_row A B tb k ls r m)
      (Timer (Z.min a LED_OFF_TIME_ARR)) 0 a' c' l') as (tr & m' & E & Hm' & Ht); [lia|right; by left| |done| |done|].
  - apply (irq_row_end A B tb k ls r m a c 0xc0); [lia|done| |done|by right].
    by apply (state_cases (λ ls, Z.land ls LED_STATE_OFF_TIME = 0)).
  - by apply (irq_loop A B tb k ls r m a c a' c' f').
  - exists tr, m'. cbn [length]. rewrite Nat.sub_0_r || replace (S (length l') - 1)%nat with (0 + length l')%nat by lia. done.
Qed.

Lemma next_state_range ls : 0 <= ls < 4 → 0 <= next_state ls < 4.
Proof. unfold next_state. destruct (ls =? 3); lia. Qed.

(** A whole frame. *)
Lemma play_frame A B tb ls r m k a c l0 l1 l2 l3 rest :
  0 <= r < 4 → 0 <= m < 64 → 0 <= ls < 4 → at_op A B tb k a c 0xc0 →
  table A B (next_table tb ls) = schedule_of l0 l1 l2 l3 ++ rest → ok_row l0 → ok_row l1 → ok_row l2 → ok_row l3 →
  ∃ tr m', play (4 + length (schedule_of l0 l1 l2 l3)) (in_row A B tb k ls r m)
      = Some (tr, in_row A B (next_table tb ls) (length (schedule_of l0 l1 l2 l3) - 1) (next_state ls) 3 m') ∧ 0 <= m' < 64
    ∧ ∀ r' x, 0 <= r' < 4 → 0 <= x < 6 →
        lit_waits tr r' x = wait_for <$> on_periods (if r' =? 0 then l0 else if r' =? 1 then l1 else if r' =? 2 then l2 else l3) x.
Proof.
  intros Hr Hm Hls Hk ET O0 O1 O2 O3. destruct (holds_schedule _ _ _ _ _ _ _ _ ET O0 O1 O2 O3) as (H0 & H1 & H2 & H3).
  pose proof O0 as (N0 & _). pose proof O1 as (N1 & _). pose proof O2 as (N2 & _). pose proof O3 as (N3 & _).
  assert (L : ∀ l : list (Z * Z), l ≠ [] → (1 <= length l)%nat) by (intros [|? ?] ?; [done|cbn; lia]).
  pose proof (L _ N0). pose proof (L _ N1). pose proof (L _ N2). pose proof (L _ N3).
  pose proof (next_state_range ls Hls) as Hns.
  destruct (play_first_row A B tb ls r m k a c l0 Hr Hm Hls N0 Hk H0) as (t0 & m0 & E0 & R0 & T0).
  destruct (holds_last _ _ _ _ _ _ H0 N0) as (a0 & c0 & K0). cbn [Nat.add] in K0.
  set (tb' := next_table tb ls) in *. set (ls' := next_state ls) in *.
  destruct (play_next_row A B tb' ls' 0 m0 (length l0 - 1) a0 c0 l1 0x40) as (t1 & m1 & E1 & R1 & T1);
    [lia|done|done|done|by left|done|by replace (S (length l0 - 1)) with (length l0) by lia|].
  destruct (holds_last _ _ _ _ _ _ H1 N1) as (a1 & c1 & K1).
  destruct (play_next_row A B tb' ls' 1 m1 (length l0 + length l1 - 1) a1 c1 l2 0x40) as (t2 & m2 & E2 & R2 & T2);
    [lia|done|done|done|by left|done|by replace (S (length l0 + length l1 - 1)) with (length l0 + length l1)%nat by lia|].
  destruct (holds_last _ _ _ _ _ _ H2 N2) as (a2 & c2 & K2).
  destruct (play_next_row A B tb' ls' 2 m2 (length l0 + length l1 + length l2 - 1) a2 c2 l3 0xc0) as (t3 & m3 & E3 & R3 & T3);
    [lia|done|done|done|by right|done|by replace (S (length l0 + length l1 + length l2 - 1)) with (length l0 + length l1 + length l2)%nat by lia|].
  exists (t0 ++ t1 ++ t2 ++ t3), m3. split; [|split; [done|]].
  - unfold schedule_of. rewrite !length_app, !encode_length.
    replace (4 + (length l0 + (length l1 + (length l2 + length l3))))%nat
      with ((1 + length l0) + ((1 + length l1) + ((1 + length l2) + (1 + length l3))))%nat by lia.
    replace (length l0 - 1 + length l1)%nat with (length l0 + length l1 - 1)%nat in E1 by lia.
    replace (length l0 + length l1 - 1 + length l2)%nat with (length l0 + length l1 + length l2 - 1)%nat in E2 by lia.
    replace (length l0 + (length l1 + (length l2 + length l3)) - 1)%nat with (length l0 + length l1 + length l2 - 1 + length l3)%nat by lia.
    eapply play_app; [exact E0|]. eapply play_app; [exact E1|]. eapply play_app; [exact E2|exact E3].
  - intros r' x Hr' Hx. rewrite !lit_waits_app, T0, T1, T2, T3 by done. assert (r' = 0 ∨ r' = 1 ∨ r' = 2 ∨ r' = 3) as Hrs by lia.
    destruct Hrs as [-> | [-> | [-> | ->]]]; cbn [Z.eqb Pos.eqb Z.add Pos.add app]; by rewrite ?app_nil_r.
Qed.

(** ** From brightness to light *)

(** The last operation of the table that is shown has become current. *)
Definition frame_end (s : leds) : Prop :=
  ∃ k r m a c, s = in_row (ops_a s) (ops_b s) (use_b s) k (led_state s) r m
    ∧ 0 <= r < 4 ∧ 0 <= m < 64 ∧ 0 <= led_state s < 4 ∧ at_op (ops_a s) (ops_b s) (use_b s) k a c (Z.lor LED_OP_ROW_INC LED_OP_LOOP).

(** The LED at row [r] and column [c] belongs to this element of the PWM table. *)
Definition led_at (pwm : list Z) (r c : Z) : Z := pwm !!! (led_lut !!! Z.to_nat (6 * r + c)).

Lemma row_pwm_at pwm r c : 0 <= r < 4 → 0 <= c < 6 → row_pwm pwm (Z.to_nat r) !!! Z.to_nat c = led_at pwm r c.
Proof.
  intros Hr Hc. assert (r = 0 ∨ r = 1 ∨ r = 2 ∨ r = 3) as Hrs by lia.
  assert (c = 0 ∨ c = 1 ∨ c = 2 ∨ c = 3 ∨ c = 4 ∨ c = 5) as Hcs by lia.
  destruct Hrs as [-> | [-> | [-> | ->]]]; destruct Hcs as [-> | [-> | [-> | [-> | [-> | ->]]]]]; reflexivity.
Qed.

Lemma schedule_length l0 l1 l2 l3 : ok_row l0 → ok_row l1 → ok_row l2 → ok_row l3 →
  (1 <= length (schedule_of l0 l1 l2 l3) <= LED_OP_COUNT)%nat.
Proof.
  intros (N0 & _ & K0 & _) (_ & _ & K1 & _) (_ & _ & K2 & _) (_ & _ & K3 & _). unfold schedule_of.
  rewrite !length_app, !encode_length. destruct l0; [done|]. cbn [length] in *. lia.
Qed.

(** The schedule is stored in the table that is not shown. *)
Lemma led_update_spec s pwm l0 l1 l2 l3 : led_schedule pwm = Some (schedule_of l0 l1 l2 l3) →
  (length (schedule_of l0 l1 l2 l3) <= length (table (ops_a s) (ops_b s) (negb (use_b s))))%nat →
  ∃ A B rest, led_update_arr s pwm
      = Some (mk_leds A B (use_b s) (led_current_op s) (Z.lor (led_state s) LED_STATE_OPS_READY) (active_row s) (inactive_cols s) (row_port s) (col_port s))
    ∧ table A B (use_b s) = table (ops_a s) (ops_b s) (use_b s) ∧ table A B (negb (use_b s)) = schedule_of l0 l1 l2 l3 ++ rest
    ∧ length (table A B (negb (use_b s))) = length (table (ops_a s) (ops_b s) (negb (use_b s))).
Proof.
  intros E Hl. unfold led_update_arr. rewrite E. cbn [mbind option_bind].
  assert (G : ∀ T : list led_op, (length (schedule_of l0 l1 l2 l3) <= length T)%nat →
    list_inserts 0 (schedule_of l0 l1 l2 l3) T = schedule_of l0 l1 l2 l3 ++ drop (length (schedule_of l0 l1 l2 l3)) T).
  { intros T HT. rewrite <- (take_drop (length (schedule_of l0 l1 l2 l3)) T) at 1. apply list_inserts_0_r. rewrite length_take. lia. }
  destruct (use_b s); cbn [table negb] in *;
    [exists (list_inserts 0 (schedule_of l0 l1 l2 l3) (ops_a s)), (ops_b s)|exists (ops_a s), (list_inserts 0 (schedule_of l0 l1 l2 l3) (ops_b s))];
    eexists; (split; [reflexivity|]); (split; [done|]); (split; [by apply G|]); apply length_inserts.
Qed.

(** What the waits of a trace are to be for a brightness table: those of the LED
    at [r], [c] are for periods that add up to its value, and come before all
    others of an LED of the row that is at least as bright. *)
Definition shows (pwm : list Z) (tr : list (leds * wait)) : Prop :=
  ∀ r c, 0 <= r < 4 → 0 <= c < 6 →
    (∃ ps, lit_waits tr r c = wait_for <$> ps ∧ Forall (λ p, 1 <= p) ps ∧ total ps = led_at pwm r c) ∧
    ∀ c', 0 <= c' < 6 → led_at pwm r c <= led_at pwm r c' → lit_waits tr r c `prefix_of` lit_waits tr r c'.

Lemma shows_periods pwm tr : bytes pwm → (24 <= length pwm)%nat →
  (∀ r c, 0 <= r < 4 → 0 <= c < 6 → lit_waits tr r c = wait_for <$> on_periods (row_periods (row_pwm pwm (Z.to_nat r))) c) → shows pwm tr.
Proof.
  intros Hb Hl Ht r c Hr Hc. destruct (row_pwm_ok pwm (Z.to_nat r) Hb Hl) as [Hrb Hrl]; [lia|].
  set (l := row_periods (row_pwm pwm (Z.to_nat r))). destruct (row_periods_ok _ Hrb Hrl) as (_ & Hok & _). fold l in Hok.
  assert (Hpos : Forall (λ a, 1 <= a) l.*1) by (apply Forall_fmap; eapply Forall_impl; [exact Hok|]; intros [a o] [H _]; cbn in *; lia).
  assert (Hsum : ∀ x, 0 <= x < 6 → total (on_periods l x) = led_at pwm r x).
  { intros x Hx. rewrite on_periods_total. unfold l. by rewrite row_periods_on, row_pwm_at. }
  split.
  - exists (on_periods l c). split_and!; [by apply Ht| |by apply Hsum].
    destruct (on_periods_prefix l c) as [k Hk]. rewrite Hk in Hpos. by apply Forall_app in Hpos as [? _].
  - intros c' Hc' Hle. rewrite !Ht by done. fold l. destruct (prefix_total l.*1 Hpos (on_periods l c) (on_periods l c')) as [k ->];
      [apply on_periods_prefix..|by rewrite !Hsum|]. rewrite fmap_app. by apply prefix_app_r.
Qed.

(** C11.  A new brightness table is shown: at the end of a frame, with a PWM
    table received, the pass of the main loop computes the schedule, and the
    next run of the timer interrupt through it gives current to every LED
    during waits for periods that add up to its value, no LED of another row
    being on meanwhile; within a row the waits of a darker LED are the first
    ones of every brighter LED.  The wait for a period of up to five ticks is
    the busy loop with 128/7 passes a tick, to the nearest; for a longer one it
    is that period in the timer's ARR register.  The display is then again at
    the end of a frame, with the new table in use and nothing pending.  This is
    about the waits asked for; how long the timer makes each of them last is
    the timer's part (a period of ARR takes it ARR + 1 ticks). *)
Theorem pwm_shown s pwm :
  frame_end s → led_state s = LED_STATE_PWM_READY → length (ops_a s) = LED_OP_COUNT → length (ops_b s) = LED_OP_COUNT →
  bytes pwm → (LED_TOT_SIZE <= length pwm)%nat →
  ∃ s1 n tr s2, led_main s pwm = Some s1 ∧ play n s1 = Some (tr, s2) ∧ (n <= 32)%nat
    ∧ frame_end s2 ∧ use_b s2 = negb (use_b s) ∧ led_state s2 = 0
    ∧ shows pwm tr.
Proof.
  intros (k & r & m & a & c & Es & Hr & Hm & Hls & Hk) Hst HA HB Hb Hl.
  assert (Ef : led_current_op s = Z.of_nat k ∧ active_row s = Z.shiftl 1 r ∧ inactive_cols s = m
    ∧ row_port s = (if m =? LED_COL_ALL then 0 else Z.shiftl 1 r) ∧ col_port s = m) by (by rewrite Es).
  destruct Ef as (F1 & F2 & F3 & F4 & F5).
  pose proof (led_schedule_spec pwm Hb Hl) as Esch. pose proof (λ i, row_pwm_ok pwm i Hb Hl) as Hok.
  assert (O : ∀ i, (i < 4)%nat → ok_row (row_periods (row_pwm pwm i))) by (intros i Hi; destruct (Hok i Hi); by apply row_periods_ok).
  pose proof (schedule_length _ _ _ _ (O 0%nat ltac:(lia)) (O 1%nat ltac:(lia)) (O 2%nat ltac:(lia)) (O 3%nat ltac:(lia))) as Hlen.
  destruct (led_update_spec s pwm _ _ _ _ Esch) as (A & B & rest & Eu & ET & EN & _).
  { destruct (use_b s); cbn [table negb]; lia. }
  unfold led_main. rewrite Hst in *. cbn [Z.land Z.lor Z.eqb Pos.land Pos.lor Pos.eqb].
  assert (Hk' : at_op A B (use_b s) k a c 0xc0) by (unfold at_op in *; by rewrite ET).
  destruct (play_frame A B (use_b s) 3 r m k a c _ _ _ _ rest Hr Hm ltac:(lia) Hk' EN (O 0%nat ltac:(lia)) (O 1%nat ltac:(lia)) (O 2%nat ltac:(lia)) (O 3%nat ltac:(lia)))
    as (tr & m' & Ep & Hm' & Ht).
  rewrite F1, F2, F3, F4, F5 in Eu. eexists _, _, tr, _. split; [exact Eu|]. split; [exact Ep|].
  split; [lia|]. split; [|split; [done|split; [done|]]].
  - destruct (holds_schedule A B _ _ _ _ _ rest EN (O 0%nat ltac:(lia)) (O 1%nat ltac:(lia)) (O 2%nat ltac:(lia)) (O 3%nat ltac:(lia))) as (_ & _ & _ & H3).
    destruct (holds_last _ _ _ _ _ _ H3) as (a3 & c3 & K3); [apply (O 3%nat); lia|].
    eexists _, 3, m', a3, c3. split; [reflexivity|]. do 3 (split; [done || (cbn; lia)|]). cbn [ops_a ops_b use_b in_row].
    unfold schedule_of. rewrite !length_app, !encode_length, !(assoc_L Nat.add). exact K3.
  - apply shows_periods; [done|done|]. intros r' x Hr' Hx. rewrite Ht by done.
    assert (r' = 0 ∨ r' = 1 ∨ r' = 2 ∨ r' = 3) as Hrs by lia. by destruct Hrs as [-> | [-> | [-> | ->]]].
Qed.

(** The boot picture at its end, a PWM table received. *)
Definition splash_end : leds :=
  in_row (replicate LED_OP_COUNT (mk_op 0 0)) (splash ++ replicate (LED_OP_COUNT - 4) (mk_op 0 0)) true 3 LED_STATE_PWM_READY 3 0x19.

Lemma pwm_shown_witness :
  ∃ s1 n tr s2, led_main splash_end (seqZ 0 24) = Some s1 ∧ play n s1 = Some (tr, s2) ∧ (n <= 32)%nat
    ∧ frame_end s2 ∧ use_b s2 = negb (use_b splash_end) ∧ led_state s2 = 0
    ∧ shows (seqZ 0 24) tr.
Proof.
  apply (pwm_shown splash_end (seqZ 0 24)); [|reflexivity..| |rewrite length_seqZ; lia].
  - exists 3%nat, 3, 0x19, 255, 0x19. split; [reflexivity|]. do 3 (split; [cbn; lia|]). split; [reflexivity|lia].
  - apply Forall_forall. intros x Hx. apply elem_of_seqZ in Hx. unfold is_u8. lia.
Defined.

(** ** The interrupt stays in its table *)

(** The first [n] places form a schedule that ends with the jump back. *)
Definition valid_ops (T : list led_op) (n : nat) : Prop :=
  (1 <= n)%nat ∧ (∀ k, (k < n)%nat → ∃ o, T !! k = Some o ∧ 1 <= o_arr o)
  ∧ (∀ o, T !! (n - 1)%nat = Some o → c_true (Z.land (o_op o) LED_OP_ROW_INC) = true ∧ c_true (Z.land (o_op o) LED_OP_LOOP) = true).

Record leds_inv (s : leds) : Prop := {
  li_a : length (ops_a s) = LED_OP_COUNT;
  li_b : length (ops_b s) = LED_OP_COUNT;
  li_state : 0 <= led_state s < 8;
  li_cur : ∃ n, valid_ops (led_ops_table s) n ∧ 0 <= led_current_op s < Z.of_nat n;
  li_next : Z.testbit (led_state s) 1 = true → ∃ n, valid_ops (table (ops_a s) (ops_b s) (negb (use_b s))) n
}.

(** A register write, a pass of the main loop, the timer. *)
Inductive led_event := LPwm | LMain (pwm : list Z) | LTim4.

Definition led_step (s : leds) (ev : led_event) : option leds :=
  match ev with
  | LPwm => Some (set_state (Z.lor (led_state s) LED_STATE_PWM_READY) s)
  | LMain pwm => led_main s pwm
  | LTim4 => fst <$> tim4_irq s
  end.

Fixpoint led_run (s : leds) (evs : list led_event) : option leds :=
  match evs with [] => Some s | ev :: evs' => s ← led_step s ev; led_run s evs' end.

Definition led_event_ok (ev : led_event) : Prop :=
  match ev with LMain pwm => bytes pwm ∧ (LED_TOT_SIZE <= length pwm)%nat | _ => True end.

Lemma state8_cases (P : Z → Prop) v : P 0 → P 1 → P 2 → P 3 → P 4 → P 5 → P 6 → P 7 → 0 <= v < 8 → P v.
Proof.
  intros. assert (v = 0 ∨ v = 1 ∨ v = 2 ∨ v = 3 ∨ v = 4 ∨ v = 5 ∨ v = 6 ∨ v = 7) as Hv by lia.
  destruct Hv as [-> | [-> | [-> | [-> | [-> | [-> | [-> | ->]]]]]]]; done.
Qed.

Definition state_bits (v : Z) : bool :=
  (0 <=? Z.lor v 1) && (Z.lor v 1 <? 8) && (Z.lor v 2 <? 8) && (0 <=? Z.lor v 2) && (Z.lor v 4 <? 8) && (0 <=? Z.lor v 4)
  && (Z.land v (Z.lxor 4 0xff) <? 8) && (0 <=? Z.land v (Z.lxor 4 0xff))
  && eqb (Z.testbit (Z.lor v 1) 1) (Z.testbit v 1) && eqb (Z.testbit (Z.lor v 4) 1) (Z.testbit v 1)
  && eqb (Z.testbit (Z.land v (Z.lxor 4 0xff)) 1) (Z.testbit v 1)
  && implb (Z.land (Z.land v (Z.lxor 4 0xff)) (Z.lor 1 2) =? Z.lor 1 2) (Z.testbit v 1).

Lemma state_bits_all v : 0 <= v < 8 → state_bits v = true.
Proof. by apply (state8_cases (λ v, state_bits v = true)). Qed.

(** The current operation and the one after it. *)
Lemma valid_next T n k o : valid_ops T n → (k < n)%nat → T !! k = Some o →
  c_true (Z.land (o_op o) LED_OP_ROW_INC) = false ∨ c_true (Z.land (o_op o) LED_OP_LOOP) = false → (S k < n)%nat.
Proof.
  intros (Hn & Hall & Hlast) Hk Ho Hf. destruct (decide (S k = n)) as [<-|]; [|lia].
  destruct (Hlast o) as [H1 H2]; [by replace (S k - 1)%nat with k by lia|]. destruct Hf; congruence.
Qed.

Lemma next_ok s n : valid_ops (led_ops_table s) n → -1 <= led_current_op s → led_current_op s + 1 < Z.of_nat n →
  ∃ s' d, tim4_next s = Some (s', d) ∧ ops_a s' = ops_a s ∧ ops_b s' = ops_b s ∧ use_b s' = use_b s
    ∧ led_state s' = led_state s ∧ led_current_op s' = led_current_op s + 1.
Proof.
  intros (Hn & Hall & _) H1 H2. destruct (Hall (Z.to_nat (led_current_op s + 1))) as (o & Ho & Ha); [lia|].
  unfold tim4_next, op_at. cbn [set_op led_current_op use_b]. rewrite (proj2 (Z.ltb_ge _ _)) by lia.
  change (led_ops_table (set_op (use_b s) (led_current_op s + 1) s)) with (led_ops_table s). rewrite Ho. cbn [mbind option_bind].
  destruct (Z.leb_spec (o_arr o) RESTART_INTERRUPT_ARR).
  - rewrite (proj2 (Z.ltb_ge _ _)) by lia.
    destruct (lookup_lt_is_Some_2 burn_arr_table (Z.to_nat (o_arr o - 1))) as [b ->]; [cbn; lia|]. cbn [mbind option_bind].
    do 2 eexists. split; [reflexivity|]. by destruct (negb _).
  - do 2 eexists. split; [reflexivity|]. by destruct (negb _).
Qed.

Lemma valid_schedule A B tb l0 l1 l2 l3 rest : table A B tb = schedule_of l0 l1 l2 l3 ++ rest →
  ok_row l0 → ok_row l1 → ok_row l2 → ok_row l3 → valid_ops (table A B tb) (length (schedule_of l0 l1 l2 l3)).
Proof.
  intros E O0 O1 O2 O3. pose proof (schedule_length _ _ _ _ O0 O1 O2 O3) as Hlen.
  destruct (holds_schedule A B tb _ _ _ _ rest E O0 O1 O2 O3) as (H0 & H1 & H2 & H3).
  assert (L : length (schedule_of l0 l1 l2 l3) = (length l0 + length l1 + length l2 + length l3)%nat).
  { unfold schedule_of. rewrite !length_app, !encode_length. lia. }
  assert (G : ∀ p l f k, holds A B tb p l f → (p <= k)%nat → (k < p + length l)%nat → ∃ o, table A B tb !! k = Some o ∧ 1 <= o_arr o).
  { intros p l f k Hh Hp Hk. destruct (lookup_lt_is_Some_2 l (k - p)) as [[a c] Hl]; [lia|]. destruct (Hh _ _ _ Hl) as (Ho & Ha & _).
    replace (p + (k - p))%nat with k in Ho by lia. eexists. split; [exact Ho|]. cbn. lia. }
  split; [lia|]. split.
  - intros k Hk. destruct (decide (k < length l0)%nat); [eapply (G 0%nat l0); [done|lia..]|].
    destruct (decide (k < length l0 + length l1)%nat); [eapply (G (length l0) l1); [done|lia..]|].
    destruct (decide (k < length l0 + length l1 + length l2)%nat); [eapply (G (length l0 + length l1)%nat l2); [done|lia..]|].
    eapply (G (length l0 + length l1 + length l2)%nat l3); [done|lia..].
  - intros o Ho. destruct (holds_last _ _ _ _ _ _ H3) as (a & c & Hk & _ & Hc); [apply O3|].
    rewrite L in Ho. rewrite Hk in Ho. simplify_eq. cbn [o_op].
    destruct (op_facts_all c 0xc0 Hc (or_intror (or_intror eq_refl))) as [_ -> -> _]; done.
Qed.

Lemma led_init_inv : leds_inv led_data_init.
Proof.
  constructor; [done|done|cbn; lia| |done].
  exists 4%nat. split; [|cbn; lia]. split; [lia|]. split.
  - intros k Hk. do 4 (destruct k as [|k]; [eexists; split; [reflexivity|cbn; lia]|]). lia.
  - intros o Ho. cbn in Ho. simplify_eq. done.
Qed.

Lemma pwm_inv s : leds_inv s → leds_inv (set_state (Z.lor (led_state s) LED_STATE_PWM_READY) s).
Proof.
  intros []. pose proof (state_bits_all _ li_state0) as H. unfold state_bits in H. bool_prop.
  constructor; cbn [set_state led_state ops_a ops_b use_b]; [done|done|lia|done|]. intros Ht. apply li_next0.
  match goal with E : eqb (Z.testbit (Z.lor _ 1) 1) _ = true |- _ => apply eqb_prop in E; by rewrite <- E end.
Qed.

Lemma main_led_inv s pwm : leds_inv s → bytes pwm → (LED_TOT_SIZE <= length pwm)%nat → ∃ s', led_main s pwm = Some s' ∧ leds_inv s'.
Proof.
  intros H Hb Hl. pose proof H as []. unfold led_main. destruct (_ =? _); [|by exists s].
  pose proof (led_schedule_spec pwm Hb Hl) as Esch. pose proof (λ i, row_pwm_ok pwm i Hb Hl) as Hok.
  assert (O : ∀ i, (i < 4)%nat → ok_row (row_periods (row_pwm pwm i))) by (intros i Hi; destruct (Hok i Hi); by apply row_periods_ok).
  pose proof (schedule_length _ _ _ _ (O 0%nat ltac:(lia)) (O 1%nat ltac:(lia)) (O 2%nat ltac:(lia)) (O 3%nat ltac:(lia))) as Hlen.
  destruct (led_update_spec s pwm _ _ _ _ Esch) as (A & B & rest & Eu & ET & EN & EL).
  { destruct (use_b s); cbn [table negb]; lia. }
  eexists. split; [exact Eu|]. pose proof (state_bits_all _ li_state0) as Hs. unfold state_bits in Hs. bool_prop.
  assert (HL : length A = LED_OP_COUNT ∧ length B = LED_OP_COUNT).
  { destruct (use_b s); cbn [table negb] in *; [rewrite EL, ET|rewrite ET, EL]; done. }
  constructor; cbn [ops_a ops_b use_b led_state led_current_op]; [apply HL..|lia| |].
  - change (led_ops_table _) with (table A B (use_b s)). rewrite ET. exact li_cur0.
  - intros _. eexists. eapply valid_schedule; [exact EN|apply O; lia..].
Qed.

(** Taking the next operation inside the table. *)
Lemma next_inv s n : length (ops_a s) = LED_OP_COUNT → length (ops_b s) = LED_OP_COUNT → 0 <= led_state s < 8 →
  (Z.testbit (led_state s) 1 = true → ∃ n, valid_ops (table (ops_a s) (ops_b s) (negb (use_b s))) n) →
  valid_ops (led_ops_table s) n → -1 <= led_current_op s → led_current_op s + 1 < Z.of_nat n →
  ∃ s' d, tim4_next s = Some (s', d) ∧ leds_inv s'.
Proof.
  intros HA HB Hs Hx Hv H1 H2. destruct (next_ok s n Hv H1 H2) as (s' & d & E & E1 & E2 & E3 & E4 & E5).
  exists s', d. split; [done|]. constructor; rewrite ?E1, ?E2, ?E3, ?E4, ?E5; try done.
  exists n. split; [|lia]. unfold led_ops_table in *. by rewrite E1, E2, E3.
Qed.

Lemma tim4_inv s : leds_inv s → ∃ s' d, tim4_irq s = Some (s', d) ∧ leds_inv s'.
Proof.
  intros []. destruct li_cur0 as (n & Hv & Hc). pose proof (state_bits_all _ li_state0) as Hs. unfold state_bits in Hs. bool_prop.
  unfold tim4_irq. set (s1 := LED_ROW_OFF _ s). change (led_current_op s1) with (led_current_op s).
  pose proof Hv as (Hn & Hall & _). destruct (Hall (Z.to_nat (led_current_op s))) as (o & Ho & Ha); [lia|].
  assert (Hop : op_at s1 (led_current_op s) = Some o) by (unfold op_at; rewrite (proj2 (Z.ltb_ge _ _)) by lia; exact Ho).
  rewrite Hop. cbn [mbind option_bind].
  destruct (c_true (Z.land (o_op o) LED_OP_ROW_INC)) eqn:Einc.
  2:{ apply (next_inv s1 n); try done; change (led_current_op s1) with (led_current_op s); [lia|].
      pose proof (valid_next _ n (Z.to_nat (led_current_op s)) o Hv ltac:(lia) Ho (or_introl Einc)). lia. }
  destruct (c_true (Z.land (led_state s1) LED_STATE_OFF_TIME)) eqn:Eoff; cbn [negb].
  2:{ do 2 eexists. split; [reflexivity|].
      constructor; [done|done|..]; change (led_state (LED_COL_OFF LED_COL_ALL s1)) with (led_state s); cbn [set_state led_state].
      - lia.
      - by exists n.
      - intros Ht. apply li_next0.
        match goal with E : eqb (Z.testbit (Z.lor _ 4) 1) _ = true |- _ => apply eqb_prop in E; by rewrite <- E end. }
  destruct (c_true (Z.land (o_op o) LED_OP_LOOP)) eqn:Elp.
  - cbn [set_active set_state led_state]. change (led_state s1) with (led_state s).
    set (v := Z.land (led_state s) _) in *.
    assert (Ev : Z.testbit v 1 = Z.testbit (led_state s) 1) by (by apply eqb_prop).
    destruct (Z.land v _ =? _) eqn:Erdy.
    + destruct (li_next0 ltac:(assumption)) as (n' & Hv'). pose proof Hv' as (Hn' & Hall' & _).
      destruct (Hall' 0%nat) as (o1 & Ho1 & Ha1); [lia|].
      match goal with |- context [op_at ?s2 _] => assert (Hop1 : op_at s2 (led_current_op s2 + 1) = Some o1) by (exact Ho1) end.
      rewrite Hop1. cbn [mbind option_bind]. apply (next_inv _ n'); try done; cbn; lia.
    + destruct (Hall 0%nat) as (o1 & Ho1 & Ha1); [lia|].
      match goal with |- context [op_at ?s2 _] => assert (Hop1 : op_at s2 (led_current_op s2 + 1) = Some o1) by (exact Ho1) end.
      rewrite Hop1. cbn [mbind option_bind]. apply (next_inv _ n); [done|done|cbn [set_active set_op set_state LED_COL_ON set_ports led_state]; lia|cbn [set_active set_op set_state LED_COL_ON set_ports led_state ops_a ops_b use_b]; by rewrite Ev|done|cbn; lia|cbn; lia].
  - pose proof (valid_next _ n (Z.to_nat (led_current_op s)) o Hv ltac:(lia) Ho (or_intror Elp)) as Hlt.
    destruct (Hall (S (Z.to_nat (led_current_op s)))) as (o1 & Ho1 & Ha1); [lia|].
    match goal with |- context [op_at ?s2 _] => assert (Hop1 : op_at s2 (led_current_op s2 + 1) = Some o1) end.
    { unfold op_at. cbn [set_active set_state led_current_op]. change (led_current_op s1) with (led_current_op s).
      rewrite (proj2 (Z.ltb_ge _ _)) by lia. replace (Z.to_nat (led_current_op s + 1)) with (S (Z.to_nat (led_current_op s))) by lia. exact Ho1. }
    rewrite Hop1. cbn [mbind option_bind]. change (led_state s1) with (led_state s). set (v := Z.land (led_state s) (Z.lxor LED_STATE_OFF_TIME 0xff)) in *.
    assert (Ev : Z.testbit v 1 = Z.testbit (led_state s) 1) by (by apply eqb_prop).
    apply (next_inv _ n); [done|done|cbn [set_active set_op set_state LED_COL_ON set_ports led_state]; lia|cbn [set_active set_op set_state LED_COL_ON set_ports led_state ops_a ops_b use_b]; by rewrite Ev|done|cbn; lia|cbn; lia].
Qed.

Lemma led_step_inv s ev : leds_inv s → led_event_ok ev → ∃ s', led_step s ev = Some s' ∧ leds_inv s'.
Proof.
  intros H Hev. destruct ev as [|pwm|]; cbn [led_step].
  - eexists. split; [done|]. by apply pwm_inv.
  - destruct Hev. by apply main_led_inv.
  - destruct (tim4_inv s H) as (s' & d & -> & H'). by exists s'.
Qed.

(** C24.  The timer interrupt never leaves its table: from power-up, for every
    interleaving of PWM writes, main-loop passes that compute new schedules
    and timer interrupts, every step is defined (the operation and its
    successor exist, short periods have an entry in the delay table, the
    schedule fits the table it is written to), the current operation is part
    of the complete schedule that is shown, and a table that waits to be shown
    holds a complete schedule. *)
Theorem leds_never_stray evs :
  Forall led_event_ok evs → ∃ s, led_run led_data_init evs = Some s ∧ leds_inv s.
Proof.
  intros Hev. revert Hev. generalize led_init_inv. generalize led_data_init.
  induction evs as [|ev evs IH]; intros s H Hev; [by exists s|]. apply Forall_cons in Hev as [He Hes].
  destruct (led_step_inv s ev H He) as (s1 & E & H1). cbn [led_run]. rewrite E. cbn [mbind option_bind]. by apply IH.
Qed.

Lemma leds_never_stray_witness :
  ∃ s, led_run led_data_init [LTim4; LPwm; LMain (replicate 25 7); LTim4; LTim4; LPwm; LTim4] = Some s ∧ leds_inv s.
Proof.
  apply (leds_never_stray [LTim4; LPwm; LMain (replicate 25 7); LTim4; LTim4; LPwm; LTim4]).
  repeat constructor; cbn; lia.
Defined.
