(* ===== verification/Standalone.v ===== *)
(** The pictures the controller shows by itself: the blinking start-up pattern
    and the rotating quadrant of standalone mode, both driven by the TIM3
    interrupt (iomcu/controller/stm8l15x_it.c, startup.c, standalone.c). *)

From S2P Require Import Prelude.

Abbreviation LED_TOT_SIZE := 24%nat.
Abbreviation LED_STARTUP_BLINK := 3%nat.
Abbreviation LED_BLINK_SEQUENCE_NUM := 5.
Abbreviation STARTUP_TIMER_SECOND := 61.
Abbreviation LED_STATE_PWM_READY := 1.

Definition led_startup_blink_ontime : list Z := [16; 8; 24; 1; 24].
Definition led_startup_blink_offtime : list Z := [125; 250; 65; 65; 125].

Record pictures := mk_pictures {
  p_startup_mode : bool;
  p_standalone : bool;
  led_startup_lut : list Z;
  standalone_animation_timer : Z;
  startup_animation_timer : Z;
  startup_animation_timeout : Z;
  blink_i : Z;
  quadrant : Z;
  p_pwm_table : list Z;
  p_led_state : Z
}.

Definition startup_lut : list Z :=
  [0; 0; 0; 255; 0; 0;
   0; 255; 255; 255; 255; 255;
   255; 255; 255; 255; 255; 0;
   0; 0; 255; 0; 0; 0].

(** After [enter_startup_mode]. *)
Definition pictures_init : pictures :=
  mk_pictures true false startup_lut 0 0 (3 * STARTUP_TIMER_SECOND) 0 0 (replicate 25 0) 0.

Definition set_timers a b s := mk_pictures (p_startup_mode s) (p_standalone s) (led_startup_lut s) a b (startup_animation_timeout s)
  (blink_i s) (quadrant s) (p_pwm_table s) (p_led_state s).
Definition set_blink v t i s := mk_pictures (p_startup_mode s) (p_standalone s) (<[LED_STARTUP_BLINK := v]> (led_startup_lut s))
  (standalone_animation_timer s) 0 t i (quadrant s) (p_pwm_table s) (p_led_state s).
Definition set_quadrant q pw ls s := mk_pictures (p_startup_mode s) (p_standalone s) (led_startup_lut s) (standalone_animation_timer s)
  (startup_animation_timer s) (startup_animation_timeout s) (blink_i s) q pw ls.

(** standalone.c *)
Definition update_standalone_leds (s : pictures) : pictures :=
  let q := if 3 <? quadrant s then 0 else quadrant s in
  let pw := list_inserts 0 (replicate 24 0) (p_pwm_table s) in
  let pw := list_inserts (Z.to_nat (q * 6)) (replicate 6 255) pw in
  set_quadrant q pw (Z.lor (p_led_state s) LED_STATE_PWM_READY) s.

(** One update interrupt of TIM3; [None] if a table is read out of range. *)
Definition tim3_irq (s : pictures) : option pictures :=
  let timer := startup_animation_timer s in
  let s := if p_startup_mode s then set_timers (standalone_animation_timer s) (u16 (timer + 1)) s else s in
  if p_startup_mode s && (startup_animation_timeout s <? timer) then
    let i' := if blink_i s + 1 =? LED_BLINK_SEQUENCE_NUM then 0 else u8 (blink_i s + 1) in
    if negb (led_startup_lut s !!! LED_STARTUP_BLINK =? 0) then
      t ← led_startup_blink_offtime !! Z.to_nat (blink_i s);
      Some (set_blink 0 t i' s)
    else
      t ← led_startup_blink_ontime !! Z.to_nat (blink_i s);
      Some (set_blink 255 (u16 (t * STARTUP_TIMER_SECOND)) i' s)
  else
    let t2 := standalone_animation_timer s in
    let s := set_timers (u8 (t2 + 1)) (startup_animation_timer s) s in
    if (162 <? t2) && p_standalone s then
      let s := update_standalone_leds (set_quadrant (u8 (quadrant s + 1)) (p_pwm_table s) (p_led_state s) s) in
      Some (set_timers 0 (startup_animation_timer s) s)
    else Some s.

(** What the register interrupt changes: the two modes. *)
Inductive pic_event := PTim3 | PModes (startup standalone : bool).

Definition pic_step (s : pictures) (ev : pic_event) : option pictures :=
  match ev with
  | PTim3 => tim3_irq s
  | PModes a b => Some (mk_pictures a b (led_startup_lut s) (standalone_animation_timer s) (startup_animation_timer s)
                          (startup_animation_timeout s) (blink_i s) (quadrant s) (p_pwm_table s) (p_led_state s))
  end.

Fixpoint pic_run (s : pictures) (evs : list pic_event) : option pictures :=
  match evs with [] => Some s | ev :: evs' => s ← pic_step s ev; pic_run s evs' end.

(** ** Bounds *)

Record pic_inv (s : pictures) : Prop := {
  pi_lut : length (led_startup_lut s) = LED_TOT_SIZE;
  pi_blink : led_startup_lut s !!! LED_STARTUP_BLINK = 0 ∨ led_startup_lut s !!! LED_STARTUP_BLINK = 255;
  pi_rest : delete LED_STARTUP_BLINK (led_startup_lut s) = delete LED_STARTUP_BLINK startup_lut;
  pi_i : 0 <= blink_i s < LED_BLINK_SEQUENCE_NUM;
  pi_timeout : 0 < startup_animation_timeout s <= 24 * STARTUP_TIMER_SECOND;
  pi_quadrant : 0 <= quadrant s <= 3;
  pi_pwm : length (p_pwm_table s) = 25%nat
}.

Lemma set_blink_inv s v t i : pic_inv s → v = 0 ∨ v = 255 → 0 < t <= 24 * STARTUP_TIMER_SECOND → 0 <= i < LED_BLINK_SEQUENCE_NUM →
  pic_inv (set_blink v t i s).
Proof.
  intros [] Hv Ht Hi. constructor; cbn [set_blink led_startup_lut blink_i startup_animation_timeout quadrant p_pwm_table]; try done.
  - by rewrite length_insert.
  - rewrite list_lookup_total_insert_eq by lia. done.
  - rewrite <- pi_rest0. rewrite !delete_take_drop. rewrite take_insert_ge by lia. f_equal. apply drop_insert_lt. lia.
Qed.

Lemma tim3_inv s : pic_inv s → ∃ s', tim3_irq s = Some s' ∧ pic_inv s'.
Proof.
  intros H. unfold tim3_irq. set (s1 := if p_startup_mode s then _ else s).
  assert (H1 : pic_inv s1) by (subst s1; destruct H; destruct (p_startup_mode s); by constructor).
  destruct (_ && _).
  - pose proof H1 as []. 
    assert (Hi : 0 <= (if blink_i s1 + 1 =? LED_BLINK_SEQUENCE_NUM then 0 else u8 (blink_i s1 + 1)) < LED_BLINK_SEQUENCE_NUM).
    { destruct (Z.eqb_spec (blink_i s1 + 1) LED_BLINK_SEQUENCE_NUM); [lia|]. rewrite u8_small by (unfold is_u8; lia). lia. }
    assert (Hb : blink_i s1 = 0 ∨ blink_i s1 = 1 ∨ blink_i s1 = 2 ∨ blink_i s1 = 3 ∨ blink_i s1 = 4) by lia.
    destruct (negb _); destruct Hb as [Hb|[Hb|[Hb|[Hb|Hb]]]]; rewrite Hb in *; (eexists; split; [reflexivity|]);
      apply set_blink_inv; try done; auto; cbn; lia.
  - destruct (_ && _); (eexists; split; [reflexivity|]); destruct H1; [|by constructor].
    unfold update_standalone_leds, set_quadrant, set_timers.
    constructor; cbn [led_startup_lut blink_i startup_animation_timeout quadrant p_pwm_table]; try done.
    + destruct (Z.ltb_spec 3 (u8 (quadrant s1 + 1))); [lia|]. pose proof (u8_range (quadrant s1 + 1)). unfold is_u8 in *. lia.
    + by rewrite !length_inserts.
Qed.

(** C38.  The pictures stay within their tables: for every sequence of timer
    interrupts and mode changes the blink sequence is read in range, the
    off times and on times fit the timer, only the blinking LED of the
    start-up pattern changes and it is fully on or off, and the quadrant is
    one of the four. *)
Theorem pictures_in_bounds evs : ∃ s, pic_run pictures_init evs = Some s ∧ pic_inv s.
Proof.
  assert (H : pic_inv pictures_init) by (constructor; cbn; try done; auto; lia).
  revert H. generalize pictures_init. induction evs as [|ev evs IH]; intros s H; [by exists s|].
  cbn [pic_run]. destruct ev as [|a b]; cbn [pic_step].
  - destruct (tim3_inv s H) as (s' & -> & H'). by apply IH.
  - apply IH. by destruct H.
Qed.

(** In standalone mode each picture lights exactly one quadrant, the one
    after the last: of the 24 LEDs those of the quadrant are fully on, the
    others off, and the main loop is told to show it. *)
Theorem standalone_quadrant s i : 0 <= quadrant s <= 3 → length (p_pwm_table s) = 25%nat → (i < 24)%nat →
  let q := (quadrant s + 1) mod 4 in
  let s' := update_standalone_leds (set_quadrant (u8 (quadrant s + 1)) (p_pwm_table s) (p_led_state s) s) in
  quadrant s' = q ∧ p_pwm_table s' !!! i = (if (Z.of_nat i / 6 =? q) then 255 else 0)
  ∧ Z.testbit (p_led_state s') 0 = true.
Proof.
  intros Hq Hl Hi. assert (quadrant s = 0 ∨ quadrant s = 1 ∨ quadrant s = 2 ∨ quadrant s = 3) as Hqs by lia.
  unfold update_standalone_leds. cbn [set_quadrant quadrant p_pwm_table p_led_state].
  destruct (p_pwm_table s) as [|x0 l] eqn:El; [done|]. do 24 (destruct l as [|? l]; [discriminate Hl|]). destruct l; [|discriminate Hl].
  destruct Hqs as [-> | [-> | [-> | ->]]]; (split; [reflexivity|split; [|by rewrite Z.lor_spec, orb_true_r]]);
    do 24 (destruct i as [|i]; [reflexivity|]); lia.
Qed.

Lemma standalone_quadrant_witness :
  let s := set_quadrant 3 (replicate 25 9) 0 pictures_init in
  let q := (quadrant s + 1) mod 4 in
  let s' := update_standalone_leds (set_quadrant (u8 (quadrant s + 1)) (p_pwm_table s) (p_led_state s) s) in
  quadrant s' = q ∧ p_pwm_table s' !!! 4%nat = (if (Z.of_nat 4 / 6 =? q) then 255 else 0)
  ∧ Z.testbit (p_led_state s') 0 = true.
Proof. apply (standalone_quadrant (set_quadrant 3 (replicate 25 9) 0 pictures_init) 4); cbn; lia. Defined.
