(* ===== verification/Net.v ===== *)
(** lib/beep/net.c with the vectors and length prefixes of lib/beep/beeplib.c:
    the connections of a port.  Bytes that arrive are collected in a buffer per
    connection, a callback takes whole messages from its front, responses are
    collected in a second buffer.  The size of the buffers is a parameter;
    BEEP_CONN_BUF_SIZE is 32768.  What poll, read, write and accept return are
    arguments. *)

From S2P Require Import Prelude.

Abbreviation BEEP_CONN_BUF_SIZE := 32768.
Abbreviation MAX_CONNECTIONS := 16.

(** ** Vectors *)

Record vector (A : Type) := mk_vector { max_elements : Z; elements : list A }.
Arguments mk_vector {A}. Arguments max_elements {A}. Arguments elements {A}.

Definition num_elements {A} (v : vector A) : Z := Z.of_nat (length (elements v)).

Definition beep_new_vector {A} (max : Z) : vector A := mk_vector max [].

(** NULL past the end; an index is not negative. *)
Definition beep_vector_index {A} (v : vector A) (i : nat) : option A := elements v !! i.

Definition beep_vector_is_full {A} (v : vector A) : bool := num_elements v =? max_elements v.

Inductive vector_result := BEEP_SUCCESS | BEEP_VECTOR_OUT_OF_RANGE | BEEP_VECTOR_FULL.

Definition beep_vector_append {A} (v : vector A) (el : A) : vector_result * vector A :=
  if num_elements v =? max_elements v then (BEEP_VECTOR_FULL, v)
  else (BEEP_SUCCESS, mk_vector (max_elements v) (elements v ++ [el])).

Definition beep_vector_pop {A} (v : vector A) (i : nat) : vector_result * vector A :=
  if (length (elements v) <=? i)%nat then (BEEP_VECTOR_OUT_OF_RANGE, v)
  else (BEEP_SUCCESS, mk_vector (max_elements v) (take i (elements v) ++ drop (S i) (elements v))).

(** ** Integers and lengths on the wire *)

Definition net_readint (buf : list Z) : Z := s32 (get32 buf 0).
Definition net_writeint (val : Z) : list Z := be32 (u32 val).
Definition lenbuf (buf : list Z) : list Z := net_writeint (Z.of_nat (length buf)) ++ buf.

(** ** Connections *)

Inductive conn_code := BEEP_CONN_VALID | BEEP_CONN_RESPONSE_FULL.

#[export] Instance conn_code_eq : EqDecision conn_code.
Proof. solve_decision. Defined.

(** ConnState, and whether POLLOUT is asked for. *)
Record conn := mk_conn {
  c_code : conn_code;
  c_buffer : list Z;
  c_cursor : Z;
  response_buffer : list Z;
  response_cursor : Z;
  poll_out : bool
}.

Definition set_received b n c := mk_conn (c_code c) b n (response_buffer c) (response_cursor c) (poll_out c).
Definition set_response b n out c := mk_conn (c_code c) (c_buffer c) (c_cursor c) b n out.
Definition set_code v c := mk_conn v (c_buffer c) (c_cursor c) (response_buffer c) (response_cursor c) (poll_out c).

Section Conn.
Context (SIZE : Z).

(** memcpy into a buffer, and memmove of what is behind [n] to its front. *)
Definition copy_in (b : list Z) (at_ : Z) (l : list Z) : option (list Z) :=
  if (0 <=? at_) && (at_ + Z.of_nat (length l) <=? Z.of_nat (length b)) then Some (list_inserts (Z.to_nat at_) l b) else None.
Definition move_down (n : Z) (b : list Z) : option (list Z) :=
  if (0 <=? n) && (n <=? SIZE) then Some (drop (Z.to_nat n) b ++ drop (Z.to_nat (SIZE - n)) b) else None.

Definition beep_respond (c : conn) (buf : list Z) : option conn :=
  let len := Z.of_nat (length buf) in
  if (len <=? 0) || negb (bool_decide (c_code c = BEEP_CONN_VALID)) then Some c
  else if SIZE <? response_cursor c + len then Some (set_code BEEP_CONN_RESPONSE_FULL c)
  else b ← copy_in (response_buffer c) (response_cursor c) buf;
       Some (set_response b (response_cursor c + len) true c).

(** The size that can be read, and the buffer it is at the front of. *)
Definition beep_net_read (c : conn) (len : Z) : Z * list Z := if c_cursor c <? len then (0, []) else (len, c_buffer c).

(** The whole message with its length, 0 while it is not complete. *)
Definition beep_net_read_message (c : conn) : Z * list Z * Z :=
  if c_cursor c <? 4 then (0, [], 0) else
  let len := net_readint (c_buffer c) in
  if c_cursor c <? s32 (len + 4) then (0, [], len)
  else (s32 (len + 4), drop 4 (c_buffer c), len).

Definition beep_net_write_message (c : conn) (buf : list Z) : option conn := beep_respond c (lenbuf buf).

(** ** Events of a connection *)

Section Callback.
(** The callback with the state it works on: the bytes it has handled. *)
Context {W : Type} (callback : conn → W → option (Z * conn * W)).

(** [do ... while (conn_state->code == BEEP_CONN_VALID && nhandled)]; [fuel]
    bounds the calls: one per received byte and one more, as every call but
    the last takes a byte. *)
Fixpoint handle_messages (fuel : nat) (c : conn) (w : W) : option (conn * W) :=
  match fuel with
  | O => None
  | S fuel =>
      '(nhandled, c, w) ← callback c w;
      b ← move_down nhandled (c_buffer c);
      let c := set_received b (c_cursor c - nhandled) c in
      if bool_decide (c_code c = BEEP_CONN_VALID) && negb (nhandled =? 0) then handle_messages fuel c w else Some (c, w)
  end.

(** What poll, write and read say: [None] is an error, no byte the end. *)
Record revents := mk_revents {
  r_out : bool;
  r_in : bool;
  r_hup : bool;
  write_result : option Z;
  read_result : option (list Z)
}.

Definition conn_write (r : revents) (c : conn) : option (bool * conn) :=
  if r_out r && negb (r_hup r) then
    match write_result r with
    | None => Some (true, c)
    | Some amount =>
        b ← move_down amount (response_buffer c);
        let left := response_cursor c - amount in
        Some (false, set_response b left (if left =? 0 then false else poll_out c) c)
    end
  else Some (false, c).

(** Whether the connection is to be closed, its state and the callback's. *)
Definition conn_read (r : revents) (c : conn) (w : W) : option (bool * conn * W) :=
  if r_in r then
    '(close, c, w) ← (match read_result r with
      | None | Some [] => Some (true, c, w)
      | Some data =>
          if SIZE - c_cursor c <? Z.of_nat (length data) then None else
          b ← copy_in (c_buffer c) (c_cursor c) data;
          let cursor := c_cursor c + Z.of_nat (length data) in
          '(c, w) ← handle_messages (S (Z.to_nat cursor)) (set_received b cursor c) w;
          Some (false, c, w)
      end);
    Some (close || (c_cursor c =? SIZE), c, w)
  else Some (false, c, w).

Definition conn_event (r : revents) (c : conn) (w : W) : option (bool * conn * W) :=
  '(close1, c) ← conn_write r c;
  '(close2, c, w) ← conn_read r c w;
  Some (close1 || close2 || r_hup r || negb (bool_decide (c_code c = BEEP_CONN_VALID)), c, w).
End Callback.

(** ** A port *)

(** The sockets polled, the listening one first, and the connections. *)
Record port_state := mk_port { pollfds : vector Z; conn_states : vector conn }.

Definition port_state_new (listen_fd num_connections : Z) : port_state :=
  mk_port (beep_vector_append (beep_new_vector (num_connections + 1)) listen_fd).2 (beep_new_vector num_connections).

Definition port_state_is_full (p : port_state) : bool := beep_vector_is_full (pollfds p).

(** [memory] is what the allocated buffers hold. *)
Definition port_state_add_conn (p : port_state) (fd : Z) (memory : list Z) : port_state :=
  mk_port (beep_vector_append (pollfds p) fd).2
    (beep_vector_append (conn_states p) (mk_conn BEEP_CONN_VALID memory 0 memory 0 false)).2.

(** Closing the [i]'th connection. *)
Definition port_state_close_conn (p : port_state) (i : nat) : option port_state :=
  _ ← beep_vector_index (pollfds p) (i + 1);
  _ ← beep_vector_index (conn_states p) i;
  Some (mk_port (beep_vector_pop (pollfds p) (i + 1)).2 (beep_vector_pop (conn_states p) i).2).

Definition set_conn (p : port_state) (i : nat) (c : conn) : port_state :=
  mk_port (pollfds p) (mk_vector (max_elements (conn_states p)) (<[i:=c]> (elements (conn_states p)))).

Fixpoint respond_all (cs : list conn) (output : list Z) : option (list conn) :=
  match cs with
  | [] => Some []
  | c :: cs' => c ← beep_respond c output; cs' ← respond_all cs' output; Some (c :: cs')
  end.

Definition beep_broadcast (p : port_state) (buf : list Z) : option port_state :=
  cs ← respond_all (elements (conn_states p)) (lenbuf buf);
  Some (mk_port (pollfds p) (mk_vector (max_elements (conn_states p)) cs)).

(** One pass of _beep_socket_thread: the socket poll reports first, and what
    happens on it. *)
Inductive port_event :=
  | Accept (fd : Z) (memory : list Z)
  | OnConn (i : nat) (r : revents).

Definition port_step {W} (callback : conn → W → option (Z * conn * W)) (e : port_event) (p : port_state) (w : W)
    : option (port_state * W) :=
  match e with
  | Accept fd memory => if port_state_is_full p then None else Some (port_state_add_conn p fd memory, w)
  | OnConn i r =>
      c ← beep_vector_index (conn_states p) i;
      '(close, c, w) ← conn_event callback r c w;
      let p := set_conn p i c in
      if close : bool then p ← port_state_close_conn p i; Some (p, w) else Some (p, w)
  end.
End Conn.
