(* ===== verification/NetProps.v ===== *)
(** The connections of lib/beep/net.c: what the two buffers of a connection
    hold, a class for callbacks that take messages from the received bytes, and
    that however the network cuts the bytes such a callback gets every message
    once, in order and as soon as it is complete. *)

From S2P Require Import Prelude Net.

Section Buffers.
Context (SIZE : Z).

(** What has been received and not handled, and what is still to be sent. *)
Definition received (c : conn) : list Z := take (Z.to_nat (c_cursor c)) (c_buffer c).
Definition pending (c : conn) : list Z := take (Z.to_nat (response_cursor c)) (response_buffer c).

Record conn_ok (c : conn) : Prop := {
  ok_buffer : Z.of_nat (length (c_buffer c)) = SIZE;
  ok_cursor : 0 <= c_cursor c <= SIZE;
  ok_response : Z.of_nat (length (response_buffer c)) = SIZE;
  ok_response_cursor : 0 <= response_cursor c <= SIZE
}.

Lemma copy_in_ok b n l : 0 <= n → n + Z.of_nat (length l) <= Z.of_nat (length b) →
  ∃ b', copy_in b n l = Some b' ∧ length b' = length b
    ∧ take (Z.to_nat (n + Z.of_nat (length l))) b' = take (Z.to_nat n) b ++ l.
Proof.
  intros Hn Hl. unfold copy_in. rewrite (proj2 (Z.leb_le _ _) Hn), (proj2 (Z.leb_le _ _) Hl). cbn [andb].
  eexists. split; [done|]. rewrite length_inserts. split; [done|].
  rewrite Z2Nat.inj_add, Nat2Z.id, take_add by lia. f_equal.
  - apply list_eq. intros i. destruct (decide (i < Z.to_nat n)%nat).
    + rewrite !lookup_take_lt by lia. by rewrite list_lookup_inserts_lt by lia.
    + rewrite !lookup_take_ge by lia. done.
  - apply list_eq. intros i. destruct (decide (i < length l)%nat).
    + rewrite lookup_take_lt, lookup_drop, list_lookup_inserts by lia. f_equal. lia.
    + rewrite lookup_take_ge by lia. by rewrite lookup_ge_None_2 by lia.
Qed.

Lemma move_down_ok n k b : 0 <= n <= k → k <= SIZE → Z.of_nat (length b) = SIZE →
  ∃ b', move_down SIZE n b = Some b' ∧ Z.of_nat (length b') = SIZE
    ∧ take (Z.to_nat (k - n)) b' = drop (Z.to_nat n) (take (Z.to_nat k) b).
Proof.
  intros Hn Hk Hb. unfold move_down. rewrite (proj2 (Z.leb_le 0 n)), (proj2 (Z.leb_le n SIZE)) by lia. cbn [andb].
  eexists. split; [done|]. rewrite length_app, !length_drop. split; [lia|].
  rewrite take_app_le by (rewrite length_drop; lia). rewrite take_drop_commute. do 2 f_equal. lia.
Qed.

Lemma length_received c : conn_ok c → Z.of_nat (length (received c)) = c_cursor c.
Proof. intros [Hb Hc _ _]. unfold received. rewrite length_take. lia. Qed.
Lemma length_pending c : conn_ok c → Z.of_nat (length (pending c)) = response_cursor c.
Proof. intros [_ _ Hb Hc]. unfold pending. rewrite length_take. lia. Qed.

(** An answer that fits is queued, and nothing else changes. *)
Lemma beep_respond_ok c l : conn_ok c → c_code c = BEEP_CONN_VALID → response_cursor c + Z.of_nat (length l) <= SIZE →
  ∃ c', beep_respond SIZE c l = Some c' ∧ conn_ok c' ∧ received c' = received c ∧ c_cursor c' = c_cursor c
    ∧ c_code c' = BEEP_CONN_VALID ∧ pending c' = pending c ++ l ∧ response_cursor c' = response_cursor c + Z.of_nat (length l).
Proof.
  intros Hok Hv Hl. unfold beep_respond. destruct l as [|x l].
  - exists c. cbn. rewrite app_nil_r. split_and!; try done. lia.
  - remember (x :: l) as d eqn:Ed. assert (Hd : 0 < Z.of_nat (length d)) by (subst; simpl; lia). clear Ed.
    rewrite (proj2 (Z.leb_gt _ _) Hd), Hv, bool_decide_true by done. cbn [orb negb].
    rewrite (proj2 (Z.ltb_ge _ _) Hl). destruct Hok as [Hb Hc Hr Hrc].
    destruct (copy_in_ok (response_buffer c) (response_cursor c) d) as (b' & -> & Hb' & Ht); [lia..|].
    cbn. eexists. split; [done|]. split_and!; try done. constructor; cbn; lia.
Qed.

(** Bytes that fit are appended to the received ones. *)
Lemma receive_ok c data : conn_ok c → c_cursor c + Z.of_nat (length data) <= SIZE →
  ∃ b, copy_in (c_buffer c) (c_cursor c) data = Some b
    ∧ conn_ok (set_received b (c_cursor c + Z.of_nat (length data)) c)
    ∧ received (set_received b (c_cursor c + Z.of_nat (length data)) c) = received c ++ data.
Proof.
  intros [Hb Hc Hr Hrc] Hl. destruct (copy_in_ok (c_buffer c) (c_cursor c) data) as (b' & -> & Hb' & Ht); [lia..|].
  exists b'. split; [done|]. split; [|done]. constructor; cbn; lia.
Qed.

(** Handled bytes leave the front of the received ones. *)
Lemma handled_ok c n : conn_ok c → 0 <= n <= c_cursor c →
  ∃ b, move_down SIZE n (c_buffer c) = Some b
    ∧ conn_ok (set_received b (c_cursor c - n) c)
    ∧ received (set_received b (c_cursor c - n) c) = drop (Z.to_nat n) (received c).
Proof.
  intros [Hb Hc Hr Hrc] Hn. destruct (move_down_ok n (c_cursor c) (c_buffer c)) as (b' & -> & Hb' & Ht); [lia..|].
  exists b'. split; [done|]. split; [|done]. constructor; cbn; lia.
Qed.

(** A write sends the front of the pending bytes. *)
Lemma conn_write_ok r c n : conn_ok c → r_hup r = false → write_result r = Some n → 0 <= n <= response_cursor c →
  ∃ c', conn_write SIZE r c = Some (false, c') ∧ conn_ok c' ∧ received c' = received c ∧ c_cursor c' = c_cursor c
    ∧ c_code c' = c_code c
    ∧ pending c' = drop (if r_out r then Z.to_nat n else 0) (pending c)
    ∧ response_cursor c' = response_cursor c - (if r_out r then n else 0).
Proof.
  intros Hok Hh Hw Hn. unfold conn_write. rewrite Hh, Hw, andb_true_r. destruct (r_out r).
  - destruct Hok as [Hb Hc Hr Hrc].
    destruct (move_down_ok n (response_cursor c) (response_buffer c)) as (b' & -> & Hb' & Ht); [lia..|].
    cbn. eexists. split; [done|]. split_and!; try done. constructor; cbn; lia.
  - exists c. split_and!; try done. lia.
Qed.
End Buffers.

(** ** Callbacks that take messages from the front *)

(** What a callback promises the connection: a complete message at the front is
    taken whole, its answer queued; the beginning of one is left alone. *)
Class Messages (SIZE : Z) {W : Type} (callback : conn → W → option (Z * conn * W)) (msg : Type) := {
  wire : msg → list Z;
  valid : msg → Prop;
  handle_msg : msg → W → option (list Z * W);
  wire_size m : valid m → 0 < Z.of_nat (length (wire m)) <= SIZE;
  take_whole m c w tl answer w' : valid m → conn_ok SIZE c → received c = wire m ++ tl →
    handle_msg m w = Some (answer, w') →
    callback c w = (c' ← beep_respond SIZE c answer; Some (Z.of_nat (length (wire m)), c', w'));
  wait_part m c w : valid m → conn_ok SIZE c → received c `prefix_of` wire m → received c ≠ wire m →
    callback c w = Some (0, c, w)
}.

Section Serve.
Context (SIZE : Z) {W : Type} (callback : conn → W → option (Z * conn * W)) {msg : Type} `{!Messages SIZE callback msg}.

(** The messages in order: their answers and the state. *)
Fixpoint handle_all (ms : list msg) (w : W) : option (list Z * W) :=
  match ms with
  | [] => Some ([], w)
  | m :: ms' => '(a, w) ← handle_msg m w; '(as_, w) ← handle_all ms' w; Some (a ++ as_, w)
  end.

Definition wires (ms : list msg) : list Z := concat (wire <$> ms).

(** [part] is the beginning of [m] and not all of it. *)
Definition part_of (part : list Z) (m : msg) : Prop := part `prefix_of` wire m ∧ part ≠ wire m.

Lemma handle_all_app ms1 ms2 w a w1 : handle_all ms1 w = Some (a, w1) →
  handle_all (ms1 ++ ms2) w = ('(b, w2) ← handle_all ms2 w1; Some (a ++ b, w2)).
Proof.
  revert w a. induction ms1 as [|m ms IH]; intros w a; cbn.
  - intros [= <- <-]. by destruct (handle_all ms2 w) as [[? ?]|].
  - destruct (handle_msg m w) as [[a1 w']|]; cbn; [|done].
    destruct (handle_all ms w') as [[a2 w'']|] eqn:E; cbn; [|done]. intros [= <- <-].
    rewrite (IH _ _ E). destruct (handle_all ms2 w'') as [[? ?]|]; cbn; [|done]. by rewrite app_assoc.
Qed.

Lemma handle_all_app_inv ms1 ms2 w a w2 : handle_all (ms1 ++ ms2) w = Some (a, w2) →
  ∃ a1 a2 w1, handle_all ms1 w = Some (a1, w1) ∧ handle_all ms2 w1 = Some (a2, w2) ∧ a = a1 ++ a2.
Proof.
  revert w a. induction ms1 as [|m ms IH]; intros w a; cbn.
  - intros H. exists [], a, w. done.
  - destruct (handle_msg m w) as [[a1 w']|]; cbn; [|done].
    destruct (handle_all (ms ++ ms2) w') as [[a2 w'']|] eqn:E; cbn; [|done]. intros [= <- <-].
    destruct (IH _ _ E) as (b1 & b2 & w1 & -> & E2 & ->). cbn.
    exists (a1 ++ b1), b2, w1. by rewrite app_assoc.
Qed.

(** Every prefix of a run of messages is some of them and a part of the next. *)
Lemma prefix_wires ms p : Forall valid ms → p `prefix_of` wires ms →
  ∃ ms1 ms2 part, ms = ms1 ++ ms2 ∧ p = wires ms1 ++ part
    ∧ match ms2 with [] => part = [] | m :: _ => part_of part m end.
Proof.
  intros Hv. revert p. induction Hv as [|m ms Hm Hv IH]; intros p Hp.
  - apply prefix_nil_inv in Hp as ->. by exists [], [], [].
  - destruct Hp as [k Hk]. unfold wires in Hk. cbn in Hk. symmetry in Hk.
    destruct (app_eq_inv _ _ _ _ Hk) as [(q & -> & Hq)|(q & Hq & _)].
    + destruct (IH q) as (ms1 & ms2 & part & -> & -> & Hpart); [by exists k|].
      exists (m :: ms1), ms2, part. unfold wires. cbn. by rewrite app_assoc.
    + destruct (decide (q = [])) as [->|Hne].
      * rewrite app_nil_r in Hq. destruct (IH []) as (ms1 & ms2 & part & -> & Hnil & Hpart); [by apply prefix_nil|].
        symmetry in Hnil. apply app_nil in Hnil as [H1 ->].
        exists (m :: ms1), ms2, []. unfold wires in *. cbn. by rewrite H1, Hq, !app_nil_r.
      * exists [], (m :: ms), p. split_and!; try done. split; [by exists q|].
        intros ->. apply Hne. apply (app_inv_head (wire m)). by rewrite <- Hq, app_nil_r.
Qed.

Lemma length_wires ms : Forall valid ms → (length ms <= length (wires ms))%nat.
Proof.
  induction 1 as [|m ms Hm _ IH]; [done|]. unfold wires in *. cbn. rewrite length_app.
  pose proof (wire_size m Hm). lia.
Qed.

(** The messages that are complete are handled, the part of the next stays. *)
Lemma handle_messages_ok ms next part fuel c w answers w' :
  Forall valid ms → valid next → part_of part next → (length ms < fuel)%nat →
  conn_ok SIZE c → c_code c = BEEP_CONN_VALID → received c = wires ms ++ part →
  handle_all ms w = Some (answers, w') → response_cursor c + Z.of_nat (length answers) <= SIZE →
  ∃ c', handle_messages SIZE callback fuel c w = Some (c', w') ∧ conn_ok SIZE c' ∧ c_code c' = BEEP_CONN_VALID
    ∧ received c' = part ∧ pending c' = pending c ++ answers
    ∧ response_cursor c' = response_cursor c + Z.of_nat (length answers).
Proof.
  intros Hv Hn Hp. revert fuel c w answers. induction Hv as [|m ms Hm Hv IH]; intros fuel c w answers Hf Hok Hc Hr Ha Hl.
  - destruct fuel as [|fuel]; [lia|]. injection Ha as <- <-. cbn in Hr. cbn [handle_messages].
    destruct Hp as [Hp Hne]. rewrite (wait_part next) by (rewrite ?Hr; done). cbn.
    destruct (handled_ok SIZE c 0 Hok) as (b & Hb & Hok' & Hr'); [destruct Hok; lia|]. rewrite Hb. cbn.
    rewrite andb_false_r. eexists. split; [done|]. cbn [c_code set_received]. split_and!; try done.
    + by rewrite Hr', drop_0, Hr.
    + by rewrite app_nil_r.
    + cbn. lia.
  - destruct fuel as [|fuel]; [cbn in Hf; lia|]. cbn in Ha, Hf.
    destruct (handle_msg m w) as [[a1 w1]|] eqn:E1; cbn in Ha; [|done].
    destruct (handle_all ms w1) as [[a2 w2]|] eqn:E2; cbn in Ha; [|done]. injection Ha as <- <-.
    rewrite length_app in Hl. unfold wires in Hr. cbn in Hr. rewrite <- app_assoc in Hr.
    cbn [handle_messages]. rewrite (take_whole m c w _ _ _ Hm Hok Hr E1).
    destruct (beep_respond_ok SIZE c a1 Hok Hc) as (c1 & -> & Hok1 & Hr1 & Hcur1 & Hc1 & Hpd1 & Hrc1); [lia|]. cbn.
    assert (Hlen : c_cursor c1 = Z.of_nat (length (wire m)) + Z.of_nat (length (wires ms ++ part))).
    { rewrite Hcur1, <- (length_received SIZE c Hok), Hr. unfold wires. rewrite length_app. lia. }
    destruct (handled_ok SIZE c1 (Z.of_nat (length (wire m))) Hok1) as (b & -> & Hok2 & Hr2); [lia|]. cbn.
    rewrite Hc1, bool_decide_true by done. cbn [andb]. pose proof (wire_size m Hm).
    rewrite (proj2 (Z.eqb_neq _ _)) by lia. cbn [negb].
    destruct (IH fuel _ w1 a2 ltac:(lia) Hok2) as (c' & Hc' & Hok' & Hv' & Hr' & Hp' & Hrc'); [done| |done|cbn; lia|].
    { by rewrite Hr2, Hr1, Hr, Nat2Z.id, drop_app_length. }
    exists c'. split_and!; try done.
    + rewrite Hp'. unfold pending in *. cbn. by rewrite Hpd1, app_assoc.
    + rewrite Hrc', length_app. cbn. lia.
Qed.

(** ** The network *)

Lemma take_length_drop {A} (l : list A) n : take n l ++ drop (length (take n l)) l = l.
Proof. rewrite <- (take_drop n l) at 3. by rewrite drop_app_length, take_drop. Qed.

(** A poll that reports up to [n] of the bytes that arrive and, when [k] is
    given, that the socket takes up to so many bytes. *)
Definition arrives (n : nat) (c : conn) (incoming : list Z) : list Z :=
  take (Nat.min n (Z.to_nat (SIZE - c_cursor c))) incoming.
Definition written (k : option nat) (c : conn) : Z := Z.min (Z.of_nat (default O k)) (response_cursor c).

Definition poll_reports (n : nat) (k : option nat) (c : conn) (incoming : list Z) : revents :=
  let data := arrives n c incoming in
  mk_revents (bool_decide (is_Some k)) (bool_decide (data ≠ [])) false (Some (written k c)) (Some data).

Record served := mk_served { closed : bool; s_conn : conn; s_state : W; unread : list Z; sent : list Z }.

(** The polls of a schedule one after the other, until the connection is
    closed. *)
Fixpoint serve (sched : list (nat * option nat)) (s : served) : option served :=
  match sched with
  | [] => Some s
  | (n, k) :: sched' =>
      if closed s then Some s else
      let c := s_conn s in
      '(close, c', w') ← conn_event SIZE callback (poll_reports n k c (unread s)) c (s_state s);
      serve sched' (mk_served close c' w' (drop (length (arrives n c (unread s))) (unread s))
                              (sent s ++ take (Z.to_nat (written k c)) (pending c)))
  end.

(** After the messages [done] of a run, with [todo] still to come. *)
Record serving (w0 : W) (done_ todo : list msg) (answers : list Z) (s : served) : Prop := {
  sv_open : closed s = false;
  sv_ok : conn_ok SIZE (s_conn s);
  sv_valid : c_code (s_conn s) = BEEP_CONN_VALID;
  sv_state : handle_all done_ w0 = Some (answers, s_state s);
  sv_sent : sent s ++ pending (s_conn s) = answers;
  sv_stream : received (s_conn s) ++ unread s = wires todo;
  sv_part : match todo with [] => received (s_conn s) = [] | m :: _ => part_of (received (s_conn s)) m end
}.

Lemma serving_part w0 d t a s : Forall valid t → serving w0 d t a s → 0 < SIZE → c_cursor (s_conn s) < SIZE.
Proof.
  intros Hv [_ Hok _ _ _ _ Hp] HS. pose proof (length_received SIZE _ Hok) as Hl. destruct t as [|m t].
  - rewrite Hp in Hl. cbn in Hl. lia.
  - destruct Hp as [Hp Hne]. pose proof (wire_size m (Forall_inv Hv)).
    assert (length (received (s_conn s)) < length (wire m))%nat; [|lia].
    destruct Hp as [k Hk]. destruct k as [|x k]; [|rewrite Hk, length_app; cbn; lia].
    rewrite app_nil_r in Hk. by rewrite Hk in Hne.
Qed.

Lemma arrives_some n c incoming : c_cursor c < SIZE → incoming ≠ [] → n ≠ O → arrives n c incoming ≠ [].
Proof.
  intros Hc Hi Hn. unfold arrives. destruct incoming as [|x l]; [done|]. intros H.
  apply (f_equal length) in H. rewrite length_take in H. cbn in H. lia.
Qed.

(** What reading does once the bytes are in the buffer. *)
Lemma conn_read_ok r data ms next part c w answers w' :
  Forall valid ms → valid next → part_of part next →
  conn_ok SIZE c → c_code c = BEEP_CONN_VALID → r_in r = true → read_result r = Some data → data ≠ [] →
  c_cursor c + Z.of_nat (length data) <= SIZE → received c ++ data = wires ms ++ part →
  handle_all ms w = Some (answers, w') → response_cursor c + Z.of_nat (length answers) <= SIZE →
  ∃ c', conn_read SIZE callback r c w = Some (false, c', w') ∧ conn_ok SIZE c' ∧ c_code c' = BEEP_CONN_VALID
    ∧ received c' = part ∧ pending c' = pending c ++ answers.
Proof.
  intros Hv Hn Hp Hok Hc Hi Hd Hne Hl Hr Ha Hrl. unfold conn_read. rewrite Hi, Hd.
  destruct data as [|x data']; [done|]. remember (x :: data') as data eqn:Edata. clear Edata.
  rewrite (proj2 (Z.ltb_ge _ _)) by lia.
  destruct (receive_ok SIZE c data Hok Hl) as (b & -> & Hok1 & Hr1). cbn [mbind option_bind].
  assert (Hf : (length ms < S (Z.to_nat (c_cursor c + Z.of_nat (length data))))%nat).
  { pose proof (length_wires ms Hv). pose proof (length_received SIZE _ Hok). apply (f_equal length) in Hr.
    rewrite !length_app in Hr. lia. }
  rewrite <- Hr1 in Hr.
  destruct (handle_messages_ok ms next part _ _ w answers w' Hv Hn Hp Hf Hok1 Hc Hr Ha Hrl)
    as (c' & -> & Hok' & Hc' & Hr' & Hp' & _).
  cbn. exists c'. split_and!; try done. do 3 f_equal. apply Z.eqb_neq.
  pose proof (length_received SIZE _ Hok') as Hlen. rewrite Hr' in Hlen. destruct Hp as [[k Hk] Hpne].
  pose proof (wire_size next Hn) as Hs. rewrite Hk, length_app in Hs. destruct k; [|cbn in Hs; lia].
  by rewrite app_nil_r in Hk.
Qed.

(** One poll: some of the messages to come are handled. *)
Lemma serving_step w0 d t a s n k aN wN : 0 < SIZE → Forall valid t → serving w0 d t a s →
  handle_all (d ++ t) w0 = Some (aN, wN) → Z.of_nat (length aN) <= SIZE →
  ∃ ms t' a' s', t = ms ++ t' ∧ serve [(n, k)] s = Some s' ∧ serving w0 (d ++ ms) t' a' s'
    ∧ unread s' = drop (length (arrives n (s_conn s) (unread s))) (unread s).
Proof.
  intros HS Hv Hs Ha HaN. pose proof (serving_part _ _ _ _ _ Hv Hs HS) as Hcur.
  destruct Hs as [Hopen Hok Hc Hst Hsent Hstream Hpart].
  set (c := s_conn s) in *. set (data := arrives n c (unread s)).
  assert (Hk : 0 <= written k c <= response_cursor c) by (destruct Hok; unfold written; lia).
  set (r := poll_reports n k c (unread s)).
  destruct (conn_write_ok SIZE r c (written k c) Hok eq_refl eq_refl Hk) as (c1 & Hw & Hok1 & Hr1 & Hcur1 & Hc1 & Hp1 & Hrc1).
  assert (Hsent1 : take (Z.to_nat (written k c)) (pending c) ++ pending c1 = pending c).
  { rewrite Hp1. unfold r, poll_reports, r_out. destruct k; [apply take_drop|]. unfold written. cbn.
    by rewrite Z.min_l by (destruct Hok; lia). }
  assert (Hdata : data ++ drop (length data) (unread s) = unread s).
  { apply take_length_drop. }
  assert (Hrest : ∀ ms t' part a2 w2 c', t = ms ++ t' → handle_all ms (s_state s) = Some (a2, w2) →
    conn_read SIZE callback r c1 (s_state s) = Some (false, c', w2) → conn_ok SIZE c' → c_code c' = BEEP_CONN_VALID →
    received c' = part → pending c' = pending c1 ++ a2 →
    part ++ drop (length data) (unread s) = wires t' → match t' with [] => part = [] | m :: _ => part_of part m end →
    ∃ ms t' a' s', t = ms ++ t' ∧ serve [(n, k)] s = Some s' ∧ serving w0 (d ++ ms) t' a' s'
      ∧ unread s' = drop (length data) (unread s)).
  { intros ms t' part a2 w2 c' -> Hms Hread Hok' Hc' Hr' Hp' Hstr Hpt. eexists ms, t', (a ++ a2), _. split; [done|].
    cbn [serve]. rewrite Hopen. unfold conn_event. fold c. fold r. rewrite Hw. cbn [mbind option_bind]. rewrite Hread.
    cbn [mbind option_bind orb r_hup r poll_reports]. rewrite Hc', bool_decide_true by done. cbn [negb orb].
    split; [done|]. split; [|done].
    constructor; cbn [closed s_conn s_state unread sent]; try done.
    - rewrite (handle_all_app _ _ _ _ _ Hst), Hms. reflexivity.
    - by rewrite Hp', <- app_assoc, (app_assoc (take _ _)), Hsent1, app_assoc, Hsent.
    - by rewrite Hr'.
    - by rewrite Hr'. }
  destruct (decide (data = [])) as [Hnil|Hne].
  - rewrite Hnil in *. apply (Hrest [] t (received c) [] (s_state s) c1); try done.
    + unfold conn_read. replace (r_in r) with false; [done|]. symmetry. apply bool_decide_false. intros Hx. by apply Hx.
    + by rewrite Hc1.
    + by rewrite app_nil_r.
  - destruct (prefix_wires t (received c ++ data) Hv) as (ms & t' & part & -> & Hp & Hpt).
    { exists (drop (length data) (unread s)). by rewrite <- app_assoc, Hdata. }
    rewrite app_assoc in Ha. destruct (handle_all_app_inv _ _ _ _ _ Ha) as (a1 & a2 & w1 & Hd & _ & ->).
    rewrite (handle_all_app _ _ _ _ _ Hst) in Hd.
    destruct (handle_all ms (s_state s)) as [[a3 w3]|] eqn:Ems; cbn in Hd; [|done]. injection Hd as <- <-.
    assert (Hroom : c_cursor c1 + Z.of_nat (length data) <= SIZE).
    { unfold data, arrives. rewrite length_take, Hcur1. lia. }
    assert (Hresp : response_cursor c1 + Z.of_nat (length a3) <= SIZE).
    { rewrite <- (length_pending SIZE c1 Hok1). rewrite !length_app in HaN. apply (f_equal length) in Hsent1, Hsent.
      rewrite !length_app in *. lia. }
    assert (Hnext : ∃ m, valid m ∧ part_of part m).
    { destruct t' as [|m t'']; [|exists m; split; [|done]; by apply Forall_app, proj2, Forall_inv in Hv].
      subst part. rewrite app_nil_r in *. destruct ms as [|m ms]; [by destruct (received c), data|].
      exists m. apply Forall_inv in Hv. split; [done|]. split; [apply prefix_nil|].
      intros E. pose proof (wire_size m Hv) as Hsz. rewrite <- E in Hsz. cbn in Hsz. lia. }
    destruct Hnext as (next & Hvn & Hpn). apply Forall_app in Hv as [Hvm _].
    destruct (conn_read_ok r data ms next part c1 (s_state s) a3 w3 Hvm Hvn Hpn Hok1) as (c' & Hread & Hok' & Hc' & Hr' & Hp'); try done.
    + by rewrite Hc1.
    + unfold r, poll_reports. cbn. by apply bool_decide_true.
    + by rewrite Hr1.
    + eapply Hrest; try done. rewrite <- Hdata, app_assoc, Hp in Hstream. unfold wires in Hstream |- *.
      rewrite fmap_app, concat_app, <- !app_assoc in Hstream. by apply app_inv_head in Hstream.
Qed.

(** The polls of a schedule that bring bytes. *)
Definition reads (sched : list (nat * option nat)) : nat := length (filter (λ p, p.1 ≠ O) sched).

Lemma serve_cons n k sched s s' : serve [(n, k)] s = Some s' → closed s = false → serve ((n, k) :: sched) s = serve sched s'.
Proof.
  intros H Ho. cbn [serve] in *. rewrite Ho in *. destruct (conn_event _ _ _ _ _) as [[[cl c] w]|]; cbn in *; [|done].
  by injection H as <-.
Qed.

Lemma serve_serving sched w0 d t a s aN wN : 0 < SIZE → Forall valid (d ++ t) → serving w0 d t a s →
  handle_all (d ++ t) w0 = Some (aN, wN) → Z.of_nat (length aN) <= SIZE →
  ∃ d' t' a' s', d ++ t = d' ++ t' ∧ serve sched s = Some s' ∧ serving w0 d' t' a' s'
    ∧ (length (unread s') <= length (unread s) - reads sched)%nat.
Proof.
  intros HS Hv Hs Ha HaN. revert d t a s Hv Hs Ha. induction sched as [|[n k] sched IH]; intros d t a s Hv Hs Ha.
  - exists d, t, a, s. split_and!; try done. unfold reads. cbn. lia.
  - pose proof Hv as Hv'. apply Forall_app in Hv' as [_ Hvt].
    destruct (serving_step w0 d t a s n k aN wN HS Hvt Hs Ha HaN) as (ms & t' & a' & s1 & -> & H1 & Hs1 & Hu1).
    rewrite app_assoc in Hv, Ha. destruct (IH _ _ _ _ Hv Hs1 Ha) as (d2 & t2 & a2 & s2 & E & H2 & Hs2 & Hu2).
    exists d2, t2, a2, s2. rewrite app_assoc, (serve_cons n k sched s s1 H1) by apply Hs. split_and!; try done.
    rewrite Hu1, length_drop in Hu2. unfold reads in *. rewrite filter_cons. cbn [fst].
    destruct (decide (n ≠ O)) as [Hn|Hn]; [|lia]. cbn [length].
    pose proof (serving_part _ _ _ _ _ Hvt Hs HS) as Hcur. destruct (decide (unread s = [])) as [Hu|Hu].
    + rewrite Hu in *. cbn in *. lia.
    + pose proof (arrives_some n (s_conn s) (unread s) Hcur Hu Hn) as Hne. destruct (arrives _ _ _); [done|cbn in *; lia].
Qed.

(** A connection as it is accepted. *)
Definition fresh (c : conn) : Prop :=
  conn_ok SIZE c ∧ c_code c = BEEP_CONN_VALID ∧ c_cursor c = 0 ∧ response_cursor c = 0.

Lemma fresh_serving c w ms : 0 < SIZE → Forall valid ms → fresh c → serving w [] ms [] (mk_served false c w (wires ms) []).
Proof.
  intros HS Hv (Hok & Hc & Hz & Hrz). assert (Hr : received c = []) by (unfold received; by rewrite Hz).
  assert (Hp : pending c = []) by (unfold pending; by rewrite Hrz).
  constructor; cbn [closed s_conn s_state unread sent]; rewrite ?Hr, ?Hp; try done.
  destruct ms as [|m ms]; [done|]. split; [apply prefix_nil|]. intros E. pose proof (wire_size m (Forall_inv Hv)) as Hsz.
  rewrite <- E in Hsz. cbn in Hsz. lia.
Qed.

Lemma serving_end w0 d t a s : Forall valid t → serving w0 d t a s → unread s = [] → t = [].
Proof.
  intros Hv [_ _ _ _ _ Hst Hp] Hu. destruct t as [|m t]; [done|]. destruct Hp as [[k Hk] Hne]. exfalso.
  rewrite Hu, app_nil_r in Hst. unfold wires in Hst. cbn in Hst. apply Hne.
  pose proof (f_equal length Hst) as H1. pose proof (f_equal length Hk) as H2. rewrite !length_app in *.
  destruct k; [|cbn in *; lia]. by rewrite app_nil_r in Hk.
Qed.

(** However the bytes of the messages are cut, the messages handled are the
    ones that are complete, in order, with nothing else done to the state; no
    answer is lost, and once the polls have brought every byte all of them are
    handled. *)
Lemma serve_spec c w ms sched answers w' :
  0 < SIZE → Forall valid ms → fresh c → handle_all ms w = Some (answers, w') → Z.of_nat (length answers) <= SIZE →
  ∃ d t a s, ms = d ++ t ∧ serve sched (mk_served false c w (wires ms) []) = Some s ∧ serving w d t a s
    ∧ ((length (wires ms) <= reads sched)%nat → t = [] ∧ s_state s = w' ∧ a = answers).
Proof.
  intros HS Hv Hf Ha HaN. pose proof (fresh_serving c w ms HS Hv Hf) as Hs.
  destruct (serve_serving sched w [] ms [] _ answers w' HS Hv Hs Ha HaN) as (d & t & a & s & E & H & Hs' & Hu).
  cbn [unread app] in E, Hu. exists d, t, a, s. split_and!; try done. intros Hlen.
  assert (t = []) as ->.
  { eapply serving_end; [|done|]; [rewrite E in Hv; by apply Forall_app in Hv as [_ ?]|]. destruct (unread s); [done|cbn in Hu; lia]. }
  rewrite app_nil_r in E. subst d. pose proof (sv_state _ _ _ _ _ Hs') as Hst. rewrite Ha in Hst. by injection Hst as -> ->.
Qed.
End Serve.
