(* ===== verification/NetPort.v ===== *)
(** The port of lib/beep/net.c: the two vectors of port_state stay aligned, so
    that the port is a list of at most [num_connections] connections with
    their sockets. *)

From S2P Require Import Prelude Net NetProps.

Section Port.
Context (SIZE : Z) {W : Type} (callback : conn → W → option (Z * conn * W)).

(** One more socket than connections: the listening one is the first. *)
Record port_ok (n : Z) (p : port_state) : Prop := {
  ok_max_fds : max_elements (pollfds p) = n + 1;
  ok_max_conns : max_elements (conn_states p) = n;
  ok_aligned : length (elements (pollfds p)) = S (length (elements (conn_states p)));
  ok_count : num_elements (conn_states p) <= n
}.

(** The open connections with their sockets. *)
Definition connections (p : port_state) : list (Z * conn) := zip (drop 1 (elements (pollfds p))) (elements (conn_states p)).

(** The port as a list of at most [n] connections. *)
Definition port_spec (n : Z) (e : port_event) (cs : list (Z * conn)) (w : W) : option (list (Z * conn) * W) :=
  match e with
  | Accept fd memory =>
      if Z.of_nat (length cs) =? n then None else Some (cs ++ [(fd, mk_conn BEEP_CONN_VALID memory 0 memory 0 false)], w)
  | OnConn i r =>
      '(fd, c) ← cs !! i;
      '(close, c, w) ← conn_event SIZE callback r c w;
      Some (if close : bool then delete i cs else <[i:=(fd, c)]> cs, w)
  end.

Lemma port_ok_new fd n : 0 <= n → port_ok n (port_state_new fd n).
Proof.
  intros Hn. unfold port_state_new, beep_vector_append, beep_new_vector, num_elements.
  cbn [elements max_elements length]. rewrite (proj2 (Z.eqb_neq (Z.of_nat 0) (n + 1))) by lia.
  constructor; cbn; try done; lia.
Qed.

Lemma zip_delete {A B} (l : list A) (k : list B) i :
  zip (take i l ++ drop (S i) l) (take i k ++ drop (S i) k) = delete i (zip l k).
Proof.
  revert k i. induction l as [|x l IH]; intros [|y k] i; destruct i as [|i]; cbn; rewrite ?take_nil, ?drop_nil; try done.
  - apply zip_with_nil_r.
  - f_equal. apply IH.
Qed.
Lemma zip_insert_r {A B} (l : list A) (k : list B) i x y : l !! i = Some x → zip l (<[i:=y]> k) = <[i:=(x, y)]> (zip l k).
Proof.
  revert k i. induction l as [|z l IH]; intros [|u k] i H; destruct i as [|i]; cbn in *; try done; [by injection H as ->|].
  f_equal. by apply IH.
Qed.

Lemma length_connections n p : port_ok n p → length (connections p) = length (elements (conn_states p)).
Proof. intros [_ _ H _]. unfold connections. rewrite length_zip_with, length_drop. lia. Qed.

Lemma port_full n p : port_ok n p → port_state_is_full p = (Z.of_nat (length (connections p)) =? n).
Proof.
  intros Hok. rewrite (length_connections n p Hok). destruct Hok as [Hf Hc Ha _].
  unfold port_state_is_full, beep_vector_is_full, num_elements. rewrite Hf, Ha.
  destruct (Z.eqb_spec (Z.of_nat (length (elements (conn_states p)))) n); [apply Z.eqb_eq|apply Z.eqb_neq]; lia.
Qed.

Lemma port_add_ok n p fd memory : port_ok n p → port_state_is_full p = false →
  port_ok n (port_state_add_conn p fd memory)
  ∧ connections (port_state_add_conn p fd memory) = connections p ++ [(fd, mk_conn BEEP_CONN_VALID memory 0 memory 0 false)].
Proof.
  intros Hok. pose proof (length_connections n p Hok) as Hlen. rewrite (port_full n p Hok), Hlen. intros Hn.
  apply Z.eqb_neq in Hn. destruct Hok as [Hf Hc Ha Hle]. unfold port_state_add_conn, beep_vector_append, num_elements in *.
  rewrite Hf, Hc, Ha, (proj2 (Z.eqb_neq _ n)), (proj2 (Z.eqb_neq _ (n + 1))) by lia. split.
  - constructor; cbn; rewrite ?length_app; cbn; try done; unfold num_elements; cbn; rewrite ?length_app; cbn; lia.
  - unfold connections in *. cbn. rewrite drop_app_le by lia. rewrite zip_with_app by (rewrite length_drop; lia). done.
Qed.

Lemma port_close_ok n p i : port_ok n p → (i < length (elements (conn_states p)))%nat →
  ∃ p', port_state_close_conn p i = Some p' ∧ port_ok n p' ∧ connections p' = delete i (connections p).
Proof.
  intros [Hf Hc Ha Hle] Hi. unfold port_state_close_conn, beep_vector_index, beep_vector_pop.
  destruct (lookup_lt_is_Some_2 (elements (pollfds p)) (i + 1)) as [fd ->]; [lia|].
  destruct (lookup_lt_is_Some_2 (elements (conn_states p)) i Hi) as [c ->]. cbn [mbind option_bind].
  rewrite (proj2 (Nat.leb_gt _ _)), (proj2 (Nat.leb_gt _ i)) by lia. eexists. split; [done|]. cbn [snd]. split.
  - unfold num_elements in *. constructor; cbn; unfold num_elements; cbn; rewrite ?length_app, ?length_take, ?length_drop; try done; lia.
  - unfold connections. cbn. rewrite <- zip_delete. f_equal. destruct (elements (pollfds p)) as [|x l]; [done|].
    rewrite Nat.add_1_r. cbn. by rewrite !drop_0.
Qed.

Lemma port_set_ok n p i fd c c' : port_ok n p → connections p !! i = Some (fd, c) →
  port_ok n (set_conn p i c') ∧ connections (set_conn p i c') = <[i:=(fd, c')]> (connections p).
Proof.
  intros [Hf Hc Ha Hle] Hi. unfold num_elements in *. split.
  - constructor; cbn; unfold num_elements; cbn; rewrite ?length_insert; done.
  - unfold connections in *. cbn. apply zip_insert_r. apply lookup_zip_with_Some in Hi as (x & y & [= -> ->] & H & _). done.
Qed.

Lemma port_step_spec n p e w : port_ok n p →
  match port_step SIZE callback e p w, port_spec n e (connections p) w with
  | Some (p', w'), Some (cs, w'') => port_ok n p' ∧ connections p' = cs ∧ w' = w''
  | None, None => True
  | _, _ => False
  end.
Proof.
  intros Hok. destruct e as [fd memory|i r]; cbn [port_step port_spec].
  - rewrite <- (port_full n p Hok). destruct (port_state_is_full p) eqn:E; [done|].
    by destruct (port_add_ok n p fd memory Hok E).
  - unfold beep_vector_index. destruct (elements (conn_states p) !! i) as [c|] eqn:Ec.
    + assert (Hi : (i < length (elements (conn_states p)))%nat) by (by eapply lookup_lt_Some).
      destruct (lookup_lt_is_Some_2 (connections p) i) as [[fd c0] Ei]; [by rewrite (length_connections n p)|].
      assert (c0 = c) as ->.
      { unfold connections in Ei. apply lookup_zip_with_Some in Ei as (? & ? & [= -> ->] & _ & E). congruence. }
      rewrite Ei. cbn [mbind option_bind]. destruct (conn_event _ _ _ _ _) as [[[close c'] w']|]; cbn [mbind option_bind]; [|done].
      destruct (port_set_ok n p i fd c c' Hok Ei) as [Hok' Hc']. destruct close; [|by split_and!].
      destruct (port_close_ok n (set_conn p i c') i Hok') as (p' & -> & Hok'' & Hc''); [cbn; by rewrite length_insert|].
      cbn. split_and!; try done. rewrite Hc'', Hc'.
      apply list_eq. intros j. destruct (decide (j < i)%nat).
      * by rewrite !list_lookup_delete_lt, list_lookup_insert_ne by lia.
      * by rewrite !list_lookup_delete_ge, list_lookup_insert_ne by lia.
    + cbn. rewrite (lookup_ge_None_2 (connections p)); [done|]. rewrite (length_connections n p Hok). by apply lookup_ge_None.
Qed.

(** A run of events on the port and on the list. *)
Fixpoint port_run (es : list port_event) (p : port_state) (w : W) : option (port_state * W) :=
  match es with [] => Some (p, w) | e :: es' => '(p, w) ← port_step SIZE callback e p w; port_run es' p w end.
Fixpoint port_spec_run (n : Z) (es : list port_event) (cs : list (Z * conn)) (w : W) : option (list (Z * conn) * W) :=
  match es with [] => Some (cs, w) | e :: es' => '(cs, w) ← port_spec n e cs w; port_spec_run n es' cs w end.

Lemma port_run_spec n es p w : port_ok n p →
  match port_run es p w, port_spec_run n es (connections p) w with
  | Some (p', w'), Some (cs, w'') => port_ok n p' ∧ connections p' = cs ∧ w' = w''
  | None, None => True
  | _, _ => False
  end.
Proof.
  revert p w. induction es as [|e es IH]; intros p w Hok; cbn; [done|].
  pose proof (port_step_spec n p e w Hok) as H. destruct (port_step _ _ _ _ _) as [[p1 w1]|], (port_spec _ _ _ _) as [[cs1 w2]|]; try done.
  cbn. destruct H as (Hok1 & <- & <-). by apply IH.
Qed.
End Port.

(** C16.  The two vectors of a port keep the connections and their sockets
    together.  From the port that port_state_new makes, after any events (a
    connection accepted, bytes read and written, a connection closed after an
    error, a hang-up or a full buffer) the port is the list of connections that
    taking each event on a plain list gives: a new connection is appended, the
    one that is closed is removed and its socket with it, every other keeps
    its place and state, whatever the callback does.  The run stops exactly
    when the list does: on one connection too many or when handling a
    connection goes outside of its buffers. *)
Theorem port_is_a_list SIZE W (callback : conn → W → option (Z * conn * W)) fd n es w : 0 <= n →
  match port_run SIZE callback es (port_state_new fd n) w, port_spec_run SIZE callback n es [] w with
  | Some (p, w1), Some (cs, w2) =>
      connections p = cs ∧ w1 = w2 ∧ length (elements (pollfds p)) = S (length (elements (conn_states p)))
      ∧ num_elements (conn_states p) <= n
  | None, None => True
  | _, _ => False
  end.
Proof.
  intros Hn. pose proof (port_run_spec SIZE callback n es _ w (port_ok_new fd n Hn)) as H.
  assert (connections (port_state_new fd n) = []) as E.
  { unfold connections. cbn. apply zip_with_nil_r. }
  rewrite E in H. destruct (port_run _ _ _ _ _) as [[p w1]|], (port_spec_run _ _ _ _ _ _) as [[cs w2]|]; try done.
  destruct H as (Hok & Hc & Hw). split_and!; try done; apply Hok.
Qed.

(** Two connections on a port for two, the first closed again. *)
Lemma port_is_a_list_witness :
  (λ p, (fst <$> connections p.1)) <$>
    port_run 4 (λ c (w : unit), Some (0, c, w))
      [Accept 7 [0; 0; 0; 0]; Accept 8 [0; 0; 0; 0]; OnConn 0 (mk_revents false true true None (Some [1]))] (port_state_new 3 2) tt
  = Some [8].
Proof.
  pose proof (port_is_a_list 4 unit (λ c (w : unit), Some (0, c, w)) 3 2
    [Accept 7 [0; 0; 0; 0]; Accept 8 [0; 0; 0; 0]; OnConn 0 (mk_revents false true true None (Some [1]))] tt ltac:(lia)) as H.
  destruct (port_run _ _ _ _ _) as [[p w]|] eqn:E; [|vm_compute in E; discriminate E].
  vm_compute in E. injection E as <- <-. vm_compute. reflexivity.
Defined.
