(* ===== verification/StreamCh.v ===== *)
(** lib/beep/beep_stream_ch.c: the stream channel, on which a controller sends
    tracks to a player.  A packet is a command word and up to seven words of
    data, in network order on the wire, behind some of them a payload; the
    receiver works as a callback of the port of Net. *)

From S2P Require Import Prelude Net.

(** ** Packets *)

Abbreviation BEEP_COMM_CMD_CH_TYPE_MASK := 4026531840.
Abbreviation BEEP_COMM_CMD_CH_TYPE_STREAM := 536870912.
Abbreviation BEEP_COMM_CMD_CMD_MASK := 268435455.

Abbreviation CMD_NACK := 0.
Abbreviation CMD_ACK := 1.
Abbreviation CMD_START := 2.
Abbreviation CMD_ST_END := 3.
Abbreviation CMD_SYNC_PT := 4.
Abbreviation CMD_BUFFER := 5.
Abbreviation CMD_ST_BEGIN := 6.
Abbreviation CMD_SYNC_DATA := 7.
Abbreviation CMD_SYNC_TO := 8.
Abbreviation CMD_SYNC_WAIT := 9.
Abbreviation CMD_FLUSH := 10.

(** The flags of a command. *)
Record packet_flags := mk_flags { FLAGS_RESPONSE : bool; FLAGS_DBG_PRINT : bool; FLAGS_VAR_SIZE : bool }.

Definition MAX_SEND_SIZE : Z := 256 * 1024 + 1024.

(** BeepStreamChPacket: the command, then the words of the union. *)
Abbreviation packet := (list Z).
Definition word (n : nat) (p : packet) : Z := default 0 (p !! n).

Definition gen_new_id (old_id : Z) : Z := u32 (old_id + 1).

(** The size of the command and its data; 0 for an unknown command.  The sizes
    of the structs: BeepStreamChBuffer 8, BeepStreamChSyncTo 12 with the
    padding behind its [data]. *)
Definition stream_ch_packet_size (cmd : Z) : Z :=
  if (cmd =? CMD_NACK) || (cmd =? CMD_ACK) || (cmd =? CMD_SYNC_WAIT) then 0 + 4
  else if cmd =? CMD_FLUSH then 4 + 4
  else if cmd =? CMD_ST_BEGIN then 28 + 4
  else if (cmd =? CMD_START) || (cmd =? CMD_ST_END) then 4 + 4
  else if cmd =? CMD_SYNC_PT then 8 + 4
  else if cmd =? CMD_BUFFER then 8 - 4 + 4
  else if cmd =? CMD_SYNC_TO then 12 + 4
  else if cmd =? CMD_SYNC_DATA then 4 + 4
  else 0.

Definition stream_ch_packet_var_size (p : packet) : Z :=
  let cmd := word 0 p in
  if cmd =? CMD_BUFFER then s32 (word 1 p)
  else if cmd =? CMD_SYNC_DATA then s32 (word 1 p)
  else if cmd =? CMD_SYNC_TO then s32 (word 2 p)
  else 0.

Definition stream_ch_packet_flags (cmd : Z) : packet_flags :=
  if cmd =? CMD_START then mk_flags false true false
  else if cmd =? CMD_ST_END then mk_flags false true false
  else if cmd =? CMD_SYNC_PT then mk_flags true true false
  else if cmd =? CMD_BUFFER then mk_flags false false true
  else if cmd =? CMD_ST_BEGIN then mk_flags false true false
  else if cmd =? CMD_SYNC_DATA then mk_flags true false true
  else if cmd =? CMD_SYNC_TO then mk_flags true true true
  else if cmd =? CMD_SYNC_WAIT then mk_flags true true false
  else if cmd =? CMD_FLUSH then mk_flags false true false
  else mk_flags false false false.

(** ** The sender *)

Inductive stream_ch_state := STREAM_CH_CLOSED | STREAM_CH_CONN_CONNECTING | STREAM_CH_CONN_CONNECTED | STREAM_CH_CONN_LISTEN | STREAM_CH_WAIT_CLOSE.

#[export] Instance stream_ch_state_eq : EqDecision stream_ch_state.
Proof. solve_decision. Defined.

(** BeepStreamChCtx of a sender. *)
Record ctx := mk_ctx { ctx_state : stream_ch_state; ctx_sockfd : Z; ctx_errors : Z; ctx_id : Z; ctx_seq : Z }.

Definition zero_ctx : ctx := mk_ctx STREAM_CH_CLOSED 0 0 0 0.
Definition set_state s c := mk_ctx s (ctx_sockfd c) (ctx_errors c) (ctx_id c) (ctx_seq c).
Definition set_sockfd fd c := mk_ctx (ctx_state c) fd (ctx_errors c) (ctx_id c) (ctx_seq c).
Definition set_id i c := mk_ctx (ctx_state c) (ctx_sockfd c) (ctx_errors c) i (ctx_seq c).
Definition set_seq n c := mk_ctx (ctx_state c) (ctx_sockfd c) (ctx_errors c) (ctx_id c) n.

(** [sockfd] is what usock returns; the callback comes later, when the
    connection is made or has failed. *)
Definition stream_ch_connect (sockfd : Z) : Z * ctx :=
  if sockfd <? 0 then (0, set_sockfd 0 zero_ctx) else (1, set_state STREAM_CH_CONN_CONNECTING (set_sockfd sockfd zero_ctx)).
Definition on_usock_connect_done (success : bool) (c : ctx) : ctx := if success then set_state STREAM_CH_CONN_CONNECTED c else c.
Definition stream_ch_disconnect (c : option ctx) : option ctx :=
  (λ c, if bool_decide (ctx_state c = STREAM_CH_CONN_CONNECTED) then set_state STREAM_CH_CLOSED c else c) <$> c.

(** What the socket does for a send: the bytes that ustream_write takes, and
    what _beep_recv_amount receives when an answer is waited for. *)
Record socket := mk_socket { write_ret : list Z → Z; response : option (list Z) }.

(** Result 1 or 0 with the bytes handed to the socket; [None] when the
    assertion fails or the payload is copied with a negative size. *)
Definition stream_ch_send_packet (so : socket) (p : packet) (var_data : option (list Z)) (var_size : Z) : option (Z * list Z) :=
  let flags := stream_ch_packet_flags (word 0 p) in
  let size := stream_ch_packet_size (word 0 p) in
  if MAX_SEND_SIZE <? size + var_size then None else
  let t_packet := take (Z.to_nat (size / 4)) (<[0%nat := Z.lor (word 0 p) BEEP_COMM_CMD_CH_TYPE_STREAM]> p) in
  let send_buf := concat (be32 <$> t_packet) in
  send_buf ← (match var_data with
    | None => Some send_buf
    | Some data => if (var_size <? 0) || (Z.of_nat (length data) <? var_size) then None
                   else Some (send_buf ++ take (Z.to_nat var_size) data)
    end);
  let ret := write_ret so send_buf in
  if negb (ret =? Z.of_nat (length send_buf)) then Some (0, send_buf) else
  let ret :=
    if FLAGS_RESPONSE flags then
      match response so with
      | None => 0
      | Some r => c_bool (get32 r 0 =? Z.lor CMD_ACK BEEP_COMM_CMD_CH_TYPE_STREAM)
      end
    else 1 in
  Some (ret, send_buf).

(** Every call refuses a missing or unconnected context. *)
Definition connected (c : option ctx) (f : ctx → option (Z * ctx * list Z)) : option (Z * option ctx * list Z) :=
  match c with
  | None => Some (0, None, [])
  | Some x => if bool_decide (ctx_state x = STREAM_CH_CONN_CONNECTED) then '(r, y, l) ← f x; Some (r, Some y, l) else Some (0, c, [])
  end.

Definition plain_send (so : socket) (p : packet) (c : ctx) : option (Z * ctx * list Z) :=
  '(r, l) ← stream_ch_send_packet so p None 0; Some (r, c, l).

(** memset and the words that are set. *)
Definition new_packet (ws : list Z) : packet := ws ++ replicate (8 - length ws) 0.

(** [id] is [None] for NULL; the result has the id that was used. *)
Definition stream_ch_start (so : socket) (c : option ctx) (id : option Z) : option (Z * option ctx * list Z) :=
  connected c (λ c,
    let new_id := match id with None | Some 0 => gen_new_id (ctx_id c) | Some i => i end in
    '(r, l) ← stream_ch_send_packet so (new_packet [CMD_START; new_id]) None 0;
    Some (if r =? 0 then (0, c, l) else (1, set_seq 0 (set_id new_id c), l))).

Definition stream_ch_st_end so (c : option ctx) :=
  connected c (λ c,
    '(r, l) ← stream_ch_send_packet so (new_packet [CMD_ST_END; ctx_id c]) None 0;
    Some (if r =? 0 then (0, c, l) else (1, c, l))).
Definition stream_ch_sync_pt so (c : option ctx) :=
  connected c (λ c, let c := set_seq (u32 (ctx_seq c + 1)) c in
    plain_send so (new_packet [CMD_SYNC_PT; ctx_id c; ctx_seq c]) c).
Definition stream_ch_buffer so (c : option ctx) (payload : list Z) (size : Z) :=
  connected c (λ c, '(r, l) ← stream_ch_send_packet so (new_packet [CMD_BUFFER; u32 size]) (Some payload) size; Some (r, c, l)).
Definition stream_ch_st_begin so (c : option ctx) (audio_type transition_type transition_period replay_gain output_threshold polarity_inversion output_channels : Z) :=
  connected c (plain_send so (new_packet [CMD_ST_BEGIN; audio_type; transition_type; transition_period; replay_gain;
    output_threshold; polarity_inversion; output_channels])).
Definition stream_ch_flush so (c : option ctx) (set_cookie : Z) :=
  connected c (plain_send so (new_packet [CMD_FLUSH; u32 set_cookie])).
Definition stream_ch_sync_data so (c : option ctx) (payload : list Z) (size : Z) :=
  connected c (λ c, '(r, l) ← stream_ch_send_packet so (new_packet [CMD_SYNC_DATA; u32 size]) (Some payload) size; Some (r, c, l)).
(** [host] with the zero byte that ends it; [None] for NULL. *)
Definition stream_ch_sync_to so (c : option ctx) (host : option (list Z)) :=
  match host with
  | None => Some (0, c, [])
  | Some host =>
      connected c (λ c, let size := Z.of_nat (length host) in
        '(r, l) ← stream_ch_send_packet so (new_packet [CMD_SYNC_TO; 0; u32 size]) (Some host) size; Some (r, c, l))
  end.
Definition stream_ch_sync_wait so (c : option ctx) := connected c (plain_send so (new_packet [CMD_SYNC_WAIT])).

(** ** The receiver *)

(** BeepStreamChEvents.  A payload is the [size] bytes at the pointer, [None]
    when they are not all in the buffer of the connection. *)
Record events (W : Type) := mk_events {
  on_start : option (Z → W → option (Z * W));
  on_st_end : option (Z → W → option (Z * W));
  on_sync_pt : option (Z → Z → W → option (Z * W));
  on_buffer : option (Z → option (list Z) → Z → W → option (Z * W));
  on_st_begin : option (Z → Z → Z → Z → Z → Z → Z → W → option (Z * W));
  on_flush : option (Z → W → option (Z * W));
  on_sync_data : option (Z → option (list Z) → Z → W → option (Z * W));
  on_sync_to : option (Z → Z → option (list Z) → Z → W → option (Z * W));
  on_sync_wait : option (W → option (Z * W))
}.
Arguments mk_events {W}. Arguments on_start {W}. Arguments on_st_end {W}. Arguments on_sync_pt {W}.
Arguments on_buffer {W}. Arguments on_st_begin {W}. Arguments on_flush {W}. Arguments on_sync_data {W}.
Arguments on_sync_to {W}. Arguments on_sync_wait {W}.

Section Receiver.
Context (SIZE : Z) {W : Type} (ev : events W).

(** [if (ctx->events.on_... == NULL) goto on_packet_unregistered;] *)
Definition call {F} (h : option F) (f : F → W → option (Z * W)) (w : W) : option (Z * W) :=
  match h with None => Some (0, w) | Some h => f h w end.

(** The answer, the errors counted in the context and the handlers' state. *)
Definition stream_ch_on_packet (p : packet) (var_data : option (list Z)) (var_size : Z) (s : Z * W) : option (Z * (Z * W)) :=
  let '(errors, w) := s in
  let cmd := word 0 p in
  let event (r : option (Z * W)) := '(ret, w) ← r; Some (ret, (errors, w)) in
  if cmd =? CMD_START then event (call (on_start ev) (λ h, h (word 1 p)) w)
  else if cmd =? CMD_ST_END then event (call (on_st_end ev) (λ h, h (word 1 p)) w)
  else if cmd =? CMD_SYNC_PT then event (call (on_sync_pt ev) (λ h, h (word 1 p) (word 2 p)) w)
  else if cmd =? CMD_BUFFER then event (call (on_buffer ev) (λ h, h (word 1 p) var_data var_size) w)
  else if cmd =? CMD_ST_BEGIN then
    event (call (on_st_begin ev) (λ h, h (word 1 p) (word 2 p) (word 3 p) (word 4 p) (word 5 p) (word 6 p) (word 7 p)) w)
  else if cmd =? CMD_FLUSH then event (call (on_flush ev) (λ h, h (word 1 p)) w)
  else if cmd =? CMD_SYNC_DATA then event (call (on_sync_data ev) (λ h, h (word 1 p) var_data var_size) w)
  else if cmd =? CMD_SYNC_TO then event (call (on_sync_to ev) (λ h, h (word 1 p) (word 2 p) var_data var_size) w)
  else if cmd =? CMD_SYNC_WAIT then event (call (on_sync_wait ev) (λ h, h) w)
  else Some (0, (s32 (errors + 1), w)).

(** The payload behind the first [req_size] bytes of the buffer. *)
Definition payload (buf : list Z) (req_size var_size : Z) : option (list Z) :=
  if (0 <=? var_size) && (req_size + var_size <=? Z.of_nat (length buf))
  then Some (take (Z.to_nat var_size) (drop (Z.to_nat req_size) buf)) else None.

Definition stream_error (errors : Z) (w : W) (read_size : Z) (c : conn) : option (Z * conn * (Z * W)) :=
  Some (read_size, c, (s32 (errors + 1), w)).

Definition stream_ch_on_recv (c : conn) (s : Z * W) : option (Z * conn * (Z * W)) :=
  let '(errors, w) := s in
  let '(read_size, buf) := beep_net_read c 4 in
  if negb (read_size =? 4) then Some (0, c, s) else
  let cmd := get32 buf 0 in
  if negb (Z.land cmd BEEP_COMM_CMD_CH_TYPE_MASK =? BEEP_COMM_CMD_CH_TYPE_STREAM) then stream_error errors w read_size c else
  let cmd := Z.land cmd BEEP_COMM_CMD_CMD_MASK in
  let req_size := stream_ch_packet_size cmd in
  if req_size =? 0 then stream_error errors w read_size c else
  let '(read_size, buf) := beep_net_read c req_size in
  if negb (read_size =? req_size) then Some (0, c, s) else
  let p := cmd :: ((λ k, get32 buf (4 * k)) <$> seq 1 (Z.to_nat (read_size / 4) - 1)) in
  let flags := stream_ch_packet_flags cmd in
  let var_size := if FLAGS_VAR_SIZE flags then stream_ch_packet_var_size p else 0 in
  let total := s32 (req_size + var_size) in
  let '(read_size, buf) := if FLAGS_VAR_SIZE flags then beep_net_read c total else (read_size, buf) in
  if FLAGS_VAR_SIZE flags && negb (read_size =? total) then Some (0, c, s) else
  '(response, s) ← stream_ch_on_packet p (payload buf req_size var_size) var_size s;
  c ← (if FLAGS_RESPONSE flags
       then beep_respond SIZE c (be32 (Z.lor (if response =? 0 then CMD_NACK else CMD_ACK) BEEP_COMM_CMD_CH_TYPE_STREAM))
       else Some c);
  Some (read_size, c, s).
End Receiver.

(** With a context and events given: the port of a receiver and the errors of
    its cleared context. *)
Definition stream_ch_listen (listen_fd : Z) : port_state * Z := (port_state_new listen_fd MAX_CONNECTIONS, 0).
