(* ===== verification/StreamChProps.v ===== *)
(** The stream channel keeps the contract of a message callback, so that what
    a sender hands to its socket is what the handlers of the receiver get. *)

From S2P Require Import Prelude Net NetProps StreamCh.

(** ** Words in a buffer *)

Definition words (ws : list Z) : list Z := concat (be32 <$> ws).

Lemma length_net_words ws : length (words ws) = (4 * length ws)%nat.
Proof. induction ws as [|w ws IH]; [done|]. unfold words in *. cbn. rewrite IH. lia. Qed.

Lemma words_app ws1 ws2 : words (ws1 ++ ws2) = words ws1 ++ words ws2.
Proof. unfold words. by rewrite fmap_app, concat_app. Qed.

Lemma get32_skip l1 l2 n : get32 (l1 ++ l2) (length l1 + n) = get32 l2 n.
Proof. unfold get32, get16. rewrite <- !Nat.add_assoc. rewrite !lookup_total_app_r by lia. repeat f_equal; lia. Qed.

Lemma get32_front l1 l2 n : (n + 4 <= length l1)%nat → get32 (l1 ++ l2) n = get32 l1 n.
Proof. intros H. unfold get32, get16. by rewrite !lookup_total_app_l by lia. Qed.

Lemma get32_words ws tl k x : ws !! k = Some x → is_u32 x → get32 (words ws ++ tl) (4 * k) = x.
Proof.
  intros H Hx. rewrite <- (take_drop_middle ws k x H), words_app.
  replace (words (x :: drop (S k) ws)) with (be32 x ++ words (drop (S k) ws)) by done.
  rewrite <- !app_assoc. pose proof (lookup_lt_Some _ _ _ H).
  replace (4 * k)%nat with (length (words (take k ws)) + 0)%nat by (rewrite length_net_words, length_take; lia).
  rewrite get32_skip, get32_front by (rewrite length_be32; lia). rewrite get32_be32. by apply u32_small.
Qed.

Lemma get32_first x ws : is_u32 x → get32 (words (x :: ws)) 0 = x.
Proof. intros Hx. rewrite <- (app_nil_r (words _)). by apply (get32_words (x :: ws) [] 0). Qed.

Lemma read_words ws tl n : length ws = n → Forall is_u32 ws →
  (λ k, get32 (words ws ++ tl) (4 * k)) <$> seq 0 n = ws.
Proof.
  intros <- Hws. apply list_eq. intros i. rewrite list_lookup_fmap. destruct (ws !! i) as [x|] eqn:E.
  - pose proof (lookup_lt_Some _ _ _ E). rewrite lookup_seq_lt by done. cbn [fmap option_fmap option_map].
    f_equal. apply get32_words; [done|]. by eapply Forall_lookup_1.
  - apply lookup_ge_None in E. by rewrite lookup_seq_ge by done.
Qed.

(** ** Messages *)

Inductive message :=
  | Start (id : Z)
  | StEnd (id : Z)
  | SyncPt (id seq : Z)
  | Buffer (data : list Z)
  | StBegin (type transition_type transition_period replay_gain output_threshold polarity_inversion output_channels : Z)
  | Flush (set_cookie : Z)
  | SyncData (data : list Z)
  | SyncTo (sync_mtu : Z) (host : list Z) (padding : Z)
  | SyncWait.

Definition cmd_of (m : message) : Z :=
  match m with
  | Start _ => CMD_START | StEnd _ => CMD_ST_END | SyncPt _ _ => CMD_SYNC_PT | Buffer _ => CMD_BUFFER
  | StBegin _ _ _ _ _ _ _ => CMD_ST_BEGIN | Flush _ => CMD_FLUSH | SyncData _ => CMD_SYNC_DATA
  | SyncTo _ _ _ => CMD_SYNC_TO | SyncWait => CMD_SYNC_WAIT
  end.
Definition data_of (m : message) : list Z :=
  match m with
  | Start id | StEnd id => [id]
  | SyncPt id seq => [id; seq]
  | Buffer l | SyncData l => [Z.of_nat (length l)]
  | StBegin a b c d e f g => [a; b; c; d; e; f; g]
  | Flush k => [k]
  | SyncTo mtu l pad => [mtu; Z.of_nat (length l); pad]
  | SyncWait => []
  end.
Definition payload_of (m : message) : list Z := match m with Buffer l | SyncData l | SyncTo _ l _ => l | _ => [] end.
Definition answered (m : message) : bool := match m with SyncPt _ _ | SyncData _ | SyncTo _ _ _ | SyncWait => true | _ => false end.

Definition header (m : message) : list Z := words (Z.lor (cmd_of m) BEEP_COMM_CMD_CH_TYPE_STREAM :: data_of m).
Definition wire_of (m : message) : list Z := header m ++ payload_of m.

Lemma length_header m : Z.of_nat (length (header m)) = stream_ch_packet_size (cmd_of m).
Proof. unfold header. rewrite length_net_words. by destruct m. Qed.

Section Channel.
Context (SIZE : Z) {W : Type} (ev : events W).

(** The fields are words and the size of the whole is an [int]. *)
Definition message_ok (m : message) : Prop := Forall is_u32 (data_of m) ∧ Z.of_nat (length (wire_of m)) < 2 ^ 31.
Definition message_valid (m : message) : Prop := message_ok m ∧ Z.of_nat (length (wire_of m)) <= SIZE.

(** The handler of a message. *)
Definition deliver (m : message) (w : W) : option (Z * W) :=
  match m with
  | Start id => call (on_start ev) (λ h, h id) w
  | StEnd id => call (on_st_end ev) (λ h, h id) w
  | SyncPt id seq => call (on_sync_pt ev) (λ h, h id seq) w
  | Buffer l => call (on_buffer ev) (λ h, h (Z.of_nat (length l)) (Some l) (Z.of_nat (length l))) w
  | StBegin a b c d e f g => call (on_st_begin ev) (λ h, h a b c d e f g) w
  | Flush k => call (on_flush ev) (λ h, h k) w
  | SyncData l => call (on_sync_data ev) (λ h, h (Z.of_nat (length l)) (Some l) (Z.of_nat (length l))) w
  | SyncTo mtu l _ => call (on_sync_to ev) (λ h, h mtu (Z.of_nat (length l)) (Some l) (Z.of_nat (length l))) w
  | SyncWait => call (on_sync_wait ev) (λ h, h) w
  end.

Definition answer (m : message) (ret : Z) : list Z :=
  if answered m then be32 (Z.lor (if ret =? 0 then CMD_NACK else CMD_ACK) BEEP_COMM_CMD_CH_TYPE_STREAM) else [].

Definition handle_message (m : message) (s : Z * W) : option (list Z * (Z * W)) :=
  '(ret, w) ← deliver m s.2; Some (answer m ret, (s.1, w)).

(** A message's command and flags, as the receiver finds them. *)
Lemma cmd_word m : is_u32 (Z.lor (cmd_of m) BEEP_COMM_CMD_CH_TYPE_STREAM)
  ∧ Z.land (Z.lor (cmd_of m) BEEP_COMM_CMD_CH_TYPE_STREAM) BEEP_COMM_CMD_CH_TYPE_MASK = BEEP_COMM_CMD_CH_TYPE_STREAM
  ∧ Z.land (Z.lor (cmd_of m) BEEP_COMM_CMD_CH_TYPE_STREAM) BEEP_COMM_CMD_CMD_MASK = cmd_of m.
Proof. by destruct m. Qed.

Lemma packet_of m : FLAGS_RESPONSE (stream_ch_packet_flags (cmd_of m)) = answered m
  ∧ stream_ch_packet_size (cmd_of m) = 4 * Z.of_nat (S (length (data_of m)))
  ∧ (message_ok m → (if FLAGS_VAR_SIZE (stream_ch_packet_flags (cmd_of m))
                        then stream_ch_packet_var_size (cmd_of m :: data_of m) else 0) = Z.of_nat (length (payload_of m)))
  ∧ (FLAGS_VAR_SIZE (stream_ch_packet_flags (cmd_of m)) = false → payload_of m = []).
Proof.
  split; [by destruct m|]. split; [by destruct m|]. split; [|by destruct m].
  intros [_ H]. unfold wire_of in H. rewrite length_app in H. destruct m; try reflexivity;
    cbn [cmd_of data_of payload_of] in *; cbn - [s32 Z.of_nat length]; unfold s32; rewrite Z.mod_small; lia.
Qed.

Lemma on_packet_deliver m errors w :
  stream_ch_on_packet ev (cmd_of m :: data_of m) (Some (payload_of m)) (Z.of_nat (length (payload_of m))) (errors, w)
  = ('(ret, w) ← deliver m w; Some (ret, (errors, w))).
Proof. by destruct m. Qed.

(** The connection's bytes are those of [m], as far as they have arrived. *)
Definition starts_with (c : conn) (m : message) : Prop :=
  ∀ n, Z.of_nat n + 4 <= c_cursor c → (n + 4 <= length (header m))%nat → get32 (c_buffer c) n = get32 (header m) n.

Lemma header_words m c : message_ok m → starts_with c m → Z.of_nat (length (header m)) <= c_cursor c →
  (λ k, get32 (c_buffer c) (4 * k)) <$> seq 1 (length (data_of m)) = data_of m.
Proof.
  intros [Hd _] Hs Hc. pose proof (cmd_word m) as (Hu & _).
  pose proof (read_words (Z.lor (cmd_of m) BEEP_COMM_CMD_CH_TYPE_STREAM :: data_of m) [] _ eq_refl (Forall_cons_2 _ _ _ Hu Hd)) as H.
  cbn [length seq fmap list_fmap] in H. injection H as _ H. etrans; [|apply H].
  rewrite app_nil_r. apply list_fmap_ext. intros i k Hk. apply lookup_seq in Hk as [-> Hk].
  unfold header in *. rewrite length_net_words in Hc. cbn [length] in Hc. apply Hs; unfold header; rewrite ?length_net_words; cbn [length]; lia.
Qed.

Lemma on_recv_spec m c errors w : message_ok m → starts_with c m →
  stream_ch_on_recv SIZE ev c (errors, w) =
  if c_cursor c <? Z.of_nat (length (wire_of m)) then Some (0, c, (errors, w)) else
  '(ret, s) ← stream_ch_on_packet ev (cmd_of m :: data_of m)
                (payload (c_buffer c) (stream_ch_packet_size (cmd_of m)) (Z.of_nat (length (payload_of m))))
                (Z.of_nat (length (payload_of m))) (errors, w);
  c ← (if answered m
       then beep_respond SIZE c (be32 (Z.lor (if ret =? 0 then CMD_NACK else CMD_ACK) BEEP_COMM_CMD_CH_TYPE_STREAM)) else Some c);
  Some (Z.of_nat (length (wire_of m)), c, s).
Proof.
  intros Hv Hs. pose proof (cmd_word m) as (Hu & Htype & Hcmd). pose proof (packet_of m) as (Hresp & Hreq & Hvar & Hnovar).
  pose proof (length_header m) as Hlen. specialize (Hvar Hv).
  assert (Hw : Z.of_nat (length (wire_of m)) = stream_ch_packet_size (cmd_of m) + Z.of_nat (length (payload_of m))).
  { unfold wire_of. rewrite length_app. lia. }
  pose proof (proj2 Hv) as Hsz. unfold stream_ch_on_recv, beep_net_read.
  destruct (c_cursor c <? 4) eqn:E4; bool_prop.
  { cbn. by rewrite (proj2 (Z.ltb_lt _ _)) by lia. }
  rewrite Z.eqb_refl. cbn [negb]. rewrite (Hs 0%nat) by lia.
  unfold header. rewrite (get32_first _ _ Hu), Htype, Hcmd, Z.eqb_refl. cbn [negb].
  rewrite (proj2 (Z.eqb_neq (stream_ch_packet_size _) 0)) by lia.
  destruct (c_cursor c <? stream_ch_packet_size (cmd_of m)) eqn:Er; bool_prop.
  { rewrite (proj2 (Z.eqb_neq 0 _)) by lia. cbn [negb]. by rewrite (proj2 (Z.ltb_lt _ _)) by lia. }
  rewrite Z.eqb_refl. cbn [negb].
  replace (Z.to_nat (stream_ch_packet_size (cmd_of m) / 4) - 1)%nat with (length (data_of m)) by (rewrite Hreq, Z.mul_comm, Z.div_mul; lia).
  rewrite (header_words m c Hv Hs) by lia. rewrite Hresp, Hvar.
  assert (Hs32 : s32 (stream_ch_packet_size (cmd_of m) + Z.of_nat (length (payload_of m))) = Z.of_nat (length (wire_of m))).
  { rewrite <- Hw. unfold s32. rewrite Z.mod_small; lia. }
  rewrite Hs32. destruct (FLAGS_VAR_SIZE _) eqn:Ev; cbn [andb].
  - destruct (c_cursor c <? Z.of_nat (length (wire_of m))) eqn:Ew; bool_prop.
    + by rewrite (proj2 (Z.eqb_neq 0 _)) by lia.
    + by rewrite Z.eqb_refl.
  - rewrite (Hnovar eq_refl) in *. cbn [length Z.of_nat] in *. rewrite Z.add_0_r in Hw. by rewrite Hw, (proj2 (Z.ltb_ge _ _)) by lia.
Qed.

Lemma starts_whole m c tl : conn_ok SIZE c → received c = wire_of m ++ tl →
  starts_with c m ∧ Z.of_nat (length (wire_of m)) <= c_cursor c ∧ ∃ tl', c_buffer c = header m ++ payload_of m ++ tl'.
Proof.
  intros Hok Hr. assert (Hb : c_buffer c = header m ++ payload_of m ++ tl ++ drop (Z.to_nat (c_cursor c)) (c_buffer c)).
  { rewrite <- (take_drop (Z.to_nat (c_cursor c)) (c_buffer c)) at 1. unfold received in Hr. rewrite Hr.
    unfold wire_of. by rewrite <- !app_assoc. }
  split_and!.
  - intros n _ Hn. rewrite Hb. by apply get32_front.
  - rewrite <- (length_received SIZE c Hok), Hr, length_app. lia.
  - eexists. exact Hb.
Qed.

Lemma starts_part m c : conn_ok SIZE c → received c `prefix_of` wire_of m → starts_with c m.
Proof.
  intros Hok [k Hk] n Hc Hn. pose proof (length_received SIZE c Hok) as Hl.
  rewrite <- (take_drop (Z.to_nat (c_cursor c)) (c_buffer c)). fold (received c). rewrite get32_front by lia.
  rewrite <- (get32_front _ k), <- Hk by lia. unfold wire_of. by apply get32_front.
Qed.

#[export, program] Instance stream_messages : Messages SIZE (stream_ch_on_recv SIZE ev) message := {|
  wire := wire_of; valid := message_valid; handle_msg := handle_message
|}.
Next Obligation.
  intros m [_ H]. split; [|done]. unfold wire_of. rewrite length_app, Nat2Z.inj_add, length_header.
  pose proof (packet_of m) as (_ & -> & _). lia.
Qed.
Next Obligation.
  intros m c [errors w] tl a s' Hv Hok Hr Ha. destruct (starts_whole m c tl Hok Hr) as (Hs & Hc & tl' & Hb).
  rewrite (on_recv_spec m c errors w (proj1 Hv) Hs), (proj2 (Z.ltb_ge _ _)) by lia. unfold payload. rewrite Hb, <- length_header.
  rewrite (proj2 (Z.leb_le _ _)), (proj2 (Z.leb_le _ _)) by (rewrite ?length_app; lia). cbn [andb].
  rewrite !Nat2Z.id, drop_app_length, take_app_length, on_packet_deliver.
  unfold handle_message in Ha. cbn [fst snd] in Ha. destruct (deliver m w) as [[ret w1]|]; cbn in Ha; [|done].
  injection Ha as <- <-. cbn. unfold answer. by destruct (answered m).
Qed.
Next Obligation.
  intros m c [errors w] Hv Hok Hp Hne. rewrite (on_recv_spec m c errors w (proj1 Hv)) by by apply starts_part.
  rewrite (proj2 (Z.ltb_lt _ _)); [done|]. rewrite <- (length_received SIZE c Hok). destruct Hp as [k Hk].
  rewrite Hk, length_app. destruct k; [|cbn; lia]. by rewrite app_nil_r in Hk.
Qed.
End Channel.
