(* ===== verification/StreamChThrough.v ===== *)
(** From the calls of a sender on the stream channel to the handlers of the
    receiver, and what the receiver does with sizes that are out of range. *)

From S2P Require Import Prelude Net NetProps NetPort StreamCh StreamChProps.

(** ** The sender's calls *)

Inductive send_call :=
  | SendStart (id : option Z)
  | SendStEnd
  | SendSyncPt
  | SendBuffer (payload : list Z)
  | SendStBegin (type transition_type transition_period replay_gain output_threshold polarity_inversion output_channels : Z)
  | SendFlush (set_cookie : Z)
  | SendSyncData (payload : list Z)
  | SendSyncTo (host : list Z)
  | SendSyncWait.

Definition send_by (so : socket) (q : send_call) (c : option ctx) : option (Z * option ctx * list Z) :=
  match q with
  | SendStart id => stream_ch_start so c id
  | SendStEnd => stream_ch_st_end so c
  | SendSyncPt => stream_ch_sync_pt so c
  | SendBuffer l => stream_ch_buffer so c l (Z.of_nat (length l))
  | SendStBegin a b d e f g h => stream_ch_st_begin so c a b d e f g h
  | SendFlush k => stream_ch_flush so c k
  | SendSyncData l => stream_ch_sync_data so c l (Z.of_nat (length l))
  | SendSyncTo l => stream_ch_sync_to so c (Some l)
  | SendSyncWait => stream_ch_sync_wait so c
  end.

(** The calls one after the other: the context and all that was sent. *)
Fixpoint send_all (so : socket) (qs : list send_call) (c : option ctx) : option (option ctx * list Z) :=
  match qs with
  | [] => Some (c, [])
  | q :: qs' => '(_, c, l) ← send_by so q c; '(c, l') ← send_all so qs' c; Some (c, l ++ l')
  end.

(** The message a call sends, with the context it leaves. *)
Definition message_sent (q : send_call) (c : ctx) : message * ctx :=
  match q with
  | SendStart id =>
      let new_id := match id with None | Some 0 => gen_new_id (ctx_id c) | Some i => i end in
      (Start new_id, set_seq 0 (set_id new_id c))
  | SendStEnd => (StEnd (ctx_id c), c)
  | SendSyncPt => (SyncPt (ctx_id c) (u32 (ctx_seq c + 1)), set_seq (u32 (ctx_seq c + 1)) c)
  | SendBuffer l => (Buffer l, c)
  | SendStBegin a b d e f g h => (StBegin a b d e f g h, c)
  | SendFlush k => (Flush (u32 k), c)
  | SendSyncData l => (SyncData l, c)
  | SendSyncTo l => (SyncTo 0 l 0, c)
  | SendSyncWait => (SyncWait, c)
  end.

Fixpoint messages_sent (qs : list send_call) (c : ctx) : list message :=
  match qs with
  | [] => []
  | q :: qs' => let '(m, c) := message_sent q c in m :: messages_sent qs' c
  end.

(** Arguments that are words of the packet, and a payload of at most [limit]
    bytes with its header. *)
Definition call_ok (limit : Z) (q : send_call) : Prop :=
  match q with
  | SendStart (Some i) => is_u32 i
  | SendBuffer l | SendSyncData l => Z.of_nat (length l) + 8 <= limit
  | SendSyncTo l => Z.of_nat (length l) + 16 <= limit
  | SendStBegin a b d e f g h => Forall is_u32 [a; b; d; e; f; g; h]
  | _ => True
  end.

Definition ready (c : ctx) : Prop := ctx_state c = STREAM_CH_CONN_CONNECTED ∧ is_u32 (ctx_id c) ∧ is_u32 (ctx_seq c).

(** A socket that takes all of what it is given. *)
Definition writes_all (so : socket) : Prop := ∀ l, write_ret so l = Z.of_nat (length l).

(** ** What is sent *)

Lemma send_packet_ok so p var_data size : writes_all so → size = stream_ch_packet_size (word 0 p) →
  size + Z.of_nat (length (default [] var_data)) <= MAX_SEND_SIZE →
  ∃ ret, stream_ch_send_packet so p var_data (Z.of_nat (length (default [] var_data)))
    = Some (ret, words (take (Z.to_nat (size / 4)) (<[0%nat := Z.lor (word 0 p) BEEP_COMM_CMD_CH_TYPE_STREAM]> p)) ++ default [] var_data)
    ∧ (FLAGS_RESPONSE (stream_ch_packet_flags (word 0 p)) = false → ret = 1).
Proof.
  intros Hso -> Hl. unfold stream_ch_send_packet. rewrite (proj2 (Z.ltb_ge _ _)) by lia.
  destruct var_data as [data|]; cbn [default id] in *.
  - rewrite (proj2 (Z.ltb_ge _ 0)), Z.ltb_irrefl by lia. cbn [orb mbind option_bind]. rewrite Nat2Z.id, firstn_all, Hso, Z.eqb_refl.
    cbn [negb]. eexists. split; [reflexivity|]. by intros ->.
  - cbn [mbind option_bind]. rewrite Hso, Z.eqb_refl, app_nil_r. cbn [negb]. eexists. split; [reflexivity|]. by intros ->.
Qed.

Lemma message_sent_ready q c limit : ready c → call_ok limit q → ready (message_sent q c).2.
Proof.
  intros (Hs & Hi & Hn) Hq. assert (is_u32 (gen_new_id (ctx_id c))) by apply u32_range.
  destruct q; cbn; unfold ready; cbn; split_and!; try done; try apply u32_range; try (split; lia).
  destruct id as [[]|]; try done.
Qed.

Lemma message_sent_ok q c limit : ready c → call_ok limit q → 32 <= limit < 2 ^ 31 →
  message_ok (message_sent q c).1 ∧ Z.of_nat (length (wire_of (message_sent q c).1)) <= limit.
Proof.
  intros (Hs & Hi & Hn) Hq Hl.
  assert (Hlen : Z.of_nat (length (wire_of (message_sent q c).1)) <= limit).
  { unfold wire_of. rewrite length_app, Nat2Z.inj_add, length_header.
    destruct q as [[]| | | | | | | |]; cbn in *; lia. }
  split; [|done]. split; [|lia].
  destruct q as [[[]|]| | |l| | |l|l|]; cbn - [u32] in *; repeat (apply Forall_cons; split); try apply Forall_nil; try done;
    try apply u32_range; try (unfold is_u32; lia).
  all: repeat match goal with H : Forall _ (_ :: _) |- _ => apply Forall_cons in H as [??] end; done.
Qed.

Lemma send_plain_ok so p : writes_all so → ∃ ret, stream_ch_send_packet so p None 0
    = Some (ret, words (take (Z.to_nat (stream_ch_packet_size (word 0 p) / 4)) (<[0%nat := Z.lor (word 0 p) BEEP_COMM_CMD_CH_TYPE_STREAM]> p)))
    ∧ (FLAGS_RESPONSE (stream_ch_packet_flags (word 0 p)) = false → ret = 1).
Proof.
  intros Hso. destruct (send_packet_ok so p None _ Hso eq_refl) as (ret & H & Hr).
  - cbn. unfold stream_ch_packet_size, MAX_SEND_SIZE. split_ifs; lia.
  - exists ret. cbn [default] in H. rewrite app_nil_r in H. split; [exact H|done].
Qed.

(** Finds the packet that is sent. *)
Ltac sends Hso :=
  match goal with
  | |- context [stream_ch_send_packet ?so ?p None 0] =>
      let ret := fresh "ret" in let H := fresh "H" in let Hr := fresh "Hr" in
      destruct (send_plain_ok so p Hso) as (ret & H & Hr); rewrite H; try rewrite (Hr eq_refl)
  | |- context [stream_ch_send_packet ?so ?p (Some ?l) _] =>
      let ret := fresh "ret" in let H := fresh "H" in
      destruct (send_packet_ok so p (Some l) _ Hso eq_refl) as (ret & H & _); [cbn in *; lia|]; cbn [default id] in H; rewrite H
  end.

Lemma send_ok so q c limit : writes_all so → ready c → call_ok limit q → 32 <= limit <= MAX_SEND_SIZE →
  ∃ ret, send_by so q (Some c) = Some (ret, Some (message_sent q c).2, wire_of (message_sent q c).1).
Proof.
  intros Hso (Hs & _) Hq Hl.
  assert (Hu : ∀ n, Z.of_nat n + 8 <= limit → u32 (Z.of_nat n) = Z.of_nat n).
  { intros n H. apply u32_small. unfold is_u32, MAX_SEND_SIZE in *. lia. }
  destruct q; cbn [send_by call_ok] in *;
    unfold stream_ch_start, stream_ch_st_end, stream_ch_sync_pt, stream_ch_buffer, stream_ch_st_begin, stream_ch_flush,
      stream_ch_sync_data, stream_ch_sync_to, stream_ch_sync_wait, connected, plain_send;
    rewrite Hs, bool_decide_true by done.
  all: sends Hso; cbn [mbind option_bind]; eexists; unfold wire_of, header; cbn [message_sent fst snd cmd_of data_of payload_of];
    rewrite ?Hu by lia; rewrite ?app_nil_r; reflexivity.
Qed.

Lemma send_all_ok so qs c limit : writes_all so → ready c → Forall (call_ok limit) qs → 32 <= limit <= MAX_SEND_SIZE →
  (∃ c', send_all so qs (Some c) = Some (c', concat (wire_of <$> messages_sent qs c)))
  ∧ Forall (λ m, message_ok m ∧ Z.of_nat (length (wire_of m)) <= limit) (messages_sent qs c).
Proof.
  intros Hso Hc Hqs Hl. revert c Hc. induction Hqs as [|q qs Hq Hqs IH]; intros c Hc.
  - split; [by exists (Some c)|constructor].
  - destruct (send_ok so q c limit Hso Hc Hq Hl) as (ret & Hsend). cbn [send_all messages_sent]. rewrite Hsend. cbn [mbind option_bind].
    destruct (IH (message_sent q c).2) as [(c' & Hall) Hms]; [by eapply message_sent_ready|]. rewrite Hall.
    pose proof (message_sent_ok q c limit Hc Hq ltac:(unfold MAX_SEND_SIZE in *; lia)) as Hm.
    destruct (message_sent q c) as [m c1]. split; [by exists c'|]. by constructor.
Qed.

(** ** From the calls to the handlers *)

(** C6.  What a sender sends on the stream channel is what the receiver's
    handlers get.  For any calls on a connected context, with arguments that
    are words and payloads that with their header fit the buffer of a
    connection, and any way in which the network cuts the bytes and takes the
    answers: the connection stays open, the handlers have run for exactly the
    messages [done_] that have arrived whole, in the order of the calls and
    with the arguments and payloads of the calls (the ids and sequence numbers
    being those of the context), the answers sent and pending are theirs, and
    the bytes that remain are those of the messages that have not been
    handled, of the first of which not everything has been received.  When the
    polls have brought every byte every message has been handled. *)
Theorem stream_channel_delivers SIZE W (ev : events W) so qs cx c errors w sched answers w' :
  32 <= SIZE <= MAX_SEND_SIZE → writes_all so → ready cx → Forall (call_ok SIZE) qs → fresh SIZE c →
  handle_all SIZE (stream_ch_on_recv SIZE ev) (messages_sent qs cx) (errors, w) = Some (answers, w') →
  Z.of_nat (length answers) <= SIZE →
  ∃ cx' bytes, send_all so qs (Some cx) = Some (cx', bytes) ∧
  ∃ done_ todo s, messages_sent qs cx = done_ ++ todo
    ∧ serve SIZE (stream_ch_on_recv SIZE ev) sched (mk_served false c (errors, w) bytes []) = Some s
    ∧ closed s = false
    ∧ handle_all SIZE (stream_ch_on_recv SIZE ev) done_ (errors, w) = Some (sent s ++ pending (s_conn s), s_state s)
    ∧ received (s_conn s) ++ unread s = concat (wire_of <$> todo)
    ∧ match todo with [] => True | m :: _ => (length (received (s_conn s)) < length (wire_of m))%nat end
    ∧ ((length bytes <= reads sched)%nat → todo = [] ∧ s_state s = w').
Proof.
  intros HS Hso Hc Hqs Hf Ha HaN. destruct (send_all_ok so qs cx SIZE Hso Hc Hqs HS) as [(cx' & Hsend) Hms].
  exists cx', (concat (wire_of <$> messages_sent qs cx)). split; [done|].
  destruct (serve_spec SIZE (stream_ch_on_recv SIZE ev) c (errors, w) (messages_sent qs cx) sched answers w')
    as (d & t & a & s & E & Hserve & [Hopen Hok Hcode Hst Hsent Hstr Hpart] & Hend); try done; [lia|].
  exists d, t, s. split_and!; try done; [by rewrite Hsent| |].
  - destruct t as [|m t]; [done|]. destruct Hpart as [[k Hk] Hne]. cbn [wire stream_messages] in Hk, Hne. rewrite Hk, length_app.
    destruct k; [|cbn; lia]. by rewrite app_nil_r in Hk.
  - intros Hlen. by destruct (Hend Hlen) as (-> & -> & _).
Qed.

(** Handlers that log what they get. *)
Definition log_events : events (list message) := mk_events
  (Some (λ id w, Some (1, w ++ [Start id])))
  (Some (λ id w, Some (1, w ++ [StEnd id])))
  (Some (λ id seq w, Some (1, w ++ [SyncPt id seq])))
  (Some (λ _ l _ w, Some (1, w ++ [Buffer (default [] l)])))
  (Some (λ a b c d e f g w, Some (1, w ++ [StBegin a b c d e f g])))
  (Some (λ k w, Some (1, w ++ [Flush k])))
  (Some (λ _ l _ w, Some (1, w ++ [SyncData (default [] l)])))
  (Some (λ mtu _ l _ w, Some (0, w ++ [SyncTo mtu (default [] l) 0])))
  (Some (λ w, Some (1, w ++ [SyncWait]))).

Definition new_conn (size : nat) : conn := mk_conn BEEP_CONN_VALID (replicate size 0) 0 (replicate size 0) 0 false.

Lemma fresh_new size : fresh (Z.of_nat size) (new_conn size).
Proof. split_and!; try done. constructor; cbn; rewrite ?length_replicate; lia. Qed.

(** A track of two buffers and a synchronisation point, cut into pieces of
    three bytes, all delivered. *)
Lemma stream_channel_delivers_witness :
  ∃ s, serve 64 (stream_ch_on_recv 64 log_events) (replicate 200 (3%nat, Some 1%nat))
         (mk_served false (new_conn 64) (0, [])
           (default ([] : list Z) (snd <$> send_all (mk_socket (λ l, Z.of_nat (length l)) None)
              [SendStart None; SendStBegin 112 0 0 0 2 0 0; SendBuffer [1; 2; 3]; SendBuffer [4; 5]; SendSyncPt; SendStEnd]
              (Some (mk_ctx STREAM_CH_CONN_CONNECTED 5 0 6 0)))) []) = Some s
    ∧ s_state s = (0, [Start 7; StBegin 112 0 0 0 2 0 0; Buffer [1; 2; 3]; Buffer [4; 5]; SyncPt 7 1; StEnd 7]).
Proof.
  destruct (stream_channel_delivers 64 (list message) log_events (mk_socket (λ l, Z.of_nat (length l)) None)
    [SendStart None; SendStBegin 112 0 0 0 2 0 0; SendBuffer [1; 2; 3]; SendBuffer [4; 5]; SendSyncPt; SendStEnd]
    (mk_ctx STREAM_CH_CONN_CONNECTED 5 0 6 0) (new_conn 64) 0 [] (replicate 200 (3%nat, Some 1%nat)) [32; 0; 0; 1]
    (0, [Start 7; StBegin 112 0 0 0 2 0 0; Buffer [1; 2; 3]; Buffer [4; 5]; SyncPt 7 1; StEnd 7]))
    as (cx' & bytes & Hsend & d & t & s & _ & Hserve & _ & _ & _ & _ & Hend).
  - unfold MAX_SEND_SIZE. lia.
  - done.
  - split; [done|]. cbn. unfold is_u32. lia.
  - repeat constructor; cbn; unfold is_u32; lia.
  - apply (fresh_new 64).
  - vm_compute. reflexivity.
  - cbn. lia.
  - rewrite Hsend. cbn [snd fmap option_fmap option_map default]. exists s. split; [exact Hserve|]. apply Hend.
    vm_compute in Hsend. injection Hsend as _ <-. apply Nat.leb_le. vm_compute. reflexivity.
Defined.

(** ** Sizes out of range *)

(** The size of the packet at the front of a connection, once its header has
    arrived and when it has a payload. *)
Definition announced (c : conn) : option Z :=
  let cmd := Z.land (get32 (c_buffer c) 0) BEEP_COMM_CMD_CMD_MASK in
  let size := get32 (c_buffer c) (if cmd =? CMD_SYNC_TO then 8 else 4) in
  if (4 <=? c_cursor c) && (Z.land (get32 (c_buffer c) 0) BEEP_COMM_CMD_CH_TYPE_MASK =? BEEP_COMM_CMD_CH_TYPE_STREAM)
     && FLAGS_VAR_SIZE (stream_ch_packet_flags cmd) && (stream_ch_packet_size cmd <=? c_cursor c)
  then Some (s32 (stream_ch_packet_size cmd + s32 size)) else None.

Lemma var_flag cmd : FLAGS_VAR_SIZE (stream_ch_packet_flags cmd) = true → cmd = CMD_BUFFER ∨ cmd = CMD_SYNC_DATA ∨ cmd = CMD_SYNC_TO.
Proof. unfold stream_ch_packet_flags. split_ifs; bool_prop; cbn; intros; try discriminate; auto. Qed.

Lemma packet_size_nonneg cmd : 0 <= stream_ch_packet_size cmd.
Proof. unfold stream_ch_packet_size. split_ifs; lia. Qed.

(** The words of the packet that hold its size. *)
Lemma announced_var_size c cmd : FLAGS_VAR_SIZE (stream_ch_packet_flags cmd) = true →
  stream_ch_packet_var_size (cmd :: ((λ k, get32 (c_buffer c) (4 * k)) <$> seq 1 (Z.to_nat (stream_ch_packet_size cmd / 4) - 1)))
  = s32 (get32 (c_buffer c) (if cmd =? CMD_SYNC_TO then 8 else 4)).
Proof. intros H. by destruct (var_flag cmd H) as [->|[->| ->]]. Qed.

Lemma on_recv_size SIZE {W} (ev : events W) c s n c' s' : 0 <= c_cursor c → stream_ch_on_recv SIZE ev c s = Some (n, c', s') →
  match announced c with
  | Some t => if c_cursor c <? t then n = 0 else n = t
  | None => 0 <= n <= c_cursor c
  end.
Proof.
  destruct s as [errors w]. unfold stream_ch_on_recv, beep_net_read, announced. intros H0.
  destruct (Z.ltb_spec (c_cursor c) 4) as [H4|H4].
  { rewrite (proj2 (Z.leb_gt _ _)) by lia. cbn. intros [= <- <- <-]. lia. }
  rewrite (proj2 (Z.leb_le _ _)), Z.eqb_refl by lia. cbn [negb andb].
  destruct (Z.land (get32 (c_buffer c) 0) BEEP_COMM_CMD_CH_TYPE_MASK =? BEEP_COMM_CMD_CH_TYPE_STREAM); cbn [negb andb];
    [|intros [= <- <- <-]; lia].
  set (cmd := Z.land (get32 (c_buffer c) 0) BEEP_COMM_CMD_CMD_MASK). pose proof (packet_size_nonneg cmd) as Hn.
  destruct (stream_ch_packet_size cmd =? 0) eqn:E0; bool_prop.
  { rewrite E0. destruct (FLAGS_VAR_SIZE _) eqn:Ev.
    - destruct (var_flag cmd Ev) as [Ec|[Ec|Ec]]; rewrite Ec in E0; discriminate E0.
    - cbn. intros [= <- <- <-]. lia. }
  destruct (c_cursor c <? stream_ch_packet_size cmd) eqn:Er; bool_prop.
  { rewrite (proj2 (Z.leb_gt _ _)), andb_false_r by lia. rewrite (proj2 (Z.eqb_neq 0 _)) by lia. cbn. intros [= <- <- <-]. lia. }
  rewrite (proj2 (Z.leb_le _ _)), andb_true_r, Z.eqb_refl by lia. cbn [negb].
  destruct (FLAGS_VAR_SIZE (stream_ch_packet_flags cmd)) eqn:Ev; cbn [andb].
  - rewrite (announced_var_size c cmd Ev). set (t := s32 (stream_ch_packet_size cmd + _)).
    destruct (c_cursor c <? t) eqn:Et; bool_prop.
    + rewrite (proj2 (Z.eqb_neq 0 t)) by lia. cbn [negb]. by intros [= <- <- <-].
    + rewrite Z.eqb_refl. cbn [negb]. destruct (stream_ch_on_packet _ _ _ _ _) as [[r s1]|]; cbn [mbind option_bind]; [|done].
      match goal with |- context [if FLAGS_RESPONSE ?f then ?a else ?b] => destruct (if FLAGS_RESPONSE f then a else b); [|done] end. by intros [= <- <- <-].
  - destruct (stream_ch_on_packet _ _ _ _ _) as [[r s1]|]; cbn [mbind option_bind]; [|done].
    match goal with |- context [if FLAGS_RESPONSE ?f then ?a else ?b] => destruct (if FLAGS_RESPONSE f then a else b); [|done] end. intros [= <- <- <-]. lia.
Qed.

(** C14.  The receiver stays inside its buffer as long as no packet announces
    a negative size, and leaves it when one does.  Whatever bytes have been
    received, a call that returns takes between none and all of them unless
    the packet at the front announces, with its header, a size that is
    negative as an [int]; such a packet is accepted as complete, and moving the
    rest of the buffer down by that size reaches outside of it, whatever the
    handlers do. *)
Theorem announced_size_bounds SIZE W (ev : events W) c s : conn_ok SIZE c →
  match announced c with
  | Some t =>
      if t <? 0 then ∀ fuel, handle_messages SIZE (stream_ch_on_recv SIZE ev) fuel c s = None
      else ∀ n c' s', stream_ch_on_recv SIZE ev c s = Some (n, c', s') → 0 <= n <= c_cursor c
  | None => ∀ n c' s', stream_ch_on_recv SIZE ev c s = Some (n, c', s') → 0 <= n <= c_cursor c
  end.
Proof.
  intros [_ Hc _ _]. pose proof (on_recv_size SIZE ev c s) as H. destruct (announced c) as [t|] eqn:E.
  - destruct (Z.ltb_spec t 0) as [Ht|Ht].
    + intros fuel. destruct fuel as [|fuel]; [done|]. cbn [handle_messages].
      destruct (stream_ch_on_recv SIZE ev c s) as [[[n c'] s']|]; cbn [mbind option_bind]; [|done].
      specialize (H n c' s' ltac:(lia) eq_refl). rewrite (proj2 (Z.ltb_ge _ _)) in H by lia. subst n.
      unfold move_down. by rewrite (proj2 (Z.leb_gt _ _)) by lia.
    + intros n c' s' Hr. specialize (H n c' s' ltac:(lia) Hr). destruct (Z.ltb_spec (c_cursor c) t); lia.
  - intros n c' s' Hr. exact (H n c' s' ltac:(lia) Hr).
Qed.

(** A buffer of 2^31 bytes announced in the first eight bytes. *)
Lemma announced_size_bounds_witness :
  handle_messages 32 (stream_ch_on_recv 32 log_events) 33
    (mk_conn BEEP_CONN_VALID (words [536870917; 2147483648] ++ replicate 24 0) 8 (replicate 32 0) 0 false) (0, []) = None.
Proof.
  assert (Hok : conn_ok 32 (mk_conn BEEP_CONN_VALID (words [536870917; 2147483648] ++ replicate 24 0) 8 (replicate 32 0) 0 false))
    by (constructor; cbn; lia).
  exact (announced_size_bounds 32 (list message) log_events _ (0, []) Hok 33%nat).
Defined.

(** A payload that a sender accepts and no receiver takes. *)
Lemma large_buffer SIZE {W} (ev : events W) so cx c errors w l : writes_all so → ready cx → fresh SIZE c → 8 <= SIZE →
  SIZE - 8 < Z.of_nat (length l) <= MAX_SEND_SIZE - 8 →
  ∃ bytes, send_by so (SendBuffer l) (Some cx) = Some (1, Some cx, bytes)
    ∧ ∃ c', conn_event SIZE (stream_ch_on_recv SIZE ev)
              (mk_revents false true false None (Some (take (Z.to_nat SIZE) bytes))) c (errors, w) = Some (true, c', (errors, w)).
Proof.
  intros Hso Hcx (Hok & Hcode & Hcur & Hrc) HS Hl. pose proof Hcx as (Hs & _).
  destruct (send_ok so (SendBuffer l) cx MAX_SEND_SIZE Hso Hcx) as (ret & Hsend); [cbn; lia|unfold MAX_SEND_SIZE; lia|].
  pose proof (message_sent_ok (SendBuffer l) cx MAX_SEND_SIZE Hcx) as [Hm _]; [cbn; lia|unfold MAX_SEND_SIZE; lia|].
  cbn [message_sent fst snd] in *.
  assert (Hlen : Z.of_nat (length (wire_of (Buffer l))) = 8 + Z.of_nat (length l)).
  { unfold wire_of. rewrite length_app, Nat2Z.inj_add, length_header. done. }
  exists (wire_of (Buffer l)). split.
  { rewrite Hsend. do 3 f_equal. cbn [send_by] in Hsend. unfold stream_ch_buffer, connected in Hsend.
    rewrite Hs, bool_decide_true in Hsend by done. cbn [mbind option_bind] in Hsend.
    destruct (send_packet_ok so (new_packet [CMD_BUFFER; u32 (Z.of_nat (length l))]) (Some l) _ Hso eq_refl) as (r & Hp & Hr).
    { cbn. unfold MAX_SEND_SIZE in *. lia. }
    cbn [default id] in Hp. rewrite Hp in Hsend. cbn in Hsend. injection Hsend as <- _. by apply Hr. }
  assert (Hd : Z.of_nat (length (take (Z.to_nat SIZE) (wire_of (Buffer l)))) = SIZE) by (rewrite length_take; lia).
  pose proof (prefix_take (wire_of (Buffer l)) (Z.to_nat SIZE)) as Hpre.
  destruct (take (Z.to_nat SIZE) (wire_of (Buffer l))) as [|x data']; [cbn in Hd; lia|].
  unfold conn_event, conn_write, conn_read. cbn [r_out r_in r_hup andb mbind option_bind read_result].
  remember (x :: data') as data eqn:Edata. clear Edata.
  destruct (receive_ok SIZE c data Hok) as (b & Hb & Hok1 & Hr1); [lia|].
  assert (Hr0 : received c = []) by (unfold received; by rewrite Hcur). rewrite Hr0 in Hr1. cbn [app] in Hr1.
  remember (set_received b (c_cursor c + Z.of_nat (length data)) c) as c1 eqn:Ec1.
  assert (Hstart : starts_with c1 (Buffer l)).
  { apply (starts_part SIZE _ c1 Hok1). by rewrite Hr1. }
  rewrite (proj2 (Z.ltb_ge _ _)) by lia. rewrite Hb. cbn [mbind option_bind]. rewrite <- Ec1. cbn [handle_messages].
  rewrite (on_recv_spec SIZE ev (Buffer l) c1 errors w Hm Hstart).
  assert (Hc1 : c_cursor c1 = SIZE) by (rewrite Ec1; cbn; lia). rewrite (proj2 (Z.ltb_lt _ _)) by lia. cbn [mbind option_bind].
  destruct (handled_ok SIZE c1 0 Hok1) as (b2 & Hb2 & _); [lia|]. rewrite Hb2. cbn [mbind option_bind].
  rewrite Z.eqb_refl, andb_false_r. cbn [mbind option_bind set_received c_cursor]. rewrite Hc1, Z.sub_0_r, Z.eqb_refl.
  eexists. reflexivity.
Qed.
