(* ===== verification/PlayerLocal.v ===== *)
(** lib/beep/player_local.c with audio_status of lib/audio/audio.c: the player
    of a device, which puts the tracks it is given into the stream buffer and
    tells its owner when they start.  What other threads do while a call sleeps
    or waits is an argument, as are the clock and the count of played samples
    that the sound device reports. *)

From S2P Require Import Prelude Endian Ring Fifo2 AudioFifo Mqueue Streambuf StreambufSpec StreambufRefines AudioSync.
From S2P Require Import DecodeOutput Playback AudioControl.

Inductive player_ret := BEEP_PLAYER_OK | BEEP_PLAYER_AGAIN | BEEP_PLAYER_STOPPED | BEEP_PLAYER_ERROR.

#[export] Instance player_ret_eq : EqDecision player_ret.
Proof. solve_decision. Defined.

(** BeepAudioStatus *)
Record audio_state := mk_audio_state {
  as_output_used : Z;
  as_output_size : Z;
  as_output_time : Z;
  as_written_track_time : Z;
  as_sync_played_time : Z;
  as_sync_timestamp : Z;
  as_num_tracks_started : Z;
  as_decoder_id : Z;
  as_audio_state : Z;
  as_decode_state : Z;
  as_streambuf_size : Z;
  as_streambuf_used : Z;
  as_bytes_received_l : Z;
  as_bytes_received_h : Z;
  as_gain : Z;
  as_play_cookie : Z;
  as_bitrate : Z
}.

(** What the sound device and the clock say: sync_played_samples and
    beep_millis. *)
Record clock := mk_clock { played_samples : Z; beep_millis : Z }.

Section Player.
Context (big : bool) {D : Type} (SZ : Z) (now : clock).
Implicit Types c : control D.

Definition on_sb (f : streambuf → option streambuf) c : option (control D) :=
  sb ← f (a_sb (c_sync c)); Some (set_sync (set_sb sb (c_sync c)) c).

Definition audio_status c : option (audio_state * control D) :=
  let f := (fifo_lock 0 (o_fifo (a_out (c_da c)))).2 in
  let t := o_track (a_out (c_da c)) in
  let rate := track_sample_rate t in
  used ← fifo_bytes_used f;
  let output := if rate =? 0 then 0 else bytes_to_samples used * 1000 / rate in
  let elapsed :=
    if negb (rate =? 0) && negb (played_samples now =? 0) then
      let elapsed := u64 (played_samples now * 1000) / rate in
      if c_true (Z.land (o_state (a_out (c_da c))) DECODE_STATE_RUNNING) && negb (sync_timestamp t =? 0)
         && (sync_timestamp t <? beep_millis now)
      then u64 (elapsed + (beep_millis now - sync_timestamp t)) else elapsed
    else 0 in
  let written := if rate =? 0 then 0 else written_track_samples t * 1000 / rate in
  c ← with_audio Some c;
  '(size, sb_used, bytesL, bytesH, sb) ← streambuf_get_status SZ (a_sb (c_sync c));
  let c := set_sync (set_sb sb (c_sync c)) c in
  let p := a_play (c_da c) in
  Some (mk_audio_state used (f_size f) (u32 output) (u32 written) (u32 elapsed) (beep_millis now)
          (num_tracks_started p) (match decoder c with Some (id, _) => id | None => u32 (-1) end)
          (o_state (a_out (c_da c))) (current_decoder_state c) size sb_used bytesL bytesH (lgain p) (play_cookie c) (bitrate c), c).

(** ** The player *)

(** BeepPlayerLocal without its thread and callback; the tracks that have been
    prepared and not yet started are named by their song data. *)
Record player_local := mk_pl {
  stop_thread : bool;
  pl_locked : bool;
  started : bool;
  syncing : bool;
  pending_tracks : list Z;
  tracks_started : Z;
  pl_audio : control D
}.

Definition set_stop_thread v p := mk_pl v (pl_locked p) (started p) (syncing p) (pending_tracks p) (tracks_started p) (pl_audio p).
Definition set_locked v p := mk_pl (stop_thread p) v (started p) (syncing p) (pending_tracks p) (tracks_started p) (pl_audio p).
Definition set_started v p := mk_pl (stop_thread p) (pl_locked p) v (syncing p) (pending_tracks p) (tracks_started p) (pl_audio p).
Definition set_syncing v p := mk_pl (stop_thread p) (pl_locked p) (started p) v (pending_tracks p) (tracks_started p) (pl_audio p).
Definition set_pending v p := mk_pl (stop_thread p) (pl_locked p) (started p) (syncing p) v (tracks_started p) (pl_audio p).
Definition set_tracks_started v p := mk_pl (stop_thread p) (pl_locked p) (started p) (syncing p) (pending_tracks p) v (pl_audio p).
Definition set_audio c p := mk_pl (stop_thread p) (pl_locked p) (started p) (syncing p) (pending_tracks p) (tracks_started p) c.

(** The mutex is not recursive: a thread that has it cannot take it again. *)
Definition beep_player_local_lock (p : player_local) : option player_local :=
  if pl_locked p then None else Some (set_locked true p).
Definition beep_player_local_unlock (p : player_local) : option player_local :=
  if pl_locked p then Some (set_locked false p) else None.
(** ASSERT_PLAYER_LOCAL_LOCKED *)
Definition assert_locked {A} (p : player_local) (k : option A) : option A := if pl_locked p then k else None.

Definition on_audio (f : control D → option (control D)) (p : player_local) : option player_local :=
  c ← f (pl_audio p); Some (set_audio c p).
Definition status_of (p : player_local) : option (audio_state * player_local) :=
  '(st, c) ← audio_status (pl_audio p); Some (st, set_audio c p).

Definition beep_player_local_can_prepare_decoder (p : player_local) : option (bool * player_local) :=
  assert_locked p (
    '(status, p) ← status_of p;
    Some ((as_decode_state status =? 0)
          || (negb (streambuf_is_streaming (a_sb (c_sync (pl_audio p))))
              && c_true (Z.land (as_decode_state status) DECODE_STATE_UNDERRUN)), p)).

Definition beep_player_local_can_prepare (p : player_local) : option (player_ret * player_local) :=
  assert_locked p (
    if negb (started p) then Some (BEEP_PLAYER_STOPPED, p) else
    '(can, p) ← beep_player_local_can_prepare_decoder p;
    Some (if can : bool then BEEP_PLAYER_OK else BEEP_PLAYER_AGAIN, p)).

Definition beep_player_local_st_begin (file_type transition_type transition_period replay_gain output_threshold polarity_inversion output_channels song_data : Z)
    (p : player_local) : option (player_ret * player_local) :=
  p ← beep_player_local_lock p;
  '(can_prepare, p) ← beep_player_local_can_prepare p;
  if negb (bool_decide (can_prepare = BEEP_PLAYER_OK)) then p ← beep_player_local_unlock p; Some (can_prepare, p) else
  let p := set_pending (pending_tracks p ++ [song_data]) p in
  p ← on_audio (on_sb (λ sb, Some (streambuf_set_streaming sb true))) p;
  p ← on_audio (audio_decoder_start big file_type transition_type transition_period replay_gain output_threshold polarity_inversion output_channels) p;
  p ← on_audio (audio_decoder_resume big) p;
  p ← beep_player_local_unlock p;
  Some (BEEP_PLAYER_OK, p).

(** [while (1)]: the call is repeated after a sleep until it says OK or
    STOPPED; [sleeps] is what the other threads do in each sleep. *)
Fixpoint blocking (op : player_local → option (player_ret * player_local)) (sleeps : list (player_local → option player_local))
    (p : player_local) : option (player_ret * player_local) :=
  '(res, p) ← op p;
  if bool_decide (res = BEEP_PLAYER_STOPPED) || bool_decide (res = BEEP_PLAYER_OK) then Some (res, p) else
  match sleeps with
  | [] => None
  | s :: sleeps => p ← s p; blocking op sleeps p
  end.

Definition beep_player_local_st_begin_blocking sleeps (file_type transition_type transition_period replay_gain output_threshold polarity_inversion output_channels song_data : Z) :=
  blocking (beep_player_local_st_begin file_type transition_type transition_period replay_gain output_threshold polarity_inversion output_channels song_data) sleeps.

Definition beep_player_local_st_end (p : player_local) : option (player_ret * player_local) :=
  p ← beep_player_local_lock p;
  if negb (started p) then p ← beep_player_local_unlock p; Some (BEEP_PLAYER_STOPPED, p) else
  if negb (streambuf_is_streaming (a_sb (c_sync (pl_audio p)))) then None else
  p ← on_audio (audio_decoder_st_end big) p;
  p ← beep_player_local_unlock p;
  Some (BEEP_PLAYER_OK, p).

(** The [int] is compared with a [size_t]. *)
Definition beep_player_local_can_buffer (len : Z) (p : player_local) : option (player_ret * player_local) :=
  assert_locked p (
    if negb (started p) then Some (BEEP_PLAYER_STOPPED, p) else
    '(free, sb) ← streambuf_get_freebytes (a_sb (c_sync (pl_audio p)));
    let p := set_audio (set_sync (set_sb sb (c_sync (pl_audio p))) (pl_audio p)) p in
    Some (if u32 len <=? free then BEEP_PLAYER_OK else BEEP_PLAYER_AGAIN, p)).

(** [data] is [None] when the [len] bytes are not all there. *)
Definition beep_player_local_buffer (data : option (list Z)) (len : Z) (p : player_local) : option (player_ret * player_local) :=
  p ← beep_player_local_lock p;
  '(can_buffer, p) ← beep_player_local_can_buffer (s32 len) p;
  if negb (bool_decide (can_buffer = BEEP_PLAYER_OK)) then p ← beep_player_local_unlock p; Some (can_buffer, p) else
  data ← data;
  p ← on_audio (on_sb (λ sb, streambuf_feed sb (take (Z.to_nat (u32 len)) data))) p;
  p ← on_audio audio_wakeup_decode_thread p;
  p ← beep_player_local_unlock p;
  Some (BEEP_PLAYER_OK, p).

Definition beep_player_local_buffer_blocking sleeps (data : option (list Z)) (len : Z) := blocking (beep_player_local_buffer data len) sleeps.

(** [wait] is what happens until the decode thread has signalled the flush. *)
Definition beep_player_local_flush (wait : control D → option (control D)) (cookie : Z) (p : player_local) : option player_local :=
  p ← beep_player_local_lock p;
  p ← on_audio (on_sb streambuf_flush) p;
  p ← on_audio (audio_decoder_flush big cookie) p;
  p ← on_audio wait p;
  beep_player_local_unlock p.

Definition beep_player_local_start (p : player_local) : option (player_ret * player_local) :=
  p ← beep_player_local_lock p;
  p ← beep_player_local_unlock (set_started true p);
  Some (BEEP_PLAYER_OK, p).

(** The loop that waits for the decode thread, the lock held. *)
Fixpoint wait_stopped (sleeps : list (control D → option (control D))) (p : player_local) : option player_local :=
  '(status, p) ← status_of p;
  if (as_decode_state status =? 0) && (as_num_tracks_started status =? 0) then Some p else
  match sleeps with
  | [] => None
  | s :: sleeps => p ← on_audio s p; wait_stopped sleeps p
  end.

Definition beep_player_local_stop (sleeps : list (control D → option (control D))) (cookie : Z) (p : player_local)
    : option (player_ret * player_local) :=
  p ← on_audio (audio_pause big 0) p;
  p ← beep_player_local_lock p;
  let p := set_tracks_started 0 (set_started false p) in
  p ← on_audio (audio_decoder_stop big cookie) p;
  p ← wait_stopped sleeps p;
  p ← on_audio (on_sb (λ sb, Some (streambuf_set_streaming sb false))) p;
  p ← on_audio (on_sb streambuf_flush) p;
  p ← beep_player_local_unlock p;
  Some (BEEP_PLAYER_OK, p).

Definition beep_player_local_pause (p : player_local) : option (player_ret * player_local) :=
  p ← on_audio (audio_pause big 0) p; Some (BEEP_PLAYER_OK, p).
Definition beep_player_local_resume (millis : Z) (p : player_local) : option (player_ret * player_local) :=
  p ← on_audio (audio_resume big millis) p; Some (BEEP_PLAYER_OK, p).
Definition beep_player_local_skip_ahead (interval_us : Z) (p : player_local) : option (player_ret * player_local) :=
  p ← on_audio (audio_skip_ahead big interval_us) p; Some (BEEP_PLAYER_OK, p).
Definition beep_player_local_set_volume (gain : Z) (p : player_local) : option (player_ret * player_local) :=
  p ← on_audio (audio_gain gain) p; Some (BEEP_PLAYER_OK, p).
Definition beep_player_local_adjust_volume (gain : Z) (p : player_local) : option (player_ret * player_local) :=
  p ← on_audio (audio_adjust_gain gain) p; Some (BEEP_PLAYER_OK, p).

Definition beep_player_local_shutdown (p : player_local) : option (player_ret * player_local) :=
  p ← beep_player_local_lock p;
  p ← beep_player_local_unlock (set_stop_thread true p);
  Some (BEEP_PLAYER_OK, p).

(** BeepPlayerStatus *)
Record player_status := mk_player_status {
  ps_status_fetch_error : bool;
  ps_num_tracks_started : Z;
  ps_output_size : Z;
  ps_output_used : Z;
  ps_streambuf_size : Z;
  ps_streambuf_used : Z;
  ps_can_prepare_decoder : bool;
  ps_written_track_time : Z;
  ps_sync_played_time : Z;
  ps_sync_timestamp : Z;
  ps_gain : Z;
  ps_play_cookie : Z;
  ps_bitrate : Z
}.

Definition beep_player_local_status (p : player_local) : option (player_status * player_local) :=
  p ← beep_player_local_lock p;
  '(a, p) ← status_of p;
  '(can, p) ← beep_player_local_can_prepare_decoder p;
  let status := mk_player_status false (as_num_tracks_started a) (as_output_size a) (as_output_used a) (as_streambuf_size a) (as_streambuf_used a)
    can (as_written_track_time a) (as_sync_played_time a) (u32 (as_sync_timestamp a)) (as_gain a) (as_play_cookie a) (as_bitrate a) in
  p ← beep_player_local_unlock p;
  Some (status, p).

(** ** Synchronisation *)

Definition sync_ret (ret : Z) : player_ret :=
  if ret =? 0 then BEEP_PLAYER_OK else if ret =? 1 then BEEP_PLAYER_AGAIN else BEEP_PLAYER_ERROR.

(** Preparing always succeeds, so syncing becomes [start]. *)
Definition prepare (f : audio → option audio) (start : bool) (p : player_local) : option (player_ret * player_local) :=
  p ← beep_player_local_lock p;
  p ← on_audio (λ c, a ← f (c_sync c); Some (set_sync a c)) p;
  p ← beep_player_local_unlock (set_syncing start p);
  Some (BEEP_PLAYER_OK, p).

Definition beep_player_local_prepare_sync_to (decoder_samples : Z) (start : bool) := prepare (λ a, audio_prepare_sync_to decoder_samples a start) start.
Definition beep_player_local_prepare_sync_wait (start : bool) := prepare (λ a, audio_prepare_sync_wait a start) start.

Definition beep_player_local_sync_state_send (len : Z) (p : player_local) : option (player_ret * list Z * player_local) :=
  p ← beep_player_local_lock p;
  '(ret, out, p) ← (if syncing p then
      '(ret, out, a) ← audio_sync_state_send big (c_sync (pl_audio p)) len;
      Some (sync_ret ret, out, set_audio (set_sync a (pl_audio p)) p)
    else Some (BEEP_PLAYER_ERROR, [], p));
  p ← beep_player_local_unlock p;
  Some (ret, out, p).

(** [buf] is [None] when the bytes are not all there. *)
Definition beep_player_local_sync_state_recv (buf : option (list Z)) (p : player_local) : option (player_ret * player_local) :=
  p ← beep_player_local_lock p;
  '(ret, p) ← (if syncing p then
      buf ← buf;
      '(ret, a) ← audio_sync_state_recv big (c_sync (pl_audio p)) buf;
      Some (sync_ret ret, set_audio (set_sync a (pl_audio p)) p)
    else Some (BEEP_PLAYER_ERROR, p));
  p ← beep_player_local_unlock p;
  Some (ret, p).

(** ** The notify thread *)

(** qDeque gives NULL from an empty queue. *)
Fixpoint deque_tracks (n : nat) (q : list Z) : list Z * list Z :=
  match n with
  | O => ([], q)
  | S n => let '(calls, rest) := deque_tracks n (drop 1 q) in (default 0 (q !! 0%nat) :: calls, rest)
  end.

(** One pass: whether the thread ends, the song data its callback is called
    with, and the player. *)
Definition notify_pass (p : player_local) : option (bool * list Z * player_local) :=
  p ← beep_player_local_lock p;
  if stop_thread p then p ← beep_player_local_unlock p; Some (true, [], p) else
  '(status, p) ← status_of p;
  let '(calls, p) :=
    if tracks_started p <? as_num_tracks_started status then
      let '(calls, q) := deque_tracks (Z.to_nat (as_num_tracks_started status - tracks_started p)) (pending_tracks p) in
      (calls, set_tracks_started (as_num_tracks_started status) (set_pending q p))
    else ([], p) in
  p ← beep_player_local_unlock p;
  Some (false, calls, p).

(** [c] is what audio_init leaves. *)
Definition beep_player_local_init (gain : Z) (c : control D) : option player_local :=
  c ← audio_gain gain c;
  Some (mk_pl false false false false [] 0 c).
End Player.

Arguments player_local D : clear implicits.
