(* ===== verification/Playnet.v ===== *)
(** playnet/playnet.c: the daemon that plays on a device.  Tracks come in on
    the stream channel and go to the player; volume, pause and the like come
    in as calls of ubus methods.  The fields a method finds in its message, as
    libubox parses it, are arguments: [None] for one that is missing. *)

From S2P Require Import Prelude Endian Ring Fifo2 AudioFifo Mqueue Streambuf StreambufSpec StreambufRefines AudioSync.
From S2P Require Import DecodeOutput Playback AudioControl PlayerLocal.
From S2P Require Import Net StreamCh.

Abbreviation BEEP_PLAYNET_DEFAULT_GAIN := 14155.
Abbreviation BEEP_PLAYNET_GAIN_PERSIST_DELAY := 10000.

Section Playnet.
Context (big : bool) {D : Type} (SZ : Z) (now : clock).

(** ** The handlers of the stream channel *)

(** The player, and what other threads do while a handler sleeps or waits for
    a flush. *)
Record daemon := mk_daemon {
  d_player : player_local D;
  d_sleeps : list (player_local D → option (player_local D));
  d_wait : control D → option (control D)
}.

Definition on_player (f : player_local D → option (player_local D)) (d : daemon) : option daemon :=
  p ← f (d_player d); Some (mk_daemon p (d_sleeps d) (d_wait d)).

(** Calls the player and says what the handler returns for its result. *)
Definition answer_of (f : player_local D → option (player_ret * player_local D)) (ack : player_ret → bool) (d : daemon) : option (Z * daemon) :=
  '(r, p) ← f (d_player d); Some (c_bool (ack r), mk_daemon p (d_sleeps d) (d_wait d)).

Definition is_ok (r : player_ret) : bool := bool_decide (r = BEEP_PLAYER_OK).

Definition playnet_on_start (id : Z) := answer_of beep_player_local_start is_ok.
Definition playnet_on_st_end (id : Z) := answer_of (beep_player_local_st_end big) is_ok.
Definition playnet_on_sync_pt (id seq : Z) (d : daemon) : option (Z * daemon) := Some (1, d).
Definition playnet_on_buffer (data_size : Z) (payload : option (list Z)) (size : Z) (d : daemon) : option (Z * daemon) :=
  answer_of (beep_player_local_buffer_blocking (d_sleeps d) payload (u32 size))
    (λ r, bool_decide (r = BEEP_PLAYER_STOPPED) || is_ok r) d.

(** The type is a [char], signed, that becomes an [int]. *)
Definition playnet_on_st_begin (type transition_type transition_period replay_gain output_threshold polarity_inversion output_channels : Z)
    (d : daemon) : option (Z * daemon) :=
  answer_of (beep_player_local_st_begin_blocking big SZ now (d_sleeps d) (u32 (s8 type)) transition_type transition_period replay_gain
    output_threshold polarity_inversion output_channels 0) is_ok d.

Definition playnet_on_flush (set_cookie : Z) (d : daemon) : option (Z * daemon) :=
  d ← on_player (beep_player_local_flush big (d_wait d) (s32 set_cookie)) d; Some (1, d).

Definition playnet_on_sync_data (data_size : Z) (payload : option (list Z)) (size : Z) (d : daemon) : option (Z * daemon) :=
  '(r, p) ← beep_player_local_sync_state_recv big payload (d_player d);
  p ← (if is_ok r then
         '(_, p) ← beep_player_local_resume big 0 p;
         '(_, p) ← beep_player_local_prepare_sync_wait false p;
         Some p
       else Some p);
  Some (c_bool (bool_decide (r = BEEP_PLAYER_AGAIN) || is_ok r), mk_daemon p (d_sleeps d) (d_wait d)).

Definition playnet_on_sync_to (sync_mtu data_size : Z) (payload : option (list Z)) (size : Z) (d : daemon) : option (Z * daemon) := Some (0, d).

(** After a second of sleep, if the schedule has one. *)
Definition playnet_on_sync_wait (d : daemon) : option (Z * daemon) :=
  match d_sleeps d with
  | [] => answer_of (beep_player_local_prepare_sync_wait true) is_ok d
  | s :: _ => d ← on_player s d; answer_of (beep_player_local_prepare_sync_wait true) is_ok d
  end.

Definition playnet_stream_events : events daemon := mk_events
  (Some playnet_on_start) (Some playnet_on_st_end) (Some playnet_on_sync_pt) (Some playnet_on_buffer) (Some playnet_on_st_begin)
  (Some playnet_on_flush) (Some playnet_on_sync_data) (Some playnet_on_sync_to) (Some playnet_on_sync_wait).

(** ** The ubus methods *)

Inductive event_type := Resumed | Paused.
Inductive playnet_error := MissingInterval | MissingSetCookie | MissingGain | GainTooLarge | MissingDelta.

(** What a method sends: its reply, or a state update to the subscribers. *)
Inductive playnet_msg :=
  | ReplySuccess
  | ReplyStatus (status : list Z)
  | ReplyHello (stream_port : Z) (status : list Z)
  | ReplyError (e : playnet_error)
  | SendState (e : event_type) (status : list Z).

Record playnet := mk_playnet {
  pn_player : player_local D;
  is_paused : bool;
  playnet_shutdown_wait : bool;
  gain_persist_timeout : option Z
}.

Definition set_player p n := mk_playnet p (is_paused n) (playnet_shutdown_wait n) (gain_persist_timeout n).
Definition set_paused v n := mk_playnet (pn_player n) v (playnet_shutdown_wait n) (gain_persist_timeout n).
Definition set_shutdown v n := mk_playnet (pn_player n) (is_paused n) v (gain_persist_timeout n).
Definition set_timeout v n := mk_playnet (pn_player n) (is_paused n) (playnet_shutdown_wait n) v.

(** num_tracks_started, output_used, output_size, streambuf_free,
    can_st_begin, written_track_time, sync_played_time, sync_timestamp, gain,
    bitrate, cookie and paused. *)
Definition add_status_to_blob (paused : bool) (s : player_status) : list Z :=
  [ps_num_tracks_started s; ps_output_used s; ps_output_size s; u32 (ps_streambuf_size s - ps_streambuf_used s);
   c_bool (ps_can_prepare_decoder s); ps_written_track_time s; ps_sync_played_time s; ps_sync_timestamp s;
   u32 (ps_gain s); u32 (ps_bitrate s); u32 (ps_play_cookie s); c_bool paused].

Definition fetch_status (n : playnet) : option (player_status * playnet) :=
  '(s, p) ← beep_player_local_status SZ now (pn_player n); Some (s, set_player p n).

Definition call_player (f : player_local D → option (player_ret * player_local D)) (n : playnet) : option playnet :=
  '(_, p) ← f (pn_player n); Some (set_player p n).

Definition trigger_update (e : event_type) (n : playnet) : option (playnet_msg * playnet) :=
  '(s, n) ← fetch_status n; Some (SendState e (add_status_to_blob (is_paused n) s), n).

Definition playnet_hello (stream_port : Z) (n : playnet) : option (list playnet_msg * playnet) :=
  '(s, n) ← fetch_status n; Some ([ReplyHello stream_port (add_status_to_blob (is_paused n) s)], n).

(** The high half of the time is read without a test. *)
Definition playnet_resume (timeh timel : option Z) (n : playnet) : option (list playnet_msg * playnet) :=
  '(m, n) ← trigger_update Resumed (set_paused false n);
  time ← (match timel with
    | None => Some 0
    | Some l => h ← timeh; Some (u64 (Z.shiftl h 32 + l))
    end);
  n ← call_player (beep_player_local_resume big time) n;
  Some ([m; ReplySuccess], n).

Definition playnet_skip_ahead (interval : option Z) (n : playnet) : option (list playnet_msg * playnet) :=
  match interval with
  | None => Some ([ReplyError MissingInterval], n)
  | Some i => n ← call_player (beep_player_local_skip_ahead big i) n; Some ([ReplySuccess], n)
  end.

Definition playnet_pause (n : playnet) : option (list playnet_msg * playnet) :=
  '(m, n) ← trigger_update Paused (set_paused true n);
  n ← call_player (beep_player_local_pause big) n;
  Some ([m; ReplySuccess], n).

Definition playnet_stop (sleeps : list (control D → option (control D))) (cookie : option Z) (n : playnet) : option (list playnet_msg * playnet) :=
  match cookie with
  | None => Some ([ReplyError MissingSetCookie], n)
  | Some k => n ← call_player (beep_player_local_stop big SZ now sleeps (s32 k)) n; Some ([ReplySuccess], n)
  end.

Definition reset_gain_persist_timeout (n : playnet) : playnet := set_timeout (Some BEEP_PLAYNET_GAIN_PERSIST_DELAY) n.

Definition playnet_set_volume (gain : option Z) (n : playnet) : option (list playnet_msg * playnet) :=
  match gain with
  | None => Some ([ReplyError MissingGain], n)
  | Some gain =>
      if Z.shiftl 1 16 <? gain then Some ([ReplyError GainTooLarge], n) else
      '(status, n) ← fetch_status n;
      n ← (if negb (u32 (ps_gain status) =? gain)
           then n ← call_player (beep_player_local_set_volume (s32 gain)) n; Some (reset_gain_persist_timeout n)
           else Some n);
      Some ([ReplySuccess], n)
  end.

Definition playnet_adjust_volume (delta : option Z) (n : playnet) : option (list playnet_msg * playnet) :=
  match delta with
  | None => Some ([ReplyError MissingDelta], n)
  | Some delta =>
      n ← call_player (beep_player_local_adjust_volume (s32 delta)) n;
      Some ([ReplySuccess], reset_gain_persist_timeout n)
  end.

Definition playnet_shutdown (n : playnet) : option (list playnet_msg * playnet) :=
  n ← call_player beep_player_local_shutdown (set_shutdown true n);
  Some ([ReplySuccess], n).

Definition playnet_get_state (n : playnet) : option (list playnet_msg * playnet) :=
  '(s, n) ← fetch_status n; Some ([ReplyStatus (add_status_to_blob (is_paused n) s)], n).

(** The timer: the gain that is written to the configuration, if one is. *)
Definition on_gain_persist (n : playnet) : option (option Z * playnet) :=
  let n := set_timeout None n in
  if playnet_shutdown_wait n then Some (None, n) else
  '(status, n) ← fetch_status n; Some (Some (ps_gain status), n).

(** [main] up to the event loop: [gain] is the one of the configuration and
    [c] what audio_init leaves. *)
Definition playnet_main (gain : option Z) (c : control D) : option playnet :=
  p ← beep_player_local_init (default BEEP_PLAYNET_DEFAULT_GAIN gain) c;
  Some (mk_playnet p true false None).

Inductive method :=
  | Hello (stream_port : Z)
  | ResumeAt (timeh timel : option Z)
  | Pause
  | StopWith (sleeps : list (control D → option (control D))) (cookie : option Z)
  | SkipAhead (interval : option Z)
  | SetVolume (gain : option Z)
  | AdjustVolume (delta : option Z)
  | Shutdown
  | GetState.

(** playnet_methods *)
Definition run_method (m : method) (n : playnet) : option (list playnet_msg * playnet) :=
  match m with
  | Hello port => playnet_hello port n
  | ResumeAt h l => playnet_resume h l n
  | Pause => playnet_pause n
  | StopWith s k => playnet_stop s k n
  | SkipAhead i => playnet_skip_ahead i n
  | SetVolume g => playnet_set_volume g n
  | AdjustVolume d => playnet_adjust_volume d n
  | Shutdown => playnet_shutdown n
  | GetState => playnet_get_state n
  end.
End Playnet.

Arguments daemon D : clear implicits.
Arguments playnet D : clear implicits.
Arguments method D : clear implicits.
