(* ===== verification/PlaynetProps.v ===== *)
(** The tracks that playnet receives: the player as a flag, the state of the
    decoder and the abstract stream, and that the handlers of the stream
    channel do on it what their messages say. *)

From S2P Require Import Prelude Endian Ring Fifo2 AudioFifo Mqueue Streambuf StreambufSpec StreambufRefines AudioSync.
From S2P Require Import DecodeOutput Playback AudioControl AudioOps AudioCommands AudioInline PlayerLocal.
From S2P Require Import Net NetProps StreamCh StreamChProps StreamChThrough Playnet.

Section Tracks.
Context (big : bool) {D : Type} (SZ : Z) (HSZ : 0 < SZ <= max_size) (now : clock).
Implicit Types (c : control D) (p : player_local D) (d : daemon D).

(** ** The abstract player *)

Record aplayer := mk_aplayer { ap_started : bool; ap_decode : Z; ap_stream : stream }.

(** A command for the end of the stream, which has room for it. *)
Definition put_cmd (k : command) (a : stream) : option stream :=
  let l := cmd_bytes big k in
  if (length (st_tail a) <? 8)%nat && negb (length (st_kept a) =? 9)%nat && (Z.of_nat (length l) <? SZ - 1 - st_used a)
  then Some (a_cmd a l) else None.

(** The answer to a message of a track, and the player after it; [None] when
    the player aborts, or waits for what it cannot do at once. *)
Definition ap_message (m : message) (s : aplayer) : option (bool * aplayer) :=
  let a := ap_stream s in
  match m with
  | Start _ => Some (true, mk_aplayer true (ap_decode s) a)
  | SyncPt _ _ => Some (true, s)
  | StBegin type ty period gain threshold inversion channels =>
      if negb (ap_started s) then Some (false, s) else
      if (ap_decode s =? 0) || (negb (st_streaming a) && c_true (Z.land (ap_decode s) DECODE_STATE_UNDERRUN)) then
        a ← put_cmd (QStart (u32 (s8 type)) (mk_start ty period gain threshold inversion channels)) (a_set_streaming a true);
        a ← put_cmd QResumeDecoder a;
        Some (true, mk_aplayer true 0 a)
      else None
  | Buffer l =>
      if negb (ap_started s) then Some (true, s) else
      if st_may_write a && (Z.of_nat (length l) <=? SZ - 1 - st_used a) then Some (true, mk_aplayer true (ap_decode s) (a_append a l)) else None
  | StEnd _ =>
      if negb (ap_started s) then Some (false, s) else
      if st_streaming a then a ← put_cmd QStEnd a; Some (true, mk_aplayer true (ap_decode s) a) else None
  | _ => None
  end.

Fixpoint ap_run (ms : list message) (s : aplayer) : option aplayer :=
  match ms with [] => Some s | m :: ms' => '(_, s) ← ap_message m s; ap_run ms' s end.

Record ap_rep (p : player_local D) (s : aplayer) : Prop := {
  r_unlocked : pl_locked p = false;
  r_started : started p = ap_started s;
  r_decode : current_decoder_state (pl_audio p) = ap_decode s;
  r_stream : sb_rep SZ (a_sb (c_sync (pl_audio p))) (ap_stream s)
}.

(** ** The calls of the player *)

Lemma with_audio_nop c : ∃ da, with_audio Some c = Some (set_da da c).
Proof. eexists. reflexivity. Qed.

Lemma streaming_rep s a : sb_rep SZ s a → streambuf_is_streaming s = st_streaming a.
Proof. intros [_ H]. destruct H. destruct i_flags as (H & _). exact H. Qed.
Lemma may_write_rep s a : sb_rep SZ s a → allow_writes s = st_may_write a.
Proof. intros [_ H]. destruct H. destruct i_flags as (_ & _ & _ & H & _). exact H. Qed.

(** The status never fails, and changes nothing that matters here. *)
Lemma audio_status_ok c a : sb_rep SZ (a_sb (c_sync c)) a →
  ∃ st c', audio_status SZ now c = Some (st, c') ∧ as_decode_state st = current_decoder_state c
    ∧ current_decoder_state c' = current_decoder_state c ∧ c_mq c' = c_mq c ∧ sb_rep SZ (a_sb (c_sync c')) a.
Proof.
  intros H. unfold audio_status, fifo_bytes_used, f_locked. cbn [fifo_lock snd f_lock f_set_lock mbind option_bind].
  destruct (with_audio_nop c) as (da & ->). cbn [mbind option_bind c_sync set_da].
  destruct (status_ok SZ (a_sb (c_sync c)) a H) as (s' & -> & Hs). cbn [mbind option_bind].
  eexists _, _. split; [reflexivity|]. by split_and!.
Qed.

Lemma put_cmd_ok k ws c a a' : queued k = false → cmd_fields k = F32 <$> ws → cmd_size k = 4 + 4 * Z.of_nat (length ws) →
  sb_rep SZ (a_sb (c_sync c)) a → put_cmd k a = Some a' →
  ∃ s, stream_command big (op_num (cmd_op k)) ws c = Some (set_sync (set_sb s (c_sync c)) c) ∧ sb_rep SZ s a'.
Proof.
  unfold put_cmd. intros Hk Hf Hsz Hs Hp. destruct (_ && _) eqn:E; [|done]. injection Hp as <-. bool_prop.
  apply Nat.ltb_lt in H. apply Nat.eqb_neq in H1. by apply stream_command_spec.
Qed.

Lemma wakeup_ok c : ∃ m, audio_wakeup_decode_thread c = Some (set_mq m c).
Proof.
  unfold audio_wakeup_decode_thread, mqueue_write_complete, fifo_signal, mq_unlock, fifo_unlock, f_locked. cbn. eexists. reflexivity.
Qed.

Lemma can_prepare_decoder_ok p s : pl_locked p = true → current_decoder_state (pl_audio p) = ap_decode s →
  sb_rep SZ (a_sb (c_sync (pl_audio p))) (ap_stream s) →
  ∃ c', beep_player_local_can_prepare_decoder SZ now p
      = Some ((ap_decode s =? 0) || (negb (st_streaming (ap_stream s)) && c_true (Z.land (ap_decode s) DECODE_STATE_UNDERRUN)), set_audio c' p)
    ∧ current_decoder_state c' = ap_decode s ∧ sb_rep SZ (a_sb (c_sync c')) (ap_stream s).
Proof.
  intros Hl Hd Hs. unfold beep_player_local_can_prepare_decoder, assert_locked, status_of. rewrite Hl.
  destruct (audio_status_ok (pl_audio p) (ap_stream s) Hs) as (st & c' & -> & Hst & Hc & _ & Hs'). cbn [mbind option_bind].
  exists c'. split; [|by rewrite Hc, Hd]. cbn [pl_audio set_audio]. by rewrite (streaming_rep _ _ Hs'), Hst, Hd.
Qed.

Lemma start_ok p s : ap_rep p s → ∃ p', beep_player_local_start p = Some (BEEP_PLAYER_OK, p') ∧ ap_rep p' (mk_aplayer true (ap_decode s) (ap_stream s)).
Proof.
  intros [Hl Hst Hd Hs]. unfold beep_player_local_start, beep_player_local_lock, beep_player_local_unlock. rewrite Hl.
  cbn. eexists. split; [reflexivity|]. by constructor.
Qed.

(** A call that ends at once needs no sleep. *)
Lemma blocking_now op sleeps p r p' : op p = Some (r, p') → r = BEEP_PLAYER_OK ∨ r = BEEP_PLAYER_STOPPED → blocking op sleeps p = Some (r, p').
Proof. intros H Hr. destruct sleeps; cbn; rewrite H; cbn; by destruct Hr as [-> | ->]. Qed.

Lemma st_end_ok p s r s' : ap_rep p s → ap_message (StEnd 0) s = Some (r, s') →
  ∃ p', beep_player_local_st_end big p = Some (if r then BEEP_PLAYER_OK else BEEP_PLAYER_STOPPED, p') ∧ ap_rep p' s'.
Proof.
  intros [Hl Hst Hd Hs]. unfold ap_message, beep_player_local_st_end, beep_player_local_lock, beep_player_local_unlock.
  rewrite Hl. cbn [mbind option_bind set_locked started pl_locked pl_audio]. rewrite Hst.
  destruct (ap_started s) eqn:Ea; cbn [negb].
  - destruct (st_streaming (ap_stream s)) eqn:Estr; [|done]. rewrite (streaming_rep _ _ Hs), Estr. cbn [negb].
    destruct (put_cmd QStEnd (ap_stream s)) as [a'|] eqn:Ep; cbn [mbind option_bind]; [|done]. intros [= <- <-].
    unfold on_audio, audio_decoder_st_end.
    destruct (put_cmd_ok QStEnd [] (pl_audio p) _ _ eq_refl eq_refl eq_refl Hs Ep) as (sb & Hc & Hs'). cbn [cmd_op op_num] in Hc.
    cbn [set_locked pl_audio]. rewrite Hc. cbn. eexists. split; [reflexivity|]. by constructor.
  - intros [= <- <-]. cbn. eexists. split; [reflexivity|]. constructor; cbn; try done. by rewrite Ea.
Qed.

Lemma stream_room sb a : sb_rep SZ sb a → 0 <= st_used a.
Proof.
  intros [_ H]. pose proof (inner_bounds SZ HSZ _ _ H) as (_ & _ & _ & Hk & _). destruct H.
  pose proof (total_nonneg _ i_kept). lia.
Qed.

Lemma buffer_ok p s l r s' : ap_rep p s → ap_message (Buffer l) s = Some (r, s') →
  ∃ p' res, beep_player_local_buffer (Some l) (Z.of_nat (length l)) p = Some (res, p')
    ∧ (res = BEEP_PLAYER_OK ∨ res = BEEP_PLAYER_STOPPED) ∧ r = true ∧ ap_rep p' s'.
Proof.
  intros [Hl Hst Hd Hs]. unfold ap_message, beep_player_local_buffer, beep_player_local_can_buffer, assert_locked,
    beep_player_local_lock, beep_player_local_unlock.
  rewrite Hl. cbn [mbind option_bind set_locked started pl_locked pl_audio]. rewrite Hst.
  destruct (ap_started s) eqn:Ea; cbn [negb].
  - destruct (st_may_write (ap_stream s)) eqn:Ew; cbn [andb]; [|done].
    destruct (Z.leb_spec (Z.of_nat (length l)) (SZ - 1 - st_used (ap_stream s))) as [Hroom|]; [|done]. intros [= <- <-].
    destruct (freebytes_ok SZ (a_sb (c_sync (pl_audio p))) _ Hs) as (sb & -> & Hsb). rewrite Ew. cbn [mbind option_bind].
    assert (Hu : u32 (s32 (Z.of_nat (length l))) = Z.of_nat (length l)).
    { pose proof (stream_room _ _ Hs). pose proof HSZ as [_ Hmax]. unfold max_size in Hmax.
      replace (s32 (Z.of_nat (length l))) with (Z.of_nat (length l)); [apply u32_small; unfold is_u32; lia|].
      unfold s32. rewrite Z.mod_small; lia. }
    rewrite Hu, (proj2 (Z.leb_le _ _)) by lia. cbn [negb bool_decide].
    rewrite bool_decide_true by done. cbn [negb mbind option_bind].
    rewrite (u32_small (Z.of_nat _)), Nat2Z.id, firstn_all by (pose proof (stream_room _ _ Hs); pose proof HSZ as [_ Hmax]; unfold max_size in Hmax; unfold is_u32; lia).
    unfold on_audio, on_sb, streambuf_feed. cbn [pl_audio set_audio set_sync c_sync set_sb a_sb]. rewrite (may_write_rep _ _ Hsb), Ew. cbn [negb].
    destruct (data_enq_ok SZ HSZ sb _ l Hsb Hroom) as (sb' & -> & Hsb'). cbn [mbind option_bind].
    match goal with |- context [audio_wakeup_decode_thread ?x] => destruct (wakeup_ok x) as (m & ->) end.
    cbn. eexists _, _. split; [reflexivity|]. split_and!; [by left|done|]. by constructor.
  - intros [= <- <-]. cbn. eexists _, _. split; [reflexivity|]. split_and!; [by right|done|]. constructor; cbn; try done. by rewrite Ea.
Qed.

Lemma st_begin_ok p s ty tt period gain threshold inversion channels r s' : ap_rep p s →
  ap_message (StBegin ty tt period gain threshold inversion channels) s = Some (r, s') →
  ∃ p', beep_player_local_st_begin big SZ now (u32 (s8 ty)) tt period gain threshold inversion channels 0 p
    = Some (if r then BEEP_PLAYER_OK else BEEP_PLAYER_STOPPED, p') ∧ ap_rep p' s'.
Proof.
  destruct p as [st lk sd sy pt ts c]. intros [Hl Hst Hd Hs]. cbn in Hl, Hst, Hd, Hs. subst lk sd.
  unfold ap_message, beep_player_local_st_begin, beep_player_local_can_prepare, assert_locked, beep_player_local_lock, beep_player_local_unlock.
  cbn [mbind option_bind set_locked stop_thread started syncing pending_tracks tracks_started pl_locked pl_audio].
  destruct (ap_started s) eqn:Ea; cbn [negb].
  - destruct (can_prepare_decoder_ok (set_locked true (mk_pl st false true sy pt ts c)) s eq_refl Hd Hs) as (c' & -> & Hd' & Hs').
    destruct (_ || _) eqn:Ecan; [|done]. cbn [mbind option_bind].
    set (k := QStart (u32 (s8 ty)) (mk_start tt period gain threshold inversion channels)).
    destruct (put_cmd k (a_set_streaming (ap_stream s) true)) as [a1|] eqn:E1; cbn [mbind option_bind]; [|done].
    destruct (put_cmd QResumeDecoder a1) as [a2|] eqn:E2; cbn [mbind option_bind]; [|done]. intros [= <- <-].
    rewrite bool_decide_true by done. cbn [negb mbind option_bind].
    unfold on_audio, on_sb, audio_decoder_start, audio_decoder_resume. cbn [mbind option_bind pl_audio set_audio set_pending].
    set (c1 := set_sync (set_sb (streambuf_set_streaming (a_sb (c_sync c')) true) (c_sync c')) c').
    assert (Hs1 : sb_rep SZ (a_sb (c_sync (set_decoder_state 0 c1))) (a_set_streaming (ap_stream s) true)).
    { cbn. by apply set_streaming_ok. }
    destruct (put_cmd_ok k (start_words (u32 (s8 ty)) (mk_start tt period gain threshold inversion channels)) (set_decoder_state 0 c1)
      _ _ eq_refl eq_refl eq_refl Hs1 E1) as (sb & Hc & Hs2).
    unfold k, start_words in Hc. cbn [cmd_op op_num transition_type transition_period replay_gain AudioControl.threshold polarity_inversion AudioControl.channels] in Hc.
    rewrite Hc. cbn [mbind option_bind].
    match goal with |- context [audio_wakeup_decode_thread ?x] => destruct (wakeup_ok x) as (m & ->) end. cbn [mbind option_bind].
    cbn [pl_audio set_audio].
    match goal with |- context [stream_command big 1 [] ?x] =>
      destruct (put_cmd_ok QResumeDecoder [] x a1 a2 eq_refl eq_refl eq_refl Hs2 E2) as (sb2 & Hc2 & Hs3) end.
    cbn [cmd_op op_num] in Hc2. rewrite Hc2. cbn. eexists. split; [reflexivity|]. by constructor.
  - intros [= <- <-]. cbn. eexists. split; [reflexivity|]. constructor; cbn; try done.
Qed.

(** ** The handlers *)

Definition track_message (m : message) : bool := match m with Start _ | StBegin _ _ _ _ _ _ _ | Buffer _ | StEnd _ | SyncPt _ _ => true | _ => false end.

Definition daemon_rep d (s : aplayer) : Prop := ap_rep (d_player d) s.

Lemma deliver_ok m d s r s' : daemon_rep d s → Z.of_nat (length (payload_of m)) < 2 ^ 31 → ap_message m s = Some (r, s') →
  ∃ d', deliver (playnet_stream_events big SZ now) m d = Some (c_bool r, d') ∧ daemon_rep d' s'.
Proof.
  intros Hr Hlen Ha. destruct m as [id|id|id seq|l|ty tt per g th inv ch|k|l|mtu l pad|]; try discriminate Ha;
    cbn [deliver call playnet_stream_events on_start on_st_end on_sync_pt on_buffer on_st_begin].
  - injection Ha as <- <-. destruct (start_ok _ _ Hr) as (p' & H & Hp). unfold playnet_on_start, answer_of. rewrite H.
    cbn. eexists. split; [reflexivity|]. exact Hp.
  - destruct (st_end_ok _ _ r s' Hr Ha) as (p' & H & Hp). unfold playnet_on_st_end, answer_of. rewrite H.
    cbn. eexists. split; [by destruct r|]. exact Hp.
  - injection Ha as <- <-. unfold playnet_on_sync_pt. eexists. split; [reflexivity|]. exact Hr.
  - destruct (buffer_ok _ _ l r s' Hr Ha) as (p' & res & H & Hres & -> & Hp). unfold playnet_on_buffer, answer_of, beep_player_local_buffer_blocking.
    cbn [payload_of] in Hlen. rewrite (u32_small (Z.of_nat _)) by (unfold is_u32; lia). rewrite (blocking_now _ _ _ _ _ H Hres).
    cbn. eexists. split; [by destruct Hres as [-> | ->]|]. exact Hp.
  - destruct (st_begin_ok _ _ ty tt per g th inv ch r s' Hr Ha) as (p' & H & Hp). unfold playnet_on_st_begin, answer_of, beep_player_local_st_begin_blocking.
    rewrite (blocking_now _ _ _ _ _ H) by (destruct r; auto). cbn. eexists. split; [by destruct r|]. exact Hp.
Qed.

(** The messages of a track, one after the other. *)
Lemma handle_tracks SIZE ms errors d s s' : SIZE < 2 ^ 31 → Forall (λ m, message_ok m ∧ Z.of_nat (length (wire_of m)) <= SIZE) ms →
  daemon_rep d s → ap_run ms s = Some s' →
  ∃ answers d', handle_all SIZE (stream_ch_on_recv SIZE (playnet_stream_events big SZ now)) ms (errors, d) = Some (answers, (errors, d'))
    ∧ daemon_rep d' s' ∧ Z.of_nat (length answers) <= 4 * Z.of_nat (length (filter answered ms)).
Proof.
  intros HS Hms. revert d s. induction Hms as [|m ms [[_ Hm] Hlen] Hms IH]; intros d s Hd Hrun.
  - injection Hrun as <-. exists [], d. done.
  - cbn [ap_run] in Hrun. destruct (ap_message m s) as [[r s1]|] eqn:Em; cbn [mbind option_bind] in Hrun; [|done].
    assert (Hp : Z.of_nat (length (payload_of m)) < 2 ^ 31) by (unfold wire_of in Hm; rewrite length_app in Hm; lia).
    destruct (deliver_ok m d s r s1 Hd Hp Em) as (d1 & Hdel & Hd1). destruct (IH d1 s1 Hd1 Hrun) as (as_ & d' & Hall & Hd' & Hl).
    cbn [handle_all]. cbn [handle_msg stream_messages]. unfold handle_message. cbn [fst snd]. rewrite Hdel. cbn [mbind option_bind].
    rewrite Hall. cbn [mbind option_bind]. eexists _, _. split; [reflexivity|]. split; [done|].
    rewrite length_app, filter_cons. unfold answer. destruct (answered m); cbn [is_true]; case_decide; try done; cbn [length]; cbn; lia.
Qed.

(** ** A whole track *)

(** What the stream holds during a track: the two commands of its start and
    the data. *)
Definition in_track (k : command) (data : list Z) (a : stream) : Prop :=
  st_head a = [] ∧ st_tail a = [(cmd_bytes big k, []); (cmd_bytes big QResumeDecoder, data)] ∧ length (st_kept a) = 3%nat
  ∧ st_read a = 0 ∧ st_streaming a = true ∧ st_may_write a = true.

Lemma in_track_used k data a : queued k = false → in_track k data a → st_used a = cmd_size k + 4 + Z.of_nat (length data).
Proof.
  intros Hk (Hh & Ht & _ & Hr & _). unfold st_used, st_bytes, st_pieces. rewrite Hh, Ht, Hr. cbn [mbind list_bind app fst snd].
  rewrite !app_nil_r, !length_app, !Nat2Z.inj_add, !length_cmd_bytes by done. cbn [cmd_size]. lia.
Qed.

Lemma in_track_append k data l a : in_track k data a → in_track k (data ++ l) (a_append a l).
Proof.
  intros (Hh & Ht & Hk & Hr & Hs & Hw). unfold a_append. rewrite Hh, Ht. cbn [append].
  assert (Hb : length (bump (Z.of_nat (length l)) (st_kept a)) = 3%nat).
  { destruct (st_kept a) as [|x [|y [|z [|? ?]]]]; cbn in *; try done. }
  split_and!; try done.
Qed.

Lemma run_buffers k ls data n a : queued k = false → in_track k data a →
  cmd_size k + 4 + Z.of_nat (length data) + Z.of_nat (length (concat ls)) <= SZ - 1 →
  ∃ a', ap_run (Buffer <$> ls) (mk_aplayer true n a) = Some (mk_aplayer true n a') ∧ in_track k (data ++ concat ls) a'.
Proof.
  intros Hk. revert data a. induction ls as [|l ls IH]; intros data a Ha Hlen.
  - exists a. cbn. by rewrite app_nil_r.
  - cbn [fmap list_fmap ap_run concat] in *. rewrite length_app in Hlen. cbn [ap_message ap_started ap_stream negb].
    pose proof (in_track_used _ _ _ Hk Ha) as Hu. pose proof Ha as (_ & _ & _ & _ & _ & Hw). rewrite Hw, (proj2 (Z.leb_le _ _)) by lia.
    cbn [andb mbind option_bind]. destruct (IH (data ++ l) (a_append a l)) as (a' & H & Ha'); [by apply in_track_append|rewrite length_app; lia|].
    exists a'. split; [exact H|]. by rewrite app_assoc.
Qed.

Lemma ap_run_app ms1 ms2 s s1 : ap_run ms1 s = Some s1 → ap_run (ms1 ++ ms2) s = ap_run ms2 s1.
Proof.
  revert s. induction ms1 as [|m ms IH]; intros s; cbn; [by intros [= ->]|].
  destruct (ap_message m s) as [[r s']|]; cbn; [|done]. apply IH.
Qed.

Lemma run_track id id' ty tt per g th inv ch ls st : 0 <= ty < 128 → 44 + Z.of_nat (length (concat ls)) < SZ - 1 →
  ∃ a', ap_run ([Start id; StBegin ty tt per g th inv ch] ++ (Buffer <$> ls) ++ [StEnd id']) (mk_aplayer st 0 stream_init)
      = Some (mk_aplayer true 0 a')
    ∧ st_head a' = []
    ∧ st_tail a' = [(cmd_bytes big (QStart ty (mk_start tt per g th inv ch)), []); (cmd_bytes big QResumeDecoder, concat ls); (cmd_bytes big QStEnd, [])].
Proof.
  intros Hty Hlen. set (k := QStart ty (mk_start tt per g th inv ch)).
  assert (Ek : QStart (u32 (s8 ty)) (mk_start tt per g th inv ch) = k).
  { unfold k. f_equal. unfold s8, u32. rewrite (Z.mod_small (ty + 128)) by lia. rewrite Z.mod_small; lia. }
  pose proof (length_cmd_bytes big k eq_refl) as Hk. change (cmd_size k) with 36 in Hk.
  assert (Hstart : ∃ a1, ap_run [Start id; StBegin ty tt per g th inv ch] (mk_aplayer st 0 stream_init) = Some (mk_aplayer true 0 a1) ∧ in_track k [] a1).
  { cbn [ap_run ap_message mbind option_bind negb ap_started ap_stream ap_decode]. rewrite Z.eqb_refl, Ek. cbn [orb].
    unfold put_cmd at 2. cbn - [cmd_bytes Z.ltb Z.of_nat]. rewrite Hk.
    change (st_used (a_set_streaming stream_init true)) with 0. rewrite (proj2 (Z.ltb_lt _ _)) by lia. cbn [mbind option_bind].
    set (a1 := a_cmd (a_set_streaming stream_init true) (cmd_bytes big k)).
    assert (Hu : st_used a1 = 36) by (unfold st_used, st_bytes, st_pieces; cbn - [cmd_bytes Z.of_nat length]; rewrite !app_nil_r, Hk; done).
    unfold put_cmd. rewrite Hu. rewrite (length_cmd_bytes big QResumeDecoder eq_refl). change (cmd_size QResumeDecoder) with 4. rewrite (proj2 (Z.ltb_lt _ _)) by lia.
    cbn - [cmd_bytes]. eexists. split; [reflexivity|]. by split_and!. }
  destruct Hstart as (a1 & H1 & Ha1).
  destruct (run_buffers k ls [] 0 a1 eq_refl Ha1) as (a2 & H2 & Ha2); [change (cmd_size k) with 36; cbn [length Z.of_nat]; lia|].
  rewrite (ap_run_app _ _ _ _ H1), (ap_run_app _ _ _ _ H2). pose proof (in_track_used k _ _ eq_refl Ha2) as Hu.
  change (cmd_size k) with 36 in Hu. cbn [app] in Hu, Ha2. destruct Ha2 as (Hh & Ht & Hkept & Hr & Hs & Hw).
  cbn [ap_run ap_message ap_started ap_stream negb]. rewrite Hs. unfold put_cmd. rewrite Ht, Hkept, Hu.
  rewrite (length_cmd_bytes big QStEnd eq_refl). change (cmd_size QStEnd) with 4. rewrite (proj2 (Z.ltb_lt _ _)) by lia. cbn - [cmd_bytes].
  eexists. split; [reflexivity|]. unfold a_cmd. cbn [st_head st_tail]. by rewrite Hh, Ht.
Qed.
End Tracks.
