(* ===== verification/PlaynetTrack.v ===== *)
(** From a controller to the stream buffer of a device: the sender of the
    stream channel, the network, the receiver, playnet's handlers, the player
    and the stream buffer together. *)

From S2P Require Import Prelude Endian Ring Fifo2 AudioFifo Mqueue Streambuf StreambufSpec StreambufRefines AudioSync.
From S2P Require Import DecodeOutput Playback AudioControl AudioOps AudioCommands AudioInline PlayerLocal.
From S2P Require Import Net NetProps StreamCh StreamChProps StreamChThrough Playnet PlaynetProps.

(** The calls of a controller for a track. *)
Definition track_calls (type transition_type transition_period replay_gain output_threshold polarity_inversion output_channels : Z)
    (ls : list (list Z)) : list send_call :=
  [SendStart None; SendStBegin type transition_type transition_period replay_gain output_threshold polarity_inversion output_channels]
  ++ (SendBuffer <$> ls) ++ [SendStEnd].

Lemma messages_buffers ls qs c : messages_sent ((SendBuffer <$> ls) ++ qs) c = (Buffer <$> ls) ++ messages_sent qs c.
Proof. induction ls as [|l ls IH]; [done|]. cbn. by f_equal. Qed.

Lemma messages_track ty tt per g th inv ch ls c :
  messages_sent (track_calls ty tt per g th inv ch ls) c =
  [Start (gen_new_id (ctx_id c)); StBegin ty tt per g th inv ch] ++ (Buffer <$> ls) ++ [StEnd (gen_new_id (ctx_id c))].
Proof. unfold track_calls. cbn [app messages_sent message_sent]. by rewrite messages_buffers. Qed.

Lemma filter_answered_track id id' ty tt per g th inv ch ls :
  filter answered ([Start id; StBegin ty tt per g th inv ch] ++ (Buffer <$> ls) ++ [StEnd id']) = [].
Proof.
  rewrite !filter_app. assert (filter answered (Buffer <$> ls) = []) as ->; [|done].
  induction ls as [|l ls IH]; [done|]. exact IH.
Qed.

(** C3.  A track that a controller sends arrives in the stream buffer of the
    device as it was sent.  For any pieces [ls] of the track's data, each at
    most the size of a connection's buffer less its header and together with
    the commands of the track less than the stream buffer, any decoder type
    below 128 and any arguments, an idle device with an empty stream, and any
    way in which the network cuts the bytes: once every byte has been brought,
    the connection is still open, no error has been counted, the player is
    started, and the stream buffer holds exactly the command that starts the
    decoder with the arguments of the call, the command that lets it run, the
    data of the pieces one after the other, and the command that ends the
    track. *)
Theorem track_arrives big D SZ now SIZE so cx c errors (d : daemon D) started_ type tt per g th inv ch ls sched :
  0 < SZ <= max_size → 32 <= SIZE <= MAX_SEND_SIZE → writes_all so → ready cx → fresh SIZE c →
  0 <= type < 128 → Forall is_u32 [tt; per; g; th; inv; ch] →
  Forall (λ l, Z.of_nat (length l) + 8 <= SIZE) ls → 44 + Z.of_nat (length (concat ls)) < SZ - 1 →
  daemon_rep SZ d (mk_aplayer started_ 0 stream_init) →
  ∃ cx' bytes, send_all so (track_calls type tt per g th inv ch ls) (Some cx) = Some (cx', bytes) ∧
  ((length bytes <= reads sched)%nat →
   ∃ s a, serve SIZE (stream_ch_on_recv SIZE (playnet_stream_events big SZ now)) sched (mk_served false c (errors, d) bytes []) = Some s
     ∧ closed s = false ∧ (s_state s).1 = errors ∧ started (d_player (s_state s).2) = true
     ∧ sb_rep SZ (a_sb (c_sync (pl_audio (d_player (s_state s).2)))) a
     ∧ st_head a = []
     ∧ st_tail a = [(cmd_bytes big (QStart type (mk_start tt per g th inv ch)), []); (cmd_bytes big QResumeDecoder, concat ls);
                    (cmd_bytes big QStEnd, [])]).
Proof.
  intros HSZ HS Hso Hcx Hc Hty Hargs Hls Hroom Hd. set (qs := track_calls type tt per g th inv ch ls).
  assert (Hqs : Forall (call_ok SIZE) qs).
  { apply Forall_app. split; [|apply Forall_app; split; [by apply Forall_fmap|by repeat constructor]].
    constructor; [done|]. constructor; [|done]. constructor; [unfold is_u32; lia|done]. }
  destruct (send_all_ok so qs cx SIZE Hso Hcx Hqs HS) as [(cx' & Hsend) Hms].
  unfold qs in Hsend, Hms. rewrite messages_track in Hsend, Hms.
  exists cx', (wires SIZE (stream_ch_on_recv SIZE (playnet_stream_events (D:=D) big SZ now)) ([Start (gen_new_id (ctx_id cx)); StBegin type tt per g th inv ch] ++ (Buffer <$> ls) ++ [StEnd (gen_new_id (ctx_id cx))])).
  split; [exact Hsend|]. intros Hreads.
  destruct (run_track big SZ (gen_new_id (ctx_id cx)) (gen_new_id (ctx_id cx)) type tt per g th inv ch ls started_ Hty Hroom) as (a & Hrun & Hh & Ht).
  assert (HS31 : SIZE < 2 ^ 31) by (unfold MAX_SEND_SIZE in HS; lia).
  destruct (handle_tracks big SZ HSZ now SIZE _ errors d _ _ HS31 Hms Hd Hrun) as (answers & d' & Hall & Hd' & Hlen).
  rewrite filter_answered_track in Hlen. cbn [length Z.of_nat Z.mul] in Hlen.
  destruct (serve_spec SIZE (stream_ch_on_recv SIZE (playnet_stream_events big SZ now)) c (errors, d)
    ([Start (gen_new_id (ctx_id cx)); StBegin type tt per g th inv ch] ++ (Buffer <$> ls) ++ [StEnd (gen_new_id (ctx_id cx))])
    sched answers (errors, d')) as (dn & td & an & s & _ & Hserve & Hs & Hend); [lia|exact Hms|exact Hc|exact Hall|lia|].
  destruct (Hend Hreads) as (_ & Hst & _). exists s, a. rewrite Hst. cbn [fst snd].
  split_and!; try done; [apply Hs|by rewrite (r_started _ _ _ Hd')|apply Hd'].
Qed.

(** A device with a small stream buffer, and a track of two pieces that comes
    in five bytes at a time. *)
Definition demo_device : daemon unit :=
  mk_daemon (mk_pl false false false false [] 0
    (set_decoder_state 0 (set_sync (mk_audio (streambuf_init 128 streambuf_static) SYNC_IDLE 0 0 0 0 0 0 false) demo_control)))
    [] Some.

Lemma demo_device_rep : daemon_rep 128 demo_device (mk_aplayer false 0 stream_init).
Proof. constructor; try done. apply init_ok. split; [lia|]. unfold max_size. lia. Qed.

Lemma track_arrives_witness : ∃ bytes s a,
  serve 64 (stream_ch_on_recv 64 (playnet_stream_events true 128 (mk_clock 0 0))) (replicate 80 (5%nat, None))
    (mk_served false (new_conn 64) (0, demo_device) bytes []) = Some s
  ∧ closed s = false ∧ started (d_player (s_state s).2) = true
  ∧ sb_rep 128 (a_sb (c_sync (pl_audio (d_player (s_state s).2)))) a
  ∧ st_tail a = [(cmd_bytes true (QStart 112 (mk_start 0 0 0 2 0 0)), []); (cmd_bytes true QResumeDecoder, [1; 2; 3; 4]); (cmd_bytes true QStEnd, [])].
Proof.
  destruct (track_arrives true unit 128 (mk_clock 0 0) 64 (mk_socket (λ l, Z.of_nat (length l)) None)
    (mk_ctx STREAM_CH_CONN_CONNECTED 5 0 6 0) (new_conn 64) 0 demo_device false 112 0 0 0 2 0 0 [[1; 2; 3]; [4]] (replicate 80 (5%nat, None)))
    as (cx' & bytes & Hsend & Hs).
  - split; [lia|]. unfold max_size. lia.
  - unfold MAX_SEND_SIZE. lia.
  - done.
  - split; [done|]. cbn. unfold is_u32. lia.
  - apply (fresh_new 64).
  - lia.
  - repeat constructor; unfold is_u32; lia.
  - repeat constructor; cbn; lia.
  - cbn. lia.
  - apply demo_device_rep.
  - vm_compute in Hsend. injection Hsend as _ <-. exists (words [536870914; 7; 536870918; 112; 0; 0; 0; 2; 0; 0; 536870917; 3] ++ [1; 2; 3]
      ++ words [536870917; 1] ++ [4] ++ words [536870915; 7]).
    destruct Hs as (s & a & Hserve & Hopen & _ & Hst & Hrep & _ & Ht); [apply Nat.leb_le; vm_compute; reflexivity|].
    exists s, a. split_and!; [exact Hserve|exact Hopen|exact Hst|exact Hrep|exact Ht].
Defined.

(** ** What a sender can do wrong *)

(** The end of a track that was not begun aborts the daemon. *)
Lemma st_end_aborts big {D} SZ now id (d : daemon D) s : daemon_rep SZ d s → ap_started s = true → st_streaming (ap_stream s) = false →
  deliver (playnet_stream_events big SZ now) (StEnd id) d = None.
Proof.
  intros [Hl Hst Hd Hs] Hstarted Hstr. cbn [deliver call playnet_stream_events on_st_end].
  unfold playnet_on_st_end, answer_of, beep_player_local_st_end, beep_player_local_lock. rewrite Hl.
  cbn [mbind option_bind set_locked started pl_locked pl_audio]. rewrite Hst, Hstarted, (streaming_rep SZ _ _ Hs), Hstr. done.
Qed.

(** A buffer of negative size is waited for as long as the player is not
    stopped. *)
Lemma negative_buffer_waits {D} SZ size (d : daemon D) s : 0 < SZ <= max_size → daemon_rep SZ d s → ap_started s = true →
  2 ^ 31 <= size < 2 ^ 32 →
  Forall (λ sleep, ∀ p, (∃ s, ap_rep SZ p s ∧ ap_started s = true) → ∀ p', sleep p = Some p' → ∃ s, ap_rep SZ p' s ∧ ap_started s = true) (d_sleeps d) →
  playnet_on_buffer size None (s32 size) d = None.
Proof.
  intros HSZ Hd Hstart Hsize Hsl. unfold playnet_on_buffer, answer_of, beep_player_local_buffer_blocking.
  assert (Hp : ∃ s, ap_rep SZ (d_player d) s ∧ ap_started s = true) by by exists s. clear Hd Hstart s.
  assert (Hs32 : s32 size = size - 2 ^ 32).
  { unfold s32. rewrite <- (Z.mod_unique_pos (size + 2147483648) 4294967296 1 (size - 2147483648)) by lia. lia. }
  assert (Hbig : u32 (size - 2 ^ 32) = size).
  { unfold u32. symmetry. apply (Z.mod_unique_pos _ _ (-1)); lia. }
  assert (Hneg : s32 (u32 (s32 size)) = size - 2 ^ 32) by (by rewrite Hs32, Hbig).
  enough (Hb : blocking (beep_player_local_buffer None (u32 (s32 size))) (d_sleeps d) (d_player d) = None) by (by rewrite Hb).
  revert Hp. generalize (d_player d) as p. revert Hsl. generalize (d_sleeps d) as sl.
  assert (Hone : ∀ p : player_local D, (∃ s, ap_rep SZ p s ∧ ap_started s = true) →
    ∃ p', beep_player_local_buffer None (u32 (s32 size)) p = Some (BEEP_PLAYER_AGAIN, p') ∧ ∃ s, ap_rep SZ p' s ∧ ap_started s = true).
  { intros p (s & [Hl Hst Hd Hs] & Hstart). unfold beep_player_local_buffer, beep_player_local_can_buffer, assert_locked,
      beep_player_local_lock, beep_player_local_unlock. rewrite Hl. cbn [mbind option_bind set_locked started pl_locked pl_audio].
    rewrite Hst, Hstart. cbn [negb]. destruct (freebytes_ok SZ _ _ Hs) as (sb & -> & Hsb). cbn [mbind option_bind]. rewrite Hneg.
    rewrite Hbig. pose proof (stream_room SZ HSZ _ _ Hs) as Hroom. pose proof HSZ as [_ Hmax]. unfold max_size in Hmax.
    rewrite (proj2 (Z.leb_gt _ _)) by (destruct (st_may_write _); lia). cbn. eexists. split; [reflexivity|]. exists s. split; [|done]. by constructor. }
  intros sl Hsl. induction Hsl as [|f sl Hf Hsl IH]; intros p Hp; destruct (Hone p Hp) as (p' & H & Hp'); cbn [blocking]; rewrite H; cbn [mbind option_bind];
    rewrite !bool_decide_false by done; cbn [orb]; [done|].
  destruct (f p') as [p2|] eqn:Ef; cbn [mbind option_bind]; [|done]. apply IH. by eapply Hf.
Qed.
