(* ===== verification/PlaynetVolume.v ===== *)
(** The volume of a device: what playnet's methods and the player do to the
    gain, and what is written to the configuration. *)

From S2P Require Import Prelude Endian Ring Fifo2 AudioFifo Mqueue Streambuf StreambufSpec StreambufRefines AudioSync.
From S2P Require Import DecodeOutput Playback AudioControl AudioOps AudioCommands AudioInline PlayerLocal.
From S2P Require Import Net NetProps StreamCh StreamChProps StreamChThrough Playnet PlaynetProps PlaynetTrack.

Section Volume.
Context (big : bool) {D : Type} (SZ : Z) (now : clock).
Implicit Types (c : control D) (p : player_local D) (n : playnet D).

(** Both channels play with gain [v]. *)
Definition at_volume (v : Z) c : Prop := lgain (a_play (c_da c)) = v ∧ rgain (a_play (c_da c)) = v.

(** A step that leaves the volume alone, if it returns. *)
Definition keeps (f : control D → option (control D)) : Prop := ∀ v c c', f c = Some c' → at_volume v c → at_volume v c'.

Lemma keeps_bind (f g : control D → option (control D)) : keeps f → keeps g → keeps (λ c, c' ← f c; g c').
Proof. intros Hf Hg v c c'. destruct (f c) as [c1|] eqn:E; cbn; [|done]. intros H Hv. eapply Hg; [done|]. by eapply Hf. Qed.

Lemma keeps_with_audio k : (∀ d d', k d = Some d' → lgain (a_play d') = lgain (a_play d) ∧ rgain (a_play d') = rgain (a_play d)) →
  keeps (with_audio k).
Proof.
  intros Hk v c c'. unfold with_audio. destruct (k _) as [d|] eqn:E; cbn; [|done]. destruct (unlock (a_out d)) as [o|]; cbn; [|done].
  intros [= <-] [Hl Hr]. destruct (Hk _ _ E) as [H1 H2]. cbn in H1, H2. split; cbn; congruence.
Qed.

Lemma keeps_send op len w : keeps (λ c, '(_, c) ← AudioControl.send big op len w c; Some c).
Proof.
  intros v c c'. unfold AudioControl.send. destruct (mqueue_write_request _ _ _ _ _) as [[ok m]|]; cbn; [|done].
  destruct ok; cbn; [|by intros [= <-]]. destruct (w m) as [m1|]; cbn; [|done]. destruct (mqueue_write_complete m1); cbn; [|done].
  by intros [= <-].
Qed.

Lemma keeps_pause i : keeps (audio_pause big i).
Proof. apply keeps_send. Qed.
Lemma keeps_resume j : keeps (audio_resume big j).
Proof. apply keeps_send. Qed.
Lemma keeps_skip i : keeps (audio_skip_ahead big i).
Proof. apply keeps_send. Qed.

Lemma keeps_stop k : keeps (audio_decoder_stop big k).
Proof.
  intros v c c'. unfold audio_decoder_stop. destruct (mqueue_write_request _ _ _ _ _) as [[ok m]|]; cbn [mbind option_bind]; [|done].
  destruct ok; cbn [negb]; [|by intros [= <-]].
  destruct (with_audio _ (set_mq m c)) as [c1|] eqn:E; cbn [mbind option_bind]; [|done].
  destruct (mqueue_write_u32 _ _ _) as [m1|]; cbn [mbind option_bind]; [|done]. destruct (mqueue_write_complete m1); cbn [mbind option_bind]; [|done].
  intros [= <-] Hv. change (at_volume v c1). eapply keeps_with_audio; [|exact E|exact Hv]. intros d d' [= <-]. done.
Qed.

Lemma keeps_sb f : keeps (on_sb f).
Proof. intros v c c'. unfold on_sb. destruct (f _); cbn; [|done]. by intros [= <-]. Qed.

Lemma status_volume v c st c' : audio_status SZ now c = Some (st, c') → at_volume v c → as_gain st = v ∧ at_volume v c'.
Proof.
  unfold audio_status. destruct (fifo_bytes_used _); cbn [mbind option_bind]; [|done].
  destruct (with_audio Some c) as [c1|] eqn:E; cbn [mbind option_bind]; [|done].
  destruct (streambuf_get_status _ _) as [[[[[? ?] ?] ?] sb]|]; cbn [mbind option_bind]; [|done].
  intros [= <- <-] Hv. assert (at_volume v c1) as [Hl Hr].
  { eapply keeps_with_audio; [|exact E|exact Hv]. by intros d d' [= <-]. }
  split; [exact Hl|]. by split.
Qed.
#[local] Hint Resolve keeps_pause keeps_resume keeps_skip keeps_stop keeps_sb : beep.

(** ** The player *)

Definition p_volume (v : Z) p : Prop := at_volume v (pl_audio p).

Lemma on_audio_volume f v p p' : keeps f → on_audio f p = Some p' → p_volume v p → p_volume v p'.
Proof. intros Hf. unfold on_audio. destruct (f _) eqn:E; cbn; [|done]. intros [= <-] Hv. by eapply Hf. Qed.

Lemma status_of_volume v p st p' : status_of SZ now p = Some (st, p') → p_volume v p → as_gain st = v ∧ p_volume v p'.
Proof.
  unfold status_of. destruct (audio_status _ _ _) as [[st1 c1]|] eqn:E; cbn; [|done]. intros [= <- <-] Hv. by eapply status_volume.
Qed.

Lemma lock_volume v p p' : beep_player_local_lock p = Some p' → p_volume v p → p_volume v p'.
Proof. unfold beep_player_local_lock. destruct (pl_locked p); [done|]. by intros [= <-]. Qed.
Lemma unlock_volume v p p' : beep_player_local_unlock p = Some p' → p_volume v p → p_volume v p'.
Proof. unfold beep_player_local_unlock. destruct (pl_locked p); [|done]. by intros [= <-]. Qed.

Lemma can_prepare_volume v p b p' : beep_player_local_can_prepare_decoder SZ now p = Some (b, p') → p_volume v p → p_volume v p'.
Proof.
  unfold beep_player_local_can_prepare_decoder, assert_locked. destruct (pl_locked p); [|done].
  destruct (status_of _ _ _) as [[st p1]|] eqn:E; cbn; [|done]. intros [= <- <-] Hv. by destruct (status_of_volume _ _ _ _ E Hv).
Qed.

(** Takes a call apart at its binds. *)
Ltac steps :=
  repeat match goal with
  | |- context [mbind _ ?x] => let E := fresh "E" in destruct x as [?|] eqn:E; cbn [mbind option_bind]; [|discriminate]
  | |- context [match ?q with (_, _) => _ end] => is_var q; destruct q
  end.

Lemma player_status_volume v p st p' : beep_player_local_status SZ now p = Some (st, p') → p_volume v p → ps_gain st = v ∧ p_volume v p'.
Proof.
  unfold beep_player_local_status. steps. intros [= <- <-] Hv.
  pose proof (lock_volume _ _ _ E Hv) as H1. destruct (status_of_volume _ _ _ _ E0 H1) as [Hg H2].
  pose proof (can_prepare_volume _ _ _ _ E1 H2) as H3. split; [exact Hg|]. by eapply unlock_volume.
Qed.

Lemma wait_stopped_volume v sleeps p p' : Forall keeps sleeps → wait_stopped SZ now sleeps p = Some p' → p_volume v p → p_volume v p'.
Proof.
  intros Hs. revert p. induction Hs as [|f sleeps Hf Hs IH]; intros p; cbn [wait_stopped];
    destruct (status_of SZ now p) as [[st p1]|] eqn:E; cbn [mbind option_bind]; try done; intros H Hv;
    destruct (status_of_volume _ _ _ _ E Hv) as [_ Hv1]; destruct (_ && _); try done; try (injection H as <-; exact Hv1).
  destruct (on_audio f p1) as [p2|] eqn:E2; cbn [mbind option_bind] in H; [|done].
  eapply IH; [exact H|]. by eapply on_audio_volume.
Qed.

Lemma stop_volume v sleeps k p r p' : Forall keeps sleeps → beep_player_local_stop big SZ now sleeps k p = Some (r, p') → p_volume v p → p_volume v p'.
Proof.
  intros Hs. unfold beep_player_local_stop. intros H Hv.
  apply bind_Some in H as (p1 & H1 & H). apply bind_Some in H as (p2 & H2 & H). apply bind_Some in H as (p3 & H3 & H).
  apply bind_Some in H as (p4 & H4 & H). apply bind_Some in H as (p5 & H5 & H). apply bind_Some in H as (p6 & H6 & H).
  apply bind_Some in H as (p7 & H7 & H). injection H as _ <-.
  pose proof (on_audio_volume _ v _ _ (keeps_pause 0) H1 Hv) as V1. pose proof (lock_volume v _ _ H2 V1) as V2.
  assert (V3 : p_volume v p3) by (eapply on_audio_volume; [apply keeps_stop|exact H3|exact V2]).
  pose proof (wait_stopped_volume v _ _ _ Hs H4 V3) as V4.
  pose proof (on_audio_volume _ v _ _ (keeps_sb _) H5 V4) as V5. pose proof (on_audio_volume _ v _ _ (keeps_sb _) H6 V5) as V6.
  exact (unlock_volume v _ _ H7 V6).
Qed.

Lemma shutdown_volume v p r p' : beep_player_local_shutdown p = Some (r, p') → p_volume v p → p_volume v p'.
Proof.
  unfold beep_player_local_shutdown. intros H Hv. apply bind_Some in H as (p1 & H1 & H). apply bind_Some in H as (p2 & H2 & H).
  injection H as _ <-. pose proof (lock_volume v _ _ H1 Hv) as V1. exact (unlock_volume v _ _ H2 V1).
Qed.

(** ** The methods *)

Definition n_volume (v : Z) n : Prop := p_volume v (pn_player n).

Lemma fetch_volume v n st n' : fetch_status SZ now n = Some (st, n') → n_volume v n → ps_gain st = v ∧ n_volume v n'.
Proof. unfold fetch_status. steps. intros [= <- <-] Hv. by eapply player_status_volume. Qed.

Lemma trigger_volume v e n m n' : trigger_update SZ now e n = Some (m, n') → n_volume v n → n_volume v n'.
Proof. unfold trigger_update. steps. intros [= <- <-] Hv. by destruct (fetch_volume _ _ _ _ E Hv). Qed.

Lemma call_volume f v n n' : (∀ p r p', f p = Some (r, p') → p_volume v p → p_volume v p') → call_player f n = Some n' → n_volume v n → n_volume v n'.
Proof. intros Hf. unfold call_player. steps. intros [= <-] Hv. by eapply Hf. Qed.

Definition is_volume (m : method D) : bool := match m with SetVolume _ | AdjustVolume _ => true | _ => false end.
Definition quiet (m : method D) : Prop := match m with StopWith sleeps _ => Forall keeps sleeps | _ => True end.

Lemma on_audio_ret f v : keeps f → ∀ p r p', (p ← on_audio f p; Some (BEEP_PLAYER_OK, p)) = Some (r, p') → p_volume v p → p_volume v p'.
Proof. intros Hf p r p'. steps. intros [= <- <-]. intros Hv; eapply on_audio_volume; [exact Hf|exact E|exact Hv]. Qed.

Lemma other_methods v m n msgs n' : is_volume m = false → quiet m → run_method big SZ now m n = Some (msgs, n') → n_volume v n → n_volume v n'.
Proof.
  intros Hm Hq. destruct m as [port|h l| |sl k|i| | | |]; try discriminate Hm; cbn [run_method].
  - unfold playnet_hello. steps. intros [= <- <-] Hv. by destruct (fetch_volume _ _ _ _ E Hv).
  - unfold playnet_resume. steps. intros [= <- <-] Hv. eapply call_volume; [|eassumption|eapply trigger_volume; [eassumption|exact Hv]].
    by apply on_audio_ret, keeps_resume.
  - unfold playnet_pause. steps. intros [= <- <-] Hv. eapply call_volume; [|eassumption|eapply trigger_volume; [eassumption|exact Hv]].
    by apply on_audio_ret, keeps_pause.
  - destruct k as [k|]; cbn [playnet_stop]; [|by intros [= <- <-]]. steps. intros [= <- <-] Hv.
    eapply call_volume; [|eassumption|exact Hv]. intros q0 r0 q1. by apply stop_volume.
  - destruct i as [i|]; cbn [playnet_skip_ahead]; [|by intros [= <- <-]]. steps. intros [= <- <-] Hv.
    eapply call_volume; [|eassumption|exact Hv]. by apply on_audio_ret, keeps_skip.
  - unfold playnet_shutdown. steps. intros [= <- <-] Hv. eapply call_volume; [|eassumption|exact Hv].
    intros q0 r0 q1. by apply shutdown_volume.
  - unfold playnet_get_state. steps. intros [= <- <-] Hv. by destruct (fetch_volume _ _ _ _ E Hv).
Qed.

(** ** The volume methods return *)

(** The player's lock is free and its stream buffer sound. *)
Definition p_ok p : Prop := pl_locked p = false ∧ ∃ a, sb_rep SZ (a_sb (c_sync (pl_audio p))) a.
Definition n_ok n : Prop := p_ok (pn_player n).

Lemma player_status_ok p : p_ok p → ∃ st p', beep_player_local_status SZ now p = Some (st, p') ∧ p_ok p'.
Proof.
  intros (Hl & a & Ha). unfold beep_player_local_status, beep_player_local_lock, status_of. rewrite Hl. cbn [mbind option_bind pl_audio set_locked].
  destruct (audio_status_ok SZ now (pl_audio p) a Ha) as (st & c1 & -> & _ & _ & _ & Ha1). cbn [mbind option_bind].
  unfold beep_player_local_can_prepare_decoder, assert_locked, status_of. cbn [pl_locked set_audio set_locked pl_audio].
  destruct (audio_status_ok SZ now c1 a Ha1) as (st2 & c2 & -> & _ & _ & _ & Ha2). cbn [mbind option_bind].
  unfold beep_player_local_unlock. cbn. eexists _, _. split; [reflexivity|]. split; [done|]. by exists a.
Qed.

Lemma fetch_ok n : n_ok n → ∃ st n', fetch_status SZ now n = Some (st, n') ∧ n_ok n' ∧ gain_persist_timeout n' = gain_persist_timeout n.
Proof.
  intros H. unfold fetch_status. destruct (player_status_ok _ H) as (st & p' & -> & Hp). cbn. eexists _, _. split; [reflexivity|]. by split.
Qed.

(** Setting the gain under the lock of the output. *)
Lemma set_gain_ok (f : Z → Z) v p : p_ok p → p_volume v p →
  ∃ p', on_audio (with_audio (λ d, Some (on_play (set_gains (f (lgain (a_play d)))) d))) p = Some p' ∧ p_ok p' ∧ p_volume (f v) p'.
Proof.
  intros Hp [Hg _]. unfold on_audio, with_audio. cbn. eexists. split; [reflexivity|]. split; [exact Hp|].
  split; cbn; by rewrite Hg.
Qed.

Definition adjusted (v delta : Z) : Z := if (delta <? -65536) || (65536 <? delta) then v else Z.max 0 (Z.min 65536 (v + delta)).

Lemma adjust_volume_ok v delta p : 0 <= v <= 65536 → p_ok p → p_volume v p →
  ∃ p', beep_player_local_adjust_volume delta p = Some (BEEP_PLAYER_OK, p') ∧ p_ok p' ∧ p_volume (adjusted v delta) p'.
Proof.
  intros Hv Hp Hg. unfold beep_player_local_adjust_volume, audio_adjust_gain, adjusted. change (- Z.shiftl 1 16) with (-65536).
  change (Z.shiftl 1 16) with 65536. destruct (_ || _) eqn:E.
  { unfold on_audio. cbn. eexists. split; [reflexivity|]. by split. }
  set (f := λ g, let new_gain := s32 (g + delta) in let new_gain := if 65536 <? new_gain then 65536 else new_gain in
                 if new_gain <? 0 then 0 else new_gain).
  destruct (set_gain_ok f v p Hp Hg) as (p' & H & Hp' & Hg'). exists p'.
  split; [exact (f_equal (λ o, p ← o; Some (BEEP_PLAYER_OK, p)) H)|]. split; [exact Hp'|].
  replace (Z.max 0 (Z.min 65536 (v + delta))) with (f v); [exact Hg'|]. unfold f. bool_prop.
  replace (s32 (v + delta)) with (v + delta) by (unfold s32; rewrite Z.mod_small; lia).
  destruct (Z.ltb_spec 65536 (v + delta)); cbn; [lia|]. destruct (Z.ltb_spec (v + delta) 0); lia.
Qed.

Lemma set_volume_ok v g p : 0 <= g <= 65536 → p_ok p → p_volume v p →
  ∃ p', beep_player_local_set_volume g p = Some (BEEP_PLAYER_OK, p') ∧ p_ok p' ∧ p_volume g p'.
Proof.
  intros Hg Hp Hv. unfold beep_player_local_set_volume, audio_gain. change (Z.shiftl 1 16) with 65536.
  rewrite (proj2 (Z.ltb_ge _ _)), (proj2 (Z.ltb_ge 65536 g)) by lia. cbn [orb].
  destruct (set_gain_ok (λ _, g) v p Hp Hv) as (p' & H & Hp' & Hg'). exists p'.
  split; [exact (f_equal (λ o, p ← o; Some (BEEP_PLAYER_OK, p)) H)|]. done.
Qed.
End Volume.

(** C15.  The volume does what the calls say and stays in range.  On a device
    with volume [v] whose lock is free: setting a gain always returns, sets
    both channels to it unless it is above 65536, which is an error and
    changes nothing, and arms the timer exactly when the gain changes;
    adjusting always returns and moves the volume by the signed amount, held
    between 0 and 65536, an amount out of range changing nothing; every other
    method leaves it as it is; and when the timer fires it is the volume of
    that moment that is written to the configuration. *)
Theorem volume_exact big D SZ now (n : playnet D) v : n_ok SZ n → 0 <= v <= 65536 → n_volume v n →
  (∀ g, is_u32 g → ∃ n',
     run_method big SZ now (SetVolume (Some g)) n = Some ([if 65536 <? g then ReplyError GainTooLarge else ReplySuccess], n')
     ∧ n_ok SZ n' ∧ n_volume (if 65536 <? g then v else g) n'
     ∧ gain_persist_timeout n' = if (65536 <? g) || (v =? g) then gain_persist_timeout n else Some BEEP_PLAYNET_GAIN_PERSIST_DELAY) ∧
  (∀ delta, is_u32 delta → ∃ n', run_method big SZ now (AdjustVolume (Some delta)) n = Some ([ReplySuccess], n')
     ∧ n_ok SZ n' ∧ n_volume (adjusted v (s32 delta)) n' ∧ 0 <= adjusted v (s32 delta) <= 65536) ∧
  (∀ m msgs n', is_volume m = false → quiet m → run_method big SZ now m n = Some (msgs, n') → n_volume v n') ∧
  (playnet_shutdown_wait n = false → ∃ n', on_gain_persist SZ now n = Some (Some v, n') ∧ n_ok SZ n' ∧ n_volume v n').
Proof.
  intros Hok Hv Hn. split_and!.
  - intros g Hg. cbn [run_method playnet_set_volume]. change (Z.shiftl 1 16) with 65536. destruct (Z.ltb_spec 65536 g) as [Hbig|Hsmall].
    { exists n. done. }
    destruct (fetch_ok SZ now n Hok) as (st & n1 & E1 & Hok1 & Ht1). destruct (fetch_volume _ _ _ _ _ _ E1 Hn) as [Hst Hn1].
    rewrite E1. cbn [mbind option_bind]. rewrite Hst, (u32_small v) by (unfold is_u32; lia). cbn [orb]. destruct (Z.eqb_spec v g) as [->|Hne]; cbn [negb].
    { exists n1. done. }
    replace (s32 g) with g by (unfold is_u32 in Hg; unfold s32; rewrite Z.mod_small; lia).
    destruct (set_volume_ok SZ v g (pn_player n1)) as (p' & E2 & Hp' & Hg'); [unfold is_u32 in Hg; lia|exact Hok1|exact Hn1|].
    unfold call_player. rewrite E2. cbn. eexists. split; [reflexivity|]. done.
  - intros delta _. cbn [run_method playnet_adjust_volume].
    destruct (adjust_volume_ok SZ v (s32 delta) (pn_player n) Hv Hok Hn) as (p' & E2 & Hp' & Hg').
    unfold call_player. rewrite E2. cbn. eexists. split; [reflexivity|]. split_and!; try done; unfold adjusted; destruct (_ || _); lia.
  - intros m msgs n'. intros. by eapply other_methods.
  - intros Hw. unfold on_gain_persist. cbn [playnet_shutdown_wait set_timeout]. rewrite Hw.
    destruct (fetch_ok SZ now (set_timeout None n) Hok) as (st & n1 & E1 & Hok1 & _).
    destruct (fetch_volume _ _ v _ _ _ E1 Hn) as [Hst Hn1]. rewrite E1. cbn. exists n1. by rewrite Hst.
Qed.

(** The device of the track, its volume turned up past the end. *)
Definition demo_playnet : playnet unit := mk_playnet (d_player demo_device) true false None.

Lemma volume_exact_witness : n_ok 128 demo_playnet ∧ n_volume 65536 demo_playnet ∧
  ∃ n', run_method true 128 (mk_clock 0 0) (AdjustVolume (Some 1000)) demo_playnet = Some ([ReplySuccess], n')
    ∧ n_volume (adjusted 65536 (s32 1000)) n' ∧ adjusted 65536 (s32 1000) = 65536.
Proof.
  assert (Hok : n_ok 128 demo_playnet).
  { split; [done|]. exists stream_init. exact (r_stream _ _ _ demo_device_rep). }
  assert (Hv : n_volume 65536 demo_playnet) by done.
  split; [exact Hok|]. split; [exact Hv|].
  destruct (volume_exact true unit 128 (mk_clock 0 0) demo_playnet 65536 Hok ltac:(lia) Hv) as (_ & Hadj & _).
  destruct (Hadj 1000) as (n' & Hr & _ & Hn & _); [unfold is_u32; lia|]. exists n'. split; [exact Hr|]. split; [exact Hn|]. vm_compute. reflexivity.
Defined.
